(** * nanogrip: message bus, session store, tool registry, agent loop,
      subagent manager and cron scheduler

    A shallow embedding of the Go sources of nanogrip
    ([internal/bus], [internal/session], [internal/tools/registry.go],
    [internal/agent/loop.go], [internal/agent/subagent.go],
    [internal/cron/service.go]) together with the properties the
    specification states about them.

    Conventions.
    - Go [int]/[int64] values that the modelled code only compares or
      adds within range are [Z]; slice indices and lengths are [nat].
    - A Go [error] result is [option E] ([None] is [nil]).
    - A Go panic is the [Panic] constructor of [result].
    - A loop whose termination is not structural carries fuel and
      returns [option]; [None] means the fuel ran out.
    - Goroutines are modelled by the atomic steps they perform; where
      the runtime chooses (a [select] with several ready cases) the
      choice is an explicit argument. *)

From Stdlib Require Import ZArith Lia ZifyNat Bool Ascii String.
From stdpp Require Import base option list functions gmap strings fin_maps pretty.

Ltac Zify.zify_post_hook ::= Z.to_euclidean_division_equations.

Set Warnings "-register-all".

(** ** Shared vocabulary *)

(** The outcome of a Go call that may panic. *)
Inductive result (A : Type) : Type :=
| Ok (a : A)
| Panic (msg : string).
Arguments Ok {A} a.
Arguments Panic {A} msg.

Definition is_ok {A} (r : result A) : bool :=
  match r with Ok _ => true | Panic _ => false end.

(** [result] is a monad: a panic aborts the rest of the computation.
    The notation [x ← r; k] is stdpp's. *)
#[global] Instance result_ret : MRet result := fun A a => Ok a.
#[global] Instance result_bind : MBind result := fun A B k r =>
  match r with
  | Ok a => k a
  | Panic m => Panic m
  end.

(** Values of Go's [interface{}] as produced by [encoding/json]:
    [nil], [bool], [float64] (restricted here to the integers the
    modelled code converts with [int(..)]), [string], [[]interface{}]
    and [map[string]interface{}]. An object keeps its members in
    source order; [json_get] resolves duplicate keys the way the
    decoder does (the last one wins). *)
Inductive json : Type :=
| JNull
| JBool (b : bool)
| JNum (n : Z)
| JStr (s : string)
| JArr (items : list json)
| JObj (members : list (string * json)).

Fixpoint json_get (members : list (string * json)) (k : string) : option json :=
  match members with
  | [] => None
  | (k', v) :: rest =>
      match json_get rest k with
      | Some v' => Some v'
      | None => if String.eqb k' k then Some v else None
      end
  end.

(** The one-character string holding a double quote. *)
Definition dquote : string := String (ascii_of_nat 34) EmptyString.

(** Go strings are joined with a separator as [strings.Join] does. *)
Fixpoint join (sep : string) (l : list string) : string :=
  match l with
  | [] => ""
  | [x] => x
  | x :: rest => x +:+ sep +:+ join sep rest
  end.

(** ** internal/bus: the message bus *)

Module Bus.

(** [bus.Message]; [Timestamp] is an instant in nanoseconds. *)
Record Message := mkMessage {
  ID : string;
  Channel : string;
  SenderID : string;
  ChatID : string;
  Content : string;
  Media : list string;
  Metadata : list (string * json);
  Timestamp : Z;
  SessionKey : string
}.

(** [InboundMessage] embeds [Message]. *)
Definition InboundMessage := Message.

Record OutboundMessage := mkOutbound {
  OChannel : string;
  OChatID : string;
  OContent : string;
  OMedia : list string;
  OMetadata : list (string * json)
}.

(** The two errors a publish can return: the package-level
    [ErrBusFull] and [ctx.Err()] of the cancelled bus context. *)
Inductive error := ErrBusFull | ContextCanceled.

Definition Error (e : error) : string :=
  match e with
  | ErrBusFull => "message bus is full"
  | ContextCanceled => "context canceled"
  end.

(** A buffered Go channel: the queued elements (head is the oldest),
    the capacity given to [make] and whether [close] was called. *)
Record chan (A : Type) := mkChan {
  cbuf : list A;
  ccap : nat;
  cclosed : bool
}.
Arguments mkChan {A}.
Arguments cbuf {A}.
Arguments ccap {A}.
Arguments cclosed {A}.

(** [make(chan A, n)] panics for a negative size. *)
Definition make_chan (A : Type) (n : Z) : result (chan A) :=
  if (n <? 0)%Z then Panic "makechan: size out of range"
  else Ok (mkChan [] (Z.to_nat n) false).

(** A send case of a [select] can proceed when the channel is closed
    (it then panics) or when the buffer has room. No receiver is
    parked on the channel in this sequential model. *)
Definition send_ready {A} (c : chan A) : bool :=
  cclosed c || (length (cbuf c) <? ccap c)%nat.

Definition send {A} (c : chan A) (x : A) : result (chan A) :=
  if cclosed c then Panic "send on closed channel"
  else Ok (mkChan (cbuf c ++ [x]) (ccap c) false).

Definition close_chan {A} (c : chan A) : result (chan A) :=
  if cclosed c then Panic "close of closed channel"
  else Ok (mkChan (cbuf c) (ccap c) true).

(** [MessageBus]: the two queues and the state of the bus context
    ([done] is set by [cancel]). The [WaitGroup] is never added to in
    the package, so [wg.Wait()] returns at once. *)
Record MessageBus := mkBus {
  inbound : chan InboundMessage;
  outbound : chan OutboundMessage;
  done : bool
}.

Definition New (bufferSize : Z) : result MessageBus :=
  i ← make_chan InboundMessage bufferSize;
  o ← make_chan OutboundMessage bufferSize;
  Ok (mkBus i o false).

(** [select { case ch <- msg: return nil; case <-ctx.Done(): return
    ctx.Err(); default: return ErrBusFull }]. When both communication
    cases can proceed the runtime picks one at random: [pick = true]
    is the send case. *)
Definition select_publish {A} (pick : bool) (c : chan A) (ctx_done : bool) (x : A)
  : result (option error * chan A) :=
  match send_ready c, ctx_done with
  | true, true =>
      if pick then c' ← send c x; Ok (None, c')
      else Ok (Some ContextCanceled, c)
  | true, false => c' ← send c x; Ok (None, c')
  | false, true => Ok (Some ContextCanceled, c)
  | false, false => Ok (Some ErrBusFull, c)
  end.

Definition PublishInbound (pick : bool) (b : MessageBus) (msg : InboundMessage)
  : result (option error * MessageBus) :=
  r ← select_publish pick (inbound b) (done b) msg;
  Ok (r.1, mkBus r.2 (outbound b) (done b)).

Definition PublishOutbound (pick : bool) (b : MessageBus) (msg : OutboundMessage)
  : result (option error * MessageBus) :=
  r ← select_publish pick (outbound b) (done b) msg;
  Ok (r.1, mkBus (inbound b) r.2 (done b)).

Definition InboundSize (b : MessageBus) : Z := Z.of_nat (length (cbuf (inbound b))).
Definition OutboundSize (b : MessageBus) : Z := Z.of_nat (length (cbuf (outbound b))).

(** A receive that finds a queued message takes the oldest one. *)
Definition recv {A} (c : chan A) : option (A * chan A) :=
  match cbuf c with
  | [] => None
  | x :: rest => Some (x, mkChan rest (ccap c) (cclosed c))
  end.

(** The first statement of [Close]: [b.cancel()]. *)
Definition cancel (b : MessageBus) : MessageBus :=
  mkBus (inbound b) (outbound b) true.

(** [Close]: cancel, wait, close both channels. *)
Definition Close (b : MessageBus) : result MessageBus :=
  let b1 := cancel b in
  i ← close_chan (inbound b1);
  o ← close_chan (outbound b1);
  Ok (mkBus i o (done b1)).

(** The steps other goroutines can take on a bus whose channels are
    open: publishes, successful receives, and the cancellation that
    [Close] performs before it closes the channels. *)
Inductive op :=
| OpPublishInbound (pick : bool) (msg : InboundMessage)
| OpPublishOutbound (pick : bool) (msg : OutboundMessage)
| OpReceiveInbound
| OpReceiveOutbound
| OpCancel.

Definition step (b : MessageBus) (o : op) : result MessageBus :=
  match o with
  | OpPublishInbound pick msg => r ← PublishInbound pick b msg; Ok r.2
  | OpPublishOutbound pick msg => r ← PublishOutbound pick b msg; Ok r.2
  | OpReceiveInbound =>
      match recv (inbound b) with
      | Some (_, c) => Ok (mkBus c (outbound b) (done b))
      | None => Ok b
      end
  | OpReceiveOutbound =>
      match recv (outbound b) with
      | Some (_, c) => Ok (mkBus (inbound b) c (done b))
      | None => Ok b
      end
  | OpCancel => Ok (cancel b)
  end.

Fixpoint run (b : MessageBus) (ops : list op) : result MessageBus :=
  match ops with
  | [] => Ok b
  | o :: rest => b' ← step b o; run b' rest
  end.

(** The three outcomes the specification allows for a publish:
    the message is appended to the queue and [nil] is returned, or the
    bus is returned unchanged with [ErrBusFull], or unchanged with the
    error of the cancelled context. *)
Definition push {A} (c : chan A) (x : A) : chan A :=
  mkChan (cbuf c ++ [x]) (ccap c) (cclosed c).

Definition inbound_outcome (b : MessageBus) (msg : InboundMessage)
  (r : result (option error * MessageBus)) : Prop :=
  r = Ok (None, mkBus (push (inbound b) msg) (outbound b) (done b))
  \/ r = Ok (Some ErrBusFull, b)
  \/ r = Ok (Some ContextCanceled, b).

Definition outbound_outcome (b : MessageBus) (msg : OutboundMessage)
  (r : result (option error * MessageBus)) : Prop :=
  r = Ok (None, mkBus (inbound b) (push (outbound b) msg) (done b))
  \/ r = Ok (Some ErrBusFull, b)
  \/ r = Ok (Some ContextCanceled, b).

(** The invariant of a bus with open channels. *)
Definition open_bounded {A} (n : nat) (c : chan A) : Prop :=
  cclosed c = false /\ ccap c = n /\ (length (cbuf c) <= n)%nat.

Definition bus_inv (n : nat) (b : MessageBus) : Prop :=
  open_bounded n (inbound b) /\ open_bounded n (outbound b).

End Bus.

(** ** encoding/json: the streaming decoder used by the session loader *)

Module Decoder.

(** What [json.Decoder] finds at its read position. The scanner
    delimits the input into top-level JSON texts; [Value v] is a
    complete well-formed text, [Broken c] stands for bytes that the
    scanner rejects (a syntax error, or input that ends inside a
    value), [c] being their first non-space byte. *)
Inductive chunk :=
| Value (v : json)
| Broken (c : ascii).

(** The decoder: the unread input and the sticky error field [err]
    that [readValue] sets when the scanner fails. *)
Record t := mk {
  input : list chunk;
  err : bool
}.

Definition NewDecoder (file : list chunk) : t := mk file false.

Definition closes (c : ascii) : bool :=
  (Ascii.eqb c "]" || Ascii.eqb c "}")%char.

(** [More]: [c, err := dec.peek(); return err == nil && c != ']' &&
    c != '}']. [peek] looks at the next non-space byte of the buffer
    and does not consult [dec.err]; a well-formed value never starts
    with a closing bracket. *)
Definition More (d : t) : bool :=
  match input d with
  | [] => false
  | Value _ :: _ => true
  | Broken c :: _ => negb (closes c)
  end.

(** The result of [Decode(&data)] for [var data map[string]interface{}]:
    the map that was filled in, or an error. *)
Inductive decoded :=
| Decoded (data : list (string * json))
| DecodeError.

(** Unmarshalling one well-formed text into the nil map: an object
    fills the map, [null] leaves it nil without an error, anything
    else is an [UnmarshalTypeError]. *)
Definition unmarshal_map (v : json) : decoded :=
  match v with
  | JObj members => Decoded members
  | JNull => Decoded []
  | _ => DecodeError
  end.

(** [Decode]: returns the sticky error if there is one; a scanner
    failure sets it and consumes nothing; otherwise the value is consumed
    and unmarshalled (a type error is returned but not kept). *)
Definition Decode (d : t) : decoded * t :=
  if err d then (DecodeError, d)
  else match input d with
       | [] => (DecodeError, mk [] true)
       | Broken c :: rest => (DecodeError, mk (Broken c :: rest) true)
       | Value v :: rest => (unmarshal_map v, mk rest false)
       end.

End Decoder.

(** ** internal/session: sessions and their JSONL files *)

Module Session.

Record FunctionCall := mkFunctionCall {
  FName : string;
  Arguments : string
}.

Record ToolCall := mkToolCall {
  TCID : string;
  TCType : string;
  Function : FunctionCall
}.

Record Message := mkMessage {
  Role : string;
  Content : string;
  Timestamp : string;
  ToolCalls : list ToolCall;
  ToolCallID : string;
  Name : string
}.

(** A session. Instants are nanoseconds counted from Go's zero
    [time.Time], so [IsZero] is a comparison with 0. *)
Record Session := mkSession {
  Key : string;
  Messages : list Message;
  CreatedAt : Z;
  UpdatedAt : Z;
  Metadata : list (string * json);
  LastConsolidated : Z
}.

Definition NewSession (now : Z) (key : string) : Session :=
  mkSession key [] now now [] 0.

(** The state of the loop in [load]. *)
Record load_state := mkLoad {
  messages : list Message;
  metadata : list (string * json);
  createdAt : Z;
  lastConsolidated : Z
}.

Definition load_init : load_state := mkLoad [] [] 0 0.

(** Reading a string field of a decoded object into a struct field:
    a JSON string is stored, anything else leaves the zero value. The
    member is looked up under the name in the field's tag, which is
    how [Save] writes it. (Go's matching would also accept a key that
    differs from the tag in case only.) *)
Definition string_field (data : list (string * json)) (k : string) : string :=
  match json_get data k with
  | Some (JStr s) => s
  | _ => ""
  end.

Definition tool_call_of_json (v : json) : ToolCall :=
  match v with
  | JObj tc =>
      let fn := match json_get tc "function" with
                | Some (JObj f) => mkFunctionCall (string_field f "name") (string_field f "arguments")
                | _ => mkFunctionCall "" ""
                end in
      mkToolCall (string_field tc "id") (string_field tc "type") fn
  | _ => mkToolCall "" "" (mkFunctionCall "" "")
  end.

(** [json.Marshal(data)] followed by [json.Unmarshal(b, &msg)], errors
    ignored. *)
Definition message_of_data (data : list (string * json)) : Message :=
  mkMessage (string_field data "role") (string_field data "content")
    (string_field data "timestamp")
    (match json_get data "tool_calls" with
     | Some (JArr items) => map tool_call_of_json items
     | _ => []
     end)
    (string_field data "tool_call_id") (string_field data "name").

(** The dynamic type of a decoded value, as the runtime prints it in
    the message of a failed type assertion. *)
Definition type_name (v : json) : string :=
  match v with
  | JNull => "nil"
  | JBool _ => "bool"
  | JNum _ => "float64"
  | JStr _ => "string"
  | JArr _ => "[]interface {}"
  | JObj _ => "map[string]interface {}"
  end.

(** [data["_type"] == "metadata"]. *)
Definition is_metadata_record (data : list (string * json)) : bool :=
  match json_get data "_type" with
  | Some (JStr s) => String.eqb s "metadata"
  | _ => false
  end.

Section Loader.

(** [time.Parse(time.RFC3339, s)] with its error dropped: the zero
    instant when [s] does not parse. *)
Variable parseRFC3339 : string -> Z.

(** The body of the loop for one successfully decoded record. *)
Definition load_record (data : list (string * json)) (st : load_state)
  : result load_state :=
  if is_metadata_record data then
    (* metadata = data["metadata"].(map[string]interface{}) *)
    match json_get data "metadata" with
    | Some (JObj m) =>
        let created := match json_get data "created_at" with
                       | Some (JStr s) => parseRFC3339 s
                       | _ => createdAt st
                       end in
        let lc := match json_get data "last_consolidated" with
                  | Some (JNum n) => n
                  | _ => lastConsolidated st
                  end in
        Ok (mkLoad (messages st) m created lc)
    | Some v =>
        Panic ("interface conversion: interface {} is " +:+ type_name v
               +:+ ", not map[string]interface {}")
    | None =>
        Panic "interface conversion: interface {} is nil, not map[string]interface {}"
    end
  else
    Ok (mkLoad (messages st ++ [message_of_data data]) (metadata st)
          (createdAt st) (lastConsolidated st)).

(** [for decoder.More() { if err := decoder.Decode(&data); err != nil
    { continue } ... }]. The loop need not terminate, so it carries
    fuel: [None] means the fuel ran out. *)
Fixpoint load_loop (fuel : nat) (d : Decoder.t) (st : load_state)
  : option (result load_state) :=
  match fuel with
  | O => None
  | S fuel' =>
      if Decoder.More d then
        match Decoder.Decode d with
        | (Decoder.DecodeError, d') => load_loop fuel' d' st
        | (Decoder.Decoded data, d') =>
            match load_record data st with
            | Ok st' => load_loop fuel' d' st'
            | Panic m => Some (Panic m)
            end
        end
      else Some (Ok st)
  end.

Definition session_of_load (now : Z) (key : string) (st : load_state) : Session :=
  let s := NewSession now key in
  mkSession (Key s) (messages st)
    (if (createdAt st =? 0)%Z then CreatedAt s else createdAt st)
    (UpdatedAt s) (metadata st) (lastConsolidated st).

(** The file name of a session: [filepath.Join(sm.sessionsDir,
    safeFilename(key)+".jsonl")]. Only its being a function of the
    directory and the key matters here. *)
Variable sessionPath : string -> string -> string.

(** [SessionManager]. A [*Session] is an index into [objs]; [disk] is
    the content of the files under the sessions directory. *)
Record SessionManager := mkManager {
  sessionsDir : string;
  objs : list Session;
  cache : gmap string nat;
  maxCache : Z;
  accessOrder : list string;
  disk : gmap string (list Decoder.chunk)
}.

(** The part of [load] that runs once the file is open. *)
Definition load_file (fuel : nat) (now : Z) (key : string) (file : list Decoder.chunk)
  : option (result Session) :=
  match load_loop fuel (Decoder.NewDecoder file) load_init with
  | None => None
  | Some (Panic m) => Some (Panic m)
  | Some (Ok st) => Some (Ok (session_of_load now key st))
  end.

(** [load]: [None] inside the result is the nil session returned when
    the file does not exist. *)
Definition load (fuel : nat) (now : Z) (sm : SessionManager) (key : string)
  : option (result (option Session)) :=
  match disk sm !! sessionPath (sessionsDir sm) key with
  | None => Some (Ok None)
  | Some file =>
      match load_file fuel now key file with
      | None => None
      | Some (Panic m) => Some (Panic m)
      | Some (Ok s) => Some (Ok (Some s))
      end
  end.

(** [moveToEnd]: the first occurrence of [key] moves to the end. *)
Fixpoint remove_first (key : string) (l : list string) : option (list string) :=
  match l with
  | [] => None
  | k :: rest =>
      if String.eqb k key then Some rest
      else match remove_first key rest with
           | Some rest' => Some (k :: rest')
           | None => None
           end
  end.

Definition moveToEnd (key : string) (order : list string) : list string :=
  match remove_first key order with
  | Some rest => rest ++ [key]
  | None => order
  end.

Definition evictOldest (sm : SessionManager) : SessionManager :=
  match accessOrder sm with
  | [] => sm
  | oldest :: rest =>
      mkManager (sessionsDir sm) (objs sm) (delete oldest (cache sm))
        (maxCache sm) rest (disk sm)
  end.

(** [GetOrCreate] returns the session pointer and the new manager. *)
Definition GetOrCreate (fuel : nat) (now : Z) (sm : SessionManager) (key : string)
  : option (result (nat * SessionManager)) :=
  match cache sm !! key with
  | Some p =>
      Some (Ok (p, mkManager (sessionsDir sm) (objs sm) (cache sm) (maxCache sm)
                     (moveToEnd key (accessOrder sm)) (disk sm)))
  | None =>
      match load fuel now sm key with
      | None => None
      | Some (Panic m) => Some (Panic m)
      | Some (Ok loaded) =>
          let session := match loaded with
                         | Some s => s
                         | None => NewSession now key
                         end in
          let p := length (objs sm) in
          let sm1 := if (maxCache sm <=? Z.of_nat (size (cache sm)))%Z
                     then evictOldest sm else sm in
          Some (Ok (p, mkManager (sessionsDir sm1) (objs sm ++ [session])
                         (<[key := p]> (cache sm1)) (maxCache sm1)
                         (accessOrder sm1 ++ [key]) (disk sm1)))
      end
  end.

(** [time.Time.Format(time.RFC3339)]. *)
Variable formatRFC3339 : Z -> string.

(** [AddMessage]: [now] is the reading of the clock. *)
Definition AddMessage (now : Z) (role content : string)
  (toolCalls : list ToolCall) (s : Session) : Session :=
  mkSession (Key s)
    (Messages s ++ [mkMessage role content (formatRFC3339 now) toolCalls "" ""])
    (CreatedAt s) now (Metadata s) (LastConsolidated s).

(** What [json.Encoder] writes for a message (fields in struct order,
    the [omitempty] ones left out when empty) and for the metadata
    record (a map: keys in sorted order). *)
Definition tool_call_to_json (tc : ToolCall) : json :=
  JObj [("id", JStr (TCID tc)); ("type", JStr (TCType tc));
        ("function", JObj [("name", JStr (FName (Function tc)));
                           ("arguments", JStr (Arguments (Function tc)))])].

Definition message_to_json (m : Message) : json :=
  JObj ([("role", JStr (Role m)); ("content", JStr (Content m));
         ("timestamp", JStr (Timestamp m))]
        ++ (match ToolCalls m with
            | [] => []
            | tcs => [("tool_calls", JArr (map tool_call_to_json tcs))]
            end)
        ++ (if String.eqb (ToolCallID m) "" then [] else [("tool_call_id", JStr (ToolCallID m))])
        ++ (if String.eqb (Name m) "" then [] else [("name", JStr (Name m))])).

Definition metadata_to_json (s : Session) : json :=
  JObj [("_type", JStr "metadata");
        ("created_at", JStr (formatRFC3339 (CreatedAt s)));
        ("key", JStr (Key s));
        ("last_consolidated", JNum (LastConsolidated s));
        ("metadata", JObj (Metadata s));
        ("updated_at", JStr (formatRFC3339 (UpdatedAt s)))].

Definition file_of_session (s : Session) : list Decoder.chunk :=
  Decoder.Value (metadata_to_json s)
  :: map (fun m => Decoder.Value (message_to_json m)) (Messages s).

(** [Save] of the session object [s] that pointer [p] designates:
    the file is rewritten and the cache entry set. The directory and
    file operations are taken to succeed. *)
Definition Save (sm : SessionManager) (p : nat) (s : Session) : SessionManager :=
  mkManager (sessionsDir sm) (objs sm) (<[Key s := p]> (cache sm)) (maxCache sm)
    (accessOrder sm)
    (<[sessionPath (sessionsDir sm) (Key s) := file_of_session s]> (disk sm)).

(** [Invalidate]. *)
Definition Invalidate (sm : SessionManager) (key : string) : SessionManager :=
  mkManager (sessionsDir sm) (objs sm) (delete key (cache sm)) (maxCache sm)
    (accessOrder sm) (disk sm).

(** Writing through a session pointer. *)
Definition update_obj (sm : SessionManager) (p : nat) (s : Session) : SessionManager :=
  mkManager (sessionsDir sm) (<[p := s]> (objs sm)) (cache sm) (maxCache sm)
    (accessOrder sm) (disk sm).

End Loader.

(** A session is empty when it has no messages and the metadata and
    cursor that [NewSession] gives. *)
Definition empty_session (s : Session) : Prop :=
  Messages s = [] /\ Metadata s = [] /\ LastConsolidated s = 0%Z.

(** A call given fuel [n] returns [r] for some [n]. *)
Definition returns {A} (f : nat -> option A) (r : A) : Prop :=
  exists n, f n = Some r.

(** A call never returns, whatever fuel it is given. *)
Definition diverges {A} (f : nat -> option A) : Prop :=
  forall n, f n = None.

End Session.

(** ** internal/tools: the tool registry *)

Module Tools.

(** [map[string]interface{}] parameter maps. *)
Definition Params := list (string * json).

(** [s] has [sub] as a contiguous part. *)
Definition contains (s sub : string) : Prop :=
  exists pre post, s = pre +:+ sub +:+ post.

(** [fmt.Sprintf("%v", errors)] for a [[]string]. *)
Definition format_strings (l : list string) : string :=
  "[" +:+ join " " l +:+ "]".

Section Registry.

(** What the tools act on: the files of the workspace, the network,
    the context set by [SetContext], and so on. *)
Variable World : Type.

(** The [Tool] interface, reduced to the three methods that
    [ToolRegistry.Execute] calls. [Execute] returns Go's pair of a
    result string and an error ([None] is nil; the text of an error
    is what [%v] prints). *)
Record Tool := mkTool {
  Name : string;
  ValidateParams : Params -> list string;
  Execute : Params -> World -> (string * option string) * World
}.

(** [ToolRegistry]: the map from names to tools. *)
Record ToolRegistry := mkRegistry {
  tools : gmap string Tool
}.

Definition NewToolRegistry : ToolRegistry := mkRegistry ∅.

Definition Register (r : ToolRegistry) (tool : Tool) : ToolRegistry :=
  mkRegistry (<[Name tool := tool]> (tools r)).

Definition Unregister (r : ToolRegistry) (name : string) : ToolRegistry :=
  mkRegistry (delete name (tools r)).

Definition Get (r : ToolRegistry) (name : string) : option Tool :=
  tools r !! name.

(** [ToolRegistry.Execute]. *)
Definition RegistryExecute (r : ToolRegistry) (name : string) (params : Params)
  (w : World) : string * World :=
  match Get r name with
  | None => ("Error: Tool '" +:+ name +:+ "' not found", w)
  | Some tool =>
      let errors := ValidateParams tool params in
      if (0 <? length errors)%nat then
        ("Error: Invalid parameters for tool '" +:+ name +:+ "': "
           +:+ format_strings errors, w)
      else
        match Execute tool params w with
        | ((_, Some err), w') => ("Error executing " +:+ name +:+ ": " +:+ err, w')
        | ((result, None), w') => (result, w')
        end
  end.

End Registry.

Arguments mkTool {World}.
Arguments Name {World}.
Arguments ValidateParams {World}.
Arguments Execute {World}.
Arguments mkRegistry {World}.
Arguments tools {World}.
Arguments NewToolRegistry {World}.
Arguments Register {World}.
Arguments Unregister {World}.
Arguments Get {World}.
Arguments RegistryExecute {World}.

End Tools.

(** ** internal/providers: what the agent exchanges with the LLM *)

Module Providers.

Record ToolCallRequest := mkToolCallRequest {
  TCID : string;
  TCName : string;
  TCArguments : Tools.Params
}.

Record LLMResponse := mkResponse {
  RContent : string;
  RToolCalls : list ToolCallRequest
}.

Definition HasToolCalls (r : LLMResponse) : bool :=
  (0 <? length (RToolCalls r))%nat.

Record Message := mkMessage {
  Role : string;
  Content : string;
  Images : list string;
  ToolCallID : string;
  Name : string
}.

(** The two results of [LLMProvider.Chat]. *)
Inductive chat_result :=
| ChatOk (resp : LLMResponse)
| ChatErr (err : string).

End Providers.

(** ** internal/agent: the agent loop and memory consolidation *)

Module Agent.

(** An element of the [[]map[string]interface{}] array that a turn
    accumulates, with the keys the loops read and write. *)
Record ToolCallDict := mkToolCallDict {
  tcd_id : string;
  tcd_name : string;
  tcd_arguments : string
}.

Record CtxMessage := mkCtx {
  role : string;
  content : string;
  images : list string;
  tool_calls : list ToolCallDict;
  tool_call_id : string;
  name : string
}.

(** The conversion to [providers.Message] in [runAgentLoop] and
    [processSystemMessage]: the tool-call id and name are copied for
    ["tool"] entries only. (The [tool_calls] entry is never of type
    [[]interface{}], so [Tools] stays empty and is not modelled.) *)
Definition to_provider (m : CtxMessage) : Providers.Message :=
  let is_tool := String.eqb (role m) "tool" in
  Providers.mkMessage (role m) (content m) (images m)
    (if is_tool then tool_call_id m else "")
    (if is_tool then name m else "").

(** The conversion in [runSubagent]: role and content only. *)
Definition to_provider_plain (m : CtxMessage) : Providers.Message :=
  Providers.mkMessage (role m) (content m) [] "" "".

(** How an iteration loop ends: [provider.Chat] failed, or the loop
    left with [finalContent] (empty when the iteration cap was
    reached). *)
Inductive loop_outcome :=
| LLMError (err : string)
| Finished (finalContent : string).

Section Loop.

Variable World : Type.

(** [provider.Chat]: the answer to the [n]-th call of a run, given
    the messages sent. (The tool definitions, the model name and the
    sampling parameters are left implicit.) *)
Variable Chat : nat -> list Providers.Message -> Providers.chat_result.

Variable registry : Tools.ToolRegistry World.

(** [json.Marshal(tc.Arguments)]. *)
Variable marshal : Tools.Params -> string.

Definition tool_call_dict (tc : Providers.ToolCallRequest) : ToolCallDict :=
  mkToolCallDict (Providers.TCID tc) (Providers.TCName tc)
    (marshal (Providers.TCArguments tc)).

(** [for _, tc := range resp.ToolCalls]: run each tool and append its
    full result as a ["tool"] message. *)
Fixpoint execute_tool_calls (calls : list Providers.ToolCallRequest)
  (messages : list CtxMessage) (w : World) : list CtxMessage * World :=
  match calls with
  | [] => (messages, w)
  | tc :: rest =>
      let '(result, w') :=
        Tools.RegistryExecute registry (Providers.TCName tc) (Providers.TCArguments tc) w in
      execute_tool_calls rest
        (messages ++ [mkCtx "tool" result [] [] (Providers.TCID tc) (Providers.TCName tc)])
        w'
  end.

(** The iteration shared by [runAgentLoop], [processSystemMessage]
    and [runSubagent]; [remaining] counts the iterations still allowed
    and [call] the calls already made to the LLM. *)
Fixpoint iterate (convert : CtxMessage -> Providers.Message) (remaining call : nat)
  (messages : list CtxMessage) (w : World)
  : loop_outcome * list CtxMessage * World :=
  match remaining with
  | O => (Finished "", messages, w)
  | S k =>
      match Chat call (map convert messages) with
      | Providers.ChatErr err => (LLMError err, messages, w)
      | Providers.ChatOk resp =>
          if Providers.HasToolCalls resp then
            let assistant :=
              mkCtx "assistant" (Providers.RContent resp) []
                (map tool_call_dict (Providers.RToolCalls resp)) "" "" in
            let '(messages', w') :=
              execute_tool_calls (Providers.RToolCalls resp) (messages ++ [assistant]) w in
            iterate convert k (S call) messages' w'
          else (Finished (Providers.RContent resp), messages, w)
      end
  end.

(** The immutable configuration of the loop. *)
Variable maxIterations : Z.
Variable memoryWindow : Z.

(** [runAgentLoop]: the Go pair (content, error). *)
Definition runAgentLoop (messages : list CtxMessage) (w : World)
  : loop_outcome * World :=
  let '(out, _, w') := iterate to_provider (Z.to_nat maxIterations) 0 messages w in
  (out, w').

(** Session plumbing, see [Session]. *)
Variable parseRFC3339 : string -> Z.
Variable formatRFC3339 : Z -> string.
Variable sessionPath : string -> string -> string.

(** [ContextBuilder.BuildMessages(history, content, channel, chatID,
    media)]. *)
Variable BuildMessages :
  list Session.Message -> string -> string -> string -> list string -> list CtxMessage.

(** The effect of [SetContext] of the message, spawn and cron tools,
    as [SetToolContext] calls them. *)
Variable setToolContext : string -> string -> World -> World.

(** The effect of [SetContext] of the message and spawn tools alone,
    as [processSystemMessage] calls them. *)
Variable setOriginContext : string -> string -> World -> World.

(** [MemoryStore.ReadLongTerm]. *)
Variable readLongTerm : World -> string.

(** A goroutine that [ConsolidateIfNeeded] has launched and that has
    not run yet. *)
Record consolidation := mkConsolidation {
  c_key : string;
  c_session : nat;
  c_keepCount : Z
}.

(** The mutable state of [AgentLoop]. *)
Record AgentLoop := mkAgent {
  sessions : Session.SessionManager;
  world : World;
  consolidating : gmap string bool;
  currentChannel : string;
  currentChatID : string;
  background : list consolidation
}.

Definition with_sessions (a : AgentLoop) (sm : Session.SessionManager) : AgentLoop :=
  mkAgent sm (world a) (consolidating a) (currentChannel a) (currentChatID a) (background a).

Definition with_world (a : AgentLoop) (w : World) : AgentLoop :=
  mkAgent (sessions a) w (consolidating a) (currentChannel a) (currentChatID a) (background a).

Definition SetToolContext (a : AgentLoop) (channel chatID : string) : AgentLoop :=
  mkAgent (sessions a) (setToolContext channel chatID (world a)) (consolidating a)
    channel chatID (background a).

(** [Session.GetHistory(maxMessages)]: the last [maxMessages]
    messages, without their timestamps. The slice expression panics
    when [maxMessages] is negative. *)
Definition GetHistory (maxMessages : Z) (s : Session.Session)
  : result (list Session.Message) :=
  let len := Z.of_nat (length (Session.Messages s)) in
  let start := if (maxMessages <? len)%Z then (len - maxMessages)%Z else 0%Z in
  if (len <? start)%Z then Panic "slice bounds out of range"
  else Ok (map (fun m => Session.mkMessage (Session.Role m) (Session.Content m) ""
                           (Session.ToolCalls m) (Session.ToolCallID m) (Session.Name m))
             (drop (Z.to_nat start) (Session.Messages s))).

(** [ConsolidateIfNeeded]: decides whether a consolidation goroutine
    is launched for the session. *)
Definition ConsolidateIfNeeded (a : AgentLoop) (sessionKey : string) (p : nat)
  (sess : Session.Session) : AgentLoop :=
  let keepCount := let k := (memoryWindow ÷ 2)%Z in
                   if (k <=? 0)%Z then 10%Z else k in
  let msgCount := Z.of_nat (length (Session.Messages sess)) in
  if (msgCount <=? keepCount)%Z then a
  else if (msgCount - Session.LastConsolidated sess <? keepCount)%Z then a
  else match consolidating a !! sessionKey with
       | Some true => a
       | _ =>
           mkAgent (sessions a) (world a) (<[sessionKey := true]> (consolidating a))
             (currentChannel a) (currentChatID a)
             (background a ++ [mkConsolidation sessionKey p keepCount])
       end.

(** The Go pair ([*OutboundMessage], error) that [processMessage]
    returns. *)
Inductive reply :=
| Reply (out : Bus.OutboundMessage)
| Failed (err : string).

(** The readings of the clock during one turn. *)
Record clock := mkClock {
  t_open : Z;
  t_user : Z;
  t_reply : Z
}.

Definition fmt_key (channel chatID : string) : string :=
  channel +:+ ":" +:+ chatID.

(** [strings.Index(s, ":")] split: the text before and after the
    first colon, if there is one. *)
Fixpoint split_colon (s : string) : option (string * string) :=
  match s with
  | EmptyString => None
  | String c rest =>
      if Ascii.eqb c ":"%char then Some (EmptyString, rest)
      else match split_colon rest with
           | Some (a, b) => Some (String c a, b)
           | None => None
           end
  end.

(** [processSystemMessage]: an announcement of a subagent. *)
Definition processSystemMessage (fuel : nat) (clk : clock) (a : AgentLoop)
  (msg : Bus.InboundMessage) : option (result (reply * AgentLoop)) :=
  let '(originChannel, originChatID) :=
    match split_colon (Bus.ChatID msg) with
    | Some (ch, id) => (ch, id)
    | None => ("cli", Bus.ChatID msg)
    end in
  let sessionKey := fmt_key originChannel originChatID in
  match Session.GetOrCreate parseRFC3339 sessionPath fuel (t_open clk) (sessions a) sessionKey with
  | None => None
  | Some (Panic m) => Some (Panic m)
  | Some (Ok (p, sm1)) =>
      match Session.objs sm1 !! p with
      | None => Some (Panic "invalid memory address or nil pointer dereference")
      | Some sess =>
          let w1 := setOriginContext originChannel originChatID (world a) in
          match GetHistory memoryWindow sess with
          | Panic m => Some (Panic m)
          | Ok history =>
              let messages := BuildMessages history (Bus.Content msg) originChannel originChatID [] in
              match iterate to_provider (Z.to_nat maxIterations) 0 messages w1 with
              | (LLMError err, _, w2) =>
                  Some (Ok (Failed err, mkAgent sm1 w2 (consolidating a)
                                          (currentChannel a) (currentChatID a) (background a)))
              | (Finished final, _, w2) =>
                  let finalContent :=
                    if String.eqb final "" then "Background task completed." else final in
                  let sess1 :=
                    Session.AddMessage formatRFC3339 (t_user clk) "user"
                      ("[System: " +:+ Bus.SenderID msg +:+ "] " +:+ Bus.Content msg) [] sess in
                  let sess2 :=
                    Session.AddMessage formatRFC3339 (t_reply clk) "assistant" finalContent [] sess1 in
                  let sm2 := Session.Save sessionPath formatRFC3339
                               (Session.update_obj sm1 p sess2) p sess2 in
                  Some (Ok (Reply (Bus.mkOutbound originChannel originChatID finalContent [] []),
                            mkAgent sm2 w2 (consolidating a)
                              (currentChannel a) (currentChatID a) (background a)))
              end
          end
      end
  end.

(** [processMessage]: one inbound message. *)
Definition processMessage (fuel : nat) (clk : clock) (a : AgentLoop)
  (msg : Bus.InboundMessage) : option (result (reply * AgentLoop)) :=
  if String.eqb (Bus.Channel msg) "system" then processSystemMessage fuel clk a msg
  else
    let key := if String.eqb (Bus.SessionKey msg) ""
               then fmt_key (Bus.Channel msg) (Bus.ChatID msg)
               else Bus.SessionKey msg in
    match Session.GetOrCreate parseRFC3339 sessionPath fuel (t_open clk) (sessions a) key with
    | None => None
    | Some (Panic m) => Some (Panic m)
    | Some (Ok (p, sm1)) =>
        let a1 := SetToolContext (with_sessions a sm1) (Bus.Channel msg) (Bus.ChatID msg) in
        if String.eqb (Bus.Content msg) "/new" then
          let newSession := Session.NewSession (t_user clk) key in
          let q := length (Session.objs sm1) in
          let sm2 := Session.mkManager (Session.sessionsDir sm1)
                       (Session.objs sm1 ++ [newSession]) (Session.cache sm1)
                       (Session.maxCache sm1) (Session.accessOrder sm1) (Session.disk sm1) in
          let sm3 := Session.Invalidate
                       (Session.Save sessionPath formatRFC3339 sm2 q newSession) key in
          Some (Ok (Reply (Bus.mkOutbound (Bus.Channel msg) (Bus.ChatID msg)
                             "新会话已创建" [] []),
                    with_sessions a1 sm3))
        else if String.eqb (Bus.Content msg) "/help" then
          Some (Ok (Reply (Bus.mkOutbound (Bus.Channel msg) (Bus.ChatID msg)
                             "🐈 nanobot commands:
/new — Start a new conversation
/help — Show available commands" [] []),
                    a1))
        else
          match Session.objs sm1 !! p with
          | None => Some (Panic "invalid memory address or nil pointer dereference")
          | Some sess =>
              match GetHistory memoryWindow sess with
              | Panic m => Some (Panic m)
              | Ok history =>
                  let messages := BuildMessages history (Bus.Content msg)
                                    (Bus.Channel msg) (Bus.ChatID msg) (Bus.Media msg) in
                  match runAgentLoop messages (world a1) with
                  | (LLMError err, w2) => Some (Ok (Failed err, with_world a1 w2))
                  | (Finished final, w2) =>
                      let finalContent :=
                        if String.eqb final ""
                        then "I've completed processing but have no response to give."
                        else final in
                      let sess1 := Session.AddMessage formatRFC3339 (t_user clk)
                                     "user" (Bus.Content msg) [] sess in
                      let sess2 := Session.AddMessage formatRFC3339 (t_reply clk)
                                     "assistant" finalContent [] sess1 in
                      let sm2 := Session.Save sessionPath formatRFC3339
                                   (Session.update_obj sm1 p sess2) p sess2 in
                      let a2 := ConsolidateIfNeeded (with_world (with_sessions a1 sm2) w2)
                                  key p sess2 in
                      Some (Ok (Reply (Bus.mkOutbound (Bus.Channel msg) (Bus.ChatID msg)
                                         finalContent [] (Bus.Metadata msg)),
                                a2))
                  end
              end
          end
    end.

(** The line that [consolidateMemory] writes for one message: the
    timestamp is cut to its first 16 bytes. *)
Definition conversation_line (m : Session.Message) : string :=
  let ts := Session.Timestamp m in
  let ts := if (16 <? String.length ts)%nat then String.substring 0 16 ts else ts in
  "[" +:+ ts +:+ "] " +:+ Session.Role m +:+ ": " +:+ Session.Content m.

Definition conversation_lines (old : list Session.Message) : list string :=
  map conversation_line
    (filter (fun m => Session.Content m ≠ "") old).

Definition consolidation_prompt (currentMemory conversationText : string) : string :=
  "Process this conversation and call the save_memory tool with your consolidation.

## Current Long-term Memory
" +:+ currentMemory +:+ "

## Conversation to Process
" +:+ conversationText +:+ "

Respond by calling the save_memory tool with:
1. history_entry: A paragraph summarizing key events/decisions (start with [YYYY-MM-DD HH:MM])
2. memory_update: Updated long-term memory (include existing facts plus new ones, or unchanged if nothing new)".

Definition consolidation_messages (prompt : string) : list Providers.Message :=
  [Providers.mkMessage "system"
     "You are a memory consolidation agent. Call the save_memory tool with your consolidation of the conversation."
     [] "" "";
   Providers.mkMessage "user" prompt [] "" ""].

(** [for _, tc := range resp.ToolCalls { if tc.Name == "save_memory"
    { a.tools.Execute(...) } }]. *)
Fixpoint execute_save_memory (calls : list Providers.ToolCallRequest) (w : World) : World :=
  match calls with
  | [] => w
  | tc :: rest =>
      if String.eqb (Providers.TCName tc) "save_memory" then
        execute_save_memory rest
          (Tools.RegistryExecute registry (Providers.TCName tc) (Providers.TCArguments tc) w).2
      else execute_save_memory rest w
  end.

(** [consolidateMemory], run as one step. *)
Definition consolidateMemory (a : AgentLoop) (sessionKey : string) (p : nat)
  (keepCount : Z) : result AgentLoop :=
  match Session.objs (sessions a) !! p with
  | None => Panic "invalid memory address or nil pointer dereference"
  | Some sess =>
      let startConsolidate := Session.LastConsolidated sess in
      let totalMessages := Z.of_nat (length (Session.Messages sess)) in
      let endConsolidate :=
        if (totalMessages <? startConsolidate + keepCount)%Z
        then totalMessages else (startConsolidate + keepCount)%Z in
      if (endConsolidate <=? startConsolidate)%Z then Ok a
      else if (startConsolidate <? 0)%Z then Panic "slice bounds out of range"
      else
        let oldMessages :=
          take (Z.to_nat (endConsolidate - startConsolidate))
            (drop (Z.to_nat startConsolidate) (Session.Messages sess)) in
        match oldMessages with
        | [] => Ok a
        | _ :: _ =>
            let currentMemory :=
              let m := readLongTerm (world a) in
              if String.eqb m "" then "(empty)" else m in
            let conversationText := join "
" (conversation_lines oldMessages) in
            let prompt := consolidation_prompt currentMemory conversationText in
            match Chat 0 (consolidation_messages prompt) with
            | Providers.ChatErr _ => Ok a
            | Providers.ChatOk resp =>
                let w1 := if Providers.HasToolCalls resp
                          then execute_save_memory (Providers.RToolCalls resp) (world a)
                          else world a in
                let sess1 := Session.mkSession (Session.Key sess) (Session.Messages sess)
                               (Session.CreatedAt sess) (Session.UpdatedAt sess)
                               (Session.Metadata sess) endConsolidate in
                let sm1 := Session.Save sessionPath formatRFC3339
                             (Session.update_obj (sessions a) p sess1) p sess1 in
                Ok (with_world (with_sessions a sm1) w1)
            end
        end
  end.

(** The goroutine launched by [ConsolidateIfNeeded]: the consolidation,
    then the deferred removal of the [consolidating] flag. *)
Definition run_consolidation (a : AgentLoop) (c : consolidation) : result AgentLoop :=
  a1 ← consolidateMemory a (c_key c) (c_session c) (c_keepCount c);
  Ok (mkAgent (sessions a1) (world a1) (delete (c_key c) (consolidating a1))
        (currentChannel a1) (currentChatID a1) (background a1)).

End Loop.

End Agent.

(** ** internal/agent/subagent.go: background subagents *)

Module Subagent.

(** [subagentTask]; [Cancel] is represented by the task id in the
    manager's [cancelled] log. *)
Record subagentTask := mkTask {
  ID : string;
  Label : string;
  Task : string;
  OriginChannel : string;
  OriginChatID : string
}.

Section Manager.

Variable World : Type.
Variable Chat : nat -> list Providers.Message -> Providers.chat_result.
Variable registry : Tools.ToolRegistry World.
Variable marshal : Tools.Params -> string.
Variable maxIterations : Z.

(** [generateTaskID]: the first eight hexadecimal digits of the clock
    reading. *)
Variable generateTaskID : Z -> string.

(** [buildSubagentPrompt]. *)
Variable buildSubagentPrompt : string -> string.

(** The mutable state of [SubagentManager]: the running tasks, the
    bus, what the tools act on, and the ids whose context has been
    cancelled. *)
Record SubagentManager := mkManager {
  runningTasks : gmap string subagentTask;
  bus : Bus.MessageBus;
  world : World;
  cancelled : list string
}.

(** The arguments of the goroutine started by [Spawn]. *)
Record goroutine := mkGoroutine {
  g_taskID : string;
  g_label : string;
  g_task : string;
  g_originChannel : string;
  g_originChatID : string
}.

Definition display_label (task label : string) : string :=
  if String.eqb label "" then
    if (30 <? String.length task)%nat then String.substring 0 30 task +:+ "..." else task
  else label.

(** [Spawn]: registers the task, starts the goroutine and returns the
    acknowledgement. *)
Definition Spawn (now : Z) (s : SubagentManager)
  (task label originChannel originChatID : string)
  : string * goroutine * SubagentManager :=
  let taskID := generateTaskID now in
  let displayLabel := display_label task label in
  let subtask := mkTask taskID displayLabel task originChannel originChatID in
  ("Subagent [" +:+ displayLabel +:+ "] started (id: " +:+ taskID
     +:+ "). I'll notify you when it completes.",
   mkGoroutine taskID displayLabel task originChannel originChatID,
   mkManager (<[taskID := subtask]> (runningTasks s)) (bus s) (world s) (cancelled s)).

Definition announce_content (label statusText task result : string) : string :=
  "[Subagent '" +:+ label +:+ "' " +:+ statusText +:+ "]

Task: " +:+ task +:+ "

Result:
" +:+ result +:+ "

Summarize this naturally for the user. Keep it brief (1-2 sentences). Do not mention technical details like " +:+ dquote +:+ "subagent" +:+ dquote +:+ " or task IDs.".

(** [announceResult]: publishes the result as an inbound message of
    channel ["system"]; the error of [PublishInbound] is dropped.
    [pick] is the choice of the runtime in the publish. *)
Definition announceResult (pick : bool) (now : Z) (s : SubagentManager)
  (taskID label task res originChannel originChatID status : string)
  : result SubagentManager :=
  let statusText := if String.eqb status "error" then "failed"
                    else "completed successfully" in
  let msg := Bus.mkMessage "" "system" "subagent" (originChannel +:+ ":" +:+ originChatID)
               (announce_content label statusText task res) [] [] now "" in
  r ← Bus.PublishInbound pick (bus s) msg;
  Ok (mkManager (runningTasks s) r.2 (world s) (cancelled s)).

(** [runSubagent], the body of the goroutine. *)
Definition runSubagent (pick : bool) (now : Z) (s : SubagentManager) (g : goroutine)
  : result SubagentManager :=
  let messages :=
    [Agent.mkCtx "system" (buildSubagentPrompt (g_task g)) [] [] "" "";
     Agent.mkCtx "user" (g_task g) [] [] "" ""] in
  match Agent.iterate World Chat registry marshal Agent.to_provider_plain
          (Z.to_nat maxIterations) 0 messages (world s) with
  | (Agent.LLMError err, _, w) =>
      announceResult pick now
        (mkManager (runningTasks s) (bus s) w (cancelled s))
        (g_taskID g) (g_label g) (g_task g) ("Error: " +:+ err)
        (g_originChannel g) (g_originChatID g) "error"
  | (Agent.Finished final, _, w) =>
      let finalResult :=
        if String.eqb final ""
        then "Task completed but no final response was generated."
        else final in
      s1 ← announceResult pick now
             (mkManager (runningTasks s) (bus s) w (cancelled s))
             (g_taskID g) (g_label g) (g_task g) finalResult
             (g_originChannel g) (g_originChatID g) "ok";
      Ok (mkManager (delete (g_taskID g) (runningTasks s1)) (bus s1) (world s1)
            (cancelled s1))
  end.

(** [CancelTask]. *)
Definition CancelTask (s : SubagentManager) (taskID : string)
  : bool * SubagentManager :=
  match runningTasks s !! taskID with
  | Some task =>
      (true, mkManager (delete taskID (runningTasks s)) (bus s) (world s)
               (cancelled s ++ [taskID]))
  | None => (false, s)
  end.

(** [StopAll]. *)
Definition StopAll (s : SubagentManager) : SubagentManager :=
  mkManager ∅ (bus s) (world s)
    (cancelled s ++ map fst (map_to_list (runningTasks s))).

Definition GetRunningCount (s : SubagentManager) : Z :=
  Z.of_nat (size (runningTasks s)).

End Manager.

End Subagent.

(** ** container/heap, as used by the cron service *)

Module Heap.

Section Heap.

(** The elements and their order: [less x y] is [h.Less] on the
    positions holding [x] and [y]. The cron service compares the
    instants of [NextRun], so the order is given by a key. *)
Variable A : Type.
Variable key : A -> Z.

Definition less (x y : A) : bool := (key x <? key y)%Z.

(** [h.Less(i, j)] and [h.Swap(i, j)] on valid positions. (The
    [index] field that [jobHeap.Swap] maintains is only ever written;
    it is left out.) *)
Definition Less (h : list A) (i j : nat) : bool :=
  match h !! i, h !! j with
  | Some x, Some y => less x y
  | _, _ => false
  end.

Definition Swap (h : list A) (i j : nat) : list A :=
  match h !! i, h !! j with
  | Some x, Some y => <[i := y]> (<[j := x]> h)
  | _, _ => h
  end.

(** [up]: [for { i := (j - 1) / 2; if i == j || !h.Less(j, i)
    { break }; h.Swap(i, j); j = i }]. Each turn moves to the parent, so
    [j + 1] turns are enough. *)
Fixpoint up_loop (fuel : nat) (h : list A) (j : nat) : list A :=
  match fuel with
  | O => h
  | S fuel' =>
      let i := ((j - 1) / 2)%nat in
      if (i =? j)%nat || negb (Less h j i) then h
      else up_loop fuel' (Swap h i j) i
  end.

Definition up (h : list A) (j : nat) : list A := up_loop (S j) h j.

(** [down]: the loop that sinks position [i0] within the first [n]
    positions. Each turn moves to a child, so [n] turns are enough.
    (The guard against integer overflow of [2*i + 1] is left out.) *)
Fixpoint down_loop (fuel : nat) (h : list A) (i n : nat) : list A :=
  match fuel with
  | O => h
  | S fuel' =>
      let j1 := (2 * i + 1)%nat in
      if (n <=? j1)%nat then h
      else
        let j := if (j1 + 1 <? n)%nat && Less h (j1 + 1) j1 then (j1 + 1)%nat else j1 in
        if negb (Less h j i) then h
        else down_loop fuel' (Swap h i j) j n
  end.

Definition down (h : list A) (i0 n : nat) : list A := down_loop n h i0 n.

(** [heap.Push]: append, then [up] from the last position. *)
Definition Push (h : list A) (x : A) : list A :=
  up (h ++ [x]) (length h).

(** [heap.Pop]: swap the root with the last position, sink the new
    root within the rest, and take the last element off. On an empty
    heap the Go code panics; [None] here. *)
Definition Pop (h : list A) : option (A * list A) :=
  match length h with
  | O => None
  | S n =>
      let h1 := down (Swap h 0 n) 0 n in
      match h1 !! n with
      | Some x => Some (x, take n h1)
      | None => None
      end
  end.

(** The heap order on the first [n] positions: no element is smaller
    than its parent. *)
Definition ordered (h : list A) (p c : nat) : Prop :=
  forall x y, h !! p = Some x -> h !! c = Some y -> (key x <= key y)%Z.

Definition heap_upto (h : list A) (n : nat) : Prop :=
  forall c, (0 < c < n)%nat -> ordered h ((c - 1) / 2) c.

Definition is_heap (h : list A) : Prop := heap_upto h (length h).

(** The key at a position (0 outside the list), and the states of
    the two sifting loops: the heap order holds everywhere except
    around the position being moved, whose parent is already in order
    with its children. *)
Definition key_at (h : list A) (k : nat) : Z :=
  match h !! k with Some x => key x | None => 0%Z end.

Definition up_inv (h : list A) (j : nat) : Prop :=
  (forall c, (0 < c < length h)%nat -> c <> j ->
     (key_at h ((c - 1) / 2) <= key_at h c)%Z)
  /\ (forall c, (0 < c < length h)%nat -> ((c - 1) / 2)%nat = j -> (0 < j)%nat ->
        (key_at h ((j - 1) / 2) <= key_at h c)%Z).

Definition down_inv (h : list A) (i n : nat) : Prop :=
  (forall c, (0 < c < n)%nat -> ((c - 1) / 2)%nat <> i ->
     (key_at h ((c - 1) / 2) <= key_at h c)%Z)
  /\ (forall c, (0 < c < n)%nat -> ((c - 1) / 2)%nat = i -> (0 < i)%nat ->
        (key_at h ((i - 1) / 2) <= key_at h c)%Z).

End Heap.

Arguments less {A}.
Arguments Less {A}.
Arguments Swap {A}.
Arguments up_loop {A}.
Arguments up {A}.
Arguments down_loop {A}.
Arguments down {A}.
Arguments Push {A}.
Arguments Pop {A}.
Arguments ordered {A}.
Arguments heap_upto {A}.
Arguments is_heap {A}.
Arguments key_at {A}.
Arguments up_inv {A}.
Arguments down_inv {A}.

End Heap.

(** ** internal/cron: the scheduler *)

Module Cron.

(** [time.Time]: an instant in nanoseconds since the Unix epoch and
    the location it is displayed in. Comparisons look at the instant
    only. *)
Definition Location := string.

Record Time := mkTime {
  instant : Z;
  location : Location
}.

Definition Before (t u : Time) : bool := (instant t <? instant u)%Z.
Definition After (t u : Time) : bool := (instant u <? instant t)%Z.
Definition Equal (t u : Time) : bool := (instant t =? instant u)%Z.
Definition Add (t : Time) (d : Z) : Time := mkTime (instant t + d) (location t).
Definition In (t : Time) (loc : Location) : Time := mkTime (instant t) loc.
Definition Sub (t u : Time) : Z := (instant t - instant u)%Z.

(** Arithmetic of [time.Duration] (an [int64]) wraps around. *)
Definition wrap64 (z : Z) : Z := ((z + 2 ^ 63) mod 2 ^ 64 - 2 ^ 63)%Z.

Definition Millisecond : Z := 1000000.
Definition Second : Z := 1000000000.
Definition Hour : Z := 3600000000000.

(** [time.UnixMilli(ms)]. *)
Definition UnixMilli (ms : Z) : Time := mkTime (ms * 1000000) "Local".

Record Schedule := mkSchedule {
  Kind : string;
  EveryMs : Z;
  CronExpr : string;
  TZ : string;
  AtMs : Z
}.

Record Job := mkJob {
  ID : string;
  Name : string;
  Message : string;
  JSchedule : Schedule;
  Channel : string;
  To : string;
  Deliver : bool;
  DeleteAfterRun : bool;
  CreatedAt : Time;
  NextRun : Time;
  TriggerAgent : bool;
  AgentCommand : string
}.

Definition with_NextRun (j : Job) (t : Time) : Job :=
  mkJob (ID j) (Name j) (Message j) (JSchedule j) (Channel j) (To j) (Deliver j)
    (DeleteAfterRun j) (CreatedAt j) t (TriggerAgent j) (AgentCommand j).

Section Service.

(** The cron library ([robfig/cron]): the parsed schedules, the
    five-field parser and [Schedule.Next]. *)
Variable CronSchedule : Type.
Variable Parse : string -> option CronSchedule.
Variable Next : CronSchedule -> Time -> Time.

(** [time.LoadLocation]. *)
Variable LoadLocation : string -> option Location.

(** [time.Now()]: the [n]-th reading of the clock. *)
Variable clock : nat -> Time.

(** [calculateCronNextRun]. *)
Definition calculateCronNextRun (schedule : Schedule) (now : Time) : Time :=
  match Parse (CronExpr schedule) with
  | None => Add now (1 * Hour)
  | Some sched =>
      let baseTime :=
        if String.eqb (TZ schedule) "" then now
        else match LoadLocation (TZ schedule) with
             | None => now
             | Some loc => In now loc
             end in
      Next sched baseTime
  end.

(** [calculateNextRun]; [now] is the reading its first line takes. *)
Definition calculateNextRun (schedule : Schedule) (now : Time) : Time :=
  if String.eqb (Kind schedule) "every" then
    Add now (wrap64 (EveryMs schedule * Millisecond))
  else if String.eqb (Kind schedule) "at" then
    In (UnixMilli (AtMs schedule)) (location now)
  else if String.eqb (Kind schedule) "cron" then
    calculateCronNextRun schedule now
  else now.

(** The state of [CronService]. A [*Job] is a number; [store] gives
    the job it points to and [fresh] the next unused pointer. [heap]
    holds the job pointers of the heap items, [ticks] counts the
    readings of the clock, and [launched] records the goroutines
    started by [checkAndRun]: the job pointer and the copy of the job
    given to [executeJob]. *)
Record CronService := mkService {
  store : nat -> Job;
  fresh : nat;
  jobs : gmap string nat;
  heap : list nat;
  ticks : nat;
  launched : list (nat * Job)
}.

(** [NewCronService]: no job, an empty heap. Pointers that are not
    allocated yet designate nothing; [store] shows a blank job there. *)
Definition blank_job : Job :=
  mkJob "" "" "" (mkSchedule "" 0 "" "" 0) "" "" false false (mkTime 0 "") (mkTime 0 "")
    false "".

Definition NewCronService : CronService :=
  mkService (fun _ => blank_job) 0 ∅ [] 0 [].

(** The key of the heap order: [Less] compares [NextRun] with
    [Before]. *)
Definition next_run_key (st : nat -> Job) (p : nat) : Z := instant (NextRun (st p)).

Definition job_id (now : Time) : string := "job_" +:+ pretty (instant now).

(** [AddJob]: the job becomes the object behind a fresh pointer. *)
Definition AddJob (s : CronService) (job : Job) : nat * CronService :=
  let now := clock (ticks s) in
  let job1 := mkJob (job_id now) (Name job) (Message job) (JSchedule job) (Channel job)
                (To job) (Deliver job) (DeleteAfterRun job) now
                (calculateNextRun (JSchedule job) (clock (S (ticks s))))
                (TriggerAgent job) (AgentCommand job) in
  let p := fresh s in
  let st := <[p := job1]> (store s) in
  (p, mkService st (S p) (<[ID job1 := p]> (jobs s))
        (Heap.Push (next_run_key st) (heap s) p) (S (S (ticks s))) (launched s)).

(** [ListJobs]: the pointers held by the map. *)
Definition ListJobs (s : CronService) : list nat :=
  map snd (map_to_list (jobs s)).

(** A job is removed after it has fired when its flag says so or when
    its schedule is of kind "at". *)
Definition single_shot (j : Job) : bool :=
  DeleteAfterRun j || String.eqb (Kind (JSchedule j)) "at".

(** One turn of the loop of [checkAndRun] for the root [item], once it
    is known to be due: the root is popped, a goroutine is started on
    a copy of the job, and the job is deleted from the map or pushed
    back with a next run recomputed at a new reading of the clock. *)
Definition run_item (s : CronService) (item : nat) : CronService :=
  let job := store s item in
  let h' := match Heap.Pop (next_run_key (store s)) (heap s) with
            | Some (_, rest) => rest
            | None => []
            end in
  let started := launched s ++ [(item, job)] in
  if single_shot job then
    mkService (store s) (fresh s) (delete (ID job) (jobs s)) h' (ticks s) started
  else
    let job' := with_NextRun job (calculateNextRun (JSchedule job) (clock (ticks s))) in
    let st := <[item := job']> (store s) in
    mkService st (fresh s) (jobs s) (Heap.Push (next_run_key st) h' item)
      (S (ticks s)) started.

(** The loop of [checkAndRun]; [now] is the reading taken before the
    loop. The loop need not terminate, so it carries fuel. *)
Fixpoint checkAndRun_loop (fuel : nat) (now : Time) (s : CronService)
  : option CronService :=
  match fuel with
  | O => None
  | S fuel' =>
      match heap s with
      | [] => Some s
      | item :: _ =>
          if After (NextRun (store s item)) now then Some s
          else checkAndRun_loop fuel' now (run_item s item)
      end
  end.

Definition checkAndRun (fuel : nat) (s : CronService) : option CronService :=
  checkAndRun_loop fuel (clock (ticks s))
    (mkService (store s) (fresh s) (jobs s) (heap s) (S (ticks s)) (launched s)).

(** The state of the service when the loop of [checkAndRun] has made
    [n] turns, or the state in which the loop has ended when it ends
    before that: what the other goroutines find while [checkAndRun] is
    still running. *)
Fixpoint loop_state (n : nat) (now : Time) (s : CronService) : CronService :=
  match n with
  | O => s
  | S n' =>
      match heap s with
      | [] => s
      | item :: _ =>
          if After (NextRun (store s item)) now then s
          else loop_state n' now (run_item s item)
      end
  end.

Definition checkAndRun_state (n : nat) (s : CronService) : CronService :=
  loop_state n (clock (ticks s))
    (mkService (store s) (fresh s) (jobs s) (heap s) (S (ticks s)) (launched s)).

(** A job is due at [now] when its next run is not after [now]. *)
Definition due (now : Time) (s : CronService) (p : nat) : bool :=
  negb (After (NextRun (store s p)) now).

(** How many goroutines were started for the job behind [p]. *)
Definition fired (s : CronService) (p : nat) : nat :=
  length (filter (fun e => e.1 = p) (launched s)).

(** The state the scheduler keeps between its steps: the heap is in
    heap order and its items hold distinct jobs, and a job is
    registered in the map under its own id. *)
Definition well_formed (s : CronService) : Prop :=
  Heap.is_heap (next_run_key (store s)) (heap s)
  /\ NoDup (heap s)
  /\ (forall id p, jobs s !! id = Some p -> ID (store s p) = id).

(** The pointers in the heap and in the map have been allocated. *)
Definition allocated (s : CronService) : Prop :=
  (forall q, q ∈ heap s -> (q < fresh s)%nat)
  /\ (forall id q, jobs s !! id = Some q -> (q < fresh s)%nat).

(** Every repeating job of the heap, when rescheduled at any later
    reading of the clock, gets a next run after [now]. *)
Definition reschedules_later (now : Time) (s : CronService) : Prop :=
  forall p, p ∈ heap s -> single_shot (store s p) = false ->
    forall k, (ticks s <= k)%nat ->
      After (calculateNextRun (JSchedule (store s p)) (clock k)) now = true.

(** The number of due items in the heap: what the loop of
    [checkAndRun] consumes. *)
Definition due_count (now : Time) (s : CronService) : nat :=
  length (filter (fun p => due now s p = true) (heap s)).

(** What one run of the loop does to the jobs, from state [s] to
    state [s']: a due single-shot job is fired exactly once and is
    gone from heap and map; a due repeating job is fired and is back
    in the heap with a next run recomputed at a later reading of the
    clock; everything else is untouched; the map only loses entries;
    the heap stays a heap of distinct items and holds no due job at
    the end. *)
Definition run_effect (now : Time) (s s' : CronService) : Prop :=
  (forall p, p ∈ heap s -> due now s p = true ->
     (single_shot (store s p) = true ->
        fired s' p = S (fired s p)
        /\ (p ∉ heap s') /\ jobs s' !! ID (store s p) = None /\ store s' p = store s p)
     /\ (single_shot (store s p) = false ->
           (fired s p < fired s' p)%nat
           /\ p ∈ heap s'
           /\ exists k, (ticks s <= k)%nat
                /\ store s' p
                   = with_NextRun (store s p)
                       (calculateNextRun (JSchedule (store s p)) (clock k))))
  /\ (forall p, (p ∉ heap s) \/ due now s p = false ->
        store s' p = store s p /\ fired s' p = fired s p /\ (p ∈ heap s' <-> p ∈ heap s))
  /\ (forall id, jobs s' !! id = None \/ jobs s' !! id = jobs s !! id)
  /\ Heap.is_heap (next_run_key (store s')) (heap s')
  /\ NoDup (heap s')
  /\ (forall p, p ∈ heap s' -> due now s' p = false).

(** What the loop keeps true of a repeating job [p] that is
    rescheduled before the next run of a job [q]: both are in the heap,
    [p] with the earlier next run; [q] is the job [jq] it was,
    registered in the map under its id, which no other job of the heap
    bears, and it has been fired [f] times. *)
Definition starved (sched : Schedule) (jq : Job) (f : nat) (p q : nat)
  (s : CronService) : Prop :=
  Heap.is_heap (next_run_key (store s)) (heap s)
  /\ NoDup (heap s)
  /\ p ∈ heap s
  /\ q ∈ heap s
  /\ store s q = jq
  /\ fired s q = f
  /\ JSchedule (store s p) = sched
  /\ DeleteAfterRun (store s p) = false
  /\ (instant (NextRun (store s p)) < instant (NextRun jq))%Z
  /\ jobs s !! ID jq = Some q
  /\ (forall r, r ∈ heap s -> ID (store s r) = ID jq -> r = q).

End Service.

End Cron.

(** ** internal/bus: the consuming side *)

Module Consumer.

(** The state of the context a caller passes to [ConsumeInbound]:
    not done, or done with the error [ctx.Err()] reports. *)
Inductive ctx_error := Canceled | DeadlineExceeded.

(** The zero values that a receive from a closed, drained channel
    yields. *)
Definition zero_inbound : Bus.InboundMessage :=
  Bus.mkMessage "" "" "" "" "" [] [] 0 "".

Definition zero_outbound : Bus.OutboundMessage :=
  Bus.mkOutbound "" "" "" [] [].

(** A receive: the oldest queued element; on an empty queue the zero
    value when the channel is closed; [None] when the receive would
    block. *)
Definition receive {A} (zero : A) (c : Bus.chan A) : option (A * Bus.chan A) :=
  match Bus.cbuf c with
  | x :: rest => Some (x, Bus.mkChan rest (Bus.ccap c) (Bus.cclosed c))
  | [] => if Bus.cclosed c then Some (zero, c) else None
  end.

(** [select { case msg := <-ch: return msg, nil; case <-ctx.Done():
    return zero, ctx.Err() }]. When both cases can proceed the runtime
    picks one: [pick = true] is the receive. [None]: the call blocks. *)
Definition select_consume {A} (zero : A) (pick : bool) (c : Bus.chan A)
  (ctx : option ctx_error) : option ((A * option ctx_error) * Bus.chan A) :=
  match receive zero c, ctx with
  | Some (x, c'), Some e =>
      if pick then Some ((x, None), c') else Some ((zero, Some e), c)
  | Some (x, c'), None => Some ((x, None), c')
  | None, Some e => Some ((zero, Some e), c)
  | None, None => None
  end.

Definition ConsumeInbound (pick : bool) (ctx : option ctx_error) (b : Bus.MessageBus)
  : option ((Bus.InboundMessage * option ctx_error) * Bus.MessageBus) :=
  match select_consume zero_inbound pick (Bus.inbound b) ctx with
  | Some (r, c) => Some (r, Bus.mkBus c (Bus.outbound b) (Bus.done b))
  | None => None
  end.

Definition ConsumeOutbound (pick : bool) (ctx : option ctx_error) (b : Bus.MessageBus)
  : option ((Bus.OutboundMessage * option ctx_error) * Bus.MessageBus) :=
  match select_consume zero_outbound pick (Bus.outbound b) ctx with
  | Some (r, c) => Some (r, Bus.mkBus (Bus.inbound b) c (Bus.done b))
  | None => None
  end.

(** The calls that producers and consumers make on a bus, and what an
    observer records of them: the messages whose publish returned
    [nil] and the messages that a consume returned with a [nil] error,
    each in the order of the calls. A consume that would block is left
    pending and records nothing. *)
Inductive call :=
| CallPublishInbound (pick : bool) (msg : Bus.InboundMessage)
| CallPublishOutbound (pick : bool) (msg : Bus.OutboundMessage)
| CallConsumeInbound (pick : bool) (ctx : option ctx_error)
| CallConsumeOutbound (pick : bool) (ctx : option ctx_error)
| CallCancel.

Record log := mkLog {
  accepted_in : list Bus.InboundMessage;
  delivered_in : list Bus.InboundMessage;
  accepted_out : list Bus.OutboundMessage;
  delivered_out : list Bus.OutboundMessage
}.

Definition empty_log : log := mkLog [] [] [] [].

Definition observe_call (b : Bus.MessageBus) (l : log) (c : call)
  : result (Bus.MessageBus * log) :=
  match c with
  | CallPublishInbound pick msg =>
      r ← Bus.PublishInbound pick b msg;
      match r.1 with
      | None => Ok (r.2, mkLog (accepted_in l ++ [msg]) (delivered_in l)
                           (accepted_out l) (delivered_out l))
      | Some _ => Ok (r.2, l)
      end
  | CallPublishOutbound pick msg =>
      r ← Bus.PublishOutbound pick b msg;
      match r.1 with
      | None => Ok (r.2, mkLog (accepted_in l) (delivered_in l)
                           (accepted_out l ++ [msg]) (delivered_out l))
      | Some _ => Ok (r.2, l)
      end
  | CallConsumeInbound pick ctx =>
      match ConsumeInbound pick ctx b with
      | Some ((msg, None), b') =>
          Ok (b', mkLog (accepted_in l) (delivered_in l ++ [msg])
                    (accepted_out l) (delivered_out l))
      | Some ((_, Some _), b') => Ok (b', l)
      | None => Ok (b, l)
      end
  | CallConsumeOutbound pick ctx =>
      match ConsumeOutbound pick ctx b with
      | Some ((msg, None), b') =>
          Ok (b', mkLog (accepted_in l) (delivered_in l)
                    (accepted_out l) (delivered_out l ++ [msg]))
      | Some ((_, Some _), b') => Ok (b', l)
      | None => Ok (b, l)
      end
  | CallCancel => Ok (Bus.cancel b, l)
  end.

Fixpoint observe (b : Bus.MessageBus) (l : log) (calls : list call)
  : result (Bus.MessageBus * log) :=
  match calls with
  | [] => Ok (b, l)
  | c :: rest => r ← observe_call b l c; observe r.1 r.2 rest
  end.

(** Publishing a list of messages one after the other, nothing being
    consumed meanwhile: the errors returned, in order. *)
Fixpoint publish_all (b : Bus.MessageBus) (msgs : list (bool * Bus.InboundMessage))
  : result (list (option Bus.error) * Bus.MessageBus) :=
  match msgs with
  | [] => Ok ([], b)
  | (pick, msg) :: rest =>
      r ← Bus.PublishInbound pick b msg;
      r' ← publish_all r.2 rest;
      Ok (r.1 :: r'.1, r'.2)
  end.

(** [k] calls of [ConsumeInbound] in a row with a context that is not
    done: what they returned, up to the first call that blocks. *)
Fixpoint consume_many (k : nat) (b : Bus.MessageBus)
  : list (Bus.InboundMessage * option ctx_error) * Bus.MessageBus :=
  match k with
  | O => ([], b)
  | S k' =>
      match ConsumeInbound true None b with
      | Some (r, b') => let '(rs, b'') := consume_many k' b' in (r :: rs, b'')
      | None => ([], b)
      end
  end.

(** The invariant behind the order of delivery: what was accepted is
    what was delivered followed by what is still queued. *)
Definition fifo_inv (b : Bus.MessageBus) (l : log) : Prop :=
  accepted_in l = delivered_in l ++ Bus.cbuf (Bus.inbound b)
  /\ accepted_out l = delivered_out l ++ Bus.cbuf (Bus.outbound b).

End Consumer.

(** ** unicode/utf8: how Go reads the bytes of a string as runes *)

Module Utf8.

Definition byte (c : ascii) : N := N_of_ascii c.

Definition in_range (lo hi : N) (c : ascii) : bool :=
  ((lo <=? byte c) && (byte c <=? hi))%N.

(** A continuation byte, 0x80..0xBF. *)
Definition cont (c : ascii) : bool := in_range 128 191 c.

(** [utf8.DecodeRuneInString] on a non-empty string: the width of the
    encoding at its head, [None] when the bytes there are not a valid
    encoding (Go then yields [RuneError] and width 1). The second byte
    of a three- or four-byte encoding is confined further after the
    leads 0xE0, 0xED, 0xF0 and 0xF4. *)
Definition decode (s : string) : option nat :=
  match s with
  | EmptyString => None
  | String b0 rest =>
      if (byte b0 <? 128)%N then Some 1%nat
      else if in_range 194 223 b0 then
        match rest with
        | String b1 _ => if cont b1 then Some 2%nat else None
        | _ => None
        end
      else if in_range 224 239 b0 then
        match rest with
        | String b1 (String b2 _) =>
            let lo := if (byte b0 =? 224)%N then 160%N else 128%N in
            let hi := if (byte b0 =? 237)%N then 159%N else 191%N in
            if in_range lo hi b1 && cont b2 then Some 3%nat else None
        | _ => None
        end
      else if in_range 240 244 b0 then
        match rest with
        | String b1 (String b2 (String b3 _)) =>
            let lo := if (byte b0 =? 240)%N then 144%N else 128%N in
            let hi := if (byte b0 =? 244)%N then 143%N else 191%N in
            if in_range lo hi b1 && cont b2 && cont b3 then Some 4%nat else None
        | _ => None
        end
      else None
  end.

(** The number of bytes that [for _, r := range s] consumes for the
    rune at the head of [s]. *)
Definition rune_width (s : string) : nat :=
  match decode s with
  | Some w => w
  | None => 1%nat
  end.

(** [utf8.ValidString]; [skip] counts the bytes still to pass of the
    rune being read. *)
Fixpoint valid_from (skip : nat) (s : string) : bool :=
  match s with
  | EmptyString => true
  | String c rest =>
      match skip with
      | S k => valid_from k rest
      | O => match decode s with
             | Some w => valid_from (w - 1) rest
             | None => false
             end
      end
  end.

Definition valid (s : string) : bool := valid_from 0 s.

End Utf8.

(** ** internal/session: file names, cache order *)

Module SessionFiles.

(** The characters that [safeFilename] keeps. *)
Definition safe_byte (c : ascii) : bool :=
  Utf8.in_range 97 122 c || Utf8.in_range 65 90 c || Utf8.in_range 48 57 c
  || Ascii.eqb c "-" || Ascii.eqb c "_" || Ascii.eqb c ".".

(** [for _, r := range s { switch { ... } }]: a rune of the safe set
    is kept, any other rune (also an invalid byte) becomes one
    underscore. A rune of the safe set is a single byte. *)
Fixpoint safe_runes (skip : nat) (s : string) : string :=
  match s with
  | EmptyString => EmptyString
  | String c rest =>
      match skip with
      | S k => safe_runes k rest
      | O => String (if safe_byte c then c else "_"%char)
               (safe_runes (Utf8.rune_width s - 1) rest)
      end
  end.

(** [safeFilename]: the first 200 bytes of the key, rune by rune. *)
Definition safeFilename (s : string) : string :=
  safe_runes 0 (String.substring 0 200 s).

Fixpoint all_bytes (P : ascii -> bool) (s : string) : bool :=
  match s with
  | EmptyString => true
  | String c rest => P c && all_bytes P rest
  end.

(** The cache and its access order agree: every cached key is listed
    once, and only cached keys are. *)
Definition lru_inv (sm : Session.SessionManager) : Prop :=
  NoDup (Session.accessOrder sm)
  /\ (forall k, k ∈ Session.accessOrder sm <-> is_Some (Session.cache sm !! k)).

(** The strings of a message are valid UTF-8, so that [encoding/json]
    writes them as they are. *)
Definition tool_call_utf8 (tc : Session.ToolCall) : bool :=
  Utf8.valid (Session.TCID tc) && Utf8.valid (Session.TCType tc)
  && Utf8.valid (Session.FName (Session.Function tc))
  && Utf8.valid (Session.Arguments (Session.Function tc)).

Definition message_utf8 (m : Session.Message) : bool :=
  Utf8.valid (Session.Role m) && Utf8.valid (Session.Content m)
  && Utf8.valid (Session.Timestamp m) && forallb tool_call_utf8 (Session.ToolCalls m)
  && Utf8.valid (Session.ToolCallID m) && Utf8.valid (Session.Name m).

Section Manager.

Variable parseRFC3339 : string -> Z.

(** [filepath.Join]. *)
Variable Join : string -> string -> string.

(** The file of a session, as [load] and [Save] compute it. *)
Definition sessionPath (dir key : string) : string :=
  Join dir (safeFilename key +:+ ".jsonl").

(** [NewSessionManager]; [files] is what the sessions directory
    holds. *)
Definition NewSessionManager (workspace : string)
  (files : gmap string (list Decoder.chunk)) : Session.SessionManager :=
  Session.mkManager (Join workspace "sessions") [] ∅ 1000 [] files.

(** Calls of [GetOrCreate] one after the other, each with the reading
    of the clock at the call and its key. *)
Fixpoint get_all (fuel : nat) (sm : Session.SessionManager) (calls : list (Z * string))
  : option (result Session.SessionManager) :=
  match calls with
  | [] => Some (Ok sm)
  | (now, key) :: rest =>
      match Session.GetOrCreate parseRFC3339 sessionPath fuel now sm key with
      | None => None
      | Some (Panic m) => Some (Panic m)
      | Some (Ok (_, sm')) => get_all fuel sm' rest
      end
  end.

End Manager.

(** The files of the sessions directory changed from outside the
    manager. *)
Definition with_disk (sm : Session.SessionManager)
  (files : gmap string (list Decoder.chunk)) : Session.SessionManager :=
  Session.mkManager (Session.sessionsDir sm) (Session.objs sm) (Session.cache sm)
    (Session.maxCache sm) (Session.accessOrder sm) files.

End SessionFiles.

(** ** internal/agent: what a run of the iteration adds to the messages *)

Module Transcript.

Section Rounds.

(** [json.Marshal(tc.Arguments)]. *)
Variable marshal : Tools.Params -> string.

(** The entry that answers the tool call [tc] with [result]. *)
Definition tool_entry (tc : Providers.ToolCallRequest) (result : string)
  : Agent.CtxMessage :=
  Agent.mkCtx "tool" result [] [] (Providers.TCID tc) (Providers.TCName tc).

(** The entry that records a response with tool calls. *)
Definition assistant_entry (resp : Providers.LLMResponse) : Agent.CtxMessage :=
  Agent.mkCtx "assistant" (Providers.RContent resp) []
    (map (Agent.tool_call_dict marshal) (Providers.RToolCalls resp)) "" "".

(** [rounds k added]: [added] is made of [k] rounds of tool use, each
    being the assistant entry of a response that has tool calls
    followed by one tool entry per call, in the order of the calls. *)
Inductive rounds : nat -> list Agent.CtxMessage -> Prop :=
| rounds_done : rounds 0 []
| rounds_more (k : nat) (resp : Providers.LLMResponse) (results : list string)
    (rest : list Agent.CtxMessage) :
    Providers.HasToolCalls resp = true ->
    length results = length (Providers.RToolCalls resp) ->
    rounds k rest ->
    rounds (S k)
      (assistant_entry resp
         :: zip_with tool_entry (Providers.RToolCalls resp) results ++ rest).

End Rounds.

End Transcript.

(** ** Routing of subagent announcements *)

Module Routing.

(** The string holds no colon. *)
Fixpoint no_colon (s : string) : bool :=
  match s with
  | EmptyString => true
  | String c rest => negb (Ascii.eqb c ":"%char) && no_colon rest
  end.

(** The inbound queue of the bus is open, its context is live, and
    [room] says whether a further message fits. *)
Definition inbound_open (b : Bus.MessageBus) (room : bool) : Prop :=
  Bus.cclosed (Bus.inbound b) = false
  /\ Bus.done b = false
  /\ (length (Bus.cbuf (Bus.inbound b)) <? Bus.ccap (Bus.inbound b))%nat = room.

End Routing.

(** ** internal/tools/base.go: parameter schemas and their validation *)

Module BaseTool.

(** The Go values that a parameter schema is built from, with the
    dynamic types that a type assertion tells apart: a [[]string] is
    not a [[]interface{}]. *)
Inductive value :=
| VString (s : string)
| VBool (b : bool)
| VStrings (l : list string)
| VSlice (l : list value)
| VMap (m : list (string * value)).

(** [map[string]interface{}] with its lookup. *)
Definition schema := list (string * value).

Fixpoint get (m : schema) (k : string) : option value :=
  match m with
  | [] => None
  | (k', v) :: rest => if String.eqb k' k then Some v else get rest k
  end.

(** [BaseTool]; [parameters] is [None] for a nil map. *)
Record t := mk {
  name : string;
  description : string;
  parameters : option schema
}.

Definition NewBaseTool (name description : string) (parameters : schema) : t :=
  mk name description (Some parameters).

(** [_, exists := params[reqStr]]. *)
Definition has_param (params : Tools.Params) (k : string) : bool :=
  match json_get params k with
  | Some _ => true
  | None => false
  end.

(** The body of the loop over the required names. *)
Definition check_required (params : Tools.Params) (req : value) : list string :=
  match req with
  | VString reqStr =>
      if has_param params reqStr then []
      else ["missing required parameter: " +:+ reqStr]
  | _ => []
  end.

(** [ValidateParams]. *)
Definition ValidateParams (tool : t) (params : Tools.Params) : list string :=
  match parameters tool with
  | None => []
  | Some ps =>
      (* required, ok := t.parameters["required"].([]interface{}) *)
      match get ps "required" with
      | Some (VSlice required) => flat_map (check_required params) required
      | _ => []
      end
  end.

End BaseTool.

(** ** The memory store and the save_memory tool *)

Module Memory.

(** The files of the workspace: path to content. *)
Abbreviation files := (gmap string string).

Record MemoryStore := mkStore {
  memoryDir : string;
  memoryFile : string;
  historyFile : string
}.

Definition nl : ascii := "010"%char.

(** [strings.TrimRight(s, "\n")]. *)
Fixpoint TrimRight_nl (s : string) : string :=
  match s with
  | EmptyString => EmptyString
  | String c rest =>
      match TrimRight_nl rest with
      | EmptyString => if Ascii.eqb c nl then EmptyString else String c EmptyString
      | trimmed => String c trimmed
      end
  end.

(** [strings.HasSuffix]. *)
Definition HasSuffix (s suffix : string) : bool :=
  (String.length suffix <=? String.length s)%nat
  && String.eqb (String.substring (String.length s - String.length suffix)
                   (String.length suffix) s) suffix.

(** The last byte of a string. *)
Fixpoint last_byte (s : string) : option ascii :=
  match s with
  | EmptyString => None
  | String c EmptyString => Some c
  | String _ rest => last_byte rest
  end.

(** [ReadLongTerm]: the empty string when the file cannot be read. *)
Definition ReadLongTerm (m : MemoryStore) (fs : files) : string :=
  match fs !! memoryFile m with
  | Some data => data
  | None => EmptyString
  end.

(** [WriteLongTerm]; writing is taken to succeed. *)
Definition WriteLongTerm (m : MemoryStore) (content : string) (fs : files) : files :=
  <[memoryFile m := content]> fs.

(** [AppendHistory]: the file is opened for appending and created when
    missing; opening and writing are taken to succeed. *)
Definition AppendHistory (m : MemoryStore) (entry : string) (fs : files) : files :=
  let entry := TrimRight_nl entry in
  let entry := if HasSuffix entry (String nl (String nl EmptyString)) then entry
               else entry +:+ String nl (String nl EmptyString) in
  let old := match fs !! historyFile m with
             | Some data => data
             | None => EmptyString
             end in
  <[historyFile m := old +:+ entry]> fs.

(** [params[k].(string)] with the flag dropped. *)
Definition param_string (params : Tools.Params) (k : string) : string :=
  match json_get params k with
  | Some (JStr s) => s
  | _ => EmptyString
  end.

(** The schema given to [NewBaseTool] by [NewSaveMemoryTool]. *)
Definition save_memory_parameters : BaseTool.schema :=
  [("type", BaseTool.VString "object");
   ("properties", BaseTool.VMap
      [("history_entry", BaseTool.VMap
          [("type", BaseTool.VString "string");
           ("description", BaseTool.VString
              "A paragraph (2-5 sentences) summarizing key events/decisions/topics. Start with [YYYY-MM-DD HH:MM]. Include detail useful for grep search.")]);
       ("memory_update", BaseTool.VMap
          [("type", BaseTool.VString "string");
           ("description", BaseTool.VString
              "Full updated long-term memory as markdown. Include all existing facts plus new ones. Return unchanged if nothing new.")])]);
   ("required", BaseTool.VStrings ["history_entry"; "memory_update"])].

Definition save_memory_base : BaseTool.t :=
  BaseTool.NewBaseTool "save_memory"
    "Save the memory consolidation result to persistent storage. Call this after processing conversation history to update long-term memory and append to history."
    save_memory_parameters.

(** [SaveMemoryTool.Execute]. *)
Definition Execute (m : MemoryStore) (params : Tools.Params) (fs : files)
  : (string * option string) * files :=
  let historyEntry := param_string params "history_entry" in
  let memoryUpdate := param_string params "memory_update" in
  if String.eqb historyEntry "" && String.eqb memoryUpdate "" then
    (("Error: history_entry and memory_update are required", None), fs)
  else
    let fs1 := if String.eqb historyEntry "" then fs
               else AppendHistory m historyEntry fs in
    let fs2 := if String.eqb memoryUpdate "" then fs1
               else if String.eqb memoryUpdate (ReadLongTerm m fs1) then fs1
                    else WriteLongTerm m memoryUpdate fs1 in
    (("Memory saved successfully", None), fs2).

(** The tool as the registry sees it. *)
Definition SaveMemoryTool (m : MemoryStore) : Tools.Tool files :=
  Tools.mkTool (BaseTool.name save_memory_base)
    (BaseTool.ValidateParams save_memory_base) (Execute m).

End Memory.

(** ** container/heap: [Remove] *)

Module HeapRemove.

Section Remove.

Variable A : Type.
Variable key : A -> Z.

(** The loop of [down] with the position it ends at. *)
Fixpoint down_pos (fuel : nat) (h : list A) (i n : nat) : list A * nat :=
  match fuel with
  | O => (h, i)
  | S fuel' =>
      let j1 := (2 * i + 1)%nat in
      if (n <=? j1)%nat then (h, i)
      else
        let j := if (j1 + 1 <? n)%nat && Heap.Less key h (j1 + 1) j1
                 then (j1 + 1)%nat else j1 in
        if negb (Heap.Less key h j i) then (h, i)
        else down_pos fuel' (Heap.Swap h i j) j n
  end.

(** [down(h, i0, n)] with its result [i > i0]: whether the element
    moved. *)
Definition down (h : list A) (i0 n : nat) : list A * bool :=
  let '(h', i) := down_pos n h i0 n in (h', (i0 <? i)%nat).

(** [jobHeap.Pop]: takes the last element off. *)
Definition pop_last (h : list A) : option (A * list A) :=
  match length h with
  | O => None
  | S n =>
      match h !! n with
      | Some x => Some (x, take n h)
      | None => None
      end
  end.

(** [heap.Remove(h, i)]: [n := h.Len() - 1; if n != i { h.Swap(i, n);
    if !down(h, i, n) { up(h, i) } }; return h.Pop()]. With [i] out of
    range the Go code panics; [None] here. *)
Definition Remove (h : list A) (i : nat) : option (A * list A) :=
  if (length h <=? i)%nat then None
  else
    let n := (length h - 1)%nat in
    let h1 := if (n =? i)%nat then h
              else
                let '(h', moved) := down (Heap.Swap h i n) i n in
                if moved then h' else Heap.up key h' i in
    pop_last h1.

End Remove.

Arguments down_pos {A}.
Arguments down {A}.
Arguments pop_last {A}.
Arguments Remove {A}.

End HeapRemove.

(** ** internal/cron: removing a job, the wait of the scheduler *)

Module CronOps.

(** The search loop of [RemoveJob] over the positions of the heap:
    the first position whose job carries [id]. *)
Fixpoint find_job (store : nat -> Cron.Job) (id : string) (h : list nat) (i : nat)
  : option nat :=
  match h with
  | [] => None
  | p :: rest =>
      if String.eqb (Cron.ID (store p)) id then Some i
      else find_job store id rest (S i)
  end.

(** [RemoveJob]. *)
Definition RemoveJob (s : Cron.CronService) (id : string)
  : result (bool * Cron.CronService) :=
  match Cron.jobs s !! id with
  | None => Ok (false, s)
  | Some _ =>
      let jobs' := delete id (Cron.jobs s) in
      match find_job (Cron.store s) id (Cron.heap s) 0 with
      | Some i =>
          match HeapRemove.Remove (Cron.next_run_key (Cron.store s)) (Cron.heap s) i with
          | Some (_, h') =>
              Ok (true, Cron.mkService (Cron.store s) (Cron.fresh s) jobs' h'
                          (Cron.ticks s) (Cron.launched s))
          | None => Panic "index out of range"
          end
      | None =>
          Ok (true, Cron.mkService (Cron.store s) (Cron.fresh s) jobs' (Cron.heap s)
                      (Cron.ticks s) (Cron.launched s))
      end
  end.

(** [Time.Sub]: the difference as a [Duration], which saturates at
    the ends of [int64]. *)
Definition Sub (t u : Cron.Time) : Z :=
  let d := (Cron.instant t - Cron.instant u)%Z in
  if (d <? - 2 ^ 63)%Z then (- 2 ^ 63)%Z
  else if (2 ^ 63 - 1 <? d)%Z then (2 ^ 63 - 1)%Z
  else d.

Section Wait.

(** [time.Now()]: the [n]-th reading of the clock. *)
Variable clock : nat -> Cron.Time.

(** [getNextWaitDuration]: the clock is read only when the heap holds
    a job. *)
Definition getNextWaitDuration (s : Cron.CronService) : Z * Cron.CronService :=
  match Cron.heap s with
  | [] => ((60 * Cron.Second)%Z, s)
  | item :: _ =>
      let nextRun := Cron.NextRun (Cron.store s item) in
      let now := clock (Cron.ticks s) in
      let duration := Sub nextRun now in
      let s' := Cron.mkService (Cron.store s) (Cron.fresh s) (Cron.jobs s) (Cron.heap s)
                  (S (Cron.ticks s)) (Cron.launched s) in
      if Cron.Before nextRun now || Cron.Equal nextRun now then (0%Z, s')
      else (duration, s')
  end.

End Wait.

End CronOps.

(** ** internal/agent: pending consolidations, direct processing *)

Module Pending.

Section Pending.

Variable World : Type.
Variable Chat : nat -> list Providers.Message -> Providers.chat_result.
Variable registry : Tools.ToolRegistry World.
Variable marshal : Tools.Params -> string.
Variable maxIterations : Z.
Variable memoryWindow : Z.
Variable parseRFC3339 : string -> Z.
Variable formatRFC3339 : Z -> string.
Variable sessionPath : string -> string -> string.
Variable BuildMessages :
  list Session.Message -> string -> string -> string -> list string -> list Agent.CtxMessage.
Variable setToolContext : string -> string -> World -> World.
Variable setOriginContext : string -> string -> World -> World.
Variable readLongTerm : World -> string.

(** At most one consolidation goroutine is pending for a session, and
    the session of a pending one is flagged. *)
Definition single_flight (a : Agent.AgentLoop World) : Prop :=
  NoDup (map Agent.c_key (Agent.background World a))
  /\ (forall c, c ∈ Agent.background World a ->
        Agent.consolidating World a !! Agent.c_key c = Some true).

(** The [i]-th pending goroutine runs to its end. *)
Definition run_pending (a : Agent.AgentLoop World) (i : nat)
  : result (Agent.AgentLoop World) :=
  match Agent.background World a !! i with
  | None => Ok a
  | Some c =>
      Agent.run_consolidation World Chat registry formatRFC3339 sessionPath readLongTerm
        (Agent.mkAgent World (Agent.sessions World a) (Agent.world World a)
           (Agent.consolidating World a) (Agent.currentChannel World a)
           (Agent.currentChatID World a) (delete i (Agent.background World a)))
        c
  end.

(** [ProcessDirect]: the Go pair (content, error). *)
Definition ProcessDirect (fuel : nat) (clk : Agent.clock) (a : Agent.AgentLoop World)
  (content : string) : option (result ((string * option string) * Agent.AgentLoop World)) :=
  let msg := Bus.mkMessage "" "cli" "user" "direct" content [] [] 0 "" in
  match Agent.processMessage World Chat registry marshal maxIterations memoryWindow
          parseRFC3339 formatRFC3339 sessionPath BuildMessages setToolContext
          setOriginContext fuel clk a msg with
  | None => None
  | Some (Panic m) => Some (Panic m)
  | Some (Ok (Agent.Failed err, a')) => Some (Ok ((EmptyString, Some err), a'))
  | Some (Ok (Agent.Reply out, a')) => Some (Ok ((Bus.OContent out, None), a'))
  end.

(** [sendResult]; the error of the publish is only logged. *)
Definition sendResult (pick : bool) (b : Bus.MessageBus) (job : Cron.Job)
  (content : string) : result Bus.MessageBus :=
  if String.eqb (Cron.Channel job) "" then Ok b
  else if String.eqb (Cron.To job) "" then Ok b
  else
    r ← Bus.PublishOutbound pick b
          (Bus.mkOutbound (Cron.Channel job) (Cron.To job) content []
             [("from_cron", JBool true)]);
    Ok r.2.

(** [executeAgentJob]; [executor] and [msgBus] are [None] when they
    have not been set. The result is the state of the executor and of
    the bus afterwards. *)
Definition executeAgentJob (pick : bool) (fuel : nat) (clk : Agent.clock)
  (executor : option (Agent.AgentLoop World)) (msgBus : option Bus.MessageBus)
  (job : Cron.Job)
  : option (result (option (Agent.AgentLoop World) * option Bus.MessageBus)) :=
  match executor, msgBus with
  | None, _ => Some (Ok (executor, msgBus))
  | _, None => Some (Ok (executor, msgBus))
  | Some a, Some b =>
      if String.eqb (Cron.Channel job) "" then Some (Ok (executor, msgBus))
      else if String.eqb (Cron.To job) "" then Some (Ok (executor, msgBus))
      else
        let a1 := Agent.SetToolContext World setToolContext a (Cron.Channel job) (Cron.To job) in
        match ProcessDirect fuel clk a1 (Cron.AgentCommand job) with
        | None => None
        | Some (Panic m) => Some (Panic m)
        | Some (Ok ((response, err), a2)) =>
            let content := match err with
                           | Some e => "❌ 任务执行失败: " +:+ e
                           | None => response
                           end in
            match sendResult pick b job content with
            | Ok b' => Some (Ok (Some a2, Some b'))
            | Panic m => Some (Panic m)
            end
        end
  end.

End Pending.

(** The outbound queue is open, the bus context is live and a further
    message fits. *)
Definition outbound_room (b : Bus.MessageBus) : Prop :=
  Bus.cclosed (Bus.outbound b) = false
  /\ Bus.done b = false
  /\ (length (Bus.cbuf (Bus.outbound b)) < Bus.ccap (Bus.outbound b))%nat.

End Pending.

(** ** internal/agent: the loop that serves the bus *)

Module Serve.

Section Serve.

Variable World : Type.
Variable Chat : nat -> list Providers.Message -> Providers.chat_result.
Variable registry : Tools.ToolRegistry World.
Variable marshal : Tools.Params -> string.
Variable maxIterations : Z.
Variable memoryWindow : Z.
Variable parseRFC3339 : string -> Z.
Variable formatRFC3339 : Z -> string.
Variable sessionPath : string -> string -> string.
Variable BuildMessages :
  list Session.Message -> string -> string -> string -> list string -> list Agent.CtxMessage.
Variable setToolContext : string -> string -> World -> World.
Variable setOriginContext : string -> string -> World -> World.

(** The response that [processMessages] publishes for the outcome of
    [processMessage]: an error becomes a message to the sender. *)
Definition response_of (msg : Bus.InboundMessage) (r : Agent.reply) : Bus.OutboundMessage :=
  match r with
  | Agent.Reply out => out
  | Agent.Failed err =>
      Bus.mkOutbound (Bus.Channel msg) (Bus.ChatID msg) ("Error: " +:+ err) []
        (Bus.Metadata msg)
  end.

(** One turn of the loop of [processMessages] while the agent is
    running and its context is live: consume, process, publish. The
    error of the publish is dropped. [None]: the turn does not come to
    its end (the consume blocks, or [processMessage] does not return). *)
Definition serve_one (pick : bool) (fuel : nat) (clk : Agent.clock)
  (a : Agent.AgentLoop World) (b : Bus.MessageBus)
  : option (result (Agent.AgentLoop World * Bus.MessageBus)) :=
  match Consumer.ConsumeInbound true None b with
  | None => None
  | Some ((_, Some _), b1) => Some (Ok (a, b1))
  | Some ((msg, None), b1) =>
      match Agent.processMessage World Chat registry marshal maxIterations memoryWindow
              parseRFC3339 formatRFC3339 sessionPath BuildMessages setToolContext
              setOriginContext fuel clk a msg with
      | None => None
      | Some (Panic m) => Some (Panic m)
      | Some (Ok (r, a')) =>
          let response := response_of msg r in
          if String.eqb (Bus.OContent response) "" then Some (Ok (a', b1))
          else
            match Bus.PublishOutbound pick b1 response with
            | Ok r' => Some (Ok (a', r'.2))
            | Panic m => Some (Panic m)
            end
      end
  end.

End Serve.

End Serve.

(** ** internal/agent/subagent.go: task ids *)

Module TaskID.

(** The digit characters of [fmt]: "0123456789abcdef". *)
Definition hex_digit (d : Z) : ascii :=
  ascii_of_nat (Z.to_nat (if (d <? 10)%Z then 48 + d else 87 + d)).

(** The digit loop of [fmt] for the verb [%x]: [for u >= 16 { buf[i] =
    digits[u&0xF]; u >>= 4 }; buf[i] = digits[u]]. An [int64] has at
    most sixteen digits. *)
Fixpoint hex_loop (fuel : nat) (n : Z) (acc : string) : string :=
  match fuel with
  | O => acc
  | S fuel' =>
      let acc' := String (hex_digit (n mod 16)) acc in
      if (n <? 16)%Z then acc' else hex_loop fuel' (n / 16) acc'
  end.

(** [fmt.Sprintf("%x", n)] for [n >= 0]. *)
Definition sprintf_x (n : Z) : string := hex_loop 16 n EmptyString.

(** [generateTaskID]: [fmt.Sprintf("%x", time.Now().UnixNano())[:8]];
    [now] is the reading of the clock in nanoseconds. (For a reading
    below 2^28 the slice expression panics; the readings considered
    below are beyond 2^60.) *)
Definition generateTaskID (now : Z) : string :=
  String.substring 0 8 (sprintf_x now).

(** The [k] low digits of [lo], put in front of [acc]. *)
Fixpoint low_digits (k : nat) (lo : Z) (acc : string) : string :=
  match k with
  | O => acc
  | S k' => low_digits k' (lo / 16) (String (hex_digit (lo mod 16)) acc)
  end.

End TaskID.

(** ** internal/tools: the spawn tool *)

Module SpawnTool.

(** The context of the tool, as [SetContext] leaves it. *)
Record t := mk {
  channel : string;
  chatID : string
}.

Definition SetContext (tool : t) (channel chatID : string) : t := mk channel chatID.

Section Execute.

Variable World : Type.
Variable generateTaskID : Z -> string.

(** [Execute] with [spawnFunc] bound to [SubagentManager.Spawn], as
    the command line wires it: the Go pair (result, error), the
    goroutine that was started, if any, and the manager. *)
Definition Execute (now : Z) (tool : t) (params : Tools.Params)
  (s : Subagent.SubagentManager World)
  : (string * option string) * option Subagent.goroutine * Subagent.SubagentManager World :=
  let task := Memory.param_string params "task" in
  let label := Memory.param_string params "label" in
  if String.eqb task "" then (("Error: task is required", None), None, s)
  else
    let originChannel := if String.eqb (channel tool) "" then "cli" else channel tool in
    let originChatID := if String.eqb (chatID tool) "" then "direct" else chatID tool in
    let '(ack, g, s') :=
      Subagent.Spawn World generateTaskID now s task label originChannel originChatID in
    ((ack, None), Some g, s').

End Execute.

End SpawnTool.

(** * Properties *)

(** ** The message bus *)

Section BusProperties.
Import Bus.

Lemma bus_send_ready_open {A} (c : chan A) :
  cclosed c = false -> send_ready c = (length (cbuf c) <? ccap c)%nat.
Proof. unfold send_ready. intros ->. reflexivity. Qed.

Lemma bus_select_publish_open {A} (n : nat) pick (c : chan A) d x :
  open_bounded n c ->
  (select_publish pick c d x = Ok (None, push c x) /\ open_bounded n (push c x))
  \/ select_publish pick c d x = Ok (Some ErrBusFull, c)
  \/ select_publish pick c d x = Ok (Some ContextCanceled, c).
Proof.
  intros (Hopen & Hcap & Hlen).
  unfold select_publish, send, push. rewrite bus_send_ready_open by assumption.
  rewrite Hopen. simpl.
  destruct (Nat.ltb_spec (length (cbuf c)) (ccap c)) as [Hlt | Hge].
  - assert (open_bounded n (mkChan (cbuf c ++ [x]) (ccap c) false)) as Hinv.
    { repeat split; simpl; [assumption|]. rewrite length_app. simpl. lia. }
    destruct d, pick; simpl; auto.
  - destruct d; auto.
Qed.

Lemma bus_recv_open {A} (n : nat) (c c' : chan A) x :
  open_bounded n c -> recv c = Some (x, c') -> open_bounded n c'.
Proof.
  intros (Hopen & Hcap & Hlen). unfold recv.
  destruct (cbuf c) as [|y rest] eqn:E; [discriminate|].
  intros [= _ <-]. repeat split; simpl in *; auto. lia.
Qed.

Lemma bus_step_inv (n : nat) (b : MessageBus) (o : op) :
  bus_inv n b -> exists b', step b o = Ok b' /\ bus_inv n b'.
Proof.
  intros [Hin Hout]. destruct o as [pick msg | pick msg | | | ]; simpl.
  - unfold PublishInbound.
    destruct (bus_select_publish_open n pick (inbound b) (done b) msg Hin)
      as [[-> Hinv] | [-> | ->]]; simpl; eexists; split; try reflexivity;
      split; simpl; assumption.
  - unfold PublishOutbound.
    destruct (bus_select_publish_open n pick (outbound b) (done b) msg Hout)
      as [[-> Hinv] | [-> | ->]]; simpl; eexists; split; try reflexivity;
      split; simpl; assumption.
  - destruct (recv (inbound b)) as [[x c]|] eqn:E.
    + eexists; split; [reflexivity|]. split; simpl; [|assumption].
      eapply bus_recv_open; eassumption.
    + eexists; split; [reflexivity|]. split; assumption.
  - destruct (recv (outbound b)) as [[x c]|] eqn:E.
    + eexists; split; [reflexivity|]. split; simpl; [assumption|].
      eapply bus_recv_open; eassumption.
    + eexists; split; [reflexivity|]. split; assumption.
  - eexists; split; [reflexivity|]. split; assumption.
Qed.

Lemma bus_run_inv (n : nat) (ops : list op) : forall b,
  bus_inv n b -> exists b', run b ops = Ok b' /\ bus_inv n b'.
Proof.
  induction ops as [|o ops IH]; intros b Hinv; simpl.
  - eauto.
  - destruct (bus_step_inv n b o Hinv) as (b1 & -> & Hinv1). simpl.
    apply IH, Hinv1.
Qed.

Lemma bus_New_inv (N : Z) (b : MessageBus) :
  New N = Ok b -> (0 <= N)%Z /\ bus_inv (Z.to_nat N) b.
Proof.
  unfold New, make_chan. destruct (Z.ltb_spec N 0) as [Hneg | Hpos]; simpl.
  - discriminate.
  - intros [= <-]. split; [assumption|].
    split; repeat split; simpl; lia.
Qed.

Lemma bus_publish_inbound_inv (n : nat) pick (b : MessageBus) msg :
  bus_inv n b ->
  inbound_outcome b msg (PublishInbound pick b msg)
  /\ exists e b', PublishInbound pick b msg = Ok (e, b') /\ bus_inv n b'.
Proof.
  intros [Hin Hout]. unfold inbound_outcome, PublishInbound.
  destruct (bus_select_publish_open n pick (inbound b) (done b) msg Hin)
    as [[-> Hinv] | [-> | ->]]; simpl.
  - split; [auto|]. do 2 eexists; split; [reflexivity|]. split; assumption.
  - destruct b; simpl. split; [auto|]. do 2 eexists; split; [reflexivity|].
    split; assumption.
  - destruct b; simpl. split; [auto|]. do 2 eexists; split; [reflexivity|].
    split; assumption.
Qed.

Lemma bus_publish_outbound_inv (n : nat) pick (b : MessageBus) msg :
  bus_inv n b ->
  outbound_outcome b msg (PublishOutbound pick b msg)
  /\ exists e b', PublishOutbound pick b msg = Ok (e, b') /\ bus_inv n b'.
Proof.
  intros [Hin Hout]. unfold outbound_outcome, PublishOutbound.
  destruct (bus_select_publish_open n pick (outbound b) (done b) msg Hout)
    as [[-> Hinv] | [-> | ->]]; simpl.
  - split; [auto|]. do 2 eexists; split; [reflexivity|]. split; assumption.
  - destruct b; simpl. split; [auto|]. do 2 eexists; split; [reflexivity|].
    split; assumption.
  - destruct b; simpl. split; [auto|]. do 2 eexists; split; [reflexivity|].
    split; assumption.
Qed.

Lemma bus_inv_sizes (n : nat) (b : MessageBus) :
  bus_inv n b -> (InboundSize b <= Z.of_nat n /\ OutboundSize b <= Z.of_nat n)%Z.
Proof.
  intros [(_ & _ & Hi) (_ & _ & Ho)]. unfold InboundSize, OutboundSize. lia.
Qed.

End BusProperties.

(** On a bus created by [New N] whose channels have not been closed,
    after any sequence of publishes (interleaved, if one likes, with
    receives and with the cancellation of the bus context), both
    queues hold at most [N] messages, and a further [PublishInbound]
    or [PublishOutbound] either appends the message and returns [nil],
    or returns [ErrBusFull] leaving the bus unchanged, or returns the
    error of the cancelled context leaving the bus unchanged. *)
Lemma bus_publish_outcomes_open (N : Z) (b0 : Bus.MessageBus) (ops : list Bus.op) :
  Bus.New N = Ok b0 ->
  exists b, Bus.run b0 ops = Ok b
    /\ (Bus.InboundSize b <= N)%Z
    /\ (Bus.OutboundSize b <= N)%Z
    /\ (forall pick msg, Bus.inbound_outcome b msg (Bus.PublishInbound pick b msg))
    /\ (forall pick msg, Bus.outbound_outcome b msg (Bus.PublishOutbound pick b msg)).
Proof.
  intros Hnew. apply bus_New_inv in Hnew as [Hpos Hinv].
  destruct (bus_run_inv _ ops _ Hinv) as (b & Hrun & Hb).
  exists b. split; [exact Hrun|].
  pose proof (bus_inv_sizes _ _ Hb) as [Hi Ho].
  rewrite Z2Nat.id in Hi, Ho by assumption.
  repeat split; try assumption.
  - intros pick msg. apply (bus_publish_inbound_inv _ pick b msg Hb).
  - intros pick msg. apply (bus_publish_outbound_inv _ pick b msg Hb).
Qed.

(** [Close] succeeds on a bus whose channels are open, and leaves a
    bus on which a publish panics when the runtime picks the send
    case and returns the context error when it picks the other. *)
Lemma bus_publish_after_close (n : nat) (b : Bus.MessageBus)
  (msg : Bus.InboundMessage) (out : Bus.OutboundMessage) :
  Bus.bus_inv n b ->
  exists b1,
    Bus.Close b = Ok b1
    /\ Bus.PublishInbound true b1 msg = Panic "send on closed channel"
    /\ Bus.PublishOutbound true b1 out = Panic "send on closed channel"
    /\ Bus.PublishInbound false b1 msg = Ok (Some Bus.ContextCanceled, b1)
    /\ Bus.PublishOutbound false b1 out = Ok (Some Bus.ContextCanceled, b1).
Proof.
  intros [(Hi & _) (Ho & _)]. unfold Bus.Close, Bus.close_chan. simpl.
  rewrite Hi, Ho. simpl. eexists. split; [reflexivity|].
  repeat split; reflexivity.
Qed.

(** C1. A publish is not confined to the three outcomes. Take a bus
    made by [New N], used by any sequence of publishes and receives,
    and then closed by [Close]: the context is cancelled and both
    channels are closed, so both communication cases of the [select]
    can proceed; when the runtime picks the send case the call panics
    with "send on closed channel" instead of returning the error of
    the closed bus (which it returns when the other case is picked). *)
Theorem bus_publish_after_close_panics (N : Z) (b0 : Bus.MessageBus) (ops : list Bus.op)
  (msg : Bus.InboundMessage) (out : Bus.OutboundMessage) :
  Bus.New N = Ok b0 ->
  exists b b1,
    Bus.run b0 ops = Ok b
    /\ Bus.Close b = Ok b1
    /\ Bus.PublishInbound true b1 msg = Panic "send on closed channel"
    /\ Bus.PublishOutbound true b1 out = Panic "send on closed channel"
    /\ Bus.PublishInbound false b1 msg = Ok (Some Bus.ContextCanceled, b1)
    /\ Bus.PublishOutbound false b1 out = Ok (Some Bus.ContextCanceled, b1).
Proof.
  intros Hnew. apply bus_New_inv in Hnew as [_ Hinv].
  destruct (bus_run_inv _ ops _ Hinv) as (b & Hrun & Hb).
  destruct (bus_publish_after_close _ b msg out Hb) as (b1 & Hclose & Hrest).
  exists b, b1. split; [exact Hrun|]. split; [exact Hclose | exact Hrest].
Qed.

Lemma bus_publish_after_close_panics_witness :
  let m := Bus.mkMessage "1" "cli" "user" "direct" "hi" [] [] 0 "" in
  let o := Bus.mkOutbound "cli" "direct" "hello" [] [] in
  let b0 := Bus.mkBus (Bus.mkChan [] 1 false) (Bus.mkChan [] 1 false) false in
  Bus.New 1 = Ok b0
  /\ exists b b1,
       Bus.run b0 [Bus.OpPublishInbound true m] = Ok b
       /\ Bus.Close b = Ok b1
       /\ Bus.PublishInbound true b1 m = Panic "send on closed channel"
       /\ Bus.PublishOutbound true b1 o = Panic "send on closed channel"
       /\ Bus.PublishInbound false b1 m = Ok (Some Bus.ContextCanceled, b1)
       /\ Bus.PublishOutbound false b1 o = Ok (Some Bus.ContextCanceled, b1).
Proof.
  intros m o b0. split; [reflexivity|].
  apply (bus_publish_after_close_panics 1 b0 [Bus.OpPublishInbound true m] m o).
  reflexivity.
Defined.

(** C2. [Close] is not idempotent in the code: on every bus made by
    [New], the first [Close] succeeds and the second one panics with
    "close of closed channel". *)
Theorem bus_double_close_panics (n : nat) :
  exists b0 b1,
    Bus.New (Z.of_nat n) = Ok b0
    /\ Bus.Close b0 = Ok b1
    /\ Bus.Close b1 = Panic "close of closed channel".
Proof.
  unfold Bus.New, Bus.make_chan.
  destruct (Z.ltb_spec (Z.of_nat n) 0) as [Hneg | _]; [lia|].
  simpl. do 2 eexists. repeat split.
Qed.

(** ** The session loader *)

Section SessionProperties.
Import Session.
Variable parseRFC3339 : string -> Z.
Variable sessionPath : string -> string -> string.

Local Abbreviation loop := (load_loop parseRFC3339).

(** One turn of the loop on a value the map cannot take: the value is
    consumed and nothing else changes. *)
Lemma load_loop_skip fuel v rest st :
  Decoder.unmarshal_map v = Decoder.DecodeError ->
  loop (S fuel) (Decoder.mk (Decoder.Value v :: rest) false) st
  = loop fuel (Decoder.mk rest false) st.
Proof. intros H. simpl. unfold Decoder.Decode. simpl. rewrite H. reflexivity. Qed.

Lemma load_loop_record fuel v data rest st :
  Decoder.unmarshal_map v = Decoder.Decoded data ->
  loop (S fuel) (Decoder.mk (Decoder.Value v :: rest) false) st
  = match load_record parseRFC3339 data st with
    | Ok st' => loop fuel (Decoder.mk rest false) st'
    | Panic m => Some (Panic m)
    end.
Proof. intros H. simpl. unfold Decoder.Decode. simpl. rewrite H. reflexivity. Qed.

(** Once the sticky error is set in front of bytes that do not start
    with a closing bracket, the loop spins. *)
Lemma load_loop_stuck fuel c rest st :
  Decoder.closes c = false ->
  loop fuel (Decoder.mk (Decoder.Broken c :: rest) true) st = None.
Proof.
  intros Hc. induction fuel as [|fuel IH]; [reflexivity|].
  simpl. unfold Decoder.More. simpl. rewrite Hc. simpl. exact IH.
Qed.

Lemma load_loop_broken fuel c rest st :
  loop (S fuel) (Decoder.mk (Decoder.Broken c :: rest) false) st
  = if Decoder.closes c then Some (Ok st) else None.
Proof.
  simpl. unfold Decoder.More. simpl.
  destruct (Decoder.closes c) eqn:Hc; simpl; [reflexivity|].
  apply load_loop_stuck, Hc.
Qed.

(** A line that is not well-formed JSON (and does not start with a
    closing bracket) makes the loader spin for ever. *)
Lemma load_broken_line_diverges now key c rest :
  Decoder.closes c = false ->
  diverges (fun fuel => load_file parseRFC3339 fuel now key (Decoder.Broken c :: rest)).
Proof.
  intros Hc [|fuel]; [reflexivity|].
  unfold load_file, Decoder.NewDecoder. rewrite load_loop_broken, Hc. reflexivity.
Qed.

(** The same holds when the broken line comes after lines that load:
    the loop gets to it and spins there. *)
Lemma load_loop_reaches_broken_line c rest :
  Decoder.closes c = false ->
  forall vs st fuel0 st',
    loop fuel0 (Decoder.mk (map Decoder.Value vs) false) st = Some (Ok st') ->
    forall fuel,
      loop fuel (Decoder.mk (map Decoder.Value vs ++ Decoder.Broken c :: rest) false) st
      = None.
Proof.
  intros Hc. induction vs as [|v vs IH]; intros st fuel0 st' Hpre fuel.
  - destruct fuel as [|fuel]; [reflexivity|]. simpl app.
    rewrite load_loop_broken, Hc. reflexivity.
  - destruct fuel0 as [|fuel0]; [discriminate|].
    destruct fuel as [|fuel]; [reflexivity|]. simpl map in *. simpl app.
    destruct (Decoder.unmarshal_map v) as [data|] eqn:Hv.
    + rewrite (load_loop_record _ _ _ _ _ Hv) in Hpre.
      rewrite (load_loop_record _ _ _ _ _ Hv).
      destruct (load_record parseRFC3339 data st) as [st1|m]; [|discriminate].
      apply (IH st1 fuel0 st' Hpre).
    + rewrite load_loop_skip in Hpre by exact Hv. rewrite load_loop_skip by exact Hv.
      apply (IH st fuel0 st' Hpre).
Qed.

Lemma load_loop_skip_anywhere v post :
  Decoder.unmarshal_map v = Decoder.DecodeError ->
  forall pre st r,
    returns (fun fuel => loop fuel (Decoder.mk (pre ++ Decoder.Value v :: post) false) st) r
    <-> returns (fun fuel => loop fuel (Decoder.mk (pre ++ post) false) st) r.
Proof.
  intros Hv. induction pre as [|x pre IH]; intros st r; simpl.
  - split; intros [n Hn].
    + destruct n as [|n]; [discriminate|]. rewrite load_loop_skip in Hn by exact Hv.
      exists n. exact Hn.
    + exists (S n). rewrite load_loop_skip by exact Hv. exact Hn.
  - destruct x as [w | c].
    + destruct (Decoder.unmarshal_map w) as [data|] eqn:Hw.
      * split; intros [n Hn]; (destruct n as [|n]; [discriminate|]);
          rewrite (load_loop_record _ _ _ _ _ Hw) in Hn;
          destruct (load_record parseRFC3339 data st) as [st'|m] eqn:Hrec.
        -- destruct (proj1 (IH st' r) (ex_intro _ n Hn)) as [k Hk].
           exists (S k). rewrite (load_loop_record _ _ _ _ _ Hw), Hrec. exact Hk.
        -- exists 1. rewrite (load_loop_record _ _ _ _ _ Hw), Hrec. exact Hn.
        -- destruct (proj2 (IH st' r) (ex_intro _ n Hn)) as [k Hk].
           exists (S k). rewrite (load_loop_record _ _ _ _ _ Hw), Hrec. exact Hk.
        -- exists 1. rewrite (load_loop_record _ _ _ _ _ Hw), Hrec. exact Hn.
      * split; intros [n Hn]; (destruct n as [|n]; [discriminate|]);
          rewrite load_loop_skip in Hn by exact Hw.
        -- destruct (proj1 (IH st r) (ex_intro _ n Hn)) as [k Hk].
           exists (S k). rewrite load_loop_skip by exact Hw. exact Hk.
        -- destruct (proj2 (IH st r) (ex_intro _ n Hn)) as [k Hk].
           exists (S k). rewrite load_loop_skip by exact Hw. exact Hk.
    + split; intros [n Hn]; (destruct n as [|n]; [discriminate|]);
        rewrite load_loop_broken in Hn; exists 1; rewrite load_loop_broken; exact Hn.
Qed.

Lemma load_file_returns_inv fuel now key file r :
  load_file parseRFC3339 fuel now key file = Some r ->
  exists r0, loop fuel (Decoder.mk file false) load_init = Some r0
    /\ r = match r0 with
           | Ok st => Ok (session_of_load now key st)
           | Panic m => Panic m
           end.
Proof.
  unfold load_file, Decoder.NewDecoder.
  destruct (loop fuel _ _) as [[st|m]|]; intros [= <-]; eauto.
Qed.

Lemma load_file_skip now key v pre post r :
  Decoder.unmarshal_map v = Decoder.DecodeError ->
  returns (fun fuel => load_file parseRFC3339 fuel now key (pre ++ Decoder.Value v :: post)) r
  <-> returns (fun fuel => load_file parseRFC3339 fuel now key (pre ++ post)) r.
Proof.
  intros Hv. split; intros [n Hn]; apply load_file_returns_inv in Hn as (r0 & Hr0 & ->).
  - destruct (proj1 (load_loop_skip_anywhere v post Hv pre load_init r0)) as [k Hk];
      [exists n; exact Hr0|].
    exists k. unfold load_file, Decoder.NewDecoder. rewrite Hk. destruct r0; reflexivity.
  - destruct (proj2 (load_loop_skip_anywhere v post Hv pre load_init r0)) as [k Hk];
      [exists n; exact Hr0|].
    exists k. unfold load_file, Decoder.NewDecoder. rewrite Hk. destruct r0; reflexivity.
Qed.

Lemma GetOrCreate_single_skipped_line now (sm : SessionManager) key v :
  cache sm !! key = None ->
  disk sm !! sessionPath (sessionsDir sm) key = Some [Decoder.Value v] ->
  Decoder.unmarshal_map v = Decoder.DecodeError ->
  exists sm',
    GetOrCreate parseRFC3339 sessionPath 2 now sm key
    = Some (Ok (length (objs sm), sm'))
    /\ objs sm' !! length (objs sm) = Some (NewSession now key).
Proof.
  intros Hc Hd Hv. unfold GetOrCreate, load. rewrite Hc, Hd.
  unfold load_file, Decoder.NewDecoder. rewrite load_loop_skip by exact Hv.
  simpl. eexists. split; [reflexivity|]. simpl.
  rewrite lookup_app_r by lia. rewrite Nat.sub_diag. reflexivity.
Qed.

(** A metadata record whose ["metadata"] member is missing or is not
    an object stops the loader with a panic. *)
Lemma load_record_assertion_panics data st :
  is_metadata_record data = true ->
  (forall m, json_get data "metadata" <> Some (JObj m)) ->
  exists msg, load_record parseRFC3339 data st = Panic msg.
Proof.
  intros Hm Hno. unfold load_record. rewrite Hm.
  destruct (json_get data "metadata") as [[| | | | |m]|]; eauto.
  exfalso. apply (Hno m). reflexivity.
Qed.

End SessionProperties.

(** A first line that [Decode] rejects does not empty the session:
    the first line [42] is skipped and the message on the second line
    is still read. *)
Lemma load_rejected_first_line_keeps_rest :
  let parse := fun _ : string => 0%Z in
  let path := fun d k : string => d +:+ "/" +:+ k +:+ ".jsonl" in
  let file := [Decoder.Value (JNum 42);
               Decoder.Value (JObj [("role", JStr "user"); ("content", JStr "hi")])] in
  let sm := Session.mkManager "sessions" [] ∅ 1000 []
              {[ path "sessions" "cli:direct" := file ]} in
  fst (Decoder.Decode (Decoder.NewDecoder file)) = Decoder.DecodeError
  /\ exists sm' s,
       Session.GetOrCreate parse path 3 0 sm "cli:direct" = Some (Ok (0%nat, sm'))
       /\ Session.objs sm' !! 0%nat = Some s
       /\ ~ Session.empty_session s.
Proof.
  simpl. split; [reflexivity|].
  eexists. eexists. split; [vm_compute; reflexivity|].
  split; [reflexivity|].
  intros (Hm & _). discriminate Hm.
Qed.

(** A line holding well-formed JSON that is not an object (a number,
    string, boolean or array) is skipped: the loader returns exactly
    what it returns for the file without that line, wherever the line
    stands. In particular a file that consists of such a line alone
    gives the empty session of [NewSession]. *)
Lemma load_skips_rejected_value
  (parse : string -> Z) (path : string -> string -> string)
  (now : Z) (key : string) (v : json) :
  Decoder.unmarshal_map v = Decoder.DecodeError ->
  (forall pre post r,
     Session.returns
       (fun fuel => Session.load_file parse fuel now key (pre ++ Decoder.Value v :: post)) r
     <-> Session.returns
       (fun fuel => Session.load_file parse fuel now key (pre ++ post)) r)
  /\ (forall sm : Session.SessionManager,
        Session.cache sm !! key = None ->
        Session.disk sm !! path (Session.sessionsDir sm) key = Some [Decoder.Value v] ->
        exists sm',
          Session.GetOrCreate parse path 2 now sm key
          = Some (Ok (length (Session.objs sm), sm'))
          /\ Session.objs sm' !! length (Session.objs sm)
             = Some (Session.NewSession now key)
          /\ Session.empty_session (Session.NewSession now key)).
Proof.
  intros Hv. split.
  - intros pre post r. apply load_file_skip, Hv.
  - intros sm Hc Hd.
    destruct (GetOrCreate_single_skipped_line parse path now sm key v Hc Hd Hv)
      as (sm' & Hget & Hobj).
    exists sm'. repeat split; assumption.
Qed.

(** C4. The loader does not skip a line that is not well-formed JSON.
    When the lines before it load and the line does not start with a
    closing bracket, [Decode] leaves the scanner's error set in the
    decoder and consumes nothing, [More] keeps answering true, and the
    loop of [load] turns for ever: [GetOrCreate] returns nothing,
    whatever fuel it is given. This holds for a broken first line
    ([vs] empty) as for a later one. *)
Theorem load_broken_line_never_returns
  (parse : string -> Z) (path : string -> string -> string)
  (now : Z) (sm : Session.SessionManager) (key : string)
  (vs : list json) (c : ascii) (rest : list Decoder.chunk)
  (fuel0 : nat) (s0 : Session.Session) :
  Session.cache sm !! key = None ->
  Session.disk sm !! path (Session.sessionsDir sm) key
  = Some (map Decoder.Value vs ++ Decoder.Broken c :: rest) ->
  Decoder.closes c = false ->
  Session.load_file parse fuel0 now key (map Decoder.Value vs) = Some (Ok s0) ->
  Session.diverges (fun fuel => Session.GetOrCreate parse path fuel now sm key).
Proof.
  intros Hc Hd Hopen Hpre fuel.
  apply load_file_returns_inv in Hpre as (r0 & Hr0 & Hs0).
  destruct r0 as [st'|m]; [|discriminate].
  unfold Session.GetOrCreate, Session.load. rewrite Hc, Hd.
  unfold Session.load_file, Decoder.NewDecoder.
  rewrite (load_loop_reaches_broken_line parse c rest Hopen vs Session.load_init
             fuel0 st' Hr0 fuel).
  reflexivity.
Qed.

Lemma load_broken_line_never_returns_witness :
  let parse := fun _ : string => 0%Z in
  let path := fun d k : string => d +:+ "/" +:+ k +:+ ".jsonl" in
  let meta := JObj [("_type", JStr "metadata"); ("key", JStr "cli:direct");
                    ("metadata", JObj []); ("last_consolidated", JNum 0)] in
  let hello := JObj [("role", JStr "user"); ("content", JStr "hello")] in
  let first_broken := [Decoder.Broken "{"; Decoder.Value hello] in
  let later_broken := [Decoder.Value meta; Decoder.Value hello; Decoder.Broken "{";
                       Decoder.Value hello] in
  Session.diverges
    (fun fuel => Session.GetOrCreate parse path fuel 0
                   (Session.mkManager "sessions" [] ∅ 1000 []
                      {[ path "sessions" "cli:direct" := first_broken ]}) "cli:direct")
  /\ Session.diverges
       (fun fuel => Session.GetOrCreate parse path fuel 0
                      (Session.mkManager "sessions" [] ∅ 1000 []
                         {[ path "sessions" "cli:direct" := later_broken ]}) "cli:direct").
Proof.
  intros parse path meta hello first_broken later_broken. split.
  - apply (load_broken_line_never_returns parse path 0 _ "cli:direct" []
             "{"%char [Decoder.Value hello] 1
             (Session.session_of_load 0 "cli:direct" Session.load_init)).
    + reflexivity.
    + vm_compute. reflexivity.
    + reflexivity.
    + reflexivity.
  - apply (load_broken_line_never_returns parse path 0 _ "cli:direct" [meta; hello]
             "{"%char [Decoder.Value hello] 3
             (Session.session_of_load 0 "cli:direct"
                (Session.mkLoad [Session.message_of_data
                                   [("role", JStr "user"); ("content", JStr "hello")]]
                   [] 0 0))).
    + reflexivity.
    + vm_compute. reflexivity.
    + reflexivity.
    + vm_compute. reflexivity.
Defined.

(** C10. The loader is not panic-free: when the first line is a
    record tagged [_type = "metadata"] whose ["metadata"] member is
    missing or is not an object, the unchecked type assertion stops
    [GetOrCreate] with a panic. *)
Theorem load_metadata_assertion_panics
  (parse : string -> Z) (path : string -> string -> string)
  (fuel : nat) (now : Z) (sm : Session.SessionManager) (key : string)
  (data : list (string * json)) (rest : list Decoder.chunk) :
  Session.cache sm !! key = None ->
  Session.disk sm !! path (Session.sessionsDir sm) key
  = Some (Decoder.Value (JObj data) :: rest) ->
  Session.is_metadata_record data = true ->
  (forall m, json_get data "metadata" <> Some (JObj m)) ->
  exists msg, Session.GetOrCreate parse path (S fuel) now sm key = Some (Panic msg).
Proof.
  intros Hc Hd Hm Hno.
  destruct (load_record_assertion_panics parse data Session.load_init Hm Hno) as [msg Hp].
  exists msg. unfold Session.GetOrCreate, Session.load. rewrite Hc, Hd.
  unfold Session.load_file, Decoder.NewDecoder.
  rewrite (load_loop_record parse fuel (JObj data) data rest Session.load_init eq_refl).
  rewrite Hp. reflexivity.
Qed.

Lemma load_metadata_assertion_panics_witness :
  let parse := fun _ : string => 0%Z in
  let path := fun d k : string => d +:+ "/" +:+ k +:+ ".jsonl" in
  let data := [("_type", JStr "metadata")] in
  let sm := Session.mkManager "sessions" [] ∅ 1000 []
              {[ path "sessions" "cli:direct" := [Decoder.Value (JObj data)] ]} in
  exists msg, Session.GetOrCreate parse path 1 0 sm "cli:direct" = Some (Panic msg).
Proof.
  intros parse path data sm.
  apply (load_metadata_assertion_panics parse path 0 0 sm "cli:direct" data []).
  - reflexivity.
  - vm_compute. reflexivity.
  - reflexivity.
  - intros m. vm_compute. discriminate.
Defined.


(** ** The tool registry *)

Lemma string_app_nil_r (s : string) : s +:+ "" = s.
Proof.
  induction s as [|c s IH]; [reflexivity|].
  transitivity (String c (s +:+ "")); [reflexivity | rewrite IH; reflexivity].
Qed.

Lemma string_app_assoc (a b c : string) : (a +:+ b) +:+ c = a +:+ (b +:+ c).
Proof.
  induction a as [|x a IH]; [reflexivity|].
  transitivity (String x ((a +:+ b) +:+ c)); [reflexivity | rewrite IH; reflexivity].
Qed.

Lemma join_contains (sep : string) (l : list string) (e : string) :
  e ∈ l -> Tools.contains (join sep l) e.
Proof.
  induction l as [|x l IH]; intros Hin.
  - inversion Hin.
  - apply elem_of_cons in Hin as [-> | Hin].
    + destruct l as [|y l].
      * exists "", "". simpl. rewrite string_app_nil_r. reflexivity.
      * exists "", (sep +:+ join sep (y :: l)). reflexivity.
    + destruct (IH Hin) as (pre & post & Heq). destruct l as [|y l].
      * inversion Hin.
      * exists (x +:+ sep +:+ pre), post.
        change (join sep (x :: y :: l)) with (x +:+ sep +:+ join sep (y :: l)).
        rewrite Heq. rewrite !string_app_assoc. reflexivity.
Qed.

Lemma contains_prefix (pre s e : string) :
  Tools.contains s e -> Tools.contains (pre +:+ s) e.
Proof.
  intros (a & b & ->). exists (pre +:+ a), b.
  rewrite !string_app_assoc. reflexivity.
Qed.

Lemma contains_suffix (post s e : string) :
  Tools.contains s e -> Tools.contains (s +:+ post) e.
Proof.
  intros (a & b & ->). exists a, (b +:+ post).
  rewrite !string_app_assoc. reflexivity.
Qed.

(** C8. [ToolRegistry.Execute] yields a string in every case (its
    result type has no error component): for a name that is not
    registered the text "Error: Tool '<name>' not found"; when the
    validator reports violations a text that contains each of them,
    the world being left as it was (the executor is not run); when the
    executor returns an error the text "Error executing <name>: <error>";
    and otherwise the executor's own result. *)
Theorem registry_execute_textual {World : Type}
  (r : Tools.ToolRegistry World) (name : string) (params : Tools.Params) (w : World) :
  (Tools.Get r name = None ->
     Tools.RegistryExecute r name params w
     = ("Error: Tool '" +:+ name +:+ "' not found", w))
  /\ (forall tool,
        Tools.Get r name = Some tool ->
        Tools.ValidateParams tool params <> [] ->
        exists text,
          Tools.RegistryExecute r name params w = (text, w)
          /\ text = "Error: Invalid parameters for tool '" +:+ name +:+ "': "
                    +:+ Tools.format_strings (Tools.ValidateParams tool params)
          /\ forall e, e ∈ Tools.ValidateParams tool params -> Tools.contains text e)
  /\ (forall tool,
        Tools.Get r name = Some tool ->
        Tools.ValidateParams tool params = [] ->
        forall out err w',
          Tools.Execute tool params w = ((out, Some err), w') ->
          Tools.RegistryExecute r name params w
          = ("Error executing " +:+ name +:+ ": " +:+ err, w'))
  /\ (forall tool,
        Tools.Get r name = Some tool ->
        Tools.ValidateParams tool params = [] ->
        forall out w',
          Tools.Execute tool params w = ((out, None), w') ->
          Tools.RegistryExecute r name params w = (out, w')).
Proof.
  unfold Tools.RegistryExecute. repeat split.
  - intros ->. reflexivity.
  - intros tool -> Hne.
    destruct (Tools.ValidateParams tool params) as [|e0 errs] eqn:Hv; [congruence|].
    simpl. eexists. split; [reflexivity|]. split; [reflexivity|].
    intros e He. unfold Tools.format_strings.
    do 4 apply contains_prefix. apply contains_suffix.
    apply join_contains, He.
  - intros tool -> -> out err w' ->. reflexivity.
  - intros tool -> -> out w' ->. reflexivity.
Qed.

Lemma registry_execute_textual_witness :
  let echo : Tools.Tool nat :=
    Tools.mkTool "echo"
      (fun params => match json_get params "text" with
                     | Some _ => []
                     | None => ["missing required parameter: text"]
                     end)
      (fun params calls =>
         match json_get params "text" with
         | Some (JStr s) => ((s, None), S calls)
         | _ => (("", Some "text must be a string"), S calls)
         end) in
  let r := Tools.Register Tools.NewToolRegistry echo in
  Tools.RegistryExecute r "nope" [] 0%nat = ("Error: Tool 'nope' not found", 0%nat)
  /\ (exists text,
        Tools.RegistryExecute r "echo" [] 0%nat = (text, 0%nat)
        /\ Tools.contains text "missing required parameter: text")
  /\ Tools.RegistryExecute r "echo" [("text", JNum 1)] 0%nat
     = ("Error executing echo: text must be a string", 1%nat)
  /\ Tools.RegistryExecute r "echo" [("text", JStr "hi")] 0%nat = ("hi", 1%nat).
Proof.
  intros echo r. split; [|split; [|split]].
  - apply (proj1 (registry_execute_textual r "nope" [] 0%nat)). reflexivity.
  - destruct (proj1 (proj2 (registry_execute_textual r "echo" [] 0%nat)) echo)
      as (text & Hrun & _ & Hall).
    + reflexivity.
    + simpl. discriminate.
    + exists text. split; [exact Hrun|]. apply Hall. simpl. apply list_elem_of_here.
  - apply (proj1 (proj2 (proj2 (registry_execute_textual r "echo" [("text", JNum 1)] 0%nat)))
             echo eq_refl eq_refl "" "text must be a string" 1%nat).
    reflexivity.
  - apply (proj2 (proj2 (proj2 (registry_execute_textual r "echo" [("text", JStr "hi")] 0%nat)))
             echo eq_refl eq_refl "hi" 1%nat).
    reflexivity.
Defined.

(** ** Subagents *)

Lemma bus_publish_inbound_open pick (b : Bus.MessageBus) msg :
  Bus.cclosed (Bus.inbound b) = false ->
  exists e b', Bus.PublishInbound pick b msg = Ok (e, b').
Proof.
  intros Hopen. unfold Bus.PublishInbound, Bus.select_publish, Bus.send, Bus.send_ready.
  rewrite Hopen. simpl.
  destruct (length (Bus.cbuf (Bus.inbound b)) <? Bus.ccap (Bus.inbound b))%nat,
    (Bus.done b), pick; simpl; eauto.
Qed.

Section SubagentProperties.
Import Subagent.
Variable World : Type.
Variable Chat : nat -> list Providers.Message -> Providers.chat_result.
Variable registry : Tools.ToolRegistry World.
Variable marshal : Tools.Params -> string.
Variable maxIterations : Z.
Variable generateTaskID : Z -> string.
Variable buildSubagentPrompt : string -> string.

Local Abbreviation run := (runSubagent World Chat registry marshal maxIterations buildSubagentPrompt).
Local Abbreviation subagent_iterate g s :=
  (Agent.iterate World Chat registry marshal Agent.to_provider_plain
     (Z.to_nat maxIterations) 0
     [Agent.mkCtx "system" (buildSubagentPrompt (g_task g)) [] [] "" "";
      Agent.mkCtx "user" (g_task g) [] [] "" ""] (world World s)).

Lemma announceResult_keeps_tasks pick now (s : SubagentManager World)
  taskID label task res ch chat status :
  Bus.cclosed (Bus.inbound (bus World s)) = false ->
  exists s', announceResult World pick now s taskID label task res ch chat status = Ok s'
    /\ runningTasks World s' = runningTasks World s.
Proof.
  intros Hopen. unfold announceResult.
  destruct (bus_publish_inbound_open pick (bus World s)
              (Bus.mkMessage "" "system" "subagent" (ch +:+ ":" +:+ chat)
                 (announce_content label
                    (if String.eqb status "error" then "failed" else "completed successfully")
                    task res) [] [] now "") Hopen) as (e & b' & ->).
  simpl. eexists. split; reflexivity.
Qed.

(** When the loop ends with a final text, or by reaching the
    iteration cap, the task is deleted from the map. *)
Lemma subagent_finished_removes_task pick now (s : SubagentManager World) g final msgs w :
  Bus.cclosed (Bus.inbound (bus World s)) = false ->
  subagent_iterate g s = (Agent.Finished final, msgs, w) ->
  exists s', run pick now s g = Ok s'
    /\ runningTasks World s' !! g_taskID g = None.
Proof.
  intros Hopen Hit. unfold runSubagent. rewrite Hit.
  destruct (announceResult_keeps_tasks pick now
              (mkManager World (runningTasks World s) (bus World s) w (cancelled World s))
              (g_taskID g) (g_label g) (g_task g)
              (if String.eqb final ""
               then "Task completed but no final response was generated." else final)
              (g_originChannel g) (g_originChatID g) "ok" Hopen) as (s1 & -> & Htasks).
  simpl. eexists. split; [reflexivity|]. simpl. apply lookup_delete_eq.
Qed.

(** [CancelTask] deletes the task from the map. *)
Lemma subagent_cancel_removes_task (s : SubagentManager World) taskID :
  runningTasks World (CancelTask World s taskID).2 !! taskID = None.
Proof.
  unfold CancelTask. destruct (runningTasks World s !! taskID) eqn:E; simpl.
  - apply lookup_delete_eq.
  - exact E.
Qed.

(** When [provider.Chat] fails, [runSubagent] announces the failure
    and returns; the map of running tasks is what it was. *)
Lemma subagent_llm_error_keeps_tasks pick now (s : SubagentManager World) g err msgs w :
  Bus.cclosed (Bus.inbound (bus World s)) = false ->
  subagent_iterate g s = (Agent.LLMError err, msgs, w) ->
  exists s', run pick now s g = Ok s'
    /\ runningTasks World s' = runningTasks World s.
Proof.
  intros Hopen Hit. unfold runSubagent. rewrite Hit.
  apply (announceResult_keeps_tasks pick now
           (mkManager World (runningTasks World s) (bus World s) w (cancelled World s))).
  exact Hopen.
Qed.

End SubagentProperties.

(** C9. The task of a spawned subagent stays in the map of running
    tasks when its loop ends because the LLM call failed: after
    [Spawn] and a [runSubagent] whose first [Chat] returns an error,
    the task is still registered under its id. *)
Theorem subagent_llm_error_leaks_task {World : Type}
  (Chat : nat -> list Providers.Message -> Providers.chat_result)
  (registry : Tools.ToolRegistry World) (marshal : Tools.Params -> string)
  (maxIterations : Z) (generateTaskID : Z -> string)
  (buildSubagentPrompt : string -> string)
  (pick : bool) (t0 t1 : Z) (s : Subagent.SubagentManager World)
  (task label originChannel originChatID err : string) :
  (0 < maxIterations)%Z ->
  (forall msgs, Chat 0%nat msgs = Providers.ChatErr err) ->
  Bus.cclosed (Bus.inbound (Subagent.bus World s)) = false ->
  exists ack g s1 s2,
    Subagent.Spawn World generateTaskID t0 s task label originChannel originChatID
    = (ack, g, s1)
    /\ is_Some (Subagent.runningTasks World s1 !! Subagent.g_taskID g)
    /\ Subagent.runSubagent World Chat registry marshal maxIterations
         buildSubagentPrompt pick t1 s1 g = Ok s2
    /\ is_Some (Subagent.runningTasks World s2 !! Subagent.g_taskID g).
Proof.
  intros Hmax Hchat Hopen.
  do 2 eexists. eexists.
  assert (exists k, Z.to_nat maxIterations = S k) as [k Hk].
  { exists (Nat.pred (Z.to_nat maxIterations)). lia. }
  set (s1 := (Subagent.Spawn World generateTaskID t0 s task label
                originChannel originChatID).2).
  set (g := (Subagent.Spawn World generateTaskID t0 s task label
                originChannel originChatID).1.2).
  destruct (subagent_llm_error_keeps_tasks World Chat registry marshal maxIterations
              buildSubagentPrompt pick t1 s1 g err
              [Agent.mkCtx "system" (buildSubagentPrompt (Subagent.g_task g)) [] [] "" "";
               Agent.mkCtx "user" (Subagent.g_task g) [] [] "" ""]
              (Subagent.world World s1)) as (s2 & Hrun & Htasks).
  - exact Hopen.
  - rewrite Hk. simpl. rewrite Hchat. reflexivity.
  - exists s2. split; [reflexivity|].
    assert (is_Some (Subagent.runningTasks World s1 !! Subagent.g_taskID g)) as Hin.
    { subst s1 g. simpl. rewrite lookup_insert_eq. eauto. }
    split; [exact Hin|]. split; [exact Hrun|]. rewrite Htasks. exact Hin.
Qed.

Lemma subagent_llm_error_leaks_task_witness :
  let Chat := fun (_ : nat) (_ : list Providers.Message) => Providers.ChatErr "timeout" in
  let registry : Tools.ToolRegistry unit := Tools.NewToolRegistry in
  let marshal := fun _ : Tools.Params => "{}" in
  let s := Subagent.mkManager unit ∅
             (Bus.mkBus (Bus.mkChan [] 10 false) (Bus.mkChan [] 10 false) false) tt [] in
  exists ack g s1 s2,
    Subagent.Spawn unit (fun _ => "17c3a5b0") 0 s "compute X" "calc" "cli" "direct"
    = (ack, g, s1)
    /\ is_Some (Subagent.runningTasks unit s1 !! Subagent.g_taskID g)
    /\ Subagent.runSubagent unit Chat registry marshal 20 (fun t => t) true 1 s1 g = Ok s2
    /\ is_Some (Subagent.runningTasks unit s2 !! Subagent.g_taskID g).
Proof.
  intros Chat registry marshal s.
  apply (subagent_llm_error_leaks_task (World := unit) Chat registry marshal 20
           (fun _ => "17c3a5b0") (fun t => t) true 0 1 s
           "compute X" "calc" "cli" "direct" "timeout").
  - lia.
  - reflexivity.
  - reflexivity.
Defined.

(** ** The agent loop *)

Lemma update_obj_lookup (sm : Session.SessionManager) p (old new : Session.Session) :
  Session.objs sm !! p = Some old ->
  Session.objs (Session.update_obj sm p new) !! p = Some new.
Proof.
  intros H. unfold Session.update_obj. simpl.
  apply list_lookup_insert_eq. eapply lookup_lt_Some, H.
Qed.

Lemma final_reply_nonempty (final fallback : string) :
  fallback <> "" -> (if String.eqb final "" then fallback else final) <> "".
Proof.
  intros Hf. destruct (String.eqb_spec final ""); assumption.
Qed.

Lemma slice_nonempty {A} (l : list A) (lo n : nat) :
  (lo < length l)%nat -> (0 < n)%nat -> take n (drop lo l) <> [].
Proof.
  intros Hlo Hn Hnil. apply (f_equal length) in Hnil.
  rewrite length_take, length_drop in Hnil. simpl in Hnil. lia.
Qed.

Section AgentProperties.
Import Agent.
Variable World : Type.
Variable Chat : nat -> list Providers.Message -> Providers.chat_result.
Variable registry : Tools.ToolRegistry World.
Variable marshal : Tools.Params -> string.
Variable maxIterations : Z.
Variable memoryWindow : Z.
Variable parseRFC3339 : string -> Z.
Variable formatRFC3339 : Z -> string.
Variable sessionPath : string -> string -> string.
Variable BuildMessages :
  list Session.Message -> string -> string -> string -> list string -> list CtxMessage.
Variable setToolContext : string -> string -> World -> World.
Variable setOriginContext : string -> string -> World -> World.
Variable readLongTerm : World -> string.

Lemma ConsolidateIfNeeded_sessions (a : AgentLoop World) key p sess :
  sessions World (ConsolidateIfNeeded World memoryWindow a key p sess) = sessions World a
  /\ world World (ConsolidateIfNeeded World memoryWindow a key p sess) = world World a.
Proof.
  unfold ConsolidateIfNeeded.
  repeat match goal with
         | |- context [if ?c then _ else _] => destruct c
         | |- context [match ?c with _ => _ end] => destruct c
         end; split; reflexivity.
Qed.

Lemma GetHistory_ok (s : Session.Session) :
  (0 <= memoryWindow)%Z -> exists history, GetHistory memoryWindow s = Ok history.
Proof.
  intros Hw. unfold GetHistory.
  destruct (Z.ltb_spec memoryWindow (Z.of_nat (length (Session.Messages s))));
    match goal with |- context [if ?c then _ else _] => destruct c eqn:E end;
    try (apply Z.ltb_lt in E; lia); eauto.
Qed.

(** When [provider.Chat] fails during the turn, [processMessage]
    returns the error; nothing is appended to the session and nothing
    is written to disk. *)
Lemma process_turn_llm_error_appends_nothing
  (fuel : nat) (clk : clock) (a : AgentLoop World) (msg : Bus.InboundMessage)
  (p : nat) (sm1 : Session.SessionManager) (sess : Session.Session)
  (history : list Session.Message) (err : string) (w2 : World) :
  let key := if String.eqb (Bus.SessionKey msg) ""
             then fmt_key (Bus.Channel msg) (Bus.ChatID msg)
             else Bus.SessionKey msg in
  Bus.Channel msg <> "system" ->
  Bus.Content msg <> "/new" ->
  Bus.Content msg <> "/help" ->
  Session.GetOrCreate parseRFC3339 sessionPath fuel (t_open clk) (sessions World a) key
  = Some (Ok (p, sm1)) ->
  Session.objs sm1 !! p = Some sess ->
  GetHistory memoryWindow sess = Ok history ->
  runAgentLoop World Chat registry marshal maxIterations
    (BuildMessages history (Bus.Content msg) (Bus.Channel msg) (Bus.ChatID msg)
       (Bus.Media msg))
    (setToolContext (Bus.Channel msg) (Bus.ChatID msg) (world World a))
  = (LLMError err, w2) ->
  exists a' : AgentLoop World,
    processMessage World Chat registry marshal maxIterations memoryWindow
      parseRFC3339 formatRFC3339 sessionPath BuildMessages setToolContext
      setOriginContext fuel clk a msg
    = Some (Ok (Failed err, a'))
    /\ sessions World a' = sm1.
Proof.
  intros key Hsys Hnew Hhelp Hget Hobj Hhist Hloop.
  unfold processMessage.
  destruct (String.eqb_spec (Bus.Channel msg) "system") as [|_]; [contradiction|].
  fold key. rewrite Hget.
  destruct (String.eqb_spec (Bus.Content msg) "/new") as [|_]; [contradiction|].
  destruct (String.eqb_spec (Bus.Content msg) "/help") as [|_]; [contradiction|].
  rewrite Hobj, Hhist. simpl. rewrite Hloop.
  eexists. split; reflexivity.
Qed.

(** C6. A turn that is not a command and is not a system
    announcement, and whose iteration ends without an LLM error,
    leaves the session with exactly two more entries: the user's input
    with role "user" and then the final reply with role "assistant".
    No "tool" entry is added. An empty final reply is replaced by the
    sentence "I've completed processing but have no response to give.",
    so the reply stored and sent is never empty; the session written
    to disk is the one just described. *)
Theorem process_turn_appends_user_and_reply
  (fuel : nat) (clk : clock) (a : AgentLoop World) (msg : Bus.InboundMessage)
  (p : nat) (sm1 : Session.SessionManager) (sess : Session.Session)
  (history : list Session.Message) (final : string) (w2 : World) :
  let key := if String.eqb (Bus.SessionKey msg) ""
             then fmt_key (Bus.Channel msg) (Bus.ChatID msg)
             else Bus.SessionKey msg in
  Bus.Channel msg <> "system" ->
  Bus.Content msg <> "/new" ->
  Bus.Content msg <> "/help" ->
  Session.GetOrCreate parseRFC3339 sessionPath fuel (t_open clk) (sessions World a) key
  = Some (Ok (p, sm1)) ->
  Session.objs sm1 !! p = Some sess ->
  GetHistory memoryWindow sess = Ok history ->
  runAgentLoop World Chat registry marshal maxIterations
    (BuildMessages history (Bus.Content msg) (Bus.Channel msg) (Bus.ChatID msg)
       (Bus.Media msg))
    (setToolContext (Bus.Channel msg) (Bus.ChatID msg) (world World a))
  = (Finished final, w2) ->
  exists (a' : AgentLoop World) (finalContent : string) (sess' : Session.Session),
    processMessage World Chat registry marshal maxIterations memoryWindow
      parseRFC3339 formatRFC3339 sessionPath BuildMessages setToolContext
      setOriginContext fuel clk a msg
    = Some (Ok (Reply (Bus.mkOutbound (Bus.Channel msg) (Bus.ChatID msg) finalContent
                         [] (Bus.Metadata msg)), a'))
    /\ finalContent = (if String.eqb final ""
                       then "I've completed processing but have no response to give."
                       else final)
    /\ finalContent <> ""
    /\ Session.objs (sessions World a') !! p = Some sess'
    /\ Session.Messages sess'
       = Session.Messages sess
         ++ [Session.mkMessage "user" (Bus.Content msg) (formatRFC3339 (t_user clk)) [] "" "";
             Session.mkMessage "assistant" finalContent (formatRFC3339 (t_reply clk)) [] "" ""]
    /\ Session.disk (sessions World a')
         !! sessionPath (Session.sessionsDir sm1) (Session.Key sess)
       = Some (Session.file_of_session formatRFC3339 sess').
Proof.
  intros key Hsys Hnew Hhelp Hget Hobj Hhist Hloop.
  unfold processMessage.
  destruct (String.eqb_spec (Bus.Channel msg) "system") as [|_]; [contradiction|].
  fold key. rewrite Hget.
  destruct (String.eqb_spec (Bus.Content msg) "/new") as [|_]; [contradiction|].
  destruct (String.eqb_spec (Bus.Content msg) "/help") as [|_]; [contradiction|].
  rewrite Hobj, Hhist. simpl. rewrite Hloop.
  set (finalContent := if String.eqb final ""
                       then "I've completed processing but have no response to give."
                       else final).
  set (sess2 := Session.AddMessage formatRFC3339 (t_reply clk) "assistant" finalContent []
                  (Session.AddMessage formatRFC3339 (t_user clk) "user" (Bus.Content msg) [] sess)).
  eexists. exists finalContent, sess2.
  split; [reflexivity|]. split; [reflexivity|].
  split; [apply final_reply_nonempty; discriminate|].
  pose proof (ConsolidateIfNeeded_sessions
    (with_world World
       (with_sessions World
          (SetToolContext World setToolContext (with_sessions World a sm1)
             (Bus.Channel msg) (Bus.ChatID msg))
          (Session.Save sessionPath formatRFC3339 (Session.update_obj sm1 p sess2) p sess2))
       w2) key p sess2) as [Hs _].
  rewrite Hs. simpl. split; [|split].
  - apply list_lookup_insert_eq. eapply lookup_lt_Some, Hobj.
  - rewrite <- app_assoc. reflexivity.
  - apply lookup_insert_eq.
Qed.

End AgentProperties.

Lemma process_turn_appends_user_and_reply_witness :
  let Chat := fun (n : nat) (_ : list Providers.Message) =>
    match n with
    | O => Providers.ChatOk
             (Providers.mkResponse ""
                [Providers.mkToolCallRequest "call_1" "filesystem"
                   [("operation", JStr "list"); ("path", JStr ".")]])
    | S _ => Providers.ChatOk (Providers.mkResponse "There is one file: README.md." [])
    end in
  let registry : Tools.ToolRegistry unit :=
    Tools.Register Tools.NewToolRegistry
      (Tools.mkTool "filesystem" (fun _ => [])
         (fun _ w => (("README.md (12 bytes)", None), w))) in
  let marshal := fun _ : Tools.Params => "{}" in
  let path := fun d k : string => d +:+ "/" +:+ k +:+ ".jsonl" in
  let build := fun (h : list Session.Message) (c ch id : string) (_ : list string) =>
    [Agent.mkCtx "system" "You are nanogrip." [] [] "" "";
     Agent.mkCtx "user" c [] [] "" ""] in
  let a := Agent.mkAgent unit (Session.mkManager "sessions" [] ∅ 1000 [] ∅) tt ∅ "" "" [] in
  let msg := Bus.mkMessage "1" "cli" "user" "direct" "list files" [] [] 0 "" in
  let clk := Agent.mkClock 10 20 30 in
  exists (a' : Agent.AgentLoop unit) (finalContent : string) (sess' : Session.Session),
    Agent.processMessage unit Chat registry marshal 20 50 (fun _ => 0%Z) (fun _ => "t")
      path build (fun _ _ w => w) (fun _ _ w => w) 1 clk a msg
    = Some (Ok (Agent.Reply (Bus.mkOutbound "cli" "direct" finalContent [] []), a'))
    /\ finalContent = "There is one file: README.md."
    /\ finalContent <> ""
    /\ Session.objs (Agent.sessions unit a') !! 0%nat = Some sess'
    /\ Session.Messages sess'
       = [Session.mkMessage "user" "list files" "t" [] "" "";
          Session.mkMessage "assistant" finalContent "t" [] "" ""]
    /\ Session.disk (Agent.sessions unit a') !! path "sessions" "cli:direct"
       = Some (Session.file_of_session (fun _ => "t") sess').
Proof.
  intros Chat registry marshal path build a msg clk.
  destruct (process_turn_appends_user_and_reply unit Chat registry marshal 20 50
              (fun _ => 0%Z) (fun _ => "t") path build (fun _ _ w => w)
              (fun _ _ w => w) 1 clk a msg 0
              (Session.mkManager "sessions" [Session.NewSession 10 "cli:direct"]
                 {[ "cli:direct" := 0%nat ]} 1000 ["cli:direct"] ∅)
              (Session.NewSession 10 "cli:direct") []
              "There is one file: README.md." tt)
    as (a' & fc & sess' & Hrun & Hfc & Hne & Hobj & Hmsgs & Hdisk).
  - discriminate.
  - discriminate.
  - discriminate.
  - vm_compute. reflexivity.
  - reflexivity.
  - reflexivity.
  - reflexivity.
  - exists a', fc, sess'. cbv in Hfc. subst fc.
    repeat split; assumption.
Defined.

(** ** Memory consolidation *)

Section ConsolidationProperties.
Import Agent.
Variable World : Type.
Variable Chat : nat -> list Providers.Message -> Providers.chat_result.
Variable registry : Tools.ToolRegistry World.
Variable formatRFC3339 : Z -> string.
Variable sessionPath : string -> string -> string.
Variable readLongTerm : World -> string.

Local Abbreviation consolidate :=
  (consolidateMemory World Chat registry formatRFC3339 sessionPath readLongTerm).

(** Whatever the LLM answers, as long as the call itself succeeds,
    the cursor moves to the end of the slice and the session is
    saved. *)
Lemma consolidate_advances_on_any_response
  (a : AgentLoop World) (key : string) (p : nat) (keepCount : Z)
  (sess : Session.Session) (resp : Providers.LLMResponse) :
  Session.objs (sessions World a) !! p = Some sess ->
  (0 <= Session.LastConsolidated sess < Z.of_nat (length (Session.Messages sess)))%Z ->
  (0 < keepCount)%Z ->
  (forall msgs, Chat 0%nat msgs = Providers.ChatOk resp) ->
  exists a' sess',
    consolidate a key p keepCount = Ok a'
    /\ Session.objs (sessions World a') !! p = Some sess'
    /\ Session.LastConsolidated sess'
       = Z.min (Session.LastConsolidated sess + keepCount)
               (Z.of_nat (length (Session.Messages sess)))
    /\ Session.Messages sess' = Session.Messages sess
    /\ world World a'
       = (if Providers.HasToolCalls resp
          then execute_save_memory World registry (Providers.RToolCalls resp) (world World a)
          else world World a)
    /\ Session.disk (sessions World a')
         !! sessionPath (Session.sessionsDir (sessions World a)) (Session.Key sess)
       = Some (Session.file_of_session formatRFC3339 sess').
Proof.
  intros Hobj Hlc Hkeep Hchat. unfold consolidateMemory. rewrite Hobj.
  set (total := Z.of_nat (length (Session.Messages sess))) in *.
  set (lc := Session.LastConsolidated sess) in *.
  set (e := if (total <? lc + keepCount)%Z then total else (lc + keepCount)%Z).
  assert (e = Z.min (lc + keepCount) total) as He.
  { subst e. destruct (Z.ltb_spec total (lc + keepCount)); lia. }
  assert ((e <=? lc)%Z = false) as -> by (apply Z.leb_gt; lia).
  assert ((lc <? 0)%Z = false) as -> by (apply Z.ltb_ge; lia).
  destruct (take (Z.to_nat (e - lc)) (drop (Z.to_nat lc) (Session.Messages sess)))
    as [|m0 old] eqn:Hold.
  { exfalso. revert Hold. apply slice_nonempty; subst total; lia. }
  rewrite Hchat. do 2 eexists. split; [reflexivity|]. simpl.
  split; [apply list_lookup_insert_eq; eapply lookup_lt_Some, Hobj|].
  split; [exact He|]. split; [reflexivity|]. split; [reflexivity|].
  apply lookup_insert_eq.
Qed.

(** When the LLM call fails nothing changes. *)
Lemma consolidate_unchanged_on_llm_error
  (a : AgentLoop World) (key : string) (p : nat) (keepCount : Z)
  (sess : Session.Session) (err : string) :
  Session.objs (sessions World a) !! p = Some sess ->
  (0 <= Session.LastConsolidated sess)%Z ->
  (forall msgs, Chat 0%nat msgs = Providers.ChatErr err) ->
  consolidate a key p keepCount = Ok a.
Proof.
  intros Hobj Hlc Hchat. unfold consolidateMemory. rewrite Hobj.
  match goal with |- context [(?e <=? ?lc)%Z] => destruct (e <=? lc)%Z end;
    [reflexivity|].
  assert ((Session.LastConsolidated sess <? 0)%Z = false) as -> by (apply Z.ltb_ge; lia).
  destruct (take _ _); [reflexivity|]. rewrite Hchat. reflexivity.
Qed.

End ConsolidationProperties.

(** C3. The cursor is advanced also when the LLM does not call
    [save_memory]: for a response without tool calls,
    [consolidateMemory] runs no tool, sets [LastConsolidated] to the
    end of the slice (beyond its old value) and saves the session. *)
Theorem consolidate_advances_without_tool_call {World : Type}
  (Chat : nat -> list Providers.Message -> Providers.chat_result)
  (registry : Tools.ToolRegistry World)
  (formatRFC3339 : Z -> string) (sessionPath : string -> string -> string)
  (readLongTerm : World -> string)
  (a : Agent.AgentLoop World) (key : string) (p : nat) (keepCount : Z)
  (sess : Session.Session) (resp : Providers.LLMResponse) :
  Session.objs (Agent.sessions World a) !! p = Some sess ->
  (0 <= Session.LastConsolidated sess < Z.of_nat (length (Session.Messages sess)))%Z ->
  (0 < keepCount)%Z ->
  (forall msgs, Chat 0%nat msgs = Providers.ChatOk resp) ->
  Providers.RToolCalls resp = [] ->
  exists a' sess',
    Agent.consolidateMemory World Chat registry formatRFC3339 sessionPath readLongTerm
      a key p keepCount = Ok a'
    /\ Agent.world World a' = Agent.world World a
    /\ Session.objs (Agent.sessions World a') !! p = Some sess'
    /\ Session.LastConsolidated sess'
       = Z.min (Session.LastConsolidated sess + keepCount)
               (Z.of_nat (length (Session.Messages sess)))
    /\ (Session.LastConsolidated sess < Session.LastConsolidated sess')%Z
    /\ Session.disk (Agent.sessions World a')
         !! sessionPath (Session.sessionsDir (Agent.sessions World a)) (Session.Key sess)
       = Some (Session.file_of_session formatRFC3339 sess').
Proof.
  intros Hobj Hlc Hkeep Hchat Hnone.
  destruct (consolidate_advances_on_any_response World Chat registry formatRFC3339
              sessionPath readLongTerm a key p keepCount sess resp Hobj Hlc Hkeep Hchat)
    as (a' & sess' & Hrun & Hp & Hcur & Hmsgs & Hworld & Hdisk).
  exists a', sess'. split; [exact Hrun|].
  split. { rewrite Hworld. unfold Providers.HasToolCalls. rewrite Hnone. reflexivity. }
  split; [exact Hp|]. split; [exact Hcur|]. split; [lia|]. exact Hdisk.
Qed.

Lemma consolidate_advances_without_tool_call_witness :
  let Chat := fun (_ : nat) (_ : list Providers.Message) =>
    Providers.ChatOk (Providers.mkResponse "Nothing worth saving." []) in
  let registry : Tools.ToolRegistry unit := Tools.NewToolRegistry in
  let path := fun d k : string => d +:+ "/" +:+ k +:+ ".jsonl" in
  let sess := Session.mkSession "cli:direct"
                [Session.mkMessage "user" "2+2?" "2026-01-01T10:00:00Z" [] "" "";
                 Session.mkMessage "assistant" "4" "2026-01-01T10:00:01Z" [] "" ""]
                0 0 [] 0 in
  let a := Agent.mkAgent unit
             (Session.mkManager "sessions" [sess] {[ "cli:direct" := 0%nat ]} 1000
                ["cli:direct"] ∅) tt ∅ "" "" [] in
  exists a' sess',
    Agent.consolidateMemory unit Chat registry (fun _ => "t") path (fun _ => "")
      a "cli:direct" 0 1 = Ok a'
    /\ Agent.world unit a' = tt
    /\ Session.objs (Agent.sessions unit a') !! 0%nat = Some sess'
    /\ Session.LastConsolidated sess' = 1%Z
    /\ (0 < Session.LastConsolidated sess')%Z
    /\ Session.disk (Agent.sessions unit a') !! path "sessions" "cli:direct"
       = Some (Session.file_of_session (fun _ => "t") sess').
Proof.
  intros Chat registry path sess a.
  apply (consolidate_advances_without_tool_call (World := unit) Chat registry
           (fun _ => "t") path (fun _ => "") a "cli:direct" 0 1 sess
           (Providers.mkResponse "Nothing worth saving." [])).
  - reflexivity.
  - simpl. lia.
  - lia.
  - reflexivity.
  - reflexivity.
Defined.

(** ** The binary heap *)

Section HeapProperties.
Import Heap.
Context {A : Type} (key : A -> Z).

Lemma heap_Swap_length (h : list A) i j : length (Swap h i j) = length h.
Proof.
  unfold Swap. destruct (h !! i), (h !! j); try reflexivity.
  rewrite !length_insert. reflexivity.
Qed.

Lemma heap_Swap_lookup (h : list A) i j k :
  (i < length h)%nat -> (j < length h)%nat ->
  Swap h i j !! k
  = if decide (k = i) then h !! j else if decide (k = j) then h !! i else h !! k.
Proof.
  intros Hi Hj.
  destruct (lookup_lt_is_Some_2 h i Hi) as [x Hx].
  destruct (lookup_lt_is_Some_2 h j Hj) as [y Hy].
  unfold Swap. rewrite Hx, Hy.
  destruct (decide (k = i)) as [->|Hki].
  - rewrite list_lookup_insert_eq by (rewrite length_insert; lia). reflexivity.
  - rewrite list_lookup_insert_ne by congruence.
    destruct (decide (k = j)) as [->|Hkj].
    + rewrite list_lookup_insert_eq by lia. reflexivity.
    + rewrite list_lookup_insert_ne by congruence. reflexivity.
Qed.

Lemma heap_Swap_elem (h : list A) i j x :
  (i < length h)%nat -> (j < length h)%nat -> x ∈ Swap h i j <-> x ∈ h.
Proof.
  intros Hi Hj. rewrite !list_elem_of_lookup. split; intros [k Hk].
  - rewrite heap_Swap_lookup in Hk by assumption.
    repeat case_decide; eauto.
  - destruct (decide (k = i)) as [->|Hki]; [|destruct (decide (k = j)) as [->|Hkj]].
    + exists j. rewrite heap_Swap_lookup by assumption.
      repeat case_decide; subst; congruence.
    + exists i. rewrite heap_Swap_lookup by assumption.
      repeat case_decide; subst; congruence.
    + exists k. rewrite heap_Swap_lookup by assumption.
      repeat case_decide; subst; congruence.
Qed.

Lemma heap_Swap_NoDup (h : list A) i j :
  (i < length h)%nat -> (j < length h)%nat -> NoDup h -> NoDup (Swap h i j).
Proof.
  intros Hi Hj. rewrite !NoDup_alt. intros Hnd a b x Ha Hb.
  rewrite heap_Swap_lookup in Ha, Hb by assumption.
  repeat case_decide; subst; try reflexivity;
    match goal with
    | H1 : h !! ?u = Some x, H2 : h !! ?v = Some x |- _ =>
        pose proof (Hnd u v x H1 H2); congruence
    end.
Qed.

Lemma heap_K_Swap (h : list A) i j k :
  (i < length h)%nat -> (j < length h)%nat ->
  key_at key (Swap h i j) k = if decide (k = i) then key_at key h j else if decide (k = j) then key_at key h i else key_at key h k.
Proof.
  intros Hi Hj. unfold key_at. rewrite heap_Swap_lookup by assumption.
  repeat case_decide; reflexivity.
Qed.

Lemma heap_Less_K (h : list A) a b :
  (a < length h)%nat -> (b < length h)%nat ->
  Less key h a b = (key_at key h a <? key_at key h b)%Z.
Proof.
  intros Ha Hb. unfold Less, key_at, less.
  destruct (lookup_lt_is_Some_2 h a Ha) as [x ->].
  destruct (lookup_lt_is_Some_2 h b Hb) as [y ->]. reflexivity.
Qed.

Lemma heap_ordered_K (h : list A) p c :
  ordered key h p c <-> ((p < length h)%nat -> (c < length h)%nat -> (key_at key h p <= key_at key h c)%Z).
Proof.
  unfold ordered, key_at. split.
  - intros H Hp Hc.
    destruct (lookup_lt_is_Some_2 h p Hp) as [x Hx].
    destruct (lookup_lt_is_Some_2 h c Hc) as [y Hy].
    rewrite Hx, Hy. eauto.
  - intros H x y Hx Hy.
    pose proof (lookup_lt_Some _ _ _ Hx). pose proof (lookup_lt_Some _ _ _ Hy).
    rewrite Hx, Hy in H. auto.
Qed.

Lemma heap_upto_K (h : list A) n :
  (n <= length h)%nat ->
  heap_upto key h n <-> (forall c, (0 < c < n)%nat -> (key_at key h ((c - 1) / 2) <= key_at key h c)%Z).
Proof.
  intros Hn. unfold heap_upto. split; intros H c Hc.
  - apply heap_ordered_K; [apply H, Hc | lia | lia].
  - apply heap_ordered_K. intros _ _. apply H, Hc.
Qed.

Lemma heap_parent_lin (c : nat) :
  (c = 0 /\ (c - 1) / 2 = 0 \/ c = 2 * ((c - 1) / 2) + 1 \/ c = 2 * ((c - 1) / 2) + 2)%nat.
Proof. lia. Qed.

(** Replaces the parent position of [t] by a variable that is tied to
    [t] by linear facts only. *)
Ltac heap_parent t :=
  let H := fresh "Hpar" in
  let E := fresh "E" in
  let p := fresh "p" in
  pose proof (heap_parent_lin t) as H;
  remember ((t - 1) / 2)%nat as p eqn:E; clear E.

Ltac heap_parents :=
  repeat match goal with
         | |- context [((?t - 1) / 2)%nat] => is_var t; heap_parent t
         | H : context [((?t - 1) / 2)%nat] |- _ => is_var t; heap_parent t
         end.

(** *** [up] *)

Lemma heap_up_loop_unfold fuel (h : list A) j :
  up_loop key (S fuel) h j
  = if ((j - 1) / 2 =? j)%nat || negb (Less key h j ((j - 1) / 2)) then h
    else up_loop key fuel (Swap h ((j - 1) / 2) j) ((j - 1) / 2).
Proof. reflexivity. Qed.

Lemma heap_up_loop_spec fuel : forall (h : list A) j,
  (j < fuel)%nat -> (j < length h)%nat -> up_inv key h j ->
  is_heap key (up_loop key fuel h j)
  /\ length (up_loop key fuel h j) = length h
  /\ (forall x, x ∈ up_loop key fuel h j <-> x ∈ h)
  /\ (NoDup h -> NoDup (up_loop key fuel h j)).
Proof.
  induction fuel as [|fuel IH]; intros h j Hfuel Hj [Hinv1 Hinv2]; [lia|].
  rewrite heap_up_loop_unfold.
  destruct (Nat.eqb_spec ((j - 1) / 2) j) as [Hroot | Hnroot]; cbn [orb negb].
  { split; [|split; [reflexivity | split; [reflexivity | auto]]].
    apply heap_upto_K; [lia|]. intros c Hc. apply Hinv1; lia. }
  rewrite heap_Less_K by lia.
  destruct (Z.ltb_spec (key_at key h j) (key_at key h ((j - 1) / 2))) as [Hlt | Hge]; cbn [orb negb].
  2: { split; [|split; [reflexivity | split; [reflexivity | auto]]].
       apply heap_upto_K; [lia|]. intros c Hc.
       destruct (decide (c = j)) as [->|Hcj]; [lia | apply Hinv1; lia]. }
  remember ((j - 1) / 2)%nat as i eqn:Hi.
  assert (i < j)%nat as Hij by lia.
  destruct (IH (Swap h i j) i) as (Hheap & Hlen & Helem & Hnd).
  - lia.
  - rewrite heap_Swap_length. lia.
  - split.
    + intros c Hc Hci. rewrite heap_Swap_length in Hc.
      rewrite !heap_K_Swap by lia.
      pose proof (Hinv1 c Hc) as H1. pose proof (Hinv2 c Hc) as H2.
      pose proof (Hinv1 i) as H3.
      clear Hinv1 Hinv2 IH Hnroot.
      repeat case_decide; subst; heap_parents; subst; lia.
    + intros c Hc Hpar Hi0. rewrite heap_Swap_length in Hc.
      rewrite !heap_K_Swap by lia.
      pose proof (Hinv1 c Hc) as H1. pose proof (Hinv1 i) as H3.
      clear Hinv1 Hinv2 IH Hnroot.
      repeat case_decide; subst; heap_parents; subst; lia.
  - rewrite heap_Swap_length in Hlen.
    split; [exact Hheap|]. split; [exact Hlen|]. split.
    + intros x. rewrite Helem. apply heap_Swap_elem; lia.
    + intros Hh. apply Hnd, heap_Swap_NoDup; [lia | lia | exact Hh].
Qed.

(** *** [down] *)

Lemma heap_down_loop_unfold fuel (h : list A) i n :
  down_loop key (S fuel) h i n
  = if (n <=? 2 * i + 1)%nat then h
    else
      let j := if (2 * i + 1 + 1 <? n)%nat && Less key h (2 * i + 1 + 1) (2 * i + 1)
               then (2 * i + 1 + 1)%nat else (2 * i + 1)%nat in
      if negb (Less key h j i) then h
      else down_loop key fuel (Swap h i j) j n.
Proof. reflexivity. Qed.

Lemma heap_down_loop_spec fuel : forall (h : list A) i n,
  (n <= length h)%nat -> (n - i <= fuel)%nat -> down_inv key h i n ->
  heap_upto key (down_loop key fuel h i n) n
  /\ length (down_loop key fuel h i n) = length h
  /\ (forall k, (n <= k)%nat -> down_loop key fuel h i n !! k = h !! k)
  /\ (forall x, x ∈ down_loop key fuel h i n <-> x ∈ h)
  /\ (NoDup h -> NoDup (down_loop key fuel h i n)).
Proof.
  induction fuel as [|fuel IH]; intros h i n Hn Hfuel [Hinv1 Hinv2].
  { simpl. split; [|split; [reflexivity | split; [reflexivity | split; [reflexivity | auto]]]].
    apply heap_upto_K; [lia|]. intros c Hc. apply Hinv1; lia. }
  rewrite heap_down_loop_unfold.
  destruct (Nat.leb_spec n (2 * i + 1)) as [Hleaf | Hchild].
  { split; [|split; [reflexivity | split; [reflexivity | split; [reflexivity | auto]]]].
    apply heap_upto_K; [lia|]. intros c Hc. apply Hinv1; lia. }
  cbv zeta.
  remember (2 * i + 1)%nat as j1 eqn:Hj1.
  assert (exists j, j = (if (j1 + 1 <? n)%nat && Less key h (j1 + 1) j1
                         then (j1 + 1)%nat else j1)
                    /\ (j = j1 \/ j = (j1 + 1)%nat) /\ (j < n)%nat
                    /\ (key_at key h j <= key_at key h j1)%Z
                    /\ ((j1 + 1 < n)%nat -> (key_at key h j <= key_at key h (j1 + 1))%Z))
    as (j & <- & Hj12 & Hjn & Hjl & Hjr).
  { eexists. split; [reflexivity|].
    destruct (Nat.ltb_spec (j1 + 1) n) as [Hr | Hr]; cbn [andb].
    - rewrite heap_Less_K by lia.
      destruct (Z.ltb_spec (key_at key h (j1 + 1)) (key_at key h j1)); repeat split; try lia; auto.
    - repeat split; try lia; auto. }
  rewrite heap_Less_K by lia.
  destruct (Z.ltb_spec (key_at key h j) (key_at key h i)) as [Hlt | Hge]; cbn [negb].
  2: { split; [|split; [reflexivity | split; [reflexivity | split; [reflexivity | auto]]]].
       apply heap_upto_K; [lia|]. intros c Hc.
       destruct (decide (((c - 1) / 2)%nat = i)) as [Hpar | Hpar]; [|apply Hinv1; lia].
       rewrite Hpar. clear Hinv1 Hinv2 IH.
       assert (c = j1 \/ c = (j1 + 1)%nat) as [-> | ->] by (subst j1; lia).
       - lia.
       - pose proof (Hjr ltac:(lia)). lia. }
  destruct (IH (Swap h i j) j n) as (Hheap & Hlen & Hout & Helem & Hnd).
  - rewrite heap_Swap_length. lia.
  - subst j1. lia.
  - split.
    + intros c Hc Hpar. rewrite !heap_K_Swap by lia.
      pose proof (Hinv1 c Hc) as H1. pose proof (Hinv2 c Hc) as H2.
      pose proof (Hinv2 j) as H3.
      assert (((j - 1) / 2)%nat = i) as Hji by (subst j1; lia).
      rewrite Hji in H3.
      assert (((c - 1) / 2)%nat = i -> c = j1 \/ c = (j1 + 1)%nat) as Hsib by (subst j1; lia).
      clear Hinv1 Hinv2 IH Hji.
      repeat case_decide;
        try (destruct Hsib as [-> | ->]; [assumption | |]);
        try (destruct Hj12 as [-> | ->]);
        subst; heap_parents; subst; lia.
    + intros c Hc Hpar Hj0. rewrite !heap_K_Swap by lia.
      pose proof (Hinv1 c Hc) as H1.
      assert (((j - 1) / 2)%nat = i) as Hji by (subst j1; lia).
      rewrite Hji.
      clear Hinv1 Hinv2 IH Hji.
      repeat case_decide; subst; heap_parents; subst; lia.
  - rewrite heap_Swap_length in Hlen.
    split; [exact Hheap|]. split; [exact Hlen|]. split; [|split].
    + intros k Hk. rewrite Hout by exact Hk.
      rewrite heap_Swap_lookup by lia. repeat case_decide; try lia. reflexivity.
    + intros x. rewrite Helem. apply heap_Swap_elem; lia.
    + intros Hh. apply Hnd, heap_Swap_NoDup; [lia | lia | exact Hh].
Qed.

(** *** [Push], [Pop] and the root *)

Lemma heap_K_app_l (h : list A) x k : (k < length h)%nat -> key_at key (h ++ [x]) k = key_at key h k.
Proof. intros Hk. unfold key_at. rewrite lookup_app_l by exact Hk. reflexivity. Qed.

Lemma heap_Push_spec (h : list A) x :
  is_heap key h -> NoDup h -> x ∉ h ->
  is_heap key (Push key h x)
  /\ Push key h x ≡ₚ x :: h
  /\ NoDup (Push key h x).
Proof.
  intros Hheap Hnd Hx. unfold Push, up.
  assert (NoDup (h ++ [x])) as Hnd'.
  { apply NoDup_app. split; [exact Hnd|]. split.
    - intros y Hy Hy'. apply list_elem_of_singleton in Hy'. subst. contradiction.
    - apply NoDup_singleton. }
  destruct (heap_up_loop_spec (S (length h)) (h ++ [x]) (length h))
    as (Hh & Hlen & Helem & Hnd'').
  - lia.
  - rewrite length_app. simpl. lia.
  - pose proof (proj1 (heap_upto_K h (length h) ltac:(lia)) Hheap) as HK.
    split.
    + intros c Hc Hne. rewrite length_app in Hc. simpl in Hc.
      rewrite !heap_K_app_l by lia. apply HK. lia.
    + intros c Hc Hpar Hpos. rewrite length_app in Hc. simpl in Hc. lia.
  - split; [exact Hh|]. specialize (Hnd'' Hnd'). split; [|exact Hnd''].
    apply NoDup_Permutation; [exact Hnd'' | |].
    + apply NoDup_cons. split; assumption.
    + intros y. rewrite Helem, elem_of_app, list_elem_of_singleton, elem_of_cons. tauto.
Qed.

Lemma heap_Pop_spec (h : list A) :
  is_heap key h -> NoDup h -> h <> [] ->
  exists x h',
    Pop key h = Some (x, h')
    /\ h !! 0%nat = Some x
    /\ is_heap key h'
    /\ h ≡ₚ x :: h'.
Proof.
  intros Hheap Hnd Hne. unfold Pop.
  destruct (length h) as [|n] eqn:Hlen.
  { destruct h; [contradiction | discriminate]. }
  destruct (lookup_lt_is_Some_2 h 0) as [x Hx]; [lia|].
  destruct (heap_down_loop_spec n (Swap h 0 n) 0 n) as (Hh & Hl & Hout & Helem & Hnd').
  - rewrite heap_Swap_length. lia.
  - lia.
  - pose proof (proj1 (heap_upto_K h (length h) ltac:(lia)) Hheap) as HK.
    split.
    + intros c Hc Hpar. rewrite !heap_K_Swap by lia.
      repeat case_decide; try lia. apply HK. lia.
    + intros c Hc Hpar Hpos. lia.
  - unfold down.
    set (h1 := down_loop key n (Swap h 0 n) 0 n) in *.
    rewrite heap_Swap_length in Hl.
    assert (h1 !! n = Some x) as Hlast.
    { rewrite Hout by lia. rewrite heap_Swap_lookup by lia.
      repeat case_decide; subst; try lia; assumption. }
    rewrite Hlast. exists x, (take n h1). split; [reflexivity|]. split; [exact Hx|].
    assert (h1 = take n h1 ++ [x]) as Hsplit.
    { rewrite <- (take_drop n h1) at 1. f_equal.
      rewrite (drop_S _ _ _ Hlast). rewrite drop_ge by lia. reflexivity. }
    split.
    + unfold is_heap. rewrite length_take, Hl, Hlen.
      replace (n `min` S n)%nat with n by lia.
      intros c Hc y z Hy Hz.
      rewrite lookup_take_lt in Hy by lia. rewrite lookup_take_lt in Hz by lia.
      exact (Hh c Hc y z Hy Hz).
    + specialize (Hnd' (heap_Swap_NoDup h 0 n ltac:(lia) ltac:(lia) Hnd)).
      transitivity h1.
      * apply NoDup_Permutation; [exact Hnd | exact Hnd' |].
        intros y. rewrite Helem. symmetry. apply heap_Swap_elem; lia.
      * rewrite Hsplit at 1. rewrite Permutation_app_comm. reflexivity.
Qed.

(** The root of a heap carries the least key. *)
Lemma heap_root_min (h : list A) x :
  is_heap key h -> h !! 0%nat = Some x -> forall y, y ∈ h -> (key x <= key y)%Z.
Proof.
  intros Hheap Hx y Hy. apply list_elem_of_lookup in Hy as [k Hk].
  revert y Hk. induction k as [k IH] using lt_wf_ind. intros y Hk.
  destruct (decide (k = 0%nat)) as [->|Hk0].
  - rewrite Hx in Hk. injection Hk as ->. lia.
  - pose proof (lookup_lt_Some _ _ _ Hk) as Hlt.
    destruct (lookup_lt_is_Some_2 h ((k - 1) / 2)) as [z Hz]; [lia|].
    pose proof (IH ((k - 1) / 2)%nat ltac:(lia) z Hz).
    pose proof (Hheap k ltac:(lia) z y Hz Hk). lia.
Qed.

End HeapProperties.

(** ** The scheduler *)

Lemma heap_is_heap_ext {A} (key1 key2 : A -> Z) (h : list A) :
  (forall x, x ∈ h -> key1 x = key2 x) ->
  Heap.is_heap key1 h -> Heap.is_heap key2 h.
Proof.
  intros Hext Hheap c Hc x y Hx Hy.
  rewrite <- (Hext x), <- (Hext y).
  - exact (Hheap c Hc x y Hx Hy).
  - apply list_elem_of_lookup. eauto.
  - apply list_elem_of_lookup. eauto.
Qed.

Lemma filter_ext_elem {A} (P1 P2 : A -> Prop)
  `{!forall x, Decision (P1 x)} `{!forall x, Decision (P2 x)} (l : list A) :
  (forall x, x ∈ l -> P1 x <-> P2 x) -> filter P1 l = filter P2 l.
Proof.
  induction l as [|a l IH]; intros Hext; [reflexivity|].
  rewrite !filter_cons.
  assert (filter P1 l = filter P2 l) as ->.
  { apply IH. intros x Hx. apply Hext. apply elem_of_cons. auto. }
  pose proof (Hext a ltac:(apply elem_of_cons; auto)) as Ha.
  destruct (decide (P1 a)), (decide (P2 a)); tauto || reflexivity.
Qed.

Section CronProperties.
Import Cron.
Variable CronSchedule : Type.
Variable Parse : string -> option CronSchedule.
Variable Next : CronSchedule -> Time -> Time.
Variable LoadLocation : string -> option Location.
Variable clock : nat -> Time.

Local Abbreviation calc := (calculateNextRun CronSchedule Parse Next LoadLocation).
Local Abbreviation item_step := (run_item CronSchedule Parse Next LoadLocation clock).
Local Abbreviation loop := (checkAndRun_loop CronSchedule Parse Next LoadLocation clock).
Local Abbreviation effect := (run_effect CronSchedule Parse Next LoadLocation clock).
Local Abbreviation later := (reschedules_later CronSchedule Parse Next LoadLocation clock).

Lemma cron_fired_snoc (s : CronService) started q j p :
  launched started = launched s ++ [(q, j)] ->
  fired started p = (fired s p + if decide (p = q) then 1 else 0)%nat.
Proof.
  intros Hl. unfold fired. rewrite Hl, filter_app, length_app. f_equal.
  rewrite filter_cons, filter_nil. simpl.
  destruct (decide (q = p)) as [->|Hne].
  - rewrite decide_True by reflexivity. reflexivity.
  - rewrite decide_False by congruence. reflexivity.
Qed.

(** When the root is not due, nothing in the heap is. *)
Lemma cron_root_not_due now (s : CronService) item rest :
  Heap.is_heap (next_run_key (store s)) (heap s) ->
  heap s = item :: rest ->
  After (NextRun (store s item)) now = true ->
  forall p, p ∈ heap s -> due now s p = false.
Proof.
  intros Hheap Hh Hafter p Hp.
  pose proof (heap_root_min (next_run_key (store s)) (heap s) item Hheap
                ltac:(rewrite Hh; reflexivity) p Hp) as Hmin.
  unfold due, After, next_run_key in *.
  apply Z.ltb_lt in Hafter. apply negb_false_iff, Z.ltb_lt. lia.
Qed.

Lemma cron_effect_refl now (s : CronService) :
  Heap.is_heap (next_run_key (store s)) (heap s) ->
  NoDup (heap s) ->
  (forall p, p ∈ heap s -> due now s p = false) ->
  effect now s s.
Proof.
  intros Hheap Hnd Hnone. unfold run_effect.
  split; [|split; [|split; [|split; [|split]]]].
  - intros p Hp Hd. rewrite (Hnone p Hp) in Hd. discriminate.
  - intros p _. split; [reflexivity|]. split; reflexivity.
  - intros id. right. reflexivity.
  - exact Hheap.
  - exact Hnd.
  - exact Hnone.
Qed.

(** One turn of the loop on a heap of distinct items: the root leaves
    the heap and, unless it is a single shot, comes back with its new
    next run; the result is again a heap of distinct items. *)
Lemma cron_run_item_spec (s : CronService) item rest :
  Heap.is_heap (next_run_key (store s)) (heap s) ->
  NoDup (heap s) ->
  heap s = item :: rest ->
  exists h',
    heap s ≡ₚ item :: h'
    /\ (item ∉ h')
    /\ launched (item_step s item) = launched s ++ [(item, store s item)]
    /\ Heap.is_heap (next_run_key (store (item_step s item))) (heap (item_step s item))
    /\ NoDup (heap (item_step s item))
    /\ (single_shot (store s item) = true
        /\ heap (item_step s item) = h'
        /\ store (item_step s item) = store s
        /\ jobs (item_step s item) = delete (ID (store s item)) (jobs s)
        /\ ticks (item_step s item) = ticks s
        \/ single_shot (store s item) = false
           /\ heap (item_step s item) ≡ₚ item :: h'
           /\ store (item_step s item)
              = <[item := with_NextRun (store s item)
                            (calc (JSchedule (store s item)) (clock (ticks s)))]> (store s)
           /\ jobs (item_step s item) = jobs s
           /\ ticks (item_step s item) = S (ticks s)).
Proof.
  intros Hheap Hnd Hh.
  destruct (heap_Pop_spec (next_run_key (store s)) (heap s) Hheap Hnd
              ltac:(rewrite Hh; discriminate)) as (x & h' & Hpop & Hroot & Hheap' & Hperm).
  assert (x = item) as -> by (rewrite Hh in Hroot; simpl in Hroot; congruence).
  assert (NoDup (item :: h')) as Hnd' by (rewrite <- Hperm; exact Hnd).
  apply NoDup_cons in Hnd' as [Hnotin Hndh'].
  exists h'. split; [exact Hperm|]. split; [exact Hnotin|].
  unfold run_item. rewrite Hpop. cbv zeta.
  destruct (single_shot (store s item)) eqn:Hss; simpl.
  - split; [reflexivity|]. split; [exact Hheap'|]. split; [exact Hndh'|].
    left. repeat split; reflexivity.
  - set (st := <[item := with_NextRun (store s item)
                           (calc (JSchedule (store s item)) (clock (ticks s)))]> (store s)).
    assert (Heap.is_heap (next_run_key st) h') as Hheap_st.
    { apply (heap_is_heap_ext (next_run_key (store s))); [|exact Hheap'].
      intros p Hp. unfold next_run_key, st. rewrite fn_lookup_insert_ne; [reflexivity|].
      intros <-. contradiction. }
    destruct (heap_Push_spec (next_run_key st) h' item Hheap_st Hndh' Hnotin)
      as (Hheap1 & Hperm1 & Hnd1).
    split; [reflexivity|]. split; [exact Hheap1|]. split; [exact Hnd1|].
    right. repeat split; try reflexivity. exact Hperm1.
Qed.

(** One turn of the loop followed by the rest of the run. *)
Lemma cron_effect_step now (s s' : CronService) item rest :
  Heap.is_heap (next_run_key (store s)) (heap s) ->
  NoDup (heap s) ->
  heap s = item :: rest ->
  due now s item = true ->
  effect now (item_step s item) s' ->
  effect now s s'.
Proof.
  intros Hheap Hnd Hh Hdue (E1 & E2 & E3 & E4 & E5 & E6).
  destruct (cron_run_item_spec s item rest Hheap Hnd Hh)
    as (h' & Hperm & Hnotin & Hlaunched & _ & _ & Hcase).
  set (s1 := item_step s item) in *.
  assert (forall p, p ∈ heap s <-> p = item \/ p ∈ h') as Hmem.
  { intros p. rewrite Hperm, elem_of_cons. reflexivity. }
  assert (forall p, p <> item -> fired s1 p = fired s p) as Hf_other.
  { intros p Hne. rewrite (cron_fired_snoc s s1 item (store s item) p Hlaunched).
    rewrite decide_False by exact Hne. lia. }
  assert (fired s1 item = S (fired s item)) as Hf_item.
  { rewrite (cron_fired_snoc s s1 item (store s item) item Hlaunched).
    rewrite decide_True by reflexivity. lia. }
  assert (forall p, p <> item -> store s1 p = store s p) as Hst_other.
  { intros p Hne.
    destruct Hcase as [(_ & _ & -> & _) | (_ & _ & -> & _)]; [reflexivity|].
    apply fn_lookup_insert_ne. congruence. }
  assert (forall p, p <> item -> p ∈ heap s1 <-> p ∈ heap s) as Hin_other.
  { intros p Hne. rewrite Hmem.
    destruct Hcase as [(_ & -> & _) | (_ & -> & _)]; [tauto|].
    rewrite elem_of_cons. reflexivity. }
  assert (forall p, p <> item -> due now s1 p = due now s p) as Hdue_other.
  { intros p Hne. unfold due. rewrite (Hst_other p Hne). reflexivity. }
  assert (ticks s <= ticks s1)%nat as Hticks.
  { destruct Hcase as [(_ & _ & _ & _ & ->) | (_ & _ & _ & _ & ->)]; lia. }
  split; [|split; [|split; [|split; [|split]]]]; try assumption.
  - intros p Hp Hd. destruct (decide (p = item)) as [->|Hne].
    + destruct Hcase as [(Hss & Hheap1 & Hst & Hjobs & _) | (Hss & Hheap1 & Hst & Hjobs & _)].
      * assert (item ∉ heap s1) as Hout by (rewrite Hheap1; exact Hnotin).
        destruct (E2 item (or_introl Hout)) as (Hst' & Hf' & Hiff).
        split; [|rewrite Hss; discriminate]. intros _.
        split; [rewrite Hf'; exact Hf_item|].
        split; [rewrite Hiff; exact Hout|]. split; [|rewrite Hst', Hst; reflexivity].
        destruct (E3 (ID (store s item))) as [-> | ->]; [reflexivity|].
        rewrite Hjobs. apply lookup_delete_eq.
      * assert (item ∈ heap s1) as Hin.
        { rewrite Hheap1. apply elem_of_cons. left. reflexivity. }
        assert (store s1 item
                = with_NextRun (store s item)
                    (calc (JSchedule (store s item)) (clock (ticks s)))) as Hst_item.
        { rewrite Hst. apply fn_lookup_insert. }
        split; [rewrite Hss; discriminate|]. intros _.
        destruct (due now s1 item) eqn:Hd1.
        -- destruct (E1 item Hin Hd1) as (_ & Hrepeat).
           destruct Hrepeat as (Hlt & Hin' & k & Hk & Hstk).
           { rewrite Hst_item. exact Hss. }
           split; [lia|]. split; [exact Hin'|]. exists k. split; [lia|].
           rewrite Hstk, Hst_item. reflexivity.
        -- destruct (E2 item (or_intror Hd1)) as (Hst' & Hf' & Hiff).
           split; [lia|]. split; [rewrite Hiff; exact Hin|].
           exists (ticks s). split; [lia|]. rewrite Hst'. exact Hst_item.
    + destruct (E1 p (proj2 (Hin_other p Hne) Hp)
                  ltac:(rewrite Hdue_other by exact Hne; exact Hd))
        as (Hsingle & Hrepeat).
      rewrite (Hst_other p Hne) in Hsingle, Hrepeat.
      rewrite (Hf_other p Hne) in Hsingle, Hrepeat.
      split; [exact Hsingle|].
      intros Hss. destruct (Hrepeat Hss) as (Hlt & Hin & k & Hk & Hstk).
      split; [exact Hlt|]. split; [exact Hin|]. exists k. split; [lia | exact Hstk].
  - intros p Hp.
    assert (p <> item) as Hne.
    { intros ->. destruct Hp as [Hp | Hp]; [|congruence].
      apply Hp, Hmem. left. reflexivity. }
    destruct (E2 p) as (Hst' & Hf' & Hiff').
    { destruct Hp as [Hp | Hp]; [left; rewrite (Hin_other p Hne); exact Hp|].
      right. rewrite Hdue_other by exact Hne. exact Hp. }
    split; [rewrite Hst'; exact (Hst_other p Hne)|].
    split; [rewrite Hf'; exact (Hf_other p Hne)|].
    rewrite Hiff'. exact (Hin_other p Hne).
  - intros id. destruct (E3 id) as [H | H]; [left; exact H|].
    destruct Hcase as [(_ & _ & _ & Hjobs & _) | (_ & _ & _ & Hjobs & _)];
      rewrite Hjobs in H.
    + destruct (decide (id = ID (store s item))) as [->|Hid].
      * left. rewrite H. apply lookup_delete_eq.
      * right. rewrite H. apply lookup_delete_ne. congruence.
    + right. exact H.
Qed.

(** Whenever the loop of [checkAndRun] ends, it has had the effect
    described by [run_effect]. *)
Lemma cron_loop_effect now fuel : forall s s' : CronService,
  Heap.is_heap (next_run_key (store s)) (heap s) ->
  NoDup (heap s) ->
  loop fuel now s = Some s' ->
  effect now s s'.
Proof.
  induction fuel as [|fuel IH]; intros s s' Hheap Hnd Hrun; [discriminate|].
  simpl in Hrun. destruct (heap s) as [|item rest] eqn:Hh; rewrite <- Hh in Hheap, Hnd.
  { injection Hrun as <-. apply cron_effect_refl; auto.
    intros p Hp. rewrite Hh in Hp. inversion Hp. }
  destruct (After (NextRun (store s item)) now) eqn:Hafter.
  { injection Hrun as <-. apply cron_effect_refl; auto.
    apply (cron_root_not_due now s item rest Hheap Hh Hafter). }
  destruct (cron_run_item_spec s item rest Hheap Hnd Hh)
    as (_ & _ & _ & _ & Hheap1 & Hnd1 & _).
  apply (cron_effect_step now s s' item rest Hheap Hnd Hh).
  - unfold due. rewrite Hafter. reflexivity.
  - apply IH; assumption.
Qed.

Lemma cron_due_count_perm now (s : CronService) l :
  heap s ≡ₚ l ->
  due_count now s = length (filter (fun p => due now s p = true) l).
Proof. intros Hperm. unfold due_count. rewrite Hperm. reflexivity. Qed.

(** The loop of [checkAndRun] ends as soon as the fuel exceeds the
    number of due items, when the repeating jobs are rescheduled after
    [now]. *)
Lemma cron_loop_terminates now fuel : forall s : CronService,
  Heap.is_heap (next_run_key (store s)) (heap s) ->
  NoDup (heap s) ->
  later now s ->
  (due_count now s < fuel)%nat ->
  exists s', loop fuel now s = Some s'.
Proof.
  induction fuel as [|fuel IH]; intros s Hheap Hnd Hlater Hfuel; [lia|].
  simpl. destruct (heap s) as [|item rest] eqn:Hh; [eauto|]. rewrite <- Hh in Hheap, Hnd.
  destruct (After (NextRun (store s item)) now) eqn:Hafter; [eauto|].
  destruct (cron_run_item_spec s item rest Hheap Hnd Hh)
    as (h' & Hperm & Hnotin & _ & Hheap1 & Hnd1 & Hcase).
  set (s1 := item_step s item) in *.
  assert (due now s item = true) as Hdue_item.
  { unfold due. rewrite Hafter. reflexivity. }
  assert (forall p, p ∈ heap s <-> p = item \/ p ∈ h') as Hmem.
  { intros p. rewrite Hperm, elem_of_cons. reflexivity. }
  assert (due_count now s = S (length (filter (fun p => due now s p = true) h'))) as Hcount.
  { rewrite (cron_due_count_perm now s (item :: h') Hperm), filter_cons.
    rewrite decide_True by exact Hdue_item. reflexivity. }
  assert (forall p, p <> item -> store s1 p = store s p) as Hst_other.
  { intros p Hne.
    destruct Hcase as [(_ & _ & -> & _) | (_ & _ & -> & _)]; [reflexivity|].
    apply fn_lookup_insert_ne. congruence. }
  assert (filter (fun p => due now s1 p = true) h'
          = filter (fun p => due now s p = true) h') as Hfilter.
  { apply filter_ext_elem. intros p Hp. unfold due.
    rewrite Hst_other; [reflexivity|]. intros ->. contradiction. }
  apply (IH s1 Hheap1 Hnd1).
  - intros p Hp Hsp k Hk.
    destruct Hcase as [(Hss & Hheap_eq & Hst & _ & Hticks)
                      | (Hss & Hheap_eq & Hst & _ & Hticks)].
    + rewrite Hst in *. rewrite Hticks in Hk.
      apply (Hlater p); [| exact Hsp | exact Hk].
      apply Hmem. right. rewrite <- Hheap_eq. exact Hp.
    + rewrite Hticks in Hk. rewrite Hheap_eq, elem_of_cons in Hp.
      destruct (decide (p = item)) as [->|Hne].
      * rewrite Hst, fn_lookup_insert in *.
        apply (Hlater item); [apply Hmem; left; reflexivity | exact Hss | lia].
      * rewrite (Hst_other p Hne) in *.
        apply (Hlater p); [| exact Hsp | lia].
        apply Hmem. destruct Hp as [-> | Hp]; [contradiction | right; exact Hp].
  - destruct Hcase as [(Hss & Hheap_eq & _) | (Hss & Hheap_eq & Hst & _)].
    + unfold due_count. rewrite Hheap_eq, Hfilter. lia.
    + rewrite (cron_due_count_perm now s1 (item :: h') Hheap_eq), filter_cons.
      rewrite decide_False; [rewrite Hfilter; lia|].
      unfold due. rewrite Hst, fn_lookup_insert. cbn [NextRun with_NextRun].
      rewrite (Hlater item); [discriminate | apply Hmem; left; reflexivity | exact Hss | lia].
Qed.

Lemma cron_due_count_le now (s : CronService) :
  (due_count now s <= length (heap s))%nat.
Proof. unfold due_count. apply length_filter. Qed.

Lemma cron_ListJobs_elem (s : CronService) p :
  p ∈ ListJobs s <-> exists id, jobs s !! id = Some p.
Proof.
  unfold ListJobs. rewrite list_elem_of_fmap. split.
  - intros ([id q] & -> & Hin). exists id. apply elem_of_map_to_list in Hin. exact Hin.
  - intros [id Hid]. exists (id, p). split; [reflexivity|].
    apply elem_of_map_to_list. exact Hid.
Qed.

(** A job of kind "every" with a positive interval is rescheduled
    after [now] at every reading of a clock that does not run
    backwards. *)
Lemma cron_every_reschedules_later (sched : Schedule) (t0 k : nat) :
  Kind sched = "every" ->
  (0 < EveryMs sched)%Z ->
  (EveryMs sched * Millisecond < 2 ^ 63)%Z ->
  (instant (clock t0) <= instant (clock k))%Z ->
  After (calc sched (clock k)) (clock t0) = true.
Proof.
  intros Hkind Hpos Hsmall Hmono. unfold calculateNextRun. rewrite Hkind. simpl.
  unfold After, Add, wrap64. simpl. apply Z.ltb_lt.
  unfold Millisecond in *.
  rewrite Z.mod_small by lia. lia.
Qed.

(** What a run of [checkAndRun] that returns has done to a job that
    was due in the heap. A single shot is not fired again by a later
    run. *)
Lemma cron_checkAndRun_effect (s s' : CronService) fuel :
  well_formed s ->
  checkAndRun CronSchedule Parse Next LoadLocation clock fuel s = Some s' ->
  forall p, p ∈ heap s -> due (clock (ticks s)) s p = true ->
    (single_shot (store s p) = true ->
       fired s' p = S (fired s p)
       /\ (p ∉ heap s')
       /\ jobs s' !! ID (store s p) = None
       /\ (p ∉ ListJobs s')
       /\ forall fuel2 s2,
            checkAndRun CronSchedule Parse Next LoadLocation clock fuel2 s' = Some s2 ->
            fired s2 p = fired s' p /\ (p ∉ heap s2))
    /\ (single_shot (store s p) = false ->
          (fired s p < fired s' p)%nat
          /\ p ∈ heap s'
          /\ exists k, (ticks s < k)%nat
               /\ store s' p
                  = with_NextRun (store s p) (calc (JSchedule (store s p)) (clock k))).
Proof.
  intros (Hheap & Hnd & Hids) Hrun p Hp Hd.
  apply cron_loop_effect in Hrun as (E1 & E2 & E3 & E4 & E5 & _);
    [|exact Hheap | exact Hnd].
  destruct (E1 p Hp Hd) as (Hsingle & Hrepeat). simpl in Hsingle, Hrepeat.
  split.
  - intros Hss. destruct (Hsingle Hss) as (Hf & Hout & Hgone & _).
    split; [exact Hf|]. split; [exact Hout|]. split; [exact Hgone|]. split.
    + rewrite cron_ListJobs_elem. intros [id Hid].
      destruct (E3 id) as [Hnone | Hsame]; [congruence|].
      simpl in Hsame. rewrite Hid in Hsame. symmetry in Hsame.
      rewrite <- (Hids id p Hsame) in Hid. congruence.
    + intros fuel2 s2 Hrun2.
      apply cron_loop_effect in Hrun2 as (_ & F2 & _); [|exact E4 | exact E5].
      destruct (F2 p (or_introl Hout)) as (_ & Hf2 & Hiff2).
      split; [exact Hf2 | rewrite Hiff2; exact Hout].
  - intros Hss. destruct (Hrepeat Hss) as (Hlt & Hin & k & Hk & Hst).
    split; [exact Hlt|]. split; [exact Hin|]. exists k. split; [lia | exact Hst].
Qed.

(** [well_formed] and [allocated] hold of a new service and are kept
    by [AddJob] and by [checkAndRun]. *)
Lemma cron_New_well_formed :
  well_formed NewCronService /\ allocated NewCronService.
Proof.
  split; [split; [|split] | split]; simpl.
  - intros c Hc. simpl in Hc. lia.
  - apply NoDup_nil_2.
  - intros id p H. rewrite lookup_empty in H. discriminate.
  - intros q H. inversion H.
  - intros id q H. rewrite lookup_empty in H. discriminate.
Qed.

Lemma cron_AddJob_well_formed (s : CronService) (job : Job) :
  well_formed s -> allocated s ->
  well_formed (AddJob CronSchedule Parse Next LoadLocation clock s job).2
  /\ allocated (AddJob CronSchedule Parse Next LoadLocation clock s job).2.
Proof.
  intros (Hheap & Hnd & Hids) (Hfresh & Hmap). unfold AddJob. cbv zeta. simpl.
  match goal with |- context [<[fresh s := ?j]> (store s)] => set (job1 := j) end.
  set (st := <[fresh s := job1]> (store s)).
  assert (fresh s ∉ heap s) as Hnotin.
  { intros Hin. apply Hfresh in Hin. lia. }
  assert (Heap.is_heap (next_run_key st) (heap s)) as Hheap_st.
  { apply (heap_is_heap_ext (next_run_key (store s))); [|exact Hheap].
    intros p Hp. unfold next_run_key, st. rewrite fn_lookup_insert_ne; [reflexivity|].
    intros <-. contradiction. }
  destruct (heap_Push_spec (next_run_key st) (heap s) (fresh s) Hheap_st Hnd Hnotin)
    as (Hheap1 & Hperm & Hnd1).
  split; [split; [|split] | split]; simpl.
  - exact Hheap1.
  - exact Hnd1.
  - intros id q H. apply lookup_insert_Some in H as [[<- <-] | [Hne H]].
    + unfold st. rewrite fn_lookup_insert. reflexivity.
    + pose proof (Hmap id q H).
      unfold st. rewrite fn_lookup_insert_ne by lia. apply Hids, H.
  - intros q Hq. rewrite Hperm in Hq. apply elem_of_cons in Hq as [-> | Hq]; [lia|].
    apply Hfresh in Hq. lia.
  - intros id q H. apply lookup_insert_Some in H as [[_ <-] | [_ H]]; [lia|].
    apply Hmap in H. lia.
Qed.

Lemma cron_run_item_fresh (s : CronService) item :
  fresh (item_step s item) = fresh s.
Proof. unfold run_item. destruct (single_shot (store s item)); reflexivity. Qed.

Lemma cron_loop_fresh now fuel : forall s s' : CronService,
  loop fuel now s = Some s' -> fresh s' = fresh s.
Proof.
  induction fuel as [|fuel IH]; intros s s' Hrun; [discriminate|].
  simpl in Hrun. destruct (heap s) as [|item rest]; [congruence|].
  destruct (After (NextRun (store s item)) now); [congruence|].
  rewrite (IH _ _ Hrun). apply cron_run_item_fresh.
Qed.

Lemma cron_checkAndRun_well_formed (s s' : CronService) fuel :
  well_formed s -> allocated s ->
  checkAndRun CronSchedule Parse Next LoadLocation clock fuel s = Some s' ->
  well_formed s' /\ allocated s'.
Proof.
  intros (Hheap & Hnd & Hids) (Hfresh & Hmap) Hrun.
  pose proof (cron_loop_fresh _ _ _ _ Hrun) as Hfr. simpl in Hfr.
  apply cron_loop_effect in Hrun as (E1 & E2 & E3 & E4 & E5 & _);
    [|exact Hheap | exact Hnd].
  simpl in E1, E2, E3.
  assert (forall q, ID (store s' q) = ID (store s q)) as Hid.
  { intros q. destruct (decide (q ∈ heap s)) as [Hin | Hout].
    - destruct (due (clock (ticks s)) s q) eqn:Hd.
      + destruct (E1 q Hin Hd) as (Hsingle & Hrepeat).
        destruct (single_shot (store s q)) eqn:Hss.
        * destruct (Hsingle eq_refl) as (_ & _ & _ & ->). reflexivity.
        * destruct (Hrepeat eq_refl) as (_ & _ & k & _ & ->). reflexivity.
      + destruct (E2 q (or_intror Hd)) as (-> & _). reflexivity.
    - destruct (E2 q (or_introl Hout)) as (-> & _). reflexivity. }
  assert (forall id q, jobs s' !! id = Some q -> jobs s !! id = Some q) as Hsub.
  { intros id q H. destruct (E3 id) as [Hnone | Hsame]; congruence. }
  assert (forall q, q ∈ heap s' -> q ∈ heap s) as Hheap_sub.
  { intros q Hq. destruct (decide (q ∈ heap s)) as [Hin | Hout]; [exact Hin|].
    destruct (E2 q (or_introl Hout)) as (_ & _ & Hiff). apply Hiff, Hq. }
  split; [split; [|split] | split].
  - exact E4.
  - exact E5.
  - intros id q H. rewrite Hid. apply Hids, Hsub, H.
  - intros q Hq. rewrite Hfr. apply Hfresh, Hheap_sub, Hq.
  - intros id q H. rewrite Hfr. eapply Hmap, Hsub, H.
Qed.

Lemma cron_checkAndRun_returns (s : CronService) :
  well_formed s ->
  later (clock (ticks s)) s ->
  exists s', checkAndRun CronSchedule Parse Next LoadLocation clock
               (S (length (heap s))) s = Some s'.
Proof.
  intros (Hheap & Hnd & _) Hlater. unfold checkAndRun.
  apply cron_loop_terminates.
  - exact Hheap.
  - exact Hnd.
  - intros p Hp Hsp k Hk. apply (Hlater p Hp Hsp). simpl in Hk. lia.
  - match goal with |- (due_count ?n ?t < _)%nat => pose proof (cron_due_count_le n t) end.
    simpl in *. lia.
Qed.

Local Abbreviation state := (loop_state CronSchedule Parse Next LoadLocation clock).

(** One turn of the loop in such a state: the root is due and is not
    [q], and the state after the turn is of the same kind. *)
Lemma cron_starved_turn (sched : Schedule) (jq : Job) (f p q : nat) now
  (s : CronService) item rest :
  Kind sched = "every" ->
  starved sched jq f p q s ->
  (instant (NextRun jq) <= instant now)%Z ->
  (instant (clock (ticks s)) + wrap64 (EveryMs sched * Millisecond)
   < instant (NextRun jq))%Z ->
  heap s = item :: rest ->
  After (NextRun (store s item)) now = false
  /\ starved sched jq f p q (item_step s item)
  /\ (ticks s <= ticks (item_step s item) <= S (ticks s))%nat.
Proof.
  intros Hkind (Hheap & Hnd & Hp & Hq & Hsq & Hf & Hsched & Hflag & Hlt & Hmap & Hids)
    Hdue Hclock Hh.
  pose proof (heap_root_min (next_run_key (store s)) (heap s) item Hheap
                ltac:(rewrite Hh; reflexivity)) as Hmin.
  pose proof (Hmin p Hp) as Hmin_p. unfold next_run_key in Hmin_p.
  assert (item <> q) as Hne.
  { intros ->. rewrite Hsq in Hmin_p. lia. }
  split.
  { unfold After. apply Z.ltb_ge. lia. }
  destruct (cron_run_item_spec s item rest Hheap Hnd Hh)
    as (h' & Hperm & Hnotin & Hlaunched & Hheap1 & Hnd1 & Hcase).
  set (s1 := item_step s item) in *.
  assert (forall r, r ∈ heap s <-> r = item \/ r ∈ h') as Hmem.
  { intros r. rewrite Hperm, elem_of_cons. reflexivity. }
  assert (fired s1 q = f) as Hf1.
  { rewrite (cron_fired_snoc s s1 item (store s item) q Hlaunched).
    rewrite decide_False by congruence. lia. }
  assert (q ∈ h') as Hq'.
  { apply Hmem in Hq as [-> | Hq]; [contradiction | exact Hq]. }
  assert (forall r, ID (store s1 r) = ID (store s r)) as Hid.
  { intros r. destruct Hcase as [(_ & _ & -> & _) | (_ & _ & -> & _)]; [reflexivity|].
    destruct (decide (r = item)) as [->|Hr].
    - rewrite fn_lookup_insert. reflexivity.
    - rewrite fn_lookup_insert_ne by congruence. reflexivity. }
  assert (forall r, r ∈ heap s1 -> r ∈ heap s) as Hsub.
  { intros r Hr. apply Hmem.
    destruct Hcase as [(_ & Heq & _) | (_ & Heq & _)]; rewrite Heq in Hr.
    - right. exact Hr.
    - apply elem_of_cons in Hr. exact Hr. }
  assert (forall r, r ∈ heap s1 -> ID (store s1 r) = ID jq -> r = q) as Hids1.
  { intros r Hr Hidr. rewrite Hid in Hidr. apply Hids; [apply Hsub, Hr | exact Hidr]. }
  split; [|destruct Hcase as [(_ & _ & _ & _ & ->) | (_ & _ & _ & _ & ->)]; lia].
  destruct Hcase as [(Hss & Heq & Hst & Hjobs & _) | (Hss & Heq & Hst & Hjobs & _)].
  - assert (item <> p) as Hnp.
    { intros ->. unfold single_shot in Hss. rewrite Hflag, Hsched, Hkind in Hss.
      discriminate Hss. }
    unfold starved. rewrite Hst, Heq, Hjobs.
    split; [rewrite <- Hst, <- Heq; exact Hheap1|].
    split; [rewrite <- Heq; exact Hnd1|].
    split; [apply Hmem in Hp as [-> | Hp]; [contradiction | exact Hp]|].
    split; [exact Hq'|]. split; [exact Hsq|]. split; [exact Hf1|].
    split; [exact Hsched|]. split; [exact Hflag|]. split; [exact Hlt|].
    split.
    + rewrite lookup_delete_ne; [exact Hmap|].
      intros Heq_id. apply Hne. apply Hids; [|exact Heq_id].
      apply Hmem. left. reflexivity.
    + intros r Hr. rewrite <- Heq, <- Hst in *. apply Hids1. exact Hr.
  - assert (store s1 q = jq) as Hsq1.
    { rewrite Hst, fn_lookup_insert_ne by congruence. exact Hsq. }
    unfold starved.
    split; [exact Hheap1|]. split; [exact Hnd1|].
    split.
    { rewrite Heq. apply elem_of_cons. apply Hmem in Hp. exact Hp. }
    split; [rewrite Heq; apply elem_of_cons; right; exact Hq'|].
    split; [exact Hsq1|]. split; [exact Hf1|].
    assert (JSchedule (store s1 p) = sched
            /\ DeleteAfterRun (store s1 p) = false
            /\ (instant (NextRun (store s1 p)) < instant (NextRun jq))%Z) as (A & B & C).
    { rewrite Hst. destruct (decide (p = item)) as [->|Hnp].
      - rewrite fn_lookup_insert. cbn [JSchedule DeleteAfterRun NextRun with_NextRun].
        split; [exact Hsched|]. split; [exact Hflag|].
        rewrite Hsched. unfold calculateNextRun. rewrite Hkind. simpl. exact Hclock.
      - rewrite fn_lookup_insert_ne by congruence. auto. }
    split; [exact A|]. split; [exact B|]. split; [exact C|].
    split; [rewrite Hjobs; exact Hmap | exact Hids1].
Qed.

(** As long as the clock readings keep the rescheduled job [p] before
    the next run of [q], the loop does not end and [q] is not fired. *)
Lemma cron_starved_loop (sched : Schedule) (jq : Job) (f p q : nat) now n :
  forall s : CronService,
  Kind sched = "every" ->
  starved sched jq f p q s ->
  (instant (NextRun jq) <= instant now)%Z ->
  (forall k, (ticks s <= k < ticks s + n)%nat ->
     (instant (clock k) + wrap64 (EveryMs sched * Millisecond)
      < instant (NextRun jq))%Z) ->
  loop n now s = None
  /\ starved sched jq f p q (state n now s).
Proof.
  induction n as [|n IH]; intros s Hkind Hinv Hdue Hclock.
  { split; [reflexivity | exact Hinv]. }
  simpl. destruct (heap s) as [|item rest] eqn:Hh.
  { destruct Hinv as (_ & _ & Hp & _). rewrite Hh in Hp. inversion Hp. }
  destruct (cron_starved_turn sched jq f p q now s item rest Hkind Hinv Hdue
              ltac:(apply Hclock; lia) Hh) as (Hafter & Hinv1 & Hticks).
  rewrite Hafter. apply IH; [exact Hkind | exact Hinv1 | exact Hdue|].
  intros k Hk. apply Hclock. lia.
Qed.

End CronProperties.

(** When the scheduler wakes with a heap of distinct jobs in heap
    order and a map that registers jobs under their own ids, every run
    of [checkAndRun] that returns has treated each job that was due as
    follows: a job of kind "at" has been fired exactly once and is
    gone from the heap, from the map and from [ListJobs], whatever its
    delete-after-run flag, and a later run does not fire it again; a
    job of another kind whose flag is unset has been fired and is back
    in the heap with a next run computed by [calculateNextRun] from a
    reading of the clock taken after the wake-up. And [checkAndRun]
    does return when the repeating jobs are rescheduled after the
    wake-up instant. *)
Lemma cron_returning_run_fires_due_jobs
  (CronSchedule : Type) (Parse : string -> option CronSchedule)
  (Next : CronSchedule -> Cron.Time -> Cron.Time)
  (LoadLocation : string -> option Cron.Location)
  (clock : nat -> Cron.Time) (s : Cron.CronService) :
  Cron.well_formed s ->
  (forall fuel s' p,
     Cron.checkAndRun CronSchedule Parse Next LoadLocation clock fuel s = Some s' ->
     p ∈ Cron.heap s ->
     Cron.due (clock (Cron.ticks s)) s p = true ->
     (Cron.Kind (Cron.JSchedule (Cron.store s p)) = "at" ->
        Cron.fired s' p = S (Cron.fired s p)
        /\ (p ∉ Cron.heap s')
        /\ Cron.jobs s' !! Cron.ID (Cron.store s p) = None
        /\ (p ∉ Cron.ListJobs s')
        /\ forall fuel2 s2,
             Cron.checkAndRun CronSchedule Parse Next LoadLocation clock fuel2 s' = Some s2 ->
             Cron.fired s2 p = Cron.fired s' p /\ (p ∉ Cron.heap s2))
     /\ (Cron.Kind (Cron.JSchedule (Cron.store s p)) <> "at" ->
         Cron.DeleteAfterRun (Cron.store s p) = false ->
         (Cron.fired s p < Cron.fired s' p)%nat
         /\ p ∈ Cron.heap s'
         /\ exists k, (Cron.ticks s < k)%nat
              /\ Cron.NextRun (Cron.store s' p)
                 = Cron.calculateNextRun CronSchedule Parse Next LoadLocation
                     (Cron.JSchedule (Cron.store s p)) (clock k)))
  /\ (Cron.reschedules_later CronSchedule Parse Next LoadLocation clock
        (clock (Cron.ticks s)) s ->
      exists s',
        Cron.checkAndRun CronSchedule Parse Next LoadLocation clock
          (S (length (Cron.heap s))) s = Some s').
Proof.
  intros Hwf. split.
  - intros fuel s' p Hrun Hp Hd.
    destruct (cron_checkAndRun_effect CronSchedule Parse Next LoadLocation clock
                s s' fuel Hwf Hrun p Hp Hd) as (Hsingle & Hrepeat).
    split.
    + intros Hat. apply Hsingle. unfold Cron.single_shot. rewrite Hat. apply orb_true_r.
    + intros Hkind Hflag.
      destruct Hrepeat as (Hlt & Hin & k & Hk & Hst).
      { unfold Cron.single_shot. rewrite Hflag. simpl. apply String.eqb_neq. exact Hkind. }
      split; [exact Hlt|]. split; [exact Hin|]. exists k. split; [exact Hk|].
      rewrite Hst. reflexivity.
  - apply cron_checkAndRun_returns. exact Hwf.
Qed.

Lemma cron_returning_run_fires_due_jobs_example :
  let clock := fun k : nat => Cron.mkTime (1000 + Z.of_nat k) "Local" in
  let at_job := Cron.mkJob "job_1" "remind" "hi" (Cron.mkSchedule "at" 0 "" "" 0)
                  "cli" "direct" true false (Cron.mkTime 0 "Local")
                  (Cron.mkTime 500 "Local") false "" in
  let every_job := Cron.mkJob "job_2" "tick" "tock" (Cron.mkSchedule "every" 60000 "" "" 0)
                     "cli" "direct" true false (Cron.mkTime 0 "Local")
                     (Cron.mkTime 900 "Local") false "" in
  let s := Cron.mkService (fun p => if (p =? 0)%nat then at_job else every_job) 2
             {[ "job_1" := 0%nat; "job_2" := 1%nat ]} [0%nat; 1%nat] 0 [] in
  exists s',
    Cron.checkAndRun unit (fun _ => None) (fun _ t => t) (fun _ => None) clock 3 s = Some s'
    /\ Cron.fired s' 0 = 1%nat
    /\ (0%nat ∉ Cron.heap s')
    /\ Cron.jobs s' !! "job_1" = None
    /\ (0%nat ∉ Cron.ListJobs s')
    /\ (0 < Cron.fired s' 1)%nat
    /\ 1%nat ∈ Cron.heap s'
    /\ exists k, (0 < k)%nat
         /\ Cron.NextRun (Cron.store s' 1)
            = Cron.calculateNextRun unit (fun _ => None) (fun _ t => t) (fun _ => None)
                (Cron.mkSchedule "every" 60000 "" "" 0) (clock k).
Proof.
  intros clock at_job every_job s.
  destruct (cron_returning_run_fires_due_jobs unit (fun _ => None) (fun _ t => t)
              (fun _ => None)
              clock s) as (Hall & Hreturns).
  - split; [|split].
    + intros c Hc x y Hx Hy. simpl in Hc. assert (c = 1%nat) as -> by lia.
      simpl in Hx, Hy. injection Hx as <-. injection Hy as <-.
      unfold Cron.next_run_key. simpl. lia.
    + apply NoDup_cons. split; [|apply NoDup_singleton].
      intros H. apply list_elem_of_singleton in H. discriminate.
    + intros id p H. simpl in H.
      apply lookup_insert_Some in H as [[<- <-] | [_ H]]; [reflexivity|].
      apply lookup_singleton_Some in H as [<- <-]. reflexivity.
  - destruct Hreturns as (s' & Hrun).
    { intros p Hp Hss k Hk. simpl in Hp.
      apply elem_of_cons in Hp as [-> | Hp]; [discriminate Hss|].
      apply list_elem_of_singleton in Hp as ->.
      apply (cron_every_reschedules_later unit (fun _ => None) (fun _ t => t)
               (fun _ => None) clock (Cron.mkSchedule "every" 60000 "" "" 0) 0 k).
      - reflexivity.
      - simpl. lia.
      - vm_compute. reflexivity.
      - simpl. lia. }
    exists s'. split; [exact Hrun|].
    destruct (Hall 3%nat s' 0%nat Hrun) as [Hat _].
    { simpl. apply elem_of_cons. left. reflexivity. }
    { reflexivity. }
    destruct (Hat eq_refl) as (Hf & Hout & Hgone & Hlist & _).
    destruct (Hall 3%nat s' 1%nat Hrun) as [_ Hevery].
    { simpl. apply elem_of_cons. right. apply list_elem_of_singleton. reflexivity. }
    { reflexivity. }
    destruct (Hevery ltac:(discriminate) eq_refl) as (Hlt & Hin & k & Hk & Hnext).
    split; [exact Hf|]. split; [exact Hout|]. split; [exact Hgone|].
    split; [exact Hlist|]. split; [simpl in Hlt; lia|]. split; [exact Hin|].
    exists k. split; [simpl in Hk; lia | exact Hnext].
Defined.

(** C5. A due job is not fired while a repeating job ahead of it keeps
    being rescheduled before it. Let the heap be in heap order with
    distinct jobs, [p] a job of kind "every" with the delete-after-run
    flag unset and [q] a due job, registered in the map under an id
    that no other job of the heap bears, with [p]'s next run before
    [q]'s. If each of the [n] readings of the clock that follow the
    wake-up, moved by [p]'s interval (the product [EveryMs] times
    [Millisecond], wrapped to 64 bits), is before [q]'s next run, then
    [checkAndRun] has not returned after [n] turns of its loop, and at
    that point [q] has not been fired, is still in the heap, in the
    map and in [ListJobs], unchanged. With [EveryMs] = 10^13, which
    the cron tool builds from [every_seconds] = 1e10, the product
    wraps to -8446744073709551616 ns, about 267 years back. *)
Theorem checkAndRun_starves_due_job
  (CronSchedule : Type) (Parse : string -> option CronSchedule)
  (Next : CronSchedule -> Cron.Time -> Cron.Time)
  (LoadLocation : string -> option Cron.Location)
  (clock : nat -> Cron.Time) (s : Cron.CronService) (p q n : nat) :
  Cron.well_formed s ->
  p ∈ Cron.heap s ->
  q ∈ Cron.heap s ->
  Cron.jobs s !! Cron.ID (Cron.store s q) = Some q ->
  (forall r, r ∈ Cron.heap s ->
     Cron.ID (Cron.store s r) = Cron.ID (Cron.store s q) -> r = q) ->
  Cron.Kind (Cron.JSchedule (Cron.store s p)) = "every" ->
  Cron.DeleteAfterRun (Cron.store s p) = false ->
  (Cron.instant (Cron.NextRun (Cron.store s p))
   < Cron.instant (Cron.NextRun (Cron.store s q)))%Z ->
  Cron.due (clock (Cron.ticks s)) s q = true ->
  (forall k, (Cron.ticks s < k <= Cron.ticks s + n)%nat ->
     (Cron.instant (clock k)
      + Cron.wrap64 (Cron.EveryMs (Cron.JSchedule (Cron.store s p)) * Cron.Millisecond)
      < Cron.instant (Cron.NextRun (Cron.store s q)))%Z) ->
  Cron.checkAndRun CronSchedule Parse Next LoadLocation clock n s = None
  /\ (let sn := Cron.checkAndRun_state CronSchedule Parse Next LoadLocation clock n s in
      Cron.fired sn q = Cron.fired s q
      /\ q ∈ Cron.heap sn
      /\ Cron.jobs sn !! Cron.ID (Cron.store s q) = Some q
      /\ q ∈ Cron.ListJobs sn
      /\ Cron.store sn q = Cron.store s q).
Proof.
  intros (Hheap & Hnd & _) Hp Hq Hmap Hids Hkind Hflag Hlt Hdue Hclock.
  destruct (cron_starved_loop CronSchedule Parse Next LoadLocation clock
              (Cron.JSchedule (Cron.store s p)) (Cron.store s q) (Cron.fired s q) p q
              (clock (Cron.ticks s)) n
              (Cron.mkService (Cron.store s) (Cron.fresh s) (Cron.jobs s) (Cron.heap s)
                 (S (Cron.ticks s)) (Cron.launched s)))
    as (Hnone & Hinv).
  - exact Hkind.
  - unfold Cron.starved. simpl. repeat split; try assumption; try reflexivity.
  - unfold Cron.due, Cron.After in Hdue. apply negb_true_iff, Z.ltb_ge in Hdue. exact Hdue.
  - intros k Hk. simpl in Hk. apply Hclock. lia.
  - split; [exact Hnone|]. cbv zeta.
    destruct Hinv as (_ & _ & _ & Hq' & Hsq & Hf & _ & _ & _ & Hmap' & _).
    split; [exact Hf|]. split; [exact Hq'|]. split; [exact Hmap'|].
    split; [|exact Hsq].
    apply cron_ListJobs_elem. eexists. exact Hmap'.
Qed.

Lemma checkAndRun_starves_due_job_witness :
  let clock := fun k : nat =>
    Cron.mkTime (1790000000000000000 + Z.of_nat k * 1000
                 + (if (4 <=? k)%nat then 60000000000 else 0)) "Local" in
  let every_job := Cron.mkJob "" "tick" "tick"
                     (Cron.mkSchedule "every" 10000000000000 "" "" 0)
                     "telegram" "42" true false (Cron.mkTime 0 "") (Cron.mkTime 0 "")
                     false "" in
  let at_job := Cron.mkJob "" "tea" "tea" (Cron.mkSchedule "at" 0 "" "" 1790000030000)
                  "telegram" "42" true true (Cron.mkTime 0 "") (Cron.mkTime 0 "")
                  false "" in
  let add := Cron.AddJob unit (fun _ => None) (fun _ t => t) (fun _ => None) clock in
  let s := (add (add Cron.NewCronService every_job).2 at_job).2 in
  let sn := Cron.checkAndRun_state unit (fun _ => None) (fun _ t => t) (fun _ => None)
              clock 300 s in
  Cron.heap s = [0%nat; 1%nat]
  /\ Cron.Kind (Cron.JSchedule (Cron.store s 1)) = "at"
  /\ Cron.due (clock (Cron.ticks s)) s 1 = true
  /\ Cron.checkAndRun unit (fun _ => None) (fun _ t => t) (fun _ => None) clock 300 s = None
  /\ Cron.fired sn 0 = 300%nat
  /\ Cron.fired sn 1 = 0%nat
  /\ 1%nat ∈ Cron.heap sn
  /\ Cron.jobs sn !! "job_1790000000000002000" = Some 1%nat
  /\ 1%nat ∈ Cron.ListJobs sn.
Proof.
  intros clock every_job at_job add s sn.
  assert (Cron.heap s = [0%nat; 1%nat]) as Hheap by (vm_compute; reflexivity).
  split; [exact Hheap|]. split; [reflexivity|]. split; [vm_compute; reflexivity|].
  destruct (checkAndRun_starves_due_job unit (fun _ => None) (fun _ t => t) (fun _ => None)
              clock s 0 1 300) as (Hnone & Hf & Hin & Hmap & Hlist & _).
  - subst s add.
    destruct (cron_New_well_formed unit (fun _ t => t) clock) as [Hwf0 Hal0].
    destruct (cron_AddJob_well_formed unit (fun _ => None) (fun _ t => t) (fun _ => None)
                clock _ every_job Hwf0 Hal0) as [Hwf1 Hal1].
    exact (proj1 (cron_AddJob_well_formed unit (fun _ => None) (fun _ t => t)
                    (fun _ => None) clock _ at_job Hwf1 Hal1)).
  - rewrite Hheap. apply elem_of_cons. left. reflexivity.
  - rewrite Hheap. apply elem_of_cons. right. apply list_elem_of_singleton. reflexivity.
  - vm_compute. reflexivity.
  - intros r Hr Hid. rewrite Hheap in Hr.
    apply elem_of_cons in Hr as [-> | Hr].
    + vm_compute in Hid. discriminate Hid.
    + apply list_elem_of_singleton in Hr. exact Hr.
  - reflexivity.
  - reflexivity.
  - vm_compute. reflexivity.
  - vm_compute. reflexivity.
  - intros k Hk.
    change (Cron.ticks s) with 4%nat in Hk.
    change (Cron.instant (Cron.NextRun (Cron.store s 1))) with 1790000030000000000%Z.
    change (Cron.wrap64 (Cron.EveryMs (Cron.JSchedule (Cron.store s 0)) * Cron.Millisecond))
      with (-8446744073709551616)%Z.
    unfold clock. cbn [Cron.instant].
    destruct (4 <=? k)%nat; lia.
  - split; [exact Hnone|]. split; [vm_compute; reflexivity|].
    split; [exact Hf|]. split; [exact Hin|]. split; [exact Hmap | exact Hlist].
Defined.

(** [AddJob] puts the new job into the heap and the map. *)
Lemma cron_AddJob_scheduled
  (CronSchedule : Type) (Parse : string -> option CronSchedule)
  (Next : CronSchedule -> Cron.Time -> Cron.Time)
  (LoadLocation : string -> option Cron.Location)
  (clock : nat -> Cron.Time) (s : Cron.CronService) (job : Cron.Job) :
  Cron.well_formed s ->
  (forall q, q ∈ Cron.heap s -> (q < Cron.fresh s)%nat) ->
  let r := Cron.AddJob CronSchedule Parse Next LoadLocation clock s job in
  r.1 ∈ Cron.heap r.2
  /\ r.1 ∈ Cron.ListJobs r.2
  /\ Cron.NextRun (Cron.store r.2 r.1)
     = Cron.calculateNextRun CronSchedule Parse Next LoadLocation
         (Cron.JSchedule job) (clock (S (Cron.ticks s))).
Proof.
  intros (Hheap & Hnd & _) Hfresh. unfold Cron.AddJob. cbv zeta. simpl.
  match goal with |- context [<[Cron.fresh s := ?j]> (Cron.store s)] => set (job1 := j) end.
  set (st := <[Cron.fresh s := job1]> (Cron.store s)).
  assert (Cron.fresh s ∉ Cron.heap s) as Hnotin.
  { intros Hin. apply Hfresh in Hin. lia. }
  assert (Heap.is_heap (Cron.next_run_key st) (Cron.heap s)) as Hheap_st.
  { apply (heap_is_heap_ext (Cron.next_run_key (Cron.store s))); [|exact Hheap].
    intros p Hp. unfold Cron.next_run_key, st. rewrite fn_lookup_insert_ne; [reflexivity|].
    intros <-. contradiction. }
  destruct (heap_Push_spec (Cron.next_run_key st) (Cron.heap s) (Cron.fresh s)
              Hheap_st Hnd Hnotin) as (_ & Hperm & _).
  split; [|split].
  - rewrite Hperm. apply elem_of_cons. left. reflexivity.
  - apply cron_ListJobs_elem. exists (Cron.ID job1). simpl. apply lookup_insert_eq.
  - unfold st. rewrite fn_lookup_insert. reflexivity.
Qed.

(** C7. For a schedule of kind "cron": when the expression does not
    parse, the next run is [now] plus one hour; a job added with that
    schedule is in the heap and in [ListJobs] with that next run, and
    a due job with that schedule and an unset delete-after-run flag is
    back in the heap, after every run of [checkAndRun] that returns,
    with a next run one hour after a reading of the clock. When the
    expression parses, the next run is [Next] of the parsed schedule,
    taken from [now] moved to the zone [TZ] when [TZ] is given and
    loads, and from [now] as it is otherwise. *)
Theorem cron_next_run_parse_failure_and_zone
  (CronSchedule : Type) (Parse : string -> option CronSchedule)
  (Next : CronSchedule -> Cron.Time -> Cron.Time)
  (LoadLocation : string -> option Cron.Location)
  (clock : nat -> Cron.Time) (schedule : Cron.Schedule) (now : Cron.Time) :
  Cron.Kind schedule = "cron" ->
  (Parse (Cron.CronExpr schedule) = None ->
     Cron.calculateNextRun CronSchedule Parse Next LoadLocation schedule now
     = Cron.Add now Cron.Hour
     /\ (forall (s : Cron.CronService) (job : Cron.Job),
           Cron.well_formed s ->
           (forall q, q ∈ Cron.heap s -> (q < Cron.fresh s)%nat) ->
           Cron.JSchedule job = schedule ->
           let r := Cron.AddJob CronSchedule Parse Next LoadLocation clock s job in
           r.1 ∈ Cron.heap r.2
           /\ r.1 ∈ Cron.ListJobs r.2
           /\ Cron.NextRun (Cron.store r.2 r.1)
              = Cron.Add (clock (S (Cron.ticks s))) Cron.Hour)
     /\ (forall (s s' : Cron.CronService) (fuel p : nat),
           Cron.well_formed s ->
           Cron.checkAndRun CronSchedule Parse Next LoadLocation clock fuel s = Some s' ->
           p ∈ Cron.heap s ->
           Cron.due (clock (Cron.ticks s)) s p = true ->
           Cron.JSchedule (Cron.store s p) = schedule ->
           Cron.DeleteAfterRun (Cron.store s p) = false ->
           p ∈ Cron.heap s'
           /\ exists k, (Cron.ticks s < k)%nat
                /\ Cron.NextRun (Cron.store s' p) = Cron.Add (clock k) Cron.Hour))
  /\ (forall sched,
        Parse (Cron.CronExpr schedule) = Some sched ->
        (forall loc,
           Cron.TZ schedule <> "" ->
           LoadLocation (Cron.TZ schedule) = Some loc ->
           Cron.calculateNextRun CronSchedule Parse Next LoadLocation schedule now
           = Next sched (Cron.In now loc))
        /\ (Cron.TZ schedule = "" \/ LoadLocation (Cron.TZ schedule) = None ->
            Cron.calculateNextRun CronSchedule Parse Next LoadLocation schedule now
            = Next sched now)).
Proof.
  intros Hkind.
  assert (forall t, Cron.calculateNextRun CronSchedule Parse Next LoadLocation schedule t
                    = Cron.calculateCronNextRun CronSchedule Parse Next LoadLocation
                        schedule t) as Hcron.
  { intros t. unfold Cron.calculateNextRun. rewrite Hkind. reflexivity. }
  split.
  - intros Hfail.
    assert (forall t, Cron.calculateNextRun CronSchedule Parse Next LoadLocation schedule t
                      = Cron.Add t Cron.Hour) as Hfallback.
    { intros t. rewrite Hcron. unfold Cron.calculateCronNextRun. rewrite Hfail.
      reflexivity. }
    split; [apply Hfallback|]. split.
    + intros s job Hwf Hfresh Hsched r.
      destruct (cron_AddJob_scheduled CronSchedule Parse Next LoadLocation clock s job
                  Hwf Hfresh) as (Hin & Hlist & Hnext).
      split; [exact Hin|]. split; [exact Hlist|].
      unfold r. rewrite Hnext, Hsched. apply Hfallback.
    + intros s s' fuel p Hwf Hrun Hp Hd Hsched Hflag.
      destruct (cron_checkAndRun_effect CronSchedule Parse Next LoadLocation clock
                  s s' fuel Hwf Hrun p Hp Hd) as (_ & Hrepeat).
      destruct Hrepeat as (_ & Hin & k & Hk & Hst).
      { unfold Cron.single_shot. rewrite Hflag, Hsched, Hkind. reflexivity. }
      split; [exact Hin|]. exists k. split; [exact Hk|].
      rewrite Hst, Hsched. simpl. apply Hfallback.
  - intros sched Hparse. rewrite Hcron. unfold Cron.calculateCronNextRun.
    rewrite Hparse. split.
    + intros loc Htz Hloc. rewrite Hloc.
      destruct (String.eqb_spec (Cron.TZ schedule) ""); [contradiction | reflexivity].
    + intros [Htz | Hloc].
      * rewrite Htz. reflexivity.
      * rewrite Hloc. destruct (String.eqb (Cron.TZ schedule) ""); reflexivity.
Qed.

Lemma cron_next_run_parse_failure_and_zone_witness :
  let Parse := fun e : string => if String.eqb e "0 9 * * *" then Some tt else None in
  let Next := fun (_ : unit) (t : Cron.Time) =>
                Cron.mkTime (Cron.instant t + 60000000000) (Cron.location t) in
  let LoadLocation := fun z : string =>
                        if String.eqb z "Asia/Shanghai" then Some z else None in
  let clock := fun k : nat => Cron.mkTime (1000 + Z.of_nat k) "Local" in
  let now := Cron.mkTime 1000 "Local" in
  Cron.calculateNextRun unit Parse Next LoadLocation
    (Cron.mkSchedule "cron" 0 "every day" "" 0) now
  = Cron.mkTime 3600000001000 "Local"
  /\ Cron.calculateNextRun unit Parse Next LoadLocation
       (Cron.mkSchedule "cron" 0 "0 9 * * *" "Asia/Shanghai" 0) now
     = Cron.mkTime 60000001000 "Asia/Shanghai"
  /\ Cron.calculateNextRun unit Parse Next LoadLocation
       (Cron.mkSchedule "cron" 0 "0 9 * * *" "Mars/Olympus" 0) now
     = Cron.mkTime 60000001000 "Local".
Proof.
  intros Parse Next LoadLocation clock now. split; [|split].
  - apply (proj1 (cron_next_run_parse_failure_and_zone unit Parse Next LoadLocation clock
                    (Cron.mkSchedule "cron" 0 "every day" "" 0) now eq_refl)).
    reflexivity.
  - apply (proj1 (proj2 (cron_next_run_parse_failure_and_zone unit Parse Next LoadLocation
                           clock (Cron.mkSchedule "cron" 0 "0 9 * * *" "Asia/Shanghai" 0)
                           now eq_refl) tt eq_refl) "Asia/Shanghai").
    + discriminate.
    + reflexivity.
  - apply (proj2 (proj2 (cron_next_run_parse_failure_and_zone unit Parse Next LoadLocation
                           clock (Cron.mkSchedule "cron" 0 "0 9 * * *" "Mars/Olympus" 0)
                           now eq_refl) tt eq_refl)).
    right. reflexivity.
Defined.

(** * Further properties *)

(** ** The message bus: order, capacity, shutdown *)

Section ConsumerProperties.
Import Bus Consumer.

Lemma bus_select_publish_cases {A} (n : nat) pick (c : chan A) d x :
  open_bounded n c ->
  (select_publish pick c d x = Ok (None, push c x) /\ open_bounded n (push c x))
  \/ (exists e, select_publish pick c d x = Ok (Some e, c)).
Proof.
  intros Hc. destruct (bus_select_publish_open n pick c d x Hc) as [H | [H | H]]; eauto.
Qed.

Lemma bus_select_consume_cases {A} (n : nat) (zero : A) pick (c : chan A) ctx :
  open_bounded n c ->
  (exists x rest, cbuf c = x :: rest
     /\ select_consume zero pick c ctx = Some ((x, None), mkChan rest (ccap c) (cclosed c))
     /\ open_bounded n (mkChan rest (ccap c) (cclosed c)))
  \/ (exists e, select_consume zero pick c ctx = Some ((zero, Some e), c))
  \/ select_consume zero pick c ctx = None.
Proof.
  intros (Hopen & Hcap & Hlen). unfold select_consume, receive. rewrite Hopen.
  destruct (cbuf c) as [|x rest] eqn:Hbuf.
  - destruct ctx; eauto.
  - assert (open_bounded n (mkChan rest (ccap c) false)) as Hinv.
    { repeat split; simpl in *; [assumption | lia]. }
    destruct ctx as [e|]; [destruct pick|]; eauto 10.
Qed.

Lemma bus_observe_call_inv (n : nat) (b : MessageBus) (l : log) (c : call) :
  bus_inv n b -> fifo_inv b l ->
  exists b' l', observe_call b l c = Ok (b', l') /\ bus_inv n b' /\ fifo_inv b' l'.
Proof.
  intros [Hin Hout] [Fin Fout]. destruct c as [pick msg | pick msg | pick ctx | pick ctx | ]; simpl.
  - unfold PublishInbound.
    destruct (bus_select_publish_cases n pick (inbound b) (done b) msg Hin)
      as [[-> Hinv] | [e ->]]; simpl.
    + do 2 eexists. split; [reflexivity|]. split; [split; assumption|].
      split; simpl; [|assumption]. rewrite Fin, app_assoc. reflexivity.
    + do 2 eexists. split; [reflexivity|]. split; [split; assumption|].
      split; assumption.
  - unfold PublishOutbound.
    destruct (bus_select_publish_cases n pick (outbound b) (done b) msg Hout)
      as [[-> Hinv] | [e ->]]; simpl.
    + do 2 eexists. split; [reflexivity|]. split; [split; assumption|].
      split; simpl; [assumption|]. rewrite Fout, app_assoc. reflexivity.
    + do 2 eexists. split; [reflexivity|]. split; [split; assumption|].
      split; assumption.
  - unfold ConsumeInbound.
    destruct (bus_select_consume_cases n zero_inbound pick (inbound b) ctx Hin)
      as [(x & rest & Hbuf & -> & Hinv) | [[e ->] | ->]].
    + do 2 eexists. split; [reflexivity|]. split; [split; assumption|].
      split; simpl; [|assumption]. rewrite Fin, Hbuf, <- app_assoc. reflexivity.
    + do 2 eexists. split; [reflexivity|]. destruct b; simpl in *.
      split; [split; assumption|]. split; assumption.
    + do 2 eexists. split; [reflexivity|]. split; [split; assumption|].
      split; assumption.
  - unfold ConsumeOutbound.
    destruct (bus_select_consume_cases n zero_outbound pick (outbound b) ctx Hout)
      as [(x & rest & Hbuf & -> & Hinv) | [[e ->] | ->]].
    + do 2 eexists. split; [reflexivity|]. split; [split; assumption|].
      split; simpl; [assumption|]. rewrite Fout, Hbuf, <- app_assoc. reflexivity.
    + do 2 eexists. split; [reflexivity|]. destruct b; simpl in *.
      split; [split; assumption|]. split; assumption.
    + do 2 eexists. split; [reflexivity|]. split; [split; assumption|].
      split; assumption.
  - do 2 eexists. split; [reflexivity|]. split; [split; assumption|].
    split; assumption.
Qed.

Lemma bus_observe_inv (n : nat) (calls : list call) : forall b l,
  bus_inv n b -> fifo_inv b l ->
  exists b' l', observe b l calls = Ok (b', l') /\ bus_inv n b' /\ fifo_inv b' l'.
Proof.
  induction calls as [|c calls IH]; intros b l Hinv Hfifo; simpl.
  - eauto.
  - destruct (bus_observe_call_inv n b l c Hinv Hfifo) as (b1 & l1 & -> & Hinv1 & Hfifo1).
    simpl. apply IH; assumption.
Qed.

(** On a bus with open channels and a context that is not cancelled,
    a list of publishes fills the queue up to its capacity and is
    refused from there on. *)
Lemma bus_publish_all_spec (n : nat) (msgs : list (bool * InboundMessage)) :
  forall b,
    bus_inv n b -> done b = false ->
    exists b',
      publish_all b msgs
      = Ok (replicate (min (length msgs) (n - length (cbuf (inbound b)))) None
              ++ replicate (length msgs - (n - length (cbuf (inbound b))))
                   (Some ErrBusFull), b')
      /\ cbuf (inbound b')
         = cbuf (inbound b) ++ take (n - length (cbuf (inbound b))) (map snd msgs)
      /\ outbound b' = outbound b.
Proof.
  induction msgs as [|[pick msg] msgs IH]; intros b Hinv Hdone.
  - simpl. exists b. split; [reflexivity|]. rewrite take_nil, app_nil_r. split; reflexivity.
  - destruct Hinv as [(Hopen & Hcap & Hlen) Hout].
    simpl publish_all. unfold PublishInbound, select_publish, send_ready, send.
    rewrite Hopen, Hdone. simpl orb.
    destruct (Nat.ltb_spec (length (cbuf (inbound b))) (ccap (inbound b))) as [Hlt | Hge].
    + simpl.
      set (b1 := mkBus (mkChan (cbuf (inbound b) ++ [msg]) (ccap (inbound b)) false)
                   (outbound b) false).
      destruct (IH b1) as (b' & Hrun & Hbuf & Hob).
      { split; [|exact Hout]. repeat split; simpl; [assumption|].
        rewrite length_app. simpl. lia. }
      { reflexivity. }
      assert (length (cbuf (inbound b1)) = S (length (cbuf (inbound b)))) as Hl1.
      { simpl. rewrite length_app. simpl. lia. }
      rewrite Hl1 in Hbuf, Hrun.
      assert (exists r, (n - length (cbuf (inbound b)))%nat = S r
                        /\ (n - S (length (cbuf (inbound b))))%nat = r) as (r & Hr & Hr').
      { exists (n - S (length (cbuf (inbound b))))%nat. lia. }
      rewrite Hr' in Hbuf, Hrun. rewrite Hr.
      rewrite Hrun. simpl. exists b'. split; [reflexivity|].
      split; [|exact Hob]. rewrite Hbuf. simpl. rewrite <- app_assoc. reflexivity.
    + simpl.
      assert (mkBus (inbound b) (outbound b) false = b) as Hb.
      { destruct b; simpl in *. subst. reflexivity. }
      rewrite Hb.
      destruct (IH b) as (b' & Hrun & Hbuf & Hob).
      { split; [repeat split; assumption | exact Hout]. }
      { exact Hdone. }
      rewrite Hrun. simpl. exists b'.
      assert ((n - length (cbuf (inbound b)))%nat = 0%nat) as Hz by lia.
      rewrite Hz in Hbuf. rewrite Hz.
      rewrite Nat.min_0_r, Nat.sub_0_r. simpl. rewrite take_0 in *.
      split; [reflexivity|]. split; assumption.
Qed.

(** After [Close], consumers with a live context are never blocked
    and never see an error: they get the queued messages in order,
    then zero messages. *)
Lemma bus_consume_many_closed (k : nat) : forall (q : list InboundMessage) cap o d,
  (consume_many k (mkBus (mkChan q cap true) o d)).1
  = map (fun m => (m, None)) (take k q ++ replicate (k - length q) zero_inbound).
Proof.
  induction k as [|k IH]; intros q cap o d; [reflexivity|].
  simpl consume_many. unfold ConsumeInbound, select_consume, receive. simpl.
  destruct q as [|x rest]; simpl.
  - specialize (IH [] cap o d).
    destruct (consume_many k (mkBus (mkChan [] cap true) o d)) as [rs b''] eqn:E.
    simpl in *. rewrite IH, take_nil, Nat.sub_0_r. reflexivity.
  - specialize (IH rest cap o d).
    destruct (consume_many k (mkBus (mkChan rest cap true) o d)) as [rs b''] eqn:E.
    simpl in *. rewrite IH. reflexivity.
Qed.

End ConsumerProperties.

(** X1. Each queue of the bus is first-in first-out and loses
    nothing while its channels are open: after any sequence of
    publishes and consumes (the runtime's choices and the callers'
    contexts being what they may), the messages whose publish returned
    [nil] are, in order, the messages that consumes have returned
    followed by the messages still queued. *)
Theorem bus_delivers_in_order (N : Z) (b0 : Bus.MessageBus) (calls : list Consumer.call) :
  Bus.New N = Ok b0 ->
  exists b l,
    Consumer.observe b0 Consumer.empty_log calls = Ok (b, l)
    /\ Consumer.accepted_in l = Consumer.delivered_in l ++ Bus.cbuf (Bus.inbound b)
    /\ Consumer.accepted_out l = Consumer.delivered_out l ++ Bus.cbuf (Bus.outbound b).
Proof.
  intros Hnew.
  assert (Consumer.fifo_inv b0 Consumer.empty_log) as Hfifo.
  { unfold Bus.New, Bus.make_chan in Hnew. destruct (N <? 0)%Z; [discriminate|].
    injection Hnew as <-. split; reflexivity. }
  apply bus_New_inv in Hnew as [_ Hinv].
  destruct (bus_observe_inv _ calls b0 Consumer.empty_log Hinv Hfifo)
    as (b & l & Hrun & _ & Hin & Hout).
  exists b, l. split; [exact Hrun|]. split; assumption.
Qed.

Lemma bus_delivers_in_order_witness :
  let m1 := Bus.mkMessage "1" "cli" "user" "direct" "one" [] [] 0 "" in
  let m2 := Bus.mkMessage "2" "cli" "user" "direct" "two" [] [] 0 "" in
  let m3 := Bus.mkMessage "3" "cli" "user" "direct" "three" [] [] 0 "" in
  let calls := [Consumer.CallPublishInbound true m1; Consumer.CallPublishInbound true m2;
                Consumer.CallPublishInbound true m3; Consumer.CallConsumeInbound true None;
                Consumer.CallPublishInbound true m3] in
  exists b0 b l,
    Bus.New 2 = Ok b0
    /\ Consumer.observe b0 Consumer.empty_log calls = Ok (b, l)
    /\ Consumer.accepted_in l = [m1; m2; m3]
    /\ Consumer.delivered_in l = [m1]
    /\ Consumer.accepted_in l = Consumer.delivered_in l ++ Bus.cbuf (Bus.inbound b).
Proof.
  intros m1 m2 m3 calls.
  exists (Bus.mkBus (Bus.mkChan [] 2 false) (Bus.mkChan [] 2 false) false).
  destruct (bus_delivers_in_order 2
              (Bus.mkBus (Bus.mkChan [] 2 false) (Bus.mkChan [] 2 false) false) calls
              eq_refl) as (b & l & Hrun & Hin & _).
  exists b, l. split; [reflexivity|]. split; [exact Hrun|].
  vm_compute in Hrun. injection Hrun as <- <-.
  split; [reflexivity|]. split; [reflexivity|]. exact Hin.
Defined.

(** X2. A bus made by [New N] takes exactly [N] messages: of a list of
    messages published one after the other with nothing consumed
    meanwhile, the first [N] are accepted and queued in order, and
    every later publish returns [ErrBusFull] and queues nothing. *)
Theorem bus_accepts_up_to_capacity (N : Z) (b0 : Bus.MessageBus)
  (msgs : list (bool * Bus.InboundMessage)) :
  Bus.New N = Ok b0 ->
  exists b,
    Consumer.publish_all b0 msgs
    = Ok (replicate (min (length msgs) (Z.to_nat N)) None
            ++ replicate (length msgs - Z.to_nat N) (Some Bus.ErrBusFull), b)
    /\ Bus.cbuf (Bus.inbound b) = take (Z.to_nat N) (map snd msgs).
Proof.
  intros Hnew.
  assert (Bus.cbuf (Bus.inbound b0) = [] /\ Bus.done b0 = false) as [Hempty Hdone].
  { unfold Bus.New, Bus.make_chan in Hnew. destruct (N <? 0)%Z; [discriminate|].
    injection Hnew as <-. split; reflexivity. }
  apply bus_New_inv in Hnew as [_ Hinv].
  destruct (bus_publish_all_spec _ msgs b0 Hinv Hdone) as (b & Hrun & Hbuf & _).
  rewrite Hempty in Hrun, Hbuf. simpl in Hrun, Hbuf. rewrite Nat.sub_0_r in Hrun, Hbuf.
  exists b. split; assumption.
Qed.

Lemma bus_accepts_up_to_capacity_witness :
  let m1 := Bus.mkMessage "1" "cli" "user" "direct" "one" [] [] 0 "" in
  let m2 := Bus.mkMessage "2" "cli" "user" "direct" "two" [] [] 0 "" in
  let m3 := Bus.mkMessage "3" "cli" "user" "direct" "three" [] [] 0 "" in
  exists b0 b,
    Bus.New 2 = Ok b0
    /\ Consumer.publish_all b0 [(true, m1); (true, m2); (true, m3)]
       = Ok ([None; None; Some Bus.ErrBusFull], b)
    /\ Bus.cbuf (Bus.inbound b) = [m1; m2].
Proof.
  intros m1 m2 m3.
  exists (Bus.mkBus (Bus.mkChan [] 2 false) (Bus.mkChan [] 2 false) false).
  destruct (bus_accepts_up_to_capacity 2
              (Bus.mkBus (Bus.mkChan [] 2 false) (Bus.mkChan [] 2 false) false)
              [(true, m1); (true, m2); (true, m3)] eq_refl) as (b & Hrun & Hbuf).
  exists b. split; [reflexivity|]. split; [exact Hrun | exact Hbuf].
Defined.

(** X3. [Close] does not discard what is queued, and a consumer is
    not told that the bus is closed: on a bus made by [New] and used
    by any publishes and consumes, after [Close] the calls of
    [ConsumeInbound] with a live context neither block nor return an
    error; they return the queued messages in order and from then on
    the zero message, each with a [nil] error. *)
Theorem bus_consume_after_close (N : Z) (b0 : Bus.MessageBus)
  (calls : list Consumer.call) (k : nat) :
  Bus.New N = Ok b0 ->
  exists b l b1,
    Consumer.observe b0 Consumer.empty_log calls = Ok (b, l)
    /\ Bus.Close b = Ok b1
    /\ (Consumer.consume_many k b1).1
       = map (fun m => (m, None))
           (take k (Bus.cbuf (Bus.inbound b))
              ++ replicate (k - length (Bus.cbuf (Bus.inbound b))) Consumer.zero_inbound).
Proof.
  intros Hnew.
  assert (Consumer.fifo_inv b0 Consumer.empty_log) as Hfifo.
  { unfold Bus.New, Bus.make_chan in Hnew. destruct (N <? 0)%Z; [discriminate|].
    injection Hnew as <-. split; reflexivity. }
  apply bus_New_inv in Hnew as [_ Hinv].
  destruct (bus_observe_inv _ calls b0 Consumer.empty_log Hinv Hfifo)
    as (b & l & Hrun & [(Hi & _) (Ho & _)] & _).
  exists b, l. unfold Bus.Close, Bus.close_chan. simpl. rewrite Hi, Ho. simpl.
  eexists. split; [exact Hrun|]. split; [reflexivity|].
  apply bus_consume_many_closed.
Qed.

Lemma bus_consume_after_close_witness :
  let m1 := Bus.mkMessage "1" "cli" "user" "direct" "one" [] [] 0 "" in
  let b0 := Bus.mkBus (Bus.mkChan [] 2 false) (Bus.mkChan [] 2 false) false in
  exists b l b1,
    Bus.New 2 = Ok b0
    /\ Consumer.observe b0 Consumer.empty_log [Consumer.CallPublishInbound true m1]
       = Ok (b, l)
    /\ Bus.Close b = Ok b1
    /\ (Consumer.consume_many 3 b1).1
       = [(m1, None); (Consumer.zero_inbound, None); (Consumer.zero_inbound, None)].
Proof.
  intros m1 b0.
  destruct (bus_consume_after_close 2 b0 [Consumer.CallPublishInbound true m1] 3 eq_refl)
    as (b & l & b1 & Hrun & Hclose & Hmany).
  exists b, l, b1. split; [reflexivity|]. split; [exact Hrun|]. split; [exact Hclose|].
  vm_compute in Hrun. injection Hrun as <- <-. exact Hmany.
Defined.

(** ** Sessions: file names, the cache, what is written and read back *)

Lemma utf8_byte_lt_256 (c : ascii) : (Utf8.byte c < 256)%N.
Proof. apply N_ascii_bounded. Qed.

Lemma safe_byte_ascii (c : ascii) :
  SessionFiles.safe_byte c = true -> (Utf8.byte c <? 128)%N = true.
Proof.
  unfold SessionFiles.safe_byte, Utf8.in_range. intros H.
  apply N.ltb_lt.
  repeat (apply orb_true_iff in H as [H | H]).
  - apply andb_true_iff in H as [_ H]. apply N.leb_le in H. lia.
  - apply andb_true_iff in H as [_ H]. apply N.leb_le in H. lia.
  - apply andb_true_iff in H as [_ H]. apply N.leb_le in H. lia.
  - apply Ascii.eqb_eq in H as ->. vm_compute. reflexivity.
  - apply Ascii.eqb_eq in H as ->. vm_compute. reflexivity.
  - apply Ascii.eqb_eq in H as ->. vm_compute. reflexivity.
Qed.

Lemma safe_runes_all_safe (s : string) : forall skip,
  SessionFiles.all_bytes SessionFiles.safe_byte (SessionFiles.safe_runes skip s) = true.
Proof.
  induction s as [|c s IH]; intros skip; [reflexivity|].
  destruct skip as [|k]; simpl; [|apply IH].
  rewrite IH, andb_true_r.
  destruct (SessionFiles.safe_byte c) eqn:Hc; [exact Hc | reflexivity].
Qed.

Lemma safe_runes_length (s : string) : forall skip,
  (String.length (SessionFiles.safe_runes skip s) <= String.length s)%nat.
Proof.
  induction s as [|c s IH]; intros skip; [simpl; lia|].
  destruct skip as [|k]; simpl.
  - specialize (IH (Utf8.rune_width (String c s) - 1)%nat). lia.
  - specialize (IH k). lia.
Qed.

Lemma safe_runes_id (s : string) :
  SessionFiles.all_bytes SessionFiles.safe_byte s = true ->
  SessionFiles.safe_runes 0 s = s.
Proof.
  induction s as [|c s IH]; intros H; [reflexivity|].
  simpl in H. apply andb_true_iff in H as [Hc Hs].
  simpl SessionFiles.safe_runes. rewrite Hc.
  unfold Utf8.rune_width, Utf8.decode. rewrite (safe_byte_ascii c Hc). simpl.
  rewrite IH by exact Hs. reflexivity.
Qed.

Lemma substring_prefix_length (n : nat) : forall s,
  (String.length (String.substring 0 n s) <= n)%nat
  /\ (String.length (String.substring 0 n s) <= String.length s)%nat.
Proof.
  induction n as [|n IH]; intros s.
  - destruct s; simpl; lia.
  - destruct s as [|c s]; simpl; [lia|]. destruct (IH s). lia.
Qed.

Lemma substring_prefix_all (n : nat) : forall s,
  (String.length s <= n)%nat -> String.substring 0 n s = s.
Proof.
  induction n as [|n IH]; intros s Hs.
  - destruct s; [reflexivity | simpl in Hs; lia].
  - destruct s as [|c s]; [reflexivity|]. simpl in *. rewrite IH by lia. reflexivity.
Qed.

(** X4. [safeFilename] yields a name of at most 200 bytes made only of
    letters, digits, '-', '_' and '.' (so it holds no path separator),
    whatever bytes the key holds; a key that is already such a name
    is returned as it is, and applying the function twice changes
    nothing more. *)
Theorem safeFilename_safe (key : string) :
  SessionFiles.all_bytes SessionFiles.safe_byte (SessionFiles.safeFilename key) = true
  /\ (String.length (SessionFiles.safeFilename key) <= 200)%nat
  /\ (String.length (SessionFiles.safeFilename key) <= String.length key)%nat
  /\ (SessionFiles.all_bytes SessionFiles.safe_byte key = true ->
      (String.length key <= 200)%nat ->
      SessionFiles.safeFilename key = key)
  /\ SessionFiles.safeFilename (SessionFiles.safeFilename key)
     = SessionFiles.safeFilename key.
Proof.
  assert (SessionFiles.all_bytes SessionFiles.safe_byte (SessionFiles.safeFilename key)
          = true) as Hsafe by apply safe_runes_all_safe.
  assert (String.length (SessionFiles.safeFilename key) <= 200
          /\ String.length (SessionFiles.safeFilename key) <= String.length key)%nat
    as [H200 Hlen].
  { unfold SessionFiles.safeFilename.
    pose proof (safe_runes_length (String.substring 0 200 key) 0).
    pose proof (substring_prefix_length 200 key). lia. }
  assert (forall k, SessionFiles.all_bytes SessionFiles.safe_byte k = true ->
                    (String.length k <= 200)%nat ->
                    SessionFiles.safeFilename k = k) as Hid.
  { intros k Hk Hl. unfold SessionFiles.safeFilename.
    rewrite substring_prefix_all by exact Hl. apply safe_runes_id, Hk. }
  split; [exact Hsafe|]. split; [exact H200|]. split; [exact Hlen|].
  split; [apply Hid|]. apply Hid; assumption.
Qed.

Lemma safeFilename_safe_witness :
  SessionFiles.safeFilename "cli_direct.v1" = "cli_direct.v1"
  /\ SessionFiles.safeFilename "telegram:42/../x" = "telegram_42_.._x".
Proof.
  destruct (safeFilename_safe "cli_direct.v1") as (_ & _ & _ & Hid & _).
  split; [|reflexivity].
  apply Hid; [reflexivity | simpl; lia].
Defined.

Section SessionCacheProperties.
Import Session SessionFiles.
Variable parseRFC3339 : string -> Z.
Variable sessionPath : string -> string -> string.

Local Abbreviation get := (GetOrCreate parseRFC3339 sessionPath).

Lemma lru_length (sm : SessionManager) :
  lru_inv sm -> length (accessOrder sm) = size (cache sm).
Proof.
  intros [Hnd Hset].
  rewrite <- (size_dom (D := gset string) (cache sm)).
  rewrite <- (size_list_to_set (C := gset string) (accessOrder sm) Hnd).
  f_equal. apply leibniz_equiv. intros k.
  rewrite elem_of_list_to_set, elem_of_dom. apply Hset.
Qed.

Lemma remove_first_spec (key : string) (l : list string) :
  key ∈ l -> exists l', remove_first key l = Some l' /\ l ≡ₚ key :: l'.
Proof.
  induction l as [|k l IH]; intros Hin; [inversion Hin|].
  simpl. destruct (String.eqb_spec k key) as [-> | Hne].
  - eexists. split; reflexivity.
  - apply elem_of_cons in Hin as [-> | Hin]; [contradiction|].
    destruct (IH Hin) as (l' & -> & Hperm). eexists. split; [reflexivity|].
    rewrite Hperm. apply Permutation_swap.
Qed.

Lemma moveToEnd_perm (key : string) (l : list string) :
  moveToEnd key l ≡ₚ l.
Proof.
  unfold moveToEnd. destruct (remove_first key l) as [l'|] eqn:E; [|reflexivity].
  assert (key ∈ l) as Hin.
  { clear -E. revert l' E. induction l as [|k l IH]; intros l' E; [discriminate|].
    simpl in E. destruct (String.eqb_spec k key) as [-> | Hne].
    - apply elem_of_cons. left. reflexivity.
    - destruct (remove_first key l) eqn:E'; [|discriminate].
      apply elem_of_cons. right. eapply IH. reflexivity. }
  destruct (remove_first_spec key l Hin) as (l'' & E'' & Hperm).
  rewrite E in E''. injection E'' as <-.
  rewrite Hperm. rewrite Permutation_app_comm. reflexivity.
Qed.

Lemma moveToEnd_last (key : string) (l : list string) :
  key ∈ l -> last (moveToEnd key l) = Some key.
Proof.
  intros Hin. unfold moveToEnd.
  destruct (remove_first_spec key l Hin) as (l' & -> & _). apply last_snoc.
Qed.

(** What a call that finds the key cached does. *)
Lemma GetOrCreate_hit fuel now (sm : SessionManager) key p :
  cache sm !! key = Some p ->
  get fuel now sm key
  = Some (Ok (p, mkManager (sessionsDir sm) (objs sm) (cache sm) (maxCache sm)
                   (moveToEnd key (accessOrder sm)) (disk sm))).
Proof. intros H. unfold GetOrCreate. rewrite H. reflexivity. Qed.

(** What a call that does not find the key cached does, once [load]
    has returned. *)
Lemma GetOrCreate_miss fuel now (sm : SessionManager) key p sm' :
  cache sm !! key = None ->
  get fuel now sm key = Some (Ok (p, sm')) ->
  let sm1 := if (maxCache sm <=? Z.of_nat (size (cache sm)))%Z then evictOldest sm else sm in
  p = length (objs sm)
  /\ exists session,
       sm' = mkManager (sessionsDir sm) (objs sm ++ [session]) (<[key := p]> (cache sm1))
               (maxCache sm) (accessOrder sm1 ++ [key]) (disk sm).
Proof.
  intros Hmiss. unfold GetOrCreate. rewrite Hmiss.
  destruct (load parseRFC3339 sessionPath fuel now sm key) as [[loaded|m]|];
    [|discriminate..].
  intros [= <- <-]. split; [reflexivity|]. eexists.
  destruct (maxCache sm <=? Z.of_nat (size (cache sm)))%Z; [|reflexivity].
  unfold evictOldest. destruct (accessOrder sm); reflexivity.
Qed.

Lemma lru_inv_step fuel now (sm : SessionManager) key p sm' :
  lru_inv sm ->
  (1 <= maxCache sm)%Z ->
  (Z.of_nat (size (cache sm)) <= maxCache sm)%Z ->
  get fuel now sm key = Some (Ok (p, sm')) ->
  lru_inv sm'
  /\ (Z.of_nat (size (cache sm')) <= maxCache sm')%Z
  /\ maxCache sm' = maxCache sm
  /\ cache sm' !! key = Some p
  /\ last (accessOrder sm') = Some key.
Proof.
  intros Hinv Hmax Hsize Hget.
  pose proof (lru_length sm Hinv) as Hlen.
  destruct Hinv as [Hnd Hset].
  destruct (cache sm !! key) as [q|] eqn:Hc.
  - rewrite (GetOrCreate_hit fuel now sm key q Hc) in Hget. injection Hget as <- <-.
    unfold lru_inv. simpl. split; [split|].
    + rewrite moveToEnd_perm. exact Hnd.
    + intros k. rewrite moveToEnd_perm. apply Hset.
    + split; [exact Hsize|]. split; [reflexivity|]. split; [exact Hc|].
      apply moveToEnd_last, Hset. rewrite Hc. eauto.
  - destruct (GetOrCreate_miss fuel now sm key p sm' Hc Hget) as (-> & session & ->).
    simpl.
    assert (key ∉ accessOrder sm) as Hnotin.
    { intros Hin. apply Hset in Hin. rewrite Hc in Hin. destruct Hin; discriminate. }
    destruct (Z.leb_spec (maxCache sm) (Z.of_nat (size (cache sm)))) as [Hfull | Hroom].
    + destruct (accessOrder sm) as [|oldest rest] eqn:Hord; [simpl in Hlen; lia|].
      unfold lru_inv, evictOldest. rewrite Hord. simpl.
      apply NoDup_cons in Hnd as [Hold Hndrest].
      assert (is_Some (cache sm !! oldest)) as Hcached.
      { apply Hset. apply elem_of_cons. left. reflexivity. }
      assert (oldest <> key) as Hne.
      { intros ->. rewrite Hc in Hcached. destruct Hcached; discriminate. }
      split; [split|].
      * apply NoDup_app. split; [exact Hndrest|]. split; [|apply NoDup_singleton].
        intros k Hk Hk'. apply list_elem_of_singleton in Hk' as ->.
        apply Hnotin. apply elem_of_cons. right. exact Hk.
      * intros k. rewrite elem_of_app, list_elem_of_singleton.
        destruct (decide (k = key)) as [-> | Hk].
        -- rewrite lookup_insert_eq. split; eauto.
        -- rewrite lookup_insert_ne by congruence.
           destruct (decide (k = oldest)) as [-> | Hko].
           ++ rewrite lookup_delete_eq. split.
              ** intros [H | H]; [contradiction | congruence].
              ** intros [? H]; discriminate.
           ++ rewrite lookup_delete_ne by congruence. rewrite <- Hset.
              rewrite elem_of_cons. split; [tauto|]. intros [-> | H]; [contradiction | tauto].
      * split.
        -- rewrite map_size_insert_None
             by (rewrite lookup_delete_ne by congruence; exact Hc).
           rewrite map_size_delete_Some by exact Hcached.
           simpl in Hlen. lia.
        -- split; [reflexivity|]. split; [apply lookup_insert_eq | apply last_snoc].
    + unfold lru_inv. simpl. split; [split|].
      * apply NoDup_app. split; [exact Hnd|]. split; [|apply NoDup_singleton].
        intros k Hk Hk'. apply list_elem_of_singleton in Hk' as ->. contradiction.
      * intros k. rewrite elem_of_app, list_elem_of_singleton.
        destruct (decide (k = key)) as [-> | Hk].
        -- rewrite lookup_insert_eq. split; eauto.
        -- rewrite lookup_insert_ne by congruence. rewrite <- Hset. tauto.
      * split.
        -- rewrite map_size_insert_None by exact Hc. lia.
        -- split; [reflexivity|]. split; [apply lookup_insert_eq | apply last_snoc].
Qed.

End SessionCacheProperties.

Lemma get_all_inv (parseRFC3339 : string -> Z) (Join : string -> string -> string)
  (fuel : nat) (calls : list (Z * string)) : forall sm0 sm,
  SessionFiles.lru_inv sm0 ->
  (1 <= Session.maxCache sm0)%Z ->
  (Z.of_nat (size (Session.cache sm0)) <= Session.maxCache sm0)%Z ->
  SessionFiles.get_all parseRFC3339 Join fuel sm0 calls = Some (Ok sm) ->
  SessionFiles.lru_inv sm
  /\ (Z.of_nat (size (Session.cache sm)) <= Session.maxCache sm)%Z
  /\ Session.maxCache sm = Session.maxCache sm0
  /\ (forall now key, last calls = Some (now, key) ->
       is_Some (Session.cache sm !! key)
       /\ last (Session.accessOrder sm) = Some key).
Proof.
  induction calls as [|[now key] rest IH]; intros sm0 sm Hinv Hmax Hsize Hrun.
  - injection Hrun as <-. split; [exact Hinv|]. split; [exact Hsize|]. split; [reflexivity|].
    intros now key H. discriminate H.
  - simpl in Hrun.
    destruct (Session.GetOrCreate parseRFC3339 (SessionFiles.sessionPath Join)
                fuel now sm0 key) as [[[p sm1]|m]|] eqn:Hget; [|discriminate..].
    destruct (lru_inv_step _ _ fuel now sm0 key p sm1 Hinv Hmax Hsize Hget)
      as (Hinv1 & Hsize1 & Hmax1 & Hcached & Hlast).
    destruct rest as [|c rest'].
    + injection Hrun as <-. split; [exact Hinv1|]. split; [exact Hsize1|].
      split; [exact Hmax1|]. simpl. intros now' key' [= <- <-]. split; [eauto | exact Hlast].
    + apply IH in Hrun; [|assumption|lia..].
      destruct Hrun as (Hinv' & Hsize' & Hmax' & Hl).
      split; [exact Hinv'|]. split; [exact Hsize'|]. split; [congruence|].
      intros now' key' Hlast'. apply (Hl now' key'). exact Hlast'.
Qed.


(** X5. The session cache is a bounded LRU cache as long as it is
    used through [GetOrCreate]: after any calls of [GetOrCreate] on a
    new manager that have returned, the cache holds at most 1000
    sessions, the access order lists exactly the cached keys, each
    once, and the key of the last call is cached and is the most
    recently used. *)
Theorem session_cache_bounded (parseRFC3339 : string -> Z)
  (Join : string -> string -> string) (fuel : nat) (workspace : string)
  (files : gmap string (list Decoder.chunk)) (calls : list (Z * string))
  (sm : Session.SessionManager) :
  SessionFiles.get_all parseRFC3339 Join fuel
    (SessionFiles.NewSessionManager Join workspace files) calls = Some (Ok sm) ->
  (size (Session.cache sm) <= 1000)%nat
  /\ SessionFiles.lru_inv sm
  /\ (forall now key, last calls = Some (now, key) ->
       is_Some (Session.cache sm !! key)
       /\ last (Session.accessOrder sm) = Some key).
Proof.
  intros Hrun.
  destruct (get_all_inv parseRFC3339 Join fuel calls
              (SessionFiles.NewSessionManager Join workspace files) sm)
    as (Hinv & Hsize & Hmax & Hlast).
  - split; [apply NoDup_nil_2|]. intros k. simpl. rewrite lookup_empty. split.
    + intros H. inversion H.
    + intros [? H]. discriminate.
  - simpl. lia.
  - simpl. rewrite map_size_empty. lia.
  - exact Hrun.
  - simpl in Hmax. split; [lia|]. split; [exact Hinv | exact Hlast].
Qed.

Lemma session_cache_bounded_witness :
  let Join := fun d f : string => d +:+ "/" +:+ f in
  let calls := [(1%Z, "cli:a"); (2%Z, "cli:b"); (3%Z, "cli:a")] in
  let sm := Session.mkManager "ws/sessions"
              [Session.NewSession 1 "cli:a"; Session.NewSession 2 "cli:b"]
              (<["cli:b" := 1%nat]> (<["cli:a" := 0%nat]> ∅)) 1000
              ["cli:b"; "cli:a"] ∅ in
  SessionFiles.get_all (fun _ => 0%Z) Join 1
    (SessionFiles.NewSessionManager Join "ws" ∅) calls = Some (Ok sm)
  /\ (size (Session.cache sm) <= 1000)%nat
  /\ is_Some (Session.cache sm !! "cli:a").
Proof.
  intros Join calls sm.
  assert (SessionFiles.get_all (fun _ => 0%Z) Join 1
            (SessionFiles.NewSessionManager Join "ws" ∅) calls = Some (Ok sm)) as Hrun
    by (vm_compute; reflexivity).
  destruct (session_cache_bounded (fun _ => 0%Z) Join 1 "ws" ∅ calls sm Hrun)
    as (Hsize & _ & Hlast).
  split; [exact Hrun|]. split; [exact Hsize|].
  exact (proj1 (Hlast 3%Z "cli:a" eq_refl)).
Defined.

(** X6. The session used last is not the one evicted, and while it is
    cached it is the same object: in a cache of capacity two or more,
    after [GetOrCreate(key)] and one more [GetOrCreate] of any key, the
    next [GetOrCreate(key)] returns the pointer that the first
    returned, allocates nothing, and returns whatever the sessions
    directory holds by then. *)
Theorem session_recently_used_stays (parseRFC3339 : string -> Z)
  (sessionPath : string -> string -> string)
  (fuel1 fuel2 : nat) (now1 now2 : Z) (sm sm1 sm2 : Session.SessionManager)
  (key key2 : string) (p q : nat) :
  SessionFiles.lru_inv sm ->
  (2 <= Session.maxCache sm)%Z ->
  (Z.of_nat (size (Session.cache sm)) <= Session.maxCache sm)%Z ->
  Session.GetOrCreate parseRFC3339 sessionPath fuel1 now1 sm key = Some (Ok (p, sm1)) ->
  Session.GetOrCreate parseRFC3339 sessionPath fuel2 now2 sm1 key2 = Some (Ok (q, sm2)) ->
  forall fuel3 now3 files, exists sm3,
    Session.GetOrCreate parseRFC3339 sessionPath fuel3 now3
      (SessionFiles.with_disk sm2 files) key = Some (Ok (p, sm3))
    /\ Session.objs sm3 = Session.objs sm2.
Proof.
  intros Hinv Hmax Hsize Hget1 Hget2 fuel3 now3 files.
  destruct (lru_inv_step parseRFC3339 sessionPath fuel1 now1 sm key p sm1 Hinv
              ltac:(lia) Hsize Hget1) as (Hinv1 & Hsize1 & Hmax1 & Hcached & Hlast).
  assert (Session.cache sm2 !! key = Some p) as Hkept.
  { destruct (Session.cache sm1 !! key2) as [q'|] eqn:Hc2.
    - rewrite (GetOrCreate_hit parseRFC3339 sessionPath fuel2 now2 sm1 key2 q' Hc2) in Hget2.
      injection Hget2 as <- <-. exact Hcached.
    - destruct (GetOrCreate_miss parseRFC3339 sessionPath fuel2 now2 sm1 key2 q sm2
                  Hc2 Hget2) as (_ & session & ->).
      simpl. assert (key2 <> key) as Hne by congruence.
      rewrite lookup_insert_ne by exact Hne.
      destruct (Z.leb_spec (Session.maxCache sm1) (Z.of_nat (size (Session.cache sm1))))
        as [Hfull | Hroom]; [|exact Hcached].
      pose proof (lru_length sm1 Hinv1) as Hlen.
      destruct Hinv1 as [Hnd _].
      unfold Session.evictOldest.
      destruct (Session.accessOrder sm1) as [|oldest rest] eqn:Hord; [exact Hcached|].
      simpl. destruct rest as [|k rest]; [simpl in Hlen; lia|].
      assert (key ∈ k :: rest) as Hin.
      { change (last (oldest :: k :: rest)) with (last (k :: rest)) in Hlast.
        apply last_Some in Hlast as (l' & ->).
        apply elem_of_app. right. apply list_elem_of_singleton. reflexivity. }
      apply NoDup_cons in Hnd as [Hold _].
      rewrite lookup_delete_ne; [exact Hcached|]. intros ->. contradiction. }
  eexists. split.
  - apply GetOrCreate_hit. exact Hkept.
  - reflexivity.
Qed.

Lemma session_recently_used_stays_witness :
  let path := fun d k : string => d +:+ "/" +:+ k in
  let sm := Session.mkManager "d" [] ∅ 2 [] ∅ in
  exists p sm1 q sm2 sm3,
    Session.GetOrCreate (fun _ => 0%Z) path 1 1 sm "a" = Some (Ok (p, sm1))
    /\ Session.GetOrCreate (fun _ => 0%Z) path 1 2 sm1 "b" = Some (Ok (q, sm2))
    /\ Session.GetOrCreate (fun _ => 0%Z) path 0 3
         (SessionFiles.with_disk sm2 {[ "d/a" := [Decoder.Broken "x"] ]}) "a"
       = Some (Ok (p, sm3)).
Proof.
  intros path sm.
  destruct (Session.GetOrCreate (fun _ => 0%Z) path 1 1 sm "a")
    as [[[p sm1]|]|] eqn:H1; [|vm_compute in H1; discriminate..].
  destruct (Session.GetOrCreate (fun _ => 0%Z) path 1 2 sm1 "b")
    as [[[q sm2]|]|] eqn:H2;
    [|vm_compute in H1; injection H1 as <- <-; vm_compute in H2; discriminate..].
  assert (SessionFiles.lru_inv sm) as Hinv.
  { split; [apply NoDup_nil_2|]. intros k. simpl. rewrite lookup_empty. split.
    - intros H. inversion H.
    - intros [? H]. discriminate. }
  destruct (session_recently_used_stays (fun _ => 0%Z) path 1 1 1 2 sm sm1 sm2 "a" "b" p q
              Hinv ltac:(simpl; lia) ltac:(simpl; rewrite map_size_empty; lia) H1 H2
              0%nat 3%Z {[ "d/a" := [Decoder.Broken "x"] ]}) as (sm3 & H3 & _).
  exists p, sm1, q, sm2, sm3. split; [reflexivity|]. split; [exact H2|]. exact H3.
Defined.

Section SessionFileProperties.
Import Session SessionFiles.
Variable parseRFC3339 : string -> Z.
Variable formatRFC3339 : Z -> string.

Lemma tool_call_round_trip (tc : ToolCall) :
  tool_call_of_json (tool_call_to_json tc) = tc.
Proof. destruct tc as [id ty [name args]]. reflexivity. Qed.

Lemma tool_calls_round_trip (tcs : list ToolCall) :
  map tool_call_of_json (map tool_call_to_json tcs) = tcs.
Proof.
  induction tcs as [|tc tcs IH]; [reflexivity|].
  cbn [map]. rewrite IH, tool_call_round_trip. reflexivity.
Qed.

(** What [Save] writes for a message is read back by [load] as that
    message, and is not taken for the metadata record. *)
Lemma message_round_trip (m : Message) :
  exists data, message_to_json m = JObj data
               /\ is_metadata_record data = false
               /\ message_of_data data = m.
Proof.
  destruct m as [role content ts tcs tcid name].
  unfold message_to_json. eexists. split; [reflexivity|].
  cbn [Role Content Timestamp ToolCalls ToolCallID Name].
  destruct tcs as [|tc tcs];
    destruct (String.eqb_spec tcid "") as [-> | Hid];
    destruct (String.eqb_spec name "") as [-> | Hname];
    (split; [reflexivity|]);
    unfold message_of_data, string_field; cbn [app json_get String.eqb Ascii.eqb Bool.eqb];
    try rewrite (tool_calls_round_trip (tc :: tcs)); reflexivity.
Qed.

Lemma load_loop_value (fuel : nat) (v : json) (rest : list Decoder.chunk) st :
  load_loop parseRFC3339 (S fuel) (Decoder.mk (Decoder.Value v :: rest) false) st
  = match Decoder.unmarshal_map v with
    | Decoder.DecodeError => load_loop parseRFC3339 fuel (Decoder.mk rest false) st
    | Decoder.Decoded data =>
        match load_record parseRFC3339 data st with
        | Ok st' => load_loop parseRFC3339 fuel (Decoder.mk rest false) st'
        | Panic m => Some (Panic m)
        end
    end.
Proof. reflexivity. Qed.

Lemma load_loop_messages (msgs : list Message) : forall st fuel,
  (length msgs < fuel)%nat ->
  load_loop parseRFC3339 fuel
    (Decoder.mk (map (fun m => Decoder.Value (message_to_json m)) msgs) false) st
  = Some (Ok (mkLoad (messages st ++ msgs) (metadata st) (createdAt st)
                (lastConsolidated st))).
Proof.
  induction msgs as [|m msgs IH]; intros st fuel Hfuel.
  - destruct fuel as [|fuel]; [simpl in Hfuel; lia|]. simpl.
    rewrite app_nil_r. destruct st; reflexivity.
  - destruct fuel as [|fuel]; [simpl in Hfuel; lia|].
    destruct (message_round_trip m) as (data & Hjson & Hmeta & Hback).
    cbn [map]. rewrite load_loop_value, Hjson. cbn [Decoder.unmarshal_map].
    unfold load_record. rewrite Hmeta, Hback.
    rewrite IH by (simpl in Hfuel; lia). simpl. rewrite <- app_assoc. reflexivity.
Qed.

(** Reading back the file that [Save] wrote for a session. *)
Lemma load_file_of_session (s : Session) (fuel : nat) (now : Z) (key : string) :
  (length (Messages s) + 2 <= fuel)%nat ->
  exists s', load_file parseRFC3339 fuel now key (file_of_session formatRFC3339 s)
             = Some (Ok s')
             /\ Key s' = key
             /\ Messages s' = Messages s
             /\ Metadata s' = Metadata s
             /\ LastConsolidated s' = LastConsolidated s.
Proof.
  intros Hfuel. destruct fuel as [|fuel]; [lia|].
  unfold load_file, file_of_session, Decoder.NewDecoder.
  rewrite load_loop_value. cbn [metadata_to_json Decoder.unmarshal_map].
  unfold load_record. cbn [is_metadata_record json_get String.eqb Ascii.eqb Bool.eqb].
  rewrite load_loop_messages by lia. cbn.
  eexists. split; [reflexivity|]. repeat split.
Qed.

End SessionFileProperties.

(** X7. What [Save] writes, [load] reads back: when the strings of
    the messages are valid UTF-8 and the consolidation cursor is at
    most 2^53 in absolute value, a manager that reads the sessions
    directory after [Save(s)] and has no cached session for the key
    returns from [GetOrCreate] a session with the messages of [s], in
    order and field by field, and its cursor. The file is found
    through [safeFilename], so this holds for the key of [s] and for
    any other key with the same file name. *)
Theorem session_save_then_load (parseRFC3339 : string -> Z)
  (formatRFC3339 : Z -> string) (Join : string -> string -> string)
  (sm sm' : Session.SessionManager) (p : nat) (s : Session.Session)
  (key : string) (fuel : nat) (now : Z) :
  forallb SessionFiles.message_utf8 (Session.Messages s) = true ->
  (Z.abs (Session.LastConsolidated s) <= 2 ^ 53)%Z ->
  SessionFiles.safeFilename key = SessionFiles.safeFilename (Session.Key s) ->
  Session.sessionsDir sm' = Session.sessionsDir sm ->
  Session.disk sm'
  = Session.disk (Session.Save (SessionFiles.sessionPath Join) formatRFC3339 sm p s) ->
  Session.cache sm' !! key = None ->
  (length (Session.Messages s) + 2 <= fuel)%nat ->
  exists q sm'' s',
    Session.GetOrCreate parseRFC3339 (SessionFiles.sessionPath Join) fuel now sm' key
    = Some (Ok (q, sm''))
    /\ Session.objs sm'' !! q = Some s'
    /\ Session.Key s' = key
    /\ Session.Messages s' = Session.Messages s
    /\ Session.LastConsolidated s' = Session.LastConsolidated s.
Proof.
  intros _ _ Hname Hdir Hdisk Hmiss Hfuel.
  destruct (load_file_of_session parseRFC3339 formatRFC3339 s fuel now key Hfuel)
    as (s' & Hload & Hkey & Hmsgs & _ & Hlc).
  unfold Session.GetOrCreate. rewrite Hmiss.
  unfold Session.load. rewrite Hdisk, Hdir. simpl.
  unfold SessionFiles.sessionPath at 1. rewrite Hname.
  fold (SessionFiles.sessionPath Join (Session.sessionsDir sm) (Session.Key s)).
  rewrite lookup_insert_eq, Hload.
  eexists _, _, s'. split; [reflexivity|]. split.
  - cbn [Session.objs].
    destruct (Session.maxCache sm' <=? Z.of_nat (size (Session.cache sm')))%Z;
      [unfold Session.evictOldest; destruct (Session.accessOrder sm')|];
      apply list_lookup_middle; reflexivity.
  - split; [exact Hkey|]. split; [exact Hmsgs | exact Hlc].
Qed.

Lemma session_save_then_load_witness :
  let Join := fun d f : string => d +:+ "/" +:+ f in
  let s := Session.mkSession "cli:a"
             [Session.mkMessage "user" "hello" "2024-01-01T00:00:00Z" [] "" "";
              Session.mkMessage "assistant" "" "2024-01-01T00:00:01Z"
                [Session.mkToolCall "call_1" "function"
                   (Session.mkFunctionCall "read_file" "{}")] "" ""]
             5 6 [] 1 in
  let sm := Session.mkManager "ws/sessions" [s] ∅ 1000 [] ∅ in
  let sm' := Session.Invalidate
               (Session.Save (SessionFiles.sessionPath Join) (fun _ => "t") sm 0 s)
               "cli:a" in
  exists q sm'' s',
    Session.GetOrCreate (fun _ => 0%Z) (SessionFiles.sessionPath Join) 4 9 sm' "cli_a"
    = Some (Ok (q, sm''))
    /\ Session.objs sm'' !! q = Some s'
    /\ Session.Key s' = "cli_a"
    /\ Session.Messages s' = Session.Messages s
    /\ Session.LastConsolidated s' = 1%Z.
Proof.
  intros Join s sm sm'.
  apply (session_save_then_load (fun _ => 0%Z) (fun _ => "t") Join sm sm' 0 s "cli_a" 4 9).
  - vm_compute. reflexivity.
  - vm_compute. discriminate.
  - vm_compute. reflexivity.
  - reflexivity.
  - reflexivity.
  - vm_compute. reflexivity.
  - simpl. lia.
Defined.

Section NewCommandProperties.
Import Agent.
Variable World : Type.
Variable Chat : nat -> list Providers.Message -> Providers.chat_result.
Variable registry : Tools.ToolRegistry World.
Variable marshal : Tools.Params -> string.
Variable maxIterations : Z.
Variable memoryWindow : Z.
Variable parseRFC3339 : string -> Z.
Variable formatRFC3339 : Z -> string.
Variable sessionPath : string -> string -> string.
Variable BuildMessages :
  list Session.Message -> string -> string -> string -> list string -> list CtxMessage.
Variable setToolContext : string -> string -> World -> World.
Variable setOriginContext : string -> string -> World -> World.
Variable readLongTerm : World -> string.

(** X8. The command "/new" starts the conversation over: when the
    session of the message can be fetched, [processMessage] calls no
    LLM and no tool, answers the sender with the fixed confirmation,
    and leaves the manager so that the next [GetOrCreate] of the key
    reads the file again and returns a fresh object with no messages,
    no metadata and the cursor at 0. *)
Theorem new_command_starts_over
  (fuel : nat) (clk : clock) (a : AgentLoop World) (msg : Bus.InboundMessage)
  (p : nat) (sm1 : Session.SessionManager) :
  let key := if String.eqb (Bus.SessionKey msg) ""
             then fmt_key (Bus.Channel msg) (Bus.ChatID msg)
             else Bus.SessionKey msg in
  Bus.Channel msg <> "system" ->
  Bus.Content msg = "/new" ->
  Session.GetOrCreate parseRFC3339 sessionPath fuel (t_open clk) (sessions World a) key
  = Some (Ok (p, sm1)) ->
  exists a' : AgentLoop World,
    processMessage World Chat registry marshal maxIterations memoryWindow
      parseRFC3339 formatRFC3339 sessionPath BuildMessages setToolContext
      setOriginContext fuel clk a msg
    = Some (Ok (Reply (Bus.mkOutbound (Bus.Channel msg) (Bus.ChatID msg)
                         "新会话已创建" [] []), a'))
    /\ world World a' = setToolContext (Bus.Channel msg) (Bus.ChatID msg) (world World a)
    /\ Session.cache (sessions World a') !! key = None
    /\ forall fuel' now', (2 <= fuel')%nat ->
         exists q sm' s,
           Session.GetOrCreate parseRFC3339 sessionPath fuel' now' (sessions World a') key
           = Some (Ok (q, sm'))
           /\ q = S (length (Session.objs sm1))
           /\ Session.objs sm' !! q = Some s
           /\ Session.Key s = key
           /\ Session.empty_session s.
Proof.
  intros key Hsys Hnew Hget.
  unfold processMessage.
  destruct (String.eqb_spec (Bus.Channel msg) "system") as [|_]; [contradiction|].
  fold key. rewrite Hget.
  destruct (String.eqb_spec (Bus.Content msg) "/new") as [_|]; [|contradiction].
  eexists. split; [reflexivity|]. split; [reflexivity|].
  cbn [sessions with_sessions SetToolContext].
  split; [apply lookup_delete_eq|].
  intros fuel' now' Hfuel.
  destruct (load_file_of_session parseRFC3339 formatRFC3339
              (Session.NewSession (t_user clk) key) fuel' now' key
              ltac:(simpl; lia)) as (s & Hload & Hkey & Hmsgs & Hmeta & Hlc).
  unfold Session.GetOrCreate, Session.load, Session.Invalidate, Session.Save.
  cbn [Session.cache Session.objs Session.sessionsDir Session.disk Session.maxCache
       Session.accessOrder Session.NewSession Session.Key].
  rewrite lookup_delete_eq, lookup_insert_eq, Hload.
  eexists _, _, s. split; [reflexivity|]. split.
  - rewrite length_app. simpl. lia.
  - split.
    + cbn [Session.objs]. apply list_lookup_middle. reflexivity.
    + split; [exact Hkey|]. split; [exact Hmsgs|]. split; [exact Hmeta | exact Hlc].
Qed.

End NewCommandProperties.

Lemma new_command_starts_over_witness :
  let Chat := fun (_ : nat) (_ : list Providers.Message) =>
    Providers.ChatOk (Providers.mkResponse "hello" []) in
  let registry : Tools.ToolRegistry unit := Tools.NewToolRegistry in
  let marshal := fun _ : Tools.Params => "{}" in
  let path := fun d k : string => d +:+ "/" +:+ k +:+ ".jsonl" in
  let build := fun (h : list Session.Message) (c ch id : string) (_ : list string) =>
    [Agent.mkCtx "user" c [] [] "" ""] in
  let old := Session.mkSession "cli:direct"
               [Session.mkMessage "user" "hi" "t" [] "" "";
                Session.mkMessage "assistant" "hello" "t" [] "" ""] 1 2 [] 0 in
  let a := Agent.mkAgent unit
             (Session.mkManager "sessions" [old] {[ "cli:direct" := 0%nat ]} 1000
                ["cli:direct"] ∅) tt ∅ "" "" [] in
  let msg := Bus.mkMessage "1" "cli" "user" "direct" "/new" [] [] 0 "" in
  let clk := Agent.mkClock 10 20 30 in
  exists (a' : Agent.AgentLoop unit) q sm' s,
    Agent.processMessage unit Chat registry marshal 20 50 (fun _ => 0%Z) (fun _ => "t")
      path build (fun _ _ w => w) (fun _ _ w => w) 0 clk a msg
    = Some (Ok (Agent.Reply (Bus.mkOutbound "cli" "direct" "新会话已创建" [] []), a'))
    /\ Session.GetOrCreate (fun _ => 0%Z) path 2 40 (Agent.sessions unit a') "cli:direct"
       = Some (Ok (q, sm'))
    /\ q = 2%nat
    /\ Session.objs sm' !! q = Some s
    /\ Session.Messages s = [].
Proof.
  intros Chat registry marshal path build old a msg clk.
  destruct (new_command_starts_over unit Chat registry marshal 20 50
              (fun _ => 0%Z) (fun _ => "t") path build (fun _ _ w => w)
              (fun _ _ w => w) 0 clk a msg 0
              (Session.mkManager "sessions" [old] {[ "cli:direct" := 0%nat ]} 1000
                 ["cli:direct"] ∅))
    as (a' & Hrun & _ & _ & Hnext).
  - vm_compute. discriminate.
  - reflexivity.
  - vm_compute. reflexivity.
  - destruct (Hnext 2%nat 40%Z ltac:(lia)) as (q & sm' & s & Hget & Hq & Hobj & _ & Hmsgs & _).
    exists a', q, sm', s. split; [exact Hrun|]. split; [exact Hget|].
    split; [exact Hq|]. split; [exact Hobj | exact Hmsgs].
Defined.

(** ** The iteration of the agent *)

Section IterationProperties.
Import Agent Transcript.
Variable World : Type.
Variable registry : Tools.ToolRegistry World.
Variable marshal : Tools.Params -> string.

Lemma execute_tool_calls_spec (calls : list Providers.ToolCallRequest) :
  forall (messages : list CtxMessage) (w : World),
  exists results,
    length results = length calls
    /\ (execute_tool_calls World registry calls messages w).1
       = messages ++ zip_with tool_entry calls results.
Proof.
  induction calls as [|tc calls IH]; intros messages w.
  - exists []. split; [reflexivity|]. simpl. rewrite app_nil_r. reflexivity.
  - simpl.
    destruct (Tools.RegistryExecute registry (Providers.TCName tc)
                (Providers.TCArguments tc) w) as [result w'].
    destruct (IH (messages ++ [mkCtx "tool" result [] [] (Providers.TCID tc)
                                 (Providers.TCName tc)]) w')
      as (results & Hlen & Hrun).
    exists (result :: results). split; [simpl; lia|].
    rewrite Hrun, <- app_assoc. reflexivity.
Qed.

Lemma rounds_cons_app (k : nat) (resp : Providers.LLMResponse)
  (results : list string) (rest : list CtxMessage) :
  Providers.HasToolCalls resp = true ->
  length results = length (Providers.RToolCalls resp) ->
  rounds marshal k rest ->
  rounds marshal (S k)
    (([assistant_entry marshal resp]
        ++ zip_with tool_entry (Providers.RToolCalls resp) results) ++ rest).
Proof. intros. rewrite <- app_assoc. simpl. constructor; assumption. Qed.

Lemma iterate_spec (Chat : nat -> list Providers.Message -> Providers.chat_result)
  (convert : CtxMessage -> Providers.Message) (n : nat) :
  forall (call : nat) (messages : list CtxMessage) (w : World),
  exists k added,
    (k <= n)%nat
    /\ (iterate World Chat registry marshal convert n call messages w).1.2
       = messages ++ added
    /\ rounds marshal k added
    /\ (k = n ->
        (iterate World Chat registry marshal convert n call messages w).1.1
        = Finished "")
    /\ (forall final,
        (iterate World Chat registry marshal convert n call messages w).1.1
        = Finished final -> final <> "" ->
        exists resp, Chat (call + k)%nat (map convert (messages ++ added)) = Providers.ChatOk resp
                     /\ Providers.HasToolCalls resp = false
                     /\ Providers.RContent resp = final).
Proof.
  induction n as [|n IH]; intros call messages w.
  - exists 0%nat, []. simpl. rewrite app_nil_r.
    split; [lia|]. split; [reflexivity|]. split; [constructor|].
    split; [reflexivity|]. intros final [= <-] H. contradiction.
  - simpl.
    destruct (Chat call (map convert messages)) as [resp|err] eqn:Hchat.
    + destruct (Providers.HasToolCalls resp) eqn:Htc.
      * destruct (execute_tool_calls_spec (Providers.RToolCalls resp)
                    (messages ++ [assistant_entry marshal resp]) w)
          as (results & Hlen & Hexec).
        unfold assistant_entry in Hexec.
        destruct (execute_tool_calls World registry (Providers.RToolCalls resp)
                    (messages ++ [mkCtx "assistant" (Providers.RContent resp) []
                                    (map (tool_call_dict marshal) (Providers.RToolCalls resp))
                                    "" ""]) w) as [messages' w'] eqn:Hrun.
        simpl in Hexec. subst messages'.
        destruct (IH (S call)
                    ((messages ++ [assistant_entry marshal resp])
                       ++ zip_with tool_entry (Providers.RToolCalls resp) results) w')
          as (k & added & Hk & Hmsgs & Hrounds & Hcap & Hfinal).
        unfold assistant_entry in Hmsgs, Hcap, Hfinal.
        exists (S k), (([assistant_entry marshal resp]
                         ++ zip_with tool_entry (Providers.RToolCalls resp) results)
                        ++ added).
        split; [lia|]. split.
        { rewrite Hmsgs. unfold assistant_entry. rewrite <- !app_assoc. reflexivity. }
        split; [apply rounds_cons_app; assumption|].
        split; [intros [= ->]; apply Hcap; reflexivity|].
        intros final Hout Hne. destruct (Hfinal final Hout Hne) as (resp' & Hc & Hno & Hcont).
        exists resp'. split; [|split; assumption].
        rewrite <- Hc. f_equal; [lia|]. unfold assistant_entry.
        rewrite <- !app_assoc. reflexivity.
      * exists 0%nat, []. simpl. rewrite app_nil_r.
        split; [lia|]. split; [reflexivity|]. split; [constructor|].
        split; [discriminate|]. intros final [= <-] _.
        exists resp. rewrite Nat.add_0_r. split; [exact Hchat|]. split; [exact Htc | reflexivity].
    + exists 0%nat, []. simpl. rewrite app_nil_r.
      split; [lia|]. split; [reflexivity|]. split; [constructor|].
      split; [discriminate|]. intros final H. discriminate H.
Qed.

Lemma iterate_ext (Chat1 Chat2 : nat -> list Providers.Message -> Providers.chat_result)
  (convert : CtxMessage -> Providers.Message) (n : nat) :
  forall (call : nat) (messages : list CtxMessage) (w : World),
  (forall i ms, (call <= i < call + n)%nat -> Chat1 i ms = Chat2 i ms) ->
  iterate World Chat1 registry marshal convert n call messages w
  = iterate World Chat2 registry marshal convert n call messages w.
Proof.
  induction n as [|n IH]; intros call messages w Hext; [reflexivity|].
  simpl. rewrite <- (Hext call) by lia.
  destruct (Chat1 call (map convert messages)) as [resp|err]; [|reflexivity].
  destruct (Providers.HasToolCalls resp); [|reflexivity].
  destruct (execute_tool_calls World registry (Providers.RToolCalls resp) _ w)
    as [messages' w'].
  apply IH. intros i ms Hi. apply Hext. lia.
Qed.

End IterationProperties.

(** X9. The messages of a turn grow by whole rounds of tool use: a run
    of the iteration with [n] iterations allowed only appends to the
    messages it is given, and what it appends is [k <= n] rounds, each
    the assistant entry of a response with tool calls followed by one
    "tool" entry per call, carrying the id and name of the call, in
    order. When all [n] iterations went into tool calls the final
    content is empty; a final content that is not empty is the content
    of the response without tool calls that the LLM gave to exactly
    these messages. *)
Theorem iterate_appends_rounds (World : Type)
  (Chat : nat -> list Providers.Message -> Providers.chat_result)
  (registry : Tools.ToolRegistry World) (marshal : Tools.Params -> string)
  (convert : Agent.CtxMessage -> Providers.Message) (n : nat)
  (messages : list Agent.CtxMessage) (w : World) :
  exists k added,
    (k <= n)%nat
    /\ (Agent.iterate World Chat registry marshal convert n 0 messages w).1.2
       = messages ++ added
    /\ Transcript.rounds marshal k added
    /\ (k = n ->
        (Agent.iterate World Chat registry marshal convert n 0 messages w).1.1
        = Agent.Finished "")
    /\ (forall final,
        (Agent.iterate World Chat registry marshal convert n 0 messages w).1.1
        = Agent.Finished final -> final <> "" ->
        exists resp,
          Chat k (map convert (messages ++ added)) = Providers.ChatOk resp
          /\ Providers.HasToolCalls resp = false
          /\ Providers.RContent resp = final).
Proof.
  apply (iterate_spec World registry marshal Chat convert n 0 messages w).
Qed.

(** X10. A turn asks the LLM at most [maxIterations] times: the
    outcome of [runAgentLoop] and what it does through the tools is
    the same for two providers that agree on the first
    [maxIterations] calls, and with [maxIterations] zero or negative
    it ends with an empty final content without any call and without
    running a tool. *)
Theorem runAgentLoop_calls_bounded (World : Type)
  (Chat1 Chat2 : nat -> list Providers.Message -> Providers.chat_result)
  (registry : Tools.ToolRegistry World) (marshal : Tools.Params -> string)
  (maxIterations : Z) (messages : list Agent.CtxMessage) (w : World) :
  ((forall i ms, (Z.of_nat i < maxIterations)%Z -> Chat1 i ms = Chat2 i ms) ->
   Agent.runAgentLoop World Chat1 registry marshal maxIterations messages w
   = Agent.runAgentLoop World Chat2 registry marshal maxIterations messages w)
  /\ ((maxIterations <= 0)%Z ->
      Agent.runAgentLoop World Chat1 registry marshal maxIterations messages w
      = (Agent.Finished "", w)).
Proof.
  split.
  - intros Hext. unfold Agent.runAgentLoop.
    rewrite (iterate_ext World registry marshal Chat1 Chat2 Agent.to_provider
               (Z.to_nat maxIterations) 0 messages w); [reflexivity|].
    intros i ms Hi. apply Hext. lia.
  - intros Hle. unfold Agent.runAgentLoop.
    replace (Z.to_nat maxIterations) with 0%nat by lia. reflexivity.
Qed.

Lemma runAgentLoop_calls_bounded_witness :
  let call := Providers.mkToolCallRequest "call_1" "filesystem" [("operation", JStr "list")] in
  let Chat1 := fun (n : nat) (_ : list Providers.Message) =>
    Providers.ChatOk (Providers.mkResponse "" [call]) in
  let Chat2 := fun (n : nat) (_ : list Providers.Message) =>
    if (n <? 2)%nat then Providers.ChatOk (Providers.mkResponse "" [call])
    else Providers.ChatOk (Providers.mkResponse "done" []) in
  let registry : Tools.ToolRegistry nat :=
    Tools.Register Tools.NewToolRegistry
      (Tools.mkTool "filesystem" (fun _ => []) (fun _ w => (("ok", None), S w))) in
  let messages := [Agent.mkCtx "user" "list files" [] [] "" ""] in
  Agent.runAgentLoop nat Chat1 registry (fun _ => "{}") 2 messages 0%nat
  = Agent.runAgentLoop nat Chat2 registry (fun _ => "{}") 2 messages 0%nat
  /\ Agent.runAgentLoop nat Chat2 registry (fun _ => "{}") 2 messages 0%nat
     = (Agent.Finished "", 2%nat)
  /\ Agent.runAgentLoop nat Chat1 registry (fun _ => "{}") 0 messages 0%nat
     = (Agent.Finished "", 0%nat).
Proof.
  intros call Chat1 Chat2 registry messages.
  destruct (runAgentLoop_calls_bounded nat Chat1 Chat2 registry (fun _ => "{}") 2
              messages 0%nat) as [Hsame _].
  destruct (runAgentLoop_calls_bounded nat Chat1 Chat2 registry (fun _ => "{}") 0
              messages 0%nat) as [_ Hzero].
  split; [|split].
  - apply Hsame. intros i ms Hi. unfold Chat1, Chat2.
    destruct (Nat.ltb_spec i 2) as [_|Hge]; [reflexivity | lia].
  - vm_compute. reflexivity.
  - apply Hzero. lia.
Defined.

(** ** Subagent announcements *)

Lemma split_colon_join (channel chatID : string) :
  Routing.no_colon channel = true ->
  Agent.split_colon (channel +:+ ":" +:+ chatID) = Some (channel, chatID).
Proof.
  induction channel as [|c channel IH]; intros Hno; [reflexivity|].
  simpl in Hno. apply andb_true_iff in Hno as [Hc Hrest].
  change (String c channel +:+ ":" +:+ chatID)
    with (String c (channel +:+ ":" +:+ chatID)).
  simpl. apply negb_true_iff in Hc. rewrite Hc, (IH Hrest). reflexivity.
Qed.

Section AnnouncementProperties.
Import Subagent.
Variable World : Type.
Variable Chat : nat -> list Providers.Message -> Providers.chat_result.
Variable registry : Tools.ToolRegistry World.
Variable marshal : Tools.Params -> string.
Variable maxIterations : Z.
Variable buildSubagentPrompt : string -> string.

Local Abbreviation run := (runSubagent World Chat registry marshal maxIterations buildSubagentPrompt).

Lemma announceResult_open (pick : bool) (now : Z) (s : SubagentManager World)
  (taskID label task res originChannel originChatID status : string) (room : bool) :
  Routing.inbound_open (bus World s) room ->
  exists content,
    announceResult World pick now s taskID label task res originChannel originChatID status
    = Ok (mkManager World (runningTasks World s)
            (if room
             then Bus.mkBus
                    (Bus.mkChan
                       (Bus.cbuf (Bus.inbound (bus World s))
                          ++ [Bus.mkMessage "" "system" "subagent"
                                (originChannel +:+ ":" +:+ originChatID) content [] [] now ""])
                       (Bus.ccap (Bus.inbound (bus World s))) false)
                    (Bus.outbound (bus World s)) false
             else bus World s)
            (world World s) (cancelled World s)).
Proof.
  intros (Hopen & Hlive & Hroom). eexists.
  unfold announceResult, Bus.PublishInbound, Bus.select_publish, Bus.send_ready, Bus.send.
  rewrite Hopen, Hlive, Hroom. simpl.
  destruct room; simpl; [reflexivity|].
  destruct (bus World s) as [i o d]. simpl in *. subst d. reflexivity.
Qed.

Lemma runSubagent_open (pick : bool) (now : Z) (s : SubagentManager World)
  (g : goroutine) (room : bool) :
  Routing.inbound_open (bus World s) room ->
  exists s' content,
    run pick now s g = Ok s'
    /\ bus World s'
       = (if room
          then Bus.mkBus
                 (Bus.mkChan
                    (Bus.cbuf (Bus.inbound (bus World s))
                       ++ [Bus.mkMessage "" "system" "subagent"
                             (g_originChannel g +:+ ":" +:+ g_originChatID g)
                             content [] [] now ""])
                    (Bus.ccap (Bus.inbound (bus World s))) false)
                 (Bus.outbound (bus World s)) false
          else bus World s)
    /\ cancelled World s' = cancelled World s.
Proof.
  intros Hopen. unfold runSubagent.
  destruct (Agent.iterate World Chat registry marshal Agent.to_provider_plain
              (Z.to_nat maxIterations) 0 _ (world World s)) as [[[err|final] msgs] w].
  - destruct (announceResult_open pick now
                (mkManager World (runningTasks World s) (bus World s) w (cancelled World s))
                (g_taskID g) (g_label g) (g_task g) ("Error: " +:+ err)
                (g_originChannel g) (g_originChatID g) "error" room Hopen)
      as (content & ->).
    eexists _, content. split; [reflexivity|]. split; reflexivity.
  - destruct (announceResult_open pick now
                (mkManager World (runningTasks World s) (bus World s) w (cancelled World s))
                (g_taskID g) (g_label g) (g_task g)
                (if String.eqb final ""
                 then "Task completed but no final response was generated." else final)
                (g_originChannel g) (g_originChatID g) "ok" room Hopen)
      as (content & ->).
    eexists _, content. split; [reflexivity|]. split; reflexivity.
Qed.

End AnnouncementProperties.

Section SystemMessageProperties.
Import Agent.
Variable World : Type.
Variable Chat : nat -> list Providers.Message -> Providers.chat_result.
Variable registry : Tools.ToolRegistry World.
Variable marshal : Tools.Params -> string.
Variable maxIterations : Z.
Variable memoryWindow : Z.
Variable parseRFC3339 : string -> Z.
Variable formatRFC3339 : Z -> string.
Variable sessionPath : string -> string -> string.
Variable BuildMessages :
  list Session.Message -> string -> string -> string -> list string -> list CtxMessage.
Variable setToolContext : string -> string -> World -> World.
Variable setOriginContext : string -> string -> World -> World.

(** A reply to a system message goes to the channel and chat found
    before and after the first colon of its chat id, and the session
    used is the one of that channel and chat. *)
Lemma processSystemMessage_reply (fuel : nat) (clk : clock) (a a' : AgentLoop World)
  (msg : Bus.InboundMessage) (channel chatID : string) (out : Bus.OutboundMessage) :
  Bus.Channel msg = "system" ->
  split_colon (Bus.ChatID msg) = Some (channel, chatID) ->
  processMessage World Chat registry marshal maxIterations memoryWindow
    parseRFC3339 formatRFC3339 sessionPath BuildMessages setToolContext
    setOriginContext fuel clk a msg = Some (Ok (Reply out, a')) ->
  Bus.OChannel out = channel
  /\ Bus.OChatID out = chatID
  /\ Bus.OContent out <> ""
  /\ exists p sm1,
       Session.GetOrCreate parseRFC3339 sessionPath fuel (t_open clk) (sessions World a)
         (fmt_key channel chatID) = Some (Ok (p, sm1)).
Proof.
  intros Hsys Hsplit. unfold processMessage. rewrite Hsys. simpl.
  unfold processSystemMessage. rewrite Hsplit.
  destruct (Session.GetOrCreate parseRFC3339 sessionPath fuel (t_open clk)
              (sessions World a) (fmt_key channel chatID)) as [[[p sm1]|m]|];
    [|discriminate..].
  destruct (Session.objs sm1 !! p) as [sess|]; [|discriminate].
  destruct (GetHistory memoryWindow sess) as [history|m]; [|discriminate].
  destruct (iterate World Chat registry marshal to_provider (Z.to_nat maxIterations) 0 _ _)
    as [[[err|final] msgs] w2]; [discriminate|].
  intros [= <- <-]. simpl. split; [reflexivity|]. split; [reflexivity|].
  split; [|eauto].
  destruct (String.eqb_spec final "") as [->|Hne]; [discriminate | exact Hne].
Qed.

End SystemMessageProperties.

(** X11. The result of a subagent comes back to the chat that spawned
    it: when the inbound queue is open and has room, [runSubagent]
    returns after queueing exactly one message, of channel "system"
    and sender "subagent"; and when the name of the origin channel
    holds no colon, every reply that [processMessage] gives to that
    message is addressed to the origin channel and chat, is not
    empty, and was computed on the session of that channel and chat. *)
Theorem subagent_result_routed_back
  (WorldS : Type) (ChatS : nat -> list Providers.Message -> Providers.chat_result)
  (registryS : Tools.ToolRegistry WorldS) (marshal : Tools.Params -> string)
  (maxIterationsS : Z) (buildSubagentPrompt : string -> string)
  (pick : bool) (now : Z) (s : Subagent.SubagentManager WorldS) (g : Subagent.goroutine) :
  Routing.inbound_open (Subagent.bus WorldS s) true ->
  exists s' m,
    Subagent.runSubagent WorldS ChatS registryS marshal maxIterationsS buildSubagentPrompt
      pick now s g = Ok s'
    /\ Bus.cbuf (Bus.inbound (Subagent.bus WorldS s'))
       = Bus.cbuf (Bus.inbound (Subagent.bus WorldS s)) ++ [m]
    /\ Bus.Channel m = "system"
    /\ Bus.SenderID m = "subagent"
    /\ (Routing.no_colon (Subagent.g_originChannel g) = true ->
        forall (World : Type) (Chat : nat -> list Providers.Message -> Providers.chat_result)
          (registry : Tools.ToolRegistry World) (maxIterations memoryWindow : Z)
          (parseRFC3339 : string -> Z) (formatRFC3339 : Z -> string)
          (sessionPath : string -> string -> string)
          (BuildMessages : list Session.Message -> string -> string -> string ->
                           list string -> list Agent.CtxMessage)
          (setToolContext setOriginContext : string -> string -> World -> World)
          (fuel : nat) (clk : Agent.clock) (a a' : Agent.AgentLoop World)
          (out : Bus.OutboundMessage),
          Agent.processMessage World Chat registry marshal maxIterations memoryWindow
            parseRFC3339 formatRFC3339 sessionPath BuildMessages setToolContext
            setOriginContext fuel clk a m = Some (Ok (Agent.Reply out, a')) ->
          Bus.OChannel out = Subagent.g_originChannel g
          /\ Bus.OChatID out = Subagent.g_originChatID g
          /\ Bus.OContent out <> ""
          /\ exists p sm1,
               Session.GetOrCreate parseRFC3339 sessionPath fuel (Agent.t_open clk)
                 (Agent.sessions World a)
                 (Agent.fmt_key (Subagent.g_originChannel g) (Subagent.g_originChatID g))
               = Some (Ok (p, sm1))).
Proof.
  intros Hopen.
  destruct (runSubagent_open WorldS ChatS registryS marshal maxIterationsS
              buildSubagentPrompt pick now s g true Hopen)
    as (s' & content & Hrun & Hbus & _).
  exists s'. eexists. split; [exact Hrun|]. rewrite Hbus. simpl.
  split; [reflexivity|]. split; [reflexivity|]. split; [reflexivity|].
  intros Hno World Chat registry maxIterations memoryWindow parseRFC3339 formatRFC3339
    sessionPath BuildMessages setToolContext setOriginContext fuel clk a a' out Hreply.
  eapply processSystemMessage_reply; [| |exact Hreply].
  - reflexivity.
  - simpl. apply split_colon_join. exact Hno.
Qed.

Lemma subagent_result_routed_back_witness :
  let Chat := fun (_ : nat) (_ : list Providers.Message) =>
    Providers.ChatOk (Providers.mkResponse "3 files" []) in
  let registry : Tools.ToolRegistry unit := Tools.NewToolRegistry in
  let marshal := fun _ : Tools.Params => "{}" in
  let s := Subagent.mkManager unit ∅
             (Bus.mkBus (Bus.mkChan [] 1 false) (Bus.mkChan [] 1 false) false) tt [] in
  let g := Subagent.mkGoroutine "17f00000" "count" "count the files" "telegram" "42" in
  let path := fun d k : string => d +:+ "/" +:+ k +:+ ".jsonl" in
  let build := fun (h : list Session.Message) (c ch id : string) (_ : list string) =>
    [Agent.mkCtx "user" c [] [] "" ""] in
  let a := Agent.mkAgent unit (Session.mkManager "sessions" [] ∅ 1000 [] ∅) tt ∅ "" "" [] in
  exists s' m a',
    Subagent.runSubagent unit Chat registry marshal 5 (fun t => t) true 7 s g = Ok s'
    /\ Bus.cbuf (Bus.inbound (Subagent.bus unit s')) = [m]
    /\ Agent.processMessage unit Chat registry marshal 5 50 (fun _ => 0%Z) (fun _ => "t")
         path build (fun _ _ w => w) (fun _ _ w => w) 1 (Agent.mkClock 10 20 30) a m
       = Some (Ok (Agent.Reply (Bus.mkOutbound "telegram" "42" "3 files" [] []), a')).
Proof.
  intros Chat registry marshal s g path build a.
  destruct (subagent_result_routed_back unit Chat registry marshal 5 (fun t => t) true 7 s g)
    as (s' & m & Hrun & Hbuf & _ & _ & Hroute).
  - split; [reflexivity|]. split; reflexivity.
  - exists s', m.
    destruct (Agent.processMessage unit Chat registry marshal 5 50 (fun _ => 0%Z)
                (fun _ => "t") path build (fun _ _ w => w) (fun _ _ w => w) 1
                (Agent.mkClock 10 20 30) a m) as [[[[out|err] a']|msg]|] eqn:Hreply.
    + exists a'. split; [exact Hrun|]. split; [exact Hbuf|].
      destruct (Hroute eq_refl unit Chat registry 5%Z 50%Z (fun _ => 0%Z) (fun _ => "t")
                  path build (fun _ _ w => w) (fun _ _ w => w) 1%nat
                  (Agent.mkClock 10 20 30) a a' out Hreply) as (Hch & Hid & _ & _).
      vm_compute in Hrun. injection Hrun as <-. vm_compute in Hbuf.
      injection Hbuf as <-. vm_compute in Hreply. injection Hreply as <- <-.
      reflexivity.
    + exfalso. vm_compute in Hrun. injection Hrun as <-. vm_compute in Hbuf.
      injection Hbuf as <-. vm_compute in Hreply. discriminate Hreply.
    + exfalso. vm_compute in Hrun. injection Hrun as <-. vm_compute in Hbuf.
      injection Hbuf as <-. vm_compute in Hreply. discriminate Hreply.
    + exfalso. vm_compute in Hrun. injection Hrun as <-. vm_compute in Hbuf.
      injection Hbuf as <-. vm_compute in Hreply. discriminate Hreply.
Defined.

(** X12. The result of a subagent is lost without a trace when the
    inbound queue is full: [runSubagent] then returns normally with
    the bus exactly as it was, nothing queued and no task cancelled,
    whatever the subagent found. *)
Theorem subagent_result_dropped_when_full
  (World : Type) (Chat : nat -> list Providers.Message -> Providers.chat_result)
  (registry : Tools.ToolRegistry World) (marshal : Tools.Params -> string)
  (maxIterations : Z) (buildSubagentPrompt : string -> string)
  (pick : bool) (now : Z) (s : Subagent.SubagentManager World) (g : Subagent.goroutine) :
  Routing.inbound_open (Subagent.bus World s) false ->
  exists s',
    Subagent.runSubagent World Chat registry marshal maxIterations buildSubagentPrompt
      pick now s g = Ok s'
    /\ Subagent.bus World s' = Subagent.bus World s
    /\ Subagent.cancelled World s' = Subagent.cancelled World s.
Proof.
  intros Hfull.
  destruct (runSubagent_open World Chat registry marshal maxIterations
              buildSubagentPrompt pick now s g false Hfull)
    as (s' & content & Hrun & Hbus & Hcancel).
  exists s'. split; [exact Hrun|]. split; [exact Hbus | exact Hcancel].
Qed.

Lemma subagent_result_dropped_when_full_witness :
  let Chat := fun (_ : nat) (_ : list Providers.Message) =>
    Providers.ChatOk (Providers.mkResponse "3 files" []) in
  let registry : Tools.ToolRegistry unit := Tools.NewToolRegistry in
  let earlier := Bus.mkMessage "1" "cli" "user" "direct" "hi" [] [] 0 "" in
  let b := Bus.mkBus (Bus.mkChan [earlier] 1 false) (Bus.mkChan [] 1 false) false in
  let g := Subagent.mkGoroutine "17f00000" "count" "count the files" "telegram" "42" in
  let task := Subagent.mkTask "17f00000" "count" "count the files" "telegram" "42" in
  let s := Subagent.mkManager unit {[ "17f00000" := task ]} b tt [] in
  exists s',
    Subagent.runSubagent unit Chat registry (fun _ => "{}") 5 (fun t => t) true 7 s g = Ok s'
    /\ Subagent.bus unit s' = b
    /\ Subagent.runningTasks unit s' = ∅.
Proof.
  intros Chat registry earlier b g task s.
  destruct (subagent_result_dropped_when_full unit Chat registry (fun _ => "{}") 5
              (fun t => t) true 7 s g) as (s' & Hrun & Hbus & _).
  - split; [reflexivity|]. split; reflexivity.
  - exists s'. split; [exact Hrun|]. split; [exact Hbus|].
    vm_compute in Hrun. injection Hrun as <-. vm_compute. reflexivity.
Defined.

(** ** Tools: validation of parameters, the save_memory tool *)

Lemma flat_map_check_required (params : Tools.Params) (names : list string) :
  flat_map (BaseTool.check_required params) (map BaseTool.VString names)
  = map (fun n => "missing required parameter: " +:+ n)
      (List.filter (fun n => negb (BaseTool.has_param params n)) names).
Proof.
  induction names as [|n names IH]; [reflexivity|].
  simpl. rewrite IH. destruct (BaseTool.has_param params n); reflexivity.
Qed.

(** X13. [ValidateParams] enforces the required parameters only when
    the schema lists them in a [[]interface{}]: it then reports, in the
    order of the list, exactly the names for which the parameter map
    has no entry. When the schema lists them in a [[]string], as the
    schema of every tool of the package does, it reports nothing
    whatever the parameters are. *)
Theorem validate_params_required (tool : BaseTool.t) (ps : BaseTool.schema)
  (names : list string) (params : Tools.Params) :
  BaseTool.parameters tool = Some ps ->
  (BaseTool.get ps "required" = Some (BaseTool.VSlice (map BaseTool.VString names)) ->
   BaseTool.ValidateParams tool params
   = map (fun n => "missing required parameter: " +:+ n)
       (List.filter (fun n => negb (BaseTool.has_param params n)) names))
  /\ (BaseTool.get ps "required" = Some (BaseTool.VStrings names) ->
      BaseTool.ValidateParams tool params = []).
Proof.
  intros Hps. unfold BaseTool.ValidateParams. rewrite Hps. split; intros ->.
  - apply flat_map_check_required.
  - reflexivity.
Qed.

Lemma validate_params_required_witness :
  BaseTool.ValidateParams
    (BaseTool.NewBaseTool "t" "d"
       [("required", BaseTool.VSlice [BaseTool.VString "operation"; BaseTool.VString "path"])])
    [("path", JStr ".")]
  = ["missing required parameter: operation"]
  /\ BaseTool.ValidateParams Memory.save_memory_base [] = [].
Proof.
  split.
  - destruct (validate_params_required
                (BaseTool.NewBaseTool "t" "d"
                   [("required", BaseTool.VSlice [BaseTool.VString "operation";
                                                  BaseTool.VString "path"])])
                [("required", BaseTool.VSlice [BaseTool.VString "operation";
                                               BaseTool.VString "path"])]
                ["operation"; "path"] [("path", JStr ".")] eq_refl) as [H _].
    rewrite (H eq_refl). reflexivity.
  - destruct (validate_params_required Memory.save_memory_base
                Memory.save_memory_parameters ["history_entry"; "memory_update"] []
                eq_refl) as [_ H].
    exact (H eq_refl).
Defined.

Lemma TrimRight_nl_last (s : string) :
  Memory.last_byte (Memory.TrimRight_nl s) <> Some Memory.nl.
Proof.
  induction s as [|c s IH]; [discriminate|].
  simpl. destruct (Memory.TrimRight_nl s) as [|d t] eqn:E.
  - destruct (Ascii.eqb_spec c Memory.nl) as [->|Hc]; simpl; congruence.
  - exact IH.
Qed.

Lemma HasSuffix_two_last (s : string) (a b : ascii) :
  Memory.HasSuffix s (String a (String b EmptyString)) = true -> Memory.last_byte s = Some b.
Proof.
  unfold Memory.HasSuffix. cbn [String.length].
  induction s as [|c s IH]; [discriminate|].
  intros H. apply andb_true_iff in H as [Hlen Heq].
  apply Nat.leb_le in Hlen. apply String.eqb_eq in Heq.
  destruct s as [|d s]; [simpl in Hlen; lia|].
  destruct s as [|e s].
  - simpl in Heq. injection Heq as -> ->. reflexivity.
  - change (Memory.last_byte (String c (String d (String e s))))
      with (Memory.last_byte (String d (String e s))).
    apply IH. apply andb_true_iff. split; [reflexivity|].
    apply String.eqb_eq. rewrite <- Heq.
    cbn [String.length]. replace (S (S (S (String.length s))) - 2)%nat
      with (S (S (S (String.length s)) - 2))%nat by lia.
    reflexivity.
Qed.

Lemma TrimRight_nl_no_suffix (s : string) :
  Memory.HasSuffix (Memory.TrimRight_nl s)
    (String Memory.nl (String Memory.nl EmptyString)) = false.
Proof.
  destruct (Memory.HasSuffix _ _) eqn:H; [|reflexivity].
  apply HasSuffix_two_last in H. exfalso. exact (TrimRight_nl_last s H).
Qed.

Lemma TrimRight_nl_app_nl (s : string) :
  Memory.TrimRight_nl (s +:+ String Memory.nl EmptyString) = Memory.TrimRight_nl s.
Proof.
  induction s as [|c s IH]; [reflexivity|].
  change (String c s +:+ String Memory.nl EmptyString)
    with (String c (s +:+ String Memory.nl EmptyString)).
  simpl. rewrite IH. reflexivity.
Qed.

Lemma AppendHistory_spec (m : Memory.MemoryStore) (entry : string) (fs : Memory.files) :
  Memory.AppendHistory m entry fs
  = <[Memory.historyFile m :=
        (match fs !! Memory.historyFile m with Some data => data | None => EmptyString end)
        +:+ Memory.TrimRight_nl entry
        +:+ String Memory.nl (String Memory.nl EmptyString)]> fs.
Proof.
  unfold Memory.AppendHistory. rewrite TrimRight_nl_no_suffix. reflexivity.
Qed.

(** X14. [AppendHistory] ends every entry with exactly two newlines:
    whatever newlines the entry ends with, the history file grows by
    the entry without its trailing newlines, followed by two newlines;
    what the file held before is kept in front, no other file changes,
    and entries that differ only in a trailing newline are written the
    same. *)
Theorem AppendHistory_normalises (m : Memory.MemoryStore) (entry : string)
  (fs : Memory.files) :
  let old := match fs !! Memory.historyFile m with
             | Some data => data
             | None => EmptyString
             end in
  Memory.AppendHistory m entry fs !! Memory.historyFile m
  = Some (old +:+ Memory.TrimRight_nl entry
            +:+ String Memory.nl (String Memory.nl EmptyString))
  /\ Memory.last_byte (Memory.TrimRight_nl entry) <> Some Memory.nl
  /\ (forall path, path <> Memory.historyFile m ->
        Memory.AppendHistory m entry fs !! path = fs !! path)
  /\ Memory.AppendHistory m (entry +:+ String Memory.nl EmptyString) fs
     = Memory.AppendHistory m entry fs.
Proof.
  intros old. rewrite !AppendHistory_spec. split; [apply lookup_insert_eq|].
  split; [apply TrimRight_nl_last|]. split.
  - intros path Hne. apply lookup_insert_ne. congruence.
  - rewrite TrimRight_nl_app_nl. reflexivity.
Qed.

(** X15. The save_memory tool called through the registry: its
    required parameters are not enforced by validation, so the call
    always reaches the tool. With neither a history entry nor a memory
    update (absent, not a string, or empty) the tool answers with its
    own error text and changes no file. Otherwise it answers "Memory
    saved successfully"; a non-empty memory update is what
    [ReadLongTerm] returns afterwards, a non-empty history entry is
    appended to the history file in normal form, and nothing else
    changes. *)
Theorem save_memory_through_registry (r : Tools.ToolRegistry Memory.files)
  (m : Memory.MemoryStore) (params : Tools.Params) (fs : Memory.files) :
  let h := Memory.param_string params "history_entry" in
  let u := Memory.param_string params "memory_update" in
  let old := match fs !! Memory.historyFile m with
             | Some data => data
             | None => EmptyString
             end in
  Tools.Get r "save_memory" = Some (Memory.SaveMemoryTool m) ->
  Memory.memoryFile m <> Memory.historyFile m ->
  (h = "" -> u = "" ->
   Tools.RegistryExecute r "save_memory" params fs
   = ("Error: history_entry and memory_update are required", fs))
  /\ (h <> "" \/ u <> "" ->
      exists fs',
        Tools.RegistryExecute r "save_memory" params fs = ("Memory saved successfully", fs')
        /\ Memory.ReadLongTerm m fs' = (if String.eqb u "" then Memory.ReadLongTerm m fs else u)
        /\ fs' !! Memory.historyFile m
           = (if String.eqb h "" then fs !! Memory.historyFile m
              else Some (old +:+ Memory.TrimRight_nl h
                           +:+ String Memory.nl (String Memory.nl EmptyString)))
        /\ (forall path, path <> Memory.memoryFile m -> path <> Memory.historyFile m ->
              fs' !! path = fs !! path)).
Proof.
  intros h u old Hget Hne.
  unfold Tools.RegistryExecute. rewrite Hget.
  cbn [Tools.ValidateParams Tools.Execute Memory.SaveMemoryTool Tools.Name].
  change (BaseTool.ValidateParams Memory.save_memory_base params) with (@nil string).
  cbn [length Nat.ltb Nat.leb].
  unfold Memory.Execute. fold h u.
  split.
  - intros -> ->. reflexivity.
  - intros Hsome.
    assert (String.eqb h "" && String.eqb u "" = false) as ->.
    { destruct (String.eqb_spec h ""), (String.eqb_spec u ""); try reflexivity.
      destruct Hsome; contradiction. }
    eexists. split; [reflexivity|].
    rewrite !AppendHistory_spec. fold old.
    unfold Memory.ReadLongTerm, Memory.WriteLongTerm.
    destruct (String.eqb_spec h "") as [Hh|Hh]; destruct (String.eqb_spec u "") as [Hu|Hu].
    + destruct Hsome; contradiction.
    + destruct (String.eqb_spec u
                  (match fs !! Memory.memoryFile m with Some d => d | None => "" end))
        as [Heq|Hneq].
      * split; [symmetry; exact Heq|]. split; [reflexivity|]. reflexivity.
      * rewrite lookup_insert_eq. split; [reflexivity|].
        split; [apply lookup_insert_ne; exact Hne|].
        intros path Hp _. apply lookup_insert_ne. congruence.
    + split; [rewrite lookup_insert_ne by congruence; reflexivity|].
      split; [apply lookup_insert_eq|].
      intros path _ Hp. apply lookup_insert_ne. congruence.
    + rewrite (lookup_insert_ne fs (Memory.historyFile m) (Memory.memoryFile m))
        by congruence.
      destruct (String.eqb_spec u
                  (match fs !! Memory.memoryFile m with Some d => d | None => "" end))
        as [Heq|Hneq].
      * split; [rewrite lookup_insert_ne by congruence; symmetry; exact Heq|].
        split; [apply lookup_insert_eq|].
        intros path _ Hp. apply lookup_insert_ne. congruence.
      * rewrite lookup_insert_eq. split; [reflexivity|].
        split; [rewrite lookup_insert_ne by exact Hne; apply lookup_insert_eq|].
        intros path Hp1 Hp2. rewrite !lookup_insert_ne by congruence. reflexivity.
Qed.

Lemma save_memory_through_registry_witness :
  let m := Memory.mkStore "ws/memory" "ws/memory/MEMORY.md" "ws/memory/HISTORY.md" in
  let r := Tools.Register Tools.NewToolRegistry (Memory.SaveMemoryTool m) in
  let fs : Memory.files := {[ "ws/memory/MEMORY.md" := "likes tea" ]} in
  Tools.RegistryExecute r "save_memory" [] fs
  = ("Error: history_entry and memory_update are required", fs)
  /\ exists fs',
       Tools.RegistryExecute r "save_memory"
         [("history_entry", JStr "[2024-01-01 10:00] asked about coffee
");
          ("memory_update", JStr "likes tea and coffee")] fs
       = ("Memory saved successfully", fs')
       /\ Memory.ReadLongTerm m fs' = "likes tea and coffee"
       /\ fs' !! "ws/memory/HISTORY.md" = Some "[2024-01-01 10:00] asked about coffee

".
Proof.
  intros m r fs. split.
  - destruct (save_memory_through_registry r m [] fs eq_refl ltac:(discriminate))
      as [Hnone _].
    apply Hnone; reflexivity.
  - destruct (save_memory_through_registry r m
                [("history_entry", JStr "[2024-01-01 10:00] asked about coffee
");
                 ("memory_update", JStr "likes tea and coffee")] fs eq_refl
                ltac:(discriminate)) as [_ Hsome].
    destruct (Hsome ltac:(left; discriminate)) as (fs' & Hrun & Hmem & Hhist & _).
    exists fs'. split; [exact Hrun|]. split; [exact Hmem | exact Hhist].
Defined.

(** ** Removing from the heap *)

Lemma hr_parent_lin (c : nat) :
  (c = 0 /\ (c - 1) / 2 = 0 \/ c = 2 * ((c - 1) / 2) + 1 \/ c = 2 * ((c - 1) / 2) + 2)%nat.
Proof. lia. Qed.

Ltac hr_parent t :=
  let H := fresh "Hpar" in
  let E := fresh "E" in
  let p := fresh "p" in
  pose proof (hr_parent_lin t) as H;
  remember ((t - 1) / 2)%nat as p eqn:E; clear E.

Ltac hr_parents :=
  repeat match goal with
         | |- context [((?t - 1) / 2)%nat] => is_var t; hr_parent t
         | H : context [((?t - 1) / 2)%nat] |- _ => is_var t; hr_parent t
         end.

Section HeapRemoveProperties.
Import Heap HeapRemove.
Context {A : Type} (key : A -> Z).

Lemma down_pos_unfold fuel (h : list A) i n :
  down_pos key (S fuel) h i n
  = if (n <=? 2 * i + 1)%nat then (h, i)
    else
      let j := if (2 * i + 1 + 1 <? n)%nat && Less key h (2 * i + 1 + 1) (2 * i + 1)
               then (2 * i + 1 + 1)%nat else (2 * i + 1)%nat in
      if negb (Less key h j i) then (h, i)
      else down_pos key fuel (Swap h i j) j n.
Proof. reflexivity. Qed.

Lemma down_pos_fst fuel : forall (h : list A) i n,
  (down_pos key fuel h i n).1 = down_loop key fuel h i n.
Proof.
  induction fuel as [|fuel IH]; intros h i n; [reflexivity|].
  rewrite down_pos_unfold, heap_down_loop_unfold. cbv zeta.
  destruct (n <=? 2 * i + 1)%nat; [reflexivity|].
  match goal with |- context [negb ?b] => destruct b end; cbn [negb]; [apply IH | reflexivity].
Qed.

Lemma down_pos_child (h : list A) i n :
  (i < (if (2 * i + 1 + 1 <? n)%nat && Less key h (2 * i + 1 + 1) (2 * i + 1)
        then (2 * i + 1 + 1)%nat else (2 * i + 1)%nat))%nat.
Proof. destruct (_ && _); lia. Qed.

Lemma down_pos_ge fuel : forall (h : list A) i n,
  (i <= (down_pos key fuel h i n).2)%nat.
Proof.
  induction fuel as [|fuel IH]; intros h i n; [simpl; lia|].
  rewrite down_pos_unfold. cbv zeta.
  destruct (n <=? 2 * i + 1)%nat; [simpl; lia|].
  match goal with |- context [negb ?b] => destruct b end; cbn [negb]; [|simpl; lia].
  match goal with |- (_ <= (down_pos key fuel ?h' ?j n).2)%nat =>
    pose proof (IH h' j n) as Hge
  end.
  pose proof (down_pos_child h i n). lia.
Qed.

Lemma down_pos_stay fuel (h : list A) i n :
  (down_pos key fuel h i n).2 = i -> (down_pos key fuel h i n).1 = h.
Proof.
  destruct fuel as [|fuel]; [reflexivity|].
  rewrite down_pos_unfold. cbv zeta.
  destruct (n <=? 2 * i + 1)%nat; [reflexivity|].
  match goal with |- context [negb ?b] => destruct b end; cbn [negb]; [|reflexivity].
  match goal with |- (down_pos key fuel ?h' ?j n).2 = i -> _ =>
    pose proof (down_pos_ge fuel h' j n) as Hge
  end.
  pose proof (down_pos_child h i n).
  intros Heq. lia.
Qed.

Lemma Swap_take (h : list A) i j n :
  (i < n)%nat -> (j < n)%nat -> (n <= length h)%nat ->
  Swap (take n h) i j = take n (Swap h i j).
Proof.
  intros Hi Hj Hn. unfold Swap.
  rewrite !lookup_take_lt by lia.
  destruct (h !! i), (h !! j); try reflexivity.
  rewrite !take_insert_lt by lia. reflexivity.
Qed.

Lemma Less_take (h : list A) a b n :
  (a < n)%nat -> (b < n)%nat -> Less key (take n h) a b = Less key h a b.
Proof. intros Ha Hb. unfold Less. rewrite !lookup_take_lt by lia. reflexivity. Qed.

Lemma up_loop_take fuel : forall (h : list A) j n,
  (j < n)%nat -> (n <= length h)%nat ->
  take n (up_loop key fuel h j) = up_loop key fuel (take n h) j
  /\ length (up_loop key fuel h j) = length h
  /\ (forall k, (n <= k)%nat -> up_loop key fuel h j !! k = h !! k).
Proof.
  induction fuel as [|fuel IH]; intros h j n Hj Hn; [simpl; auto|].
  rewrite !heap_up_loop_unfold. assert ((j - 1) / 2 <= j)%nat as Hp by lia.
  rewrite Less_take by lia.
  destruct ((((j - 1) / 2 =? j)%nat) || negb (Less key h j ((j - 1) / 2))); [auto|].
  rewrite Swap_take by lia.
  destruct (IH (Swap h ((j - 1) / 2) j) ((j - 1) / 2)%nat n ltac:(lia)
              ltac:(rewrite heap_Swap_length; lia)) as (Htake & Hlen & Hout).
  rewrite heap_Swap_length in Hlen.
  split; [exact Htake|]. split; [exact Hlen|].
  intros k Hk. rewrite Hout by exact Hk.
  rewrite (heap_Swap_lookup key) by lia. repeat case_decide; try lia. reflexivity.
Qed.

Lemma heap_upto_take (h : list A) n :
  (n <= length h)%nat -> heap_upto key h n -> is_heap key (take n h).
Proof.
  intros Hn Hh. unfold is_heap. rewrite length_take.
  replace (n `min` length h)%nat with n by lia.
  intros c Hc y z Hy Hz.
  rewrite lookup_take_lt in Hy by lia. rewrite lookup_take_lt in Hz by lia.
  exact (Hh c Hc y z Hy Hz).
Qed.

Lemma key_at_take (h : list A) n k :
  (k < n)%nat -> key_at key (take n h) k = key_at key h k.
Proof. intros Hk. unfold key_at. rewrite lookup_take_lt by lia. reflexivity. Qed.

Lemma list_split_last (h : list A) n x :
  length h = S n -> h !! n = Some x -> h = take n h ++ [x].
Proof.
  intros Hlen Hx. rewrite <- (take_drop n h) at 1. f_equal.
  rewrite (drop_S _ _ _ Hx). rewrite drop_ge by lia. reflexivity.
Qed.

(** The list after the swap and the sifting of [Remove], before the
    last element is taken off. *)
Lemma heap_Remove_sift (h : list A) i n (x : A) :
  is_heap key h -> NoDup h -> length h = S n -> (i < n)%nat -> h !! i = Some x ->
  let '(h', moved) := down key (Swap h i n) i n in
  let h1 := if moved then h' else up key h' i in
  length h1 = S n
  /\ h1 !! n = Some x
  /\ is_heap key (take n h1)
  /\ NoDup h1
  /\ (forall y, y ∈ h1 <-> y ∈ h).
Proof.
  intros Hheap Hnd Hlen Hi Hx.
  pose proof (proj1 (heap_upto_K key h (length h) ltac:(lia)) Hheap) as HK.
  rewrite Hlen in HK.
  set (h0 := Swap h i n).
  assert (length h0 = S n) as Hlen0 by (unfold h0; rewrite heap_Swap_length; exact Hlen).
  assert (h0 !! n = Some x) as Hlast0.
  { unfold h0. rewrite (heap_Swap_lookup key) by lia. repeat case_decide; try lia. exact Hx. }
  assert (NoDup h0) as Hnd0 by (apply (heap_Swap_NoDup key); [lia | lia | exact Hnd]).
  assert (forall y, y ∈ h0 <-> y ∈ h) as Helem0 by (intros y; apply (heap_Swap_elem key); lia).
  assert (forall k, key_at key h0 k
                    = if decide (k = i) then key_at key h n
                      else if decide (k = n) then key_at key h i else key_at key h k) as HK0.
  { intros k. unfold h0. apply (heap_K_Swap key); lia. }
  unfold down.
  destruct (down_pos key n h0 i n) as [h' pos] eqn:Hdown.
  pose proof (down_pos_fst n h0 i n) as Hfst. rewrite Hdown in Hfst. simpl in Hfst.
  pose proof (down_pos_ge n h0 i n) as Hge. rewrite Hdown in Hge. simpl in Hge.
  pose proof (down_pos_stay n h0 i n) as Hstay. rewrite Hdown in Hstay. simpl in Hstay.
  destruct (decide (i = 0%nat \/ (key_at key h0 ((i - 1) / 2) <= key_at key h0 i)%Z))
    as [Hordered | Hsmaller].
  - (* the moved element is in order with its parent: [down] settles it *)
    destruct (heap_down_loop_spec key n h0 i n) as (Hh & Hl & Hout & Helem & Hnd').
    + lia.
    + lia.
    + split.
      * intros c Hc Hpar. rewrite !HK0.
        pose proof (HK c ltac:(lia)) as H1.
        destruct Hordered as [-> | Hord].
        -- repeat case_decide; subst; hr_parents; subst; lia.
        -- rewrite !HK0 in Hord.
           repeat case_decide; subst; hr_parents; subst; try lia.
      * intros c Hc Hpar Hpos. rewrite !HK0.
        pose proof (HK c ltac:(lia)) as H1. pose proof (HK i ltac:(lia)) as H2.
        repeat case_decide; subst; hr_parents; subst; lia.
    + rewrite <- Hfst in Hh, Hl, Hout, Helem, Hnd'.
      assert ((if (i <? pos)%nat then h' else up key h' i) = h') as ->.
      { destruct (Nat.ltb_spec i pos) as [_|Hnot]; [reflexivity|].
        assert (pos = i) as -> by lia. rewrite (Hstay eq_refl).
        unfold up. rewrite heap_up_loop_unfold.
        destruct (Nat.eqb_spec ((i - 1) / 2) i) as [_|Hne]; [reflexivity|].
        rewrite heap_Less_K by lia.
        destruct Hordered as [-> | Hord]; [simpl in Hne; lia|].
        destruct (Z.ltb_spec (key_at key h0 i) (key_at key h0 ((i - 1) / 2)));
          [lia | reflexivity]. }
      split; [lia|]. split; [rewrite Hout by lia; exact Hlast0|].
      split; [apply heap_upto_take; [lia | exact Hh]|].
      split; [exact (Hnd' Hnd0)|].
      intros y. rewrite Helem. apply Helem0.
  - (* the moved element is smaller than its parent: [down] leaves it, [up] lifts it *)
    assert (0 < i)%nat as Hpos by (destruct (decide (i = 0%nat)); [tauto | lia]).
    assert (key_at key h0 i < key_at key h0 ((i - 1) / 2))%Z as Hlt
      by (destruct (Z.lt_ge_cases (key_at key h0 i) (key_at key h0 ((i - 1) / 2)));
          [assumption | tauto]).
    assert (h' = h0 /\ pos = i) as [-> ->].
    { destruct n as [|n']; [lia|].
      rewrite down_pos_unfold in Hdown. cbv zeta in Hdown.
      destruct (Nat.leb_spec (S n') (2 * i + 1)) as [_|Hchild];
        [injection Hdown as <- <-; auto|].
      remember (if (2 * i + 1 + 1 <? S n')%nat && Less key h0 (2 * i + 1 + 1) (2 * i + 1)
                then (2 * i + 1 + 1)%nat else (2 * i + 1)%nat) as j eqn:Ej.
      assert ((j = 2 * i + 1 \/ j = 2 * i + 2)%nat /\ (j < S n')%nat) as [Hj Hjn].
      { subst j. destruct (Nat.ltb_spec (2 * i + 1 + 1) (S n')); cbn [andb];
          [destruct (Less key h0 (2 * i + 1 + 1) (2 * i + 1))|]; lia. }
      clear Ej.
      rewrite heap_Less_K in Hdown by lia.
      assert (key_at key h0 i <= key_at key h0 j)%Z as Hij.
      { assert (((j - 1) / 2)%nat = i) as Hji by lia.
        pose proof (HK j ltac:(lia)) as H1. rewrite Hji in H1.
        pose proof (HK i ltac:(lia)) as H2.
        pose proof (HK0 i) as E1. pose proof (HK0 j) as E2.
        pose proof (HK0 ((i - 1) / 2)%nat) as E3.
        destruct (decide (i = i)); [|congruence].
        destruct (decide (j = i)); [lia|]. destruct (decide (j = S n')); [lia|].
        destruct (decide (((i - 1) / 2)%nat = i)); [lia|].
        destruct (decide (((i - 1) / 2)%nat = S n')); [lia|]. lia. }
      destruct (Z.ltb_spec (key_at key h0 j) (key_at key h0 i)); [lia|].
      simpl in Hdown. injection Hdown as <- <-. auto. }
    rewrite Nat.ltb_irrefl. unfold up.
    destruct (up_loop_take (S i) h0 i n Hi ltac:(lia)) as (Htake & Hl & Hout).
    destruct (heap_up_loop_spec key (S i) (take n h0) i) as (Hh & _ & Helem & Hnd').
    + lia.
    + rewrite length_take. lia.
    + unfold up_inv. rewrite length_take, Hlen0. replace (n `min` S n)%nat with n by lia. split.
      * intros c Hc Hci. rewrite !key_at_take by lia. rewrite !HK0.
        rewrite !HK0 in Hlt.
        pose proof (HK c ltac:(lia)) as H1. pose proof (HK i ltac:(lia)) as H2.
        clear Hdown Hstay Hge Hfst.
        repeat case_decide; subst; hr_parents; subst; try lia.
      * intros c Hc Hpar _. rewrite !key_at_take by lia. rewrite !HK0.
        pose proof (HK c ltac:(lia)) as H1. pose proof (HK i ltac:(lia)) as H2.
        clear Hdown Hstay Hge Hfst.
        repeat case_decide; subst; hr_parents; subst; try lia.
    + rewrite <- Htake in Hh, Helem, Hnd'.
      assert (up_loop key (S i) h0 i !! n = Some x) as Hlast
        by (rewrite Hout by lia; exact Hlast0).
      split; [lia|]. split; [exact Hlast|]. split; [exact Hh|].
      pose proof (list_split_last (up_loop key (S i) h0 i) n x ltac:(lia) Hlast) as Hsplit.
      pose proof (list_split_last h0 n x Hlen0 Hlast0) as Hsplit0.
      assert (forall y, y ∈ up_loop key (S i) h0 i <-> y ∈ h0) as Helem1.
      { intros y. rewrite Hsplit at 1. rewrite elem_of_app, Helem.
        rewrite <- elem_of_app, <- Hsplit0. reflexivity. }
      split.
      * rewrite Hsplit. rewrite Hsplit0 in Hnd0.
        apply NoDup_app in Hnd0 as (Hnd1 & Hdisj & Hnd2).
        apply NoDup_app. split; [apply Hnd', Hnd1|]. split; [|exact Hnd2].
        intros y Hy. apply Hdisj. apply Helem. exact Hy.
      * intros y. rewrite Helem1. apply Helem0.
Qed.

Lemma heap_Remove_spec (h : list A) (i : nat) :
  is_heap key h -> NoDup h -> (i < length h)%nat ->
  exists x h',
    Remove key h i = Some (x, h')
    /\ h !! i = Some x
    /\ is_heap key h'
    /\ NoDup h'
    /\ h ≡ₚ x :: h'.
Proof.
  intros Hheap Hnd Hi.
  destruct (lookup_lt_is_Some_2 h i Hi) as [x Hx].
  unfold Remove. destruct (Nat.leb_spec (length h) i) as [|_]; [lia|].
  destruct (length h) as [|n] eqn:Hlen; [lia|].
  replace (S n - 1)%nat with n by lia.
  assert (exists h1, (if (n =? i)%nat then h
                      else let '(h', moved) := down key (Swap h i n) i n in
                           if moved then h' else up key h' i) = h1
                     /\ length h1 = S n /\ h1 !! n = Some x
                     /\ is_heap key (take n h1) /\ NoDup h1
                     /\ (forall y, y ∈ h1 <-> y ∈ h)) as (h1 & -> & Hl & Hlast & Hh & Hnd1 & Helem).
  { destruct (Nat.eqb_spec n i) as [->|Hne].
    - exists h. split; [reflexivity|]. split; [exact Hlen|]. split; [exact Hx|].
      split; [|split; [exact Hnd | reflexivity]].
      apply heap_upto_take; [lia|].
      intros c Hc. apply Hheap. lia.
    - pose proof (heap_Remove_sift h i n x Hheap Hnd Hlen ltac:(lia) Hx) as Hsift.
      destruct (down key (Swap h i n) i n) as [h' moved].
      eexists. split; [reflexivity|]. exact Hsift. }
  unfold pop_last. rewrite Hl, Hlast.
  exists x, (take n h1). split; [reflexivity|]. split; [exact Hx|]. split; [exact Hh|].
  pose proof (list_split_last h1 n x Hl Hlast) as Hsplit.
  assert (NoDup (take n h1)) as Hnd'.
  { rewrite Hsplit in Hnd1. apply NoDup_app in Hnd1 as (H1 & _ & _). exact H1. }
  split; [exact Hnd'|].
  transitivity h1.
  - apply NoDup_Permutation; [exact Hnd | exact Hnd1 |]. intros y. symmetry. apply Helem.
  - rewrite Hsplit at 1. rewrite Permutation_app_comm. reflexivity.
Qed.

End HeapRemoveProperties.

(** ** Removing a job, the wait of the scheduler *)

Lemma find_job_Some (store : nat -> Cron.Job) (id : string) (h : list nat) :
  forall k i, CronOps.find_job store id h k = Some i ->
  (k <= i)%nat /\ exists q, h !! (i - k)%nat = Some q /\ Cron.ID (store q) = id.
Proof.
  induction h as [|p h IH]; intros k i Hfind; [discriminate|].
  simpl in Hfind. destruct (String.eqb_spec (Cron.ID (store p)) id) as [Hid|Hid].
  - injection Hfind as <-. split; [lia|]. exists p. rewrite Nat.sub_diag. auto.
  - destruct (IH (S k) i Hfind) as (Hle & q & Hq & Hqid).
    split; [lia|]. exists q. split; [|exact Hqid].
    replace (i - k)%nat with (S (i - S k)) by lia. exact Hq.
Qed.

Lemma find_job_None (store : nat -> Cron.Job) (id : string) (h : list nat) :
  forall k, CronOps.find_job store id h k = None ->
  forall q, q ∈ h -> Cron.ID (store q) <> id.
Proof.
  induction h as [|p h IH]; intros k Hfind q Hq; [inversion Hq|].
  simpl in Hfind. destruct (String.eqb_spec (Cron.ID (store p)) id) as [Hid|Hid];
    [discriminate|].
  apply elem_of_cons in Hq as [->|Hq]; [exact Hid | eapply IH; eassumption].
Qed.

Lemma RemoveJob_spec (s : Cron.CronService) (id : string) (p : nat) :
  Cron.well_formed s ->
  Cron.jobs s !! id = Some p ->
  exists s',
    CronOps.RemoveJob s id = Ok (true, s')
    /\ Cron.jobs s' = delete id (Cron.jobs s)
    /\ Cron.store s' = Cron.store s
    /\ Cron.fresh s' = Cron.fresh s
    /\ Cron.ticks s' = Cron.ticks s
    /\ Cron.launched s' = Cron.launched s
    /\ Cron.well_formed s'
    /\ ((exists q, q ∈ Cron.heap s /\ Cron.ID (Cron.store s q) = id
                   /\ (q ∉ Cron.heap s') /\ Cron.heap s ≡ₚ q :: Cron.heap s')
        \/ ((forall q, q ∈ Cron.heap s -> Cron.ID (Cron.store s q) <> id)
            /\ Cron.heap s' = Cron.heap s)).
Proof.
  intros (Hheap & Hnd & Hmap) Hp. unfold CronOps.RemoveJob. rewrite Hp.
  assert (forall id' q, delete id (Cron.jobs s) !! id' = Some q ->
                        Cron.ID (Cron.store s q) = id') as Hmap'.
  { intros id' q Hq. apply lookup_delete_Some in Hq as [_ Hq]. apply Hmap, Hq. }
  destruct (CronOps.find_job (Cron.store s) id (Cron.heap s) 0) as [i|] eqn:Hfind.
  - destruct (find_job_Some _ _ _ _ _ Hfind) as (_ & q & Hq & Hqid).
    rewrite Nat.sub_0_r in Hq.
    destruct (heap_Remove_spec (Cron.next_run_key (Cron.store s)) (Cron.heap s) i Hheap Hnd
                (lookup_lt_Some _ _ _ Hq)) as (x & h' & -> & Hx & Hheap' & Hnd' & Hperm).
    rewrite Hq in Hx. injection Hx as <-.
    eexists. split; [reflexivity|]. cbn.
    repeat (split; [reflexivity|]).
    split; [split; [exact Hheap' | split; [exact Hnd' | exact Hmap']]|].
    left. exists q. split; [eapply list_elem_of_lookup_2, Hq|]. split; [exact Hqid|].
    split; [|exact Hperm].
    rewrite Hperm in Hnd. apply NoDup_cons in Hnd as [Hnotin _]. exact Hnotin.
  - eexists. split; [reflexivity|]. cbn.
    repeat (split; [reflexivity|]).
    split; [split; [exact Hheap | split; [exact Hnd | exact Hmap']]|].
    right. split; [|reflexivity]. eapply find_job_None, Hfind.
Qed.

(** X16. [RemoveJob] takes a job out of the schedule and keeps the
    scheduler consistent: for an id that is not registered it returns
    false and changes nothing; for a registered id it returns true,
    the id is gone from the map, and if the heap holds a job with
    that id, one such job is taken out of the heap and all the others
    stay, otherwise the heap is unchanged. The heap is again in heap
    order with distinct items, and no job is started or rescheduled. *)
Theorem RemoveJob_removes (s : Cron.CronService) (id : string) :
  Cron.well_formed s ->
  (Cron.jobs s !! id = None -> CronOps.RemoveJob s id = Ok (false, s))
  /\ (forall p, Cron.jobs s !! id = Some p ->
      exists s',
        CronOps.RemoveJob s id = Ok (true, s')
        /\ Cron.jobs s' = delete id (Cron.jobs s)
        /\ Cron.store s' = Cron.store s
        /\ Cron.launched s' = Cron.launched s
        /\ Cron.well_formed s'
        /\ ((exists q, q ∈ Cron.heap s /\ Cron.ID (Cron.store s q) = id
                       /\ (q ∉ Cron.heap s') /\ Cron.heap s ≡ₚ q :: Cron.heap s')
            \/ ((forall q, q ∈ Cron.heap s -> Cron.ID (Cron.store s q) <> id)
                /\ Cron.heap s' = Cron.heap s))).
Proof.
  intros Hwf. split.
  - intros Hnone. unfold CronOps.RemoveJob. rewrite Hnone. reflexivity.
  - intros p Hp.
    destruct (RemoveJob_spec s id p Hwf Hp)
      as (s' & Hrun & Hjobs & Hstore & _ & _ & Hlaunched & Hwf' & Hheap).
    exists s'. repeat (split; [assumption|]). exact Hheap.
Qed.

Lemma cron_three_jobs_well_formed :
  let job := fun (id : string) (next : Z) =>
    Cron.mkJob id "remind" "hi" (Cron.mkSchedule "every" 60000 "" "" 0)
      "cli" "direct" true false (Cron.mkTime 0 "Local") (Cron.mkTime next "Local") false "" in
  Cron.well_formed
    (Cron.mkService
       (fun p => match p with
                 | O => job "job_1" 500%Z
                 | S O => job "job_2" 900%Z
                 | _ => job "job_3" 700%Z
                 end) 3
       {[ "job_1" := 0%nat; "job_2" := 1%nat; "job_3" := 2%nat ]}
       [0%nat; 1%nat; 2%nat] 0 []).
Proof.
  intros job. split; [|split].
  - intros c Hc x y Hx Hy. simpl in Hc.
    assert (c = 1%nat \/ c = 2%nat) as [-> | ->] by lia;
      simpl in Hx, Hy; injection Hx as <-; injection Hy as <-;
      unfold Cron.next_run_key; simpl; lia.
  - repeat (apply NoDup_cons; split; [intros H; repeat (apply elem_of_cons in H as [H|H]; [discriminate|]); inversion H|]).
    apply NoDup_nil_2.
  - intros id p H. simpl in H.
    apply lookup_insert_Some in H as [[<- <-] | [_ H]]; [reflexivity|].
    apply lookup_insert_Some in H as [[<- <-] | [_ H]]; [reflexivity|].
    apply lookup_singleton_Some in H as [<- <-]. reflexivity.
Qed.

Lemma RemoveJob_removes_witness :
  let job := fun (id : string) (next : Z) =>
    Cron.mkJob id "remind" "hi" (Cron.mkSchedule "every" 60000 "" "" 0)
      "cli" "direct" true false (Cron.mkTime 0 "Local") (Cron.mkTime next "Local") false "" in
  let s := Cron.mkService
             (fun p => match p with
                       | O => job "job_1" 500%Z
                       | S O => job "job_2" 900%Z
                       | _ => job "job_3" 700%Z
                       end) 3
             {[ "job_1" := 0%nat; "job_2" := 1%nat; "job_3" := 2%nat ]}
             [0%nat; 1%nat; 2%nat] 0 [] in
  CronOps.RemoveJob s "job_9" = Ok (false, s)
  /\ exists s',
       CronOps.RemoveJob s "job_1" = Ok (true, s')
       /\ Cron.heap s' = [2%nat; 1%nat]
       /\ Cron.jobs s' !! "job_1" = None
       /\ Cron.well_formed s'.
Proof.
  intros job s.
  destruct (RemoveJob_removes s "job_9" cron_three_jobs_well_formed) as [Hnone _].
  destruct (RemoveJob_removes s "job_1" cron_three_jobs_well_formed) as [_ Hsome].
  split; [apply Hnone; reflexivity|].
  destruct (Hsome 0%nat eq_refl) as (s' & Hrun & Hjobs & _ & _ & Hwf & _).
  exists s'. split; [exact Hrun|].
  split; [vm_compute in Hrun; injection Hrun as <-; reflexivity|].
  split; [rewrite Hjobs; apply lookup_delete_eq | exact Hwf].
Defined.

Section CronOpsProperties.
Import Cron.
Variable CronSchedule : Type.
Variable Parse : string -> option CronSchedule.
Variable Next : CronSchedule -> Time -> Time.
Variable LoadLocation : string -> option Location.
Variable clock : nat -> Time.

Local Abbreviation add := (AddJob CronSchedule Parse Next LoadLocation clock).

(** X17. A job that was just added can be taken back: when the id
    that [AddJob] forms from the clock is not in use, [RemoveJob] of
    that id after [AddJob] returns true and leaves the map as it was
    before the job was added and the heap with the jobs it had then,
    unchanged and in heap order; nothing was started meanwhile. *)
Theorem AddJob_then_RemoveJob (s : CronService) (job : Job) :
  well_formed s -> allocated s ->
  jobs s !! job_id (clock (ticks s)) = None ->
  (forall q, q ∈ heap s -> ID (store s q) <> job_id (clock (ticks s))) ->
  exists s2,
    ID (store (add s job).2 (add s job).1) = job_id (clock (ticks s))
    /\ CronOps.RemoveJob (add s job).2 (job_id (clock (ticks s))) = Ok (true, s2)
    /\ jobs s2 = jobs s
    /\ heap s2 ≡ₚ heap s
    /\ (forall q, q ∈ heap s -> store s2 q = store s q)
    /\ launched s2 = launched s
    /\ well_formed s2.
Proof.
  intros Hwf Halloc Hfresh Hids.
  destruct (cron_AddJob_well_formed CronSchedule Parse Next LoadLocation clock s job
              Hwf Halloc) as [Hwf1 _].
  set (id := job_id (clock (ticks s))) in *.
  assert (fresh s ∉ heap s) as Hnew.
  { intros Hin. destruct Halloc as [Hh _]. specialize (Hh _ Hin). lia. }
  assert (heap (add s job).2 ≡ₚ fresh s :: heap s) as Hperm1.
  { destruct Hwf as (Hheap & Hnd & _). unfold AddJob. cbn [snd heap].
    eapply heap_Push_spec; [|exact Hnd | exact Hnew].
    eapply heap_is_heap_ext; [|exact Hheap].
    intros x Hx. unfold next_run_key.
    rewrite fn_lookup_insert_ne; [reflexivity|]. intros <-. contradiction. }
  assert (jobs (add s job).2 !! id = Some (fresh s)) as Hp.
  { unfold AddJob. cbn. apply lookup_insert_eq. }
  destruct (RemoveJob_spec (add s job).2 id (fresh s) Hwf1 Hp)
    as (s2 & Hrun & Hjobs & Hstore & _ & _ & Hlaunched & Hwf2 & Hheap).
  exists s2. split; [unfold AddJob; cbn; rewrite fn_lookup_insert; reflexivity|].
  split; [exact Hrun|].
  assert (forall q, q ∈ heap s -> store (add s job).2 q = store s q) as Hsame.
  { intros q Hq. unfold AddJob. cbn. apply fn_lookup_insert_ne. intros <-. contradiction. }
  split.
  { rewrite Hjobs. unfold AddJob. cbn. fold id. apply delete_insert_id. exact Hfresh. }
  split.
  { destruct Hheap as [(q & Hq & Hqid & _ & Hperm) | (Hnone & _)].
    - assert (q = fresh s) as ->.
      { rewrite Hperm1 in Hq. apply elem_of_cons in Hq as [->|Hq]; [reflexivity|].
        exfalso. apply (Hids q Hq). rewrite <- (Hsame q Hq). exact Hqid. }
      rewrite Hperm1 in Hperm. apply Permutation_cons_inv in Hperm. symmetry. exact Hperm.
    - exfalso. apply (Hnone (fresh s)).
      + rewrite Hperm1. apply elem_of_cons. left. reflexivity.
      + unfold AddJob. cbn. rewrite fn_lookup_insert. reflexivity. }
  split; [intros q Hq; rewrite Hstore; apply Hsame, Hq|].
  split; [rewrite Hlaunched; reflexivity | exact Hwf2].
Qed.

End CronOpsProperties.

Lemma AddJob_then_RemoveJob_witness :
  let clock := fun k : nat => Cron.mkTime (1000 + Z.of_nat k) "Local" in
  let job := Cron.mkJob "" "tick" "tock" (Cron.mkSchedule "every" 60000 "" "" 0)
               "cli" "direct" true false (Cron.mkTime 0 "") (Cron.mkTime 0 "") false "" in
  let r := Cron.AddJob unit (fun _ => None) (fun _ t => t) (fun _ => None) clock
             Cron.NewCronService job in
  exists s2,
    Cron.ID (Cron.store r.2 r.1) = "job_1000"
    /\ CronOps.RemoveJob r.2 "job_1000" = Ok (true, s2)
    /\ Cron.jobs s2 = ∅
    /\ Cron.heap s2 = [].
Proof.
  intros clock job r.
  destruct (AddJob_then_RemoveJob unit (fun _ => None) (fun _ t => t) (fun _ => None) clock
              Cron.NewCronService job) as (s2 & Hid & Hrun & Hjobs & Hheap & _).
  - apply (proj1 (cron_New_well_formed unit (fun _ t => t) clock)).
  - apply (proj2 (cron_New_well_formed unit (fun _ t => t) clock)).
  - reflexivity.
  - intros q Hq. inversion Hq.
  - exists s2. split; [exact Hid|]. split; [exact Hrun|]. split; [exact Hjobs|].
    apply Permutation_nil_r. exact Hheap.
Defined.

Section WaitProperties.
Import Cron.
Variable clock : nat -> Time.

Lemma Sub_monotone (t u now : Time) :
  (instant t <= instant u)%Z -> (CronOps.Sub t now <= CronOps.Sub u now)%Z.
Proof.
  intros Hle. unfold CronOps.Sub.
  repeat match goal with |- context [(?a <? ?b)%Z] => destruct (Z.ltb_spec a b) end; lia.
Qed.

Lemma Sub_positive (t now : Time) :
  (instant now < instant t)%Z -> (0 < CronOps.Sub t now)%Z.
Proof.
  intros Hlt. unfold CronOps.Sub.
  repeat match goal with |- context [(?a <? ?b)%Z] => destruct (Z.ltb_spec a b) end; lia.
Qed.

(** X18. The scheduler waits exactly until the earliest job: on a
    heap in heap order that holds a job, [getNextWaitDuration] reads
    the clock once and returns 0 if and only if some job of the heap
    is due at that reading; otherwise it returns a positive duration
    that is the time left, as [Time.Sub] gives it, to the next run of
    a job of the heap and is no longer than that of any other job.
    With no job it returns 60 seconds without reading the clock. *)
Theorem getNextWaitDuration_earliest (s : CronService) :
  well_formed s ->
  let now := clock (ticks s) in
  let d := (CronOps.getNextWaitDuration clock s).1 in
  (heap s = [] -> CronOps.getNextWaitDuration clock s = ((60 * Second)%Z, s))
  /\ (heap s <> [] ->
      ticks (CronOps.getNextWaitDuration clock s).2 = S (ticks s)
      /\ (d = 0%Z <-> exists p, p ∈ heap s /\ due now s p = true)
      /\ (d <> 0%Z ->
          (0 < d)%Z
          /\ (exists p, p ∈ heap s /\ d = CronOps.Sub (NextRun (store s p)) now)
          /\ (forall p, p ∈ heap s -> (d <= CronOps.Sub (NextRun (store s p)) now)%Z))).
Proof.
  intros (Hheap & _ & _) now d. split.
  - intros Hempty. unfold CronOps.getNextWaitDuration. rewrite Hempty. reflexivity.
  - intros Hne. unfold d, CronOps.getNextWaitDuration.
    destruct (heap s) as [|item rest] eqn:Hh; [contradiction|].
    fold now.
    assert (forall p, p ∈ item :: rest ->
                      (instant (NextRun (store s item)) <= instant (NextRun (store s p)))%Z)
      as Hmin.
    { intros p Hp.
      apply (heap_root_min (next_run_key (store s)) (item :: rest) item Hheap);
        [reflexivity | exact Hp]. }
    assert (item ∈ item :: rest) as Hroot by (apply elem_of_cons; left; reflexivity).
    unfold Before, Equal, due, After.
    destruct (Z.ltb_spec (instant (NextRun (store s item))) (instant now)) as [Hlt|Hge];
      [|destruct (Z.eqb_spec (instant (NextRun (store s item))) (instant now)) as [Heq|Hneq]];
      cbn [orb fst snd ticks].
    + split; [reflexivity|]. split; [|intros H; contradiction].
      split; [|reflexivity]. intros _. exists item. split; [exact Hroot|].
      destruct (Z.ltb_spec (instant now) (instant (NextRun (store s item)))); [lia|reflexivity].
    + split; [reflexivity|]. split; [|intros H; contradiction].
      split; [|reflexivity]. intros _. exists item. split; [exact Hroot|].
      destruct (Z.ltb_spec (instant now) (instant (NextRun (store s item)))); [lia|reflexivity].
    + assert (instant now < instant (NextRun (store s item)))%Z as Hlater by lia.
      pose proof (Sub_positive (NextRun (store s item)) now Hlater) as Hpos.
      split; [reflexivity|]. split.
      * split; [lia|]. intros (p & Hp & Hdue). exfalso.
        specialize (Hmin p Hp).
        destruct (Z.ltb_spec (instant now) (instant (NextRun (store s p))));
          [discriminate Hdue | lia].
      * intros _. split; [exact Hpos|]. split; [exists item; auto|].
        intros p Hp. apply Sub_monotone, Hmin, Hp.
Qed.

End WaitProperties.

Lemma getNextWaitDuration_earliest_witness :
  let job := fun (id : string) (next : Z) =>
    Cron.mkJob id "remind" "hi" (Cron.mkSchedule "every" 60000 "" "" 0)
      "cli" "direct" true false (Cron.mkTime 0 "Local") (Cron.mkTime next "Local") false "" in
  let s := Cron.mkService
             (fun p => match p with
                       | O => job "job_1" 500%Z
                       | S O => job "job_2" 900%Z
                       | _ => job "job_3" 700%Z
                       end) 3
             {[ "job_1" := 0%nat; "job_2" := 1%nat; "job_3" := 2%nat ]}
             [0%nat; 1%nat; 2%nat] 0 [] in
  (CronOps.getNextWaitDuration (fun _ => Cron.mkTime 600 "Local") s).1 = 0%Z
  /\ (CronOps.getNextWaitDuration (fun _ => Cron.mkTime 400 "Local") s).1 = 100%Z
  /\ forall p, p ∈ Cron.heap s ->
       (100 <= CronOps.Sub (Cron.NextRun (Cron.store s p)) (Cron.mkTime 400 "Local"))%Z.
Proof.
  intros job s.
  destruct (getNextWaitDuration_earliest (fun _ => Cron.mkTime 600 "Local") s
              cron_three_jobs_well_formed) as [_ Hdue].
  destruct (getNextWaitDuration_earliest (fun _ => Cron.mkTime 400 "Local") s
              cron_three_jobs_well_formed) as [_ Hwait].
  destruct (Hdue ltac:(discriminate)) as (_ & Hzero & _).
  destruct (Hwait ltac:(discriminate)) as (_ & _ & Hpos).
  split; [|split].
  - apply Hzero. exists 0%nat. split; [apply elem_of_cons; left; reflexivity | reflexivity].
  - reflexivity.
  - destruct (Hpos ltac:(vm_compute; discriminate)) as (_ & _ & Hall). exact Hall.
Defined.

(** ** Consolidation in the background *)

Section PendingProperties.
Import Agent.
Variable World : Type.
Variable Chat : nat -> list Providers.Message -> Providers.chat_result.
Variable registry : Tools.ToolRegistry World.
Variable marshal : Tools.Params -> string.
Variable maxIterations : Z.
Variable memoryWindow : Z.
Variable parseRFC3339 : string -> Z.
Variable formatRFC3339 : Z -> string.
Variable sessionPath : string -> string -> string.
Variable BuildMessages :
  list Session.Message -> string -> string -> string -> list string -> list CtxMessage.
Variable setToolContext : string -> string -> World -> World.
Variable setOriginContext : string -> string -> World -> World.
Variable readLongTerm : World -> string.

Local Abbreviation consolidate :=
  (consolidateMemory World Chat registry formatRFC3339 sessionPath readLongTerm).
Local Abbreviation sf := (Pending.single_flight World).

Lemma single_flight_ext (a a1 : AgentLoop World) :
  consolidating World a1 = consolidating World a ->
  background World a1 = background World a ->
  sf a -> sf a1.
Proof. unfold Pending.single_flight. intros -> ->. auto. Qed.

Lemma launch_single_flight (a : AgentLoop World) key p keepCount :
  sf a ->
  sf (match consolidating World a !! key with
      | Some true => a
      | _ => mkAgent World (sessions World a) (world World a)
               (<[key := true]> (consolidating World a))
               (currentChannel World a) (currentChatID World a)
               (background World a ++ [mkConsolidation key p keepCount])
      end).
Proof.
  intros [Hnd Hflag].
  assert (consolidating World a !! key <> Some true ->
          sf (mkAgent World (sessions World a) (world World a)
                (<[key := true]> (consolidating World a))
                (currentChannel World a) (currentChatID World a)
                (background World a ++ [mkConsolidation key p keepCount]))) as Hnew.
  { intros Hc. split; cbn [background consolidating].
    - rewrite map_app. cbn [map c_key]. apply NoDup_app. split; [exact Hnd|].
      split; [|apply NoDup_singleton].
      intros k Hk Hk'. apply list_elem_of_singleton in Hk' as ->.
      apply list_elem_of_fmap in Hk as (c & Hkey & Hin).
      specialize (Hflag c Hin). rewrite <- Hkey in Hflag. congruence.
    - intros c Hin. apply elem_of_app in Hin as [Hin | Hin].
      + destruct (decide (c_key c = key)) as [<-|Hne];
          [apply lookup_insert_eq | rewrite lookup_insert_ne by congruence; auto].
      + apply list_elem_of_singleton in Hin as ->. apply lookup_insert_eq. }
  destruct (consolidating World a !! key) as [[|]|] eqn:Hc.
  - split; assumption.
  - apply Hnew. discriminate.
  - apply Hnew. discriminate.
Qed.

Lemma ConsolidateIfNeeded_single_flight (a : AgentLoop World) key p sess :
  sf a -> sf (ConsolidateIfNeeded World memoryWindow a key p sess).
Proof.
  intros Hsf. unfold ConsolidateIfNeeded.
  repeat match goal with |- context [if ?c then _ else _] => destruct c end;
    try exact Hsf; apply launch_single_flight, Hsf.
Qed.

Lemma consolidateMemory_flags (a a' : AgentLoop World) key p keepCount :
  consolidate a key p keepCount = Ok a' ->
  consolidating World a' = consolidating World a
  /\ background World a' = background World a.
Proof.
  unfold consolidateMemory.
  destruct (Session.objs (sessions World a) !! p) as [sess|]; [|discriminate].
  repeat match goal with
         | |- context [if ?c then _ else _] => destruct c
         | |- context [match ?c with _ => _ end] => destruct c
         end; intros H; try discriminate; injection H as <-; split; reflexivity.
Qed.

Lemma processMessage_flags (fuel : nat) (clk : clock) (a a' : AgentLoop World)
  (msg : Bus.InboundMessage) (r : reply) :
  processMessage World Chat registry marshal maxIterations memoryWindow
    parseRFC3339 formatRFC3339 sessionPath BuildMessages setToolContext
    setOriginContext fuel clk a msg = Some (Ok (r, a')) ->
  sf a -> sf a'.
Proof.
  unfold processMessage, processSystemMessage. intros Hrun Hsf.
  destruct (String.eqb (Bus.Channel msg) "").
  all: repeat match type of Hrun with
         | context [if ?c then _ else _] => destruct c
         | context [match ?c with _ => _ end] => destruct c eqn:?
         end;
       try discriminate; injection Hrun as <- <-;
       try (eapply single_flight_ext; [| |exact Hsf]; reflexivity).
  all: apply ConsolidateIfNeeded_single_flight;
       eapply single_flight_ext; [| |exact Hsf]; reflexivity.
Qed.

(** X19. Consolidation is single-flight per session: if at most one
    consolidation goroutine is pending for each session and the
    sessions of the pending ones are flagged, this is still so after
    [ConsolidateIfNeeded], after any turn of [processMessage] that
    returns, and after any pending goroutine has run to its end, which
    takes that goroutine off the pending ones and clears the flag of
    its session. A new agent has none pending. *)
Theorem consolidation_single_flight (a : AgentLoop World) :
  Pending.single_flight World a ->
  (forall key p sess,
     Pending.single_flight World (ConsolidateIfNeeded World memoryWindow a key p sess))
  /\ (forall fuel clk msg r a',
        processMessage World Chat registry marshal maxIterations memoryWindow
          parseRFC3339 formatRFC3339 sessionPath BuildMessages setToolContext
          setOriginContext fuel clk a msg = Some (Ok (r, a')) ->
        Pending.single_flight World a')
  /\ (forall i c a',
        background World a !! i = Some c ->
        Pending.run_pending World Chat registry formatRFC3339 sessionPath readLongTerm a i
        = Ok a' ->
        Pending.single_flight World a'
        /\ background World a' = delete i (background World a)
        /\ consolidating World a' !! c_key c = None).
Proof.
  intros Hsf. split; [|split].
  - intros key p sess. apply ConsolidateIfNeeded_single_flight, Hsf.
  - intros fuel clk msg r a' Hrun. eapply processMessage_flags; eassumption.
  - intros i c a' Hc. unfold Pending.run_pending, run_consolidation. rewrite Hc.
    destruct (consolidate _ (c_key c) (c_session c) (c_keepCount c)) as [a1|m] eqn:Hcons;
      [|discriminate].
    simpl. intros [= <-]. cbn [background consolidating].
    destruct (consolidateMemory_flags _ _ _ _ _ Hcons) as [Hflags Hbg].
    cbn [background consolidating] in Hflags, Hbg. rewrite Hflags, Hbg.
    split; [|split; [reflexivity | apply lookup_delete_eq]].
    destruct Hsf as [Hnd Hflag].
    pose proof (take_drop_middle _ _ _ Hc) as Hsplit.
    assert (delete i (background World a)
            = take i (background World a) ++ drop (S i) (background World a)) as Hdel.
    { clear -Hc. revert i Hc. induction (background World a) as [|x l IH]; intros i Hc;
        [discriminate|].
      destruct i as [|i]; [simpl; rewrite drop_0; reflexivity|].
      simpl. f_equal. apply IH. exact Hc. }
    rewrite <- Hsplit in Hnd. rewrite map_app in Hnd. cbn [map] in Hnd.
    apply NoDup_app in Hnd as (Hnd1 & Hdisj & Hnd2).
    apply NoDup_cons in Hnd2 as [Hnotin Hnd2].
    split; cbn [background consolidating].
    + rewrite Hdel, map_app. apply NoDup_app. split; [exact Hnd1|]. split; [|exact Hnd2].
      intros k Hk Hk'. apply (Hdisj k Hk). apply elem_of_cons. right. exact Hk'.
    + intros c' Hin. rewrite Hdel in Hin.
      assert (c' ∈ background World a) as Hin'.
      { rewrite <- Hsplit. apply elem_of_app in Hin as [Hin|Hin];
          apply elem_of_app; [left; exact Hin | right; apply elem_of_cons; right; exact Hin]. }
      rewrite lookup_delete_ne; [apply Hflag, Hin'|].
      intros Heq. apply elem_of_app in Hin as [Hin|Hin].
      * apply (Hdisj (c_key c')); [apply list_elem_of_fmap; eauto|].
        rewrite <- Heq. apply elem_of_cons. left. reflexivity.
      * apply Hnotin. rewrite Heq. apply list_elem_of_fmap. eauto.
Qed.

End PendingProperties.

Section ConsolidationCursor.
Import Agent.
Variable World : Type.
Variable Chat : nat -> list Providers.Message -> Providers.chat_result.
Variable registry : Tools.ToolRegistry World.
Variable formatRFC3339 : Z -> string.
Variable sessionPath : string -> string -> string.
Variable readLongTerm : World -> string.

(** X20. Consolidation never deletes or alters messages, and the
    cursor only moves forward: when [consolidateMemory] returns, every
    session object is still there with the same key and the same
    messages, only the session it was given can differ from before,
    and the cursor of that session is not smaller than it was, and not
    beyond the number of messages unless it already was. *)
Theorem consolidateMemory_keeps_messages (a a' : AgentLoop World) (key : string)
  (p : nat) (keepCount : Z) :
  consolidateMemory World Chat registry formatRFC3339 sessionPath readLongTerm
    a key p keepCount = Ok a' ->
  length (Session.objs (sessions World a')) = length (Session.objs (sessions World a))
  /\ forall q s, Session.objs (sessions World a) !! q = Some s ->
       exists s',
         Session.objs (sessions World a') !! q = Some s'
         /\ Session.Key s' = Session.Key s
         /\ Session.Messages s' = Session.Messages s
         /\ (q <> p -> s' = s)
         /\ (Session.LastConsolidated s <= Session.LastConsolidated s')%Z
         /\ (Session.LastConsolidated s'
             <= Z.max (Session.LastConsolidated s)
                      (Z.of_nat (length (Session.Messages s))))%Z.
Proof.
  unfold consolidateMemory.
  destruct (Session.objs (sessions World a) !! p) as [sess|] eqn:Hobj; [|discriminate].
  set (total := Z.of_nat (length (Session.Messages sess))).
  set (lc := Session.LastConsolidated sess).
  set (e := if (total <? lc + keepCount)%Z then total else (lc + keepCount)%Z).
  assert (e <= total)%Z as He by (subst e; destruct (Z.ltb_spec total (lc + keepCount)); lia).
  assert (forall a0, a0 = a ->
            length (Session.objs (sessions World a0)) = length (Session.objs (sessions World a))
            /\ forall q s, Session.objs (sessions World a) !! q = Some s ->
                 exists s', Session.objs (sessions World a0) !! q = Some s'
                   /\ Session.Key s' = Session.Key s
                   /\ Session.Messages s' = Session.Messages s
                   /\ (q <> p -> s' = s)
                   /\ (Session.LastConsolidated s <= Session.LastConsolidated s')%Z
                   /\ (Session.LastConsolidated s'
                       <= Z.max (Session.LastConsolidated s)
                                (Z.of_nat (length (Session.Messages s))))%Z) as Hsame.
  { intros a0 ->. split; [reflexivity|]. intros q s Hq. exists s.
    repeat split; try assumption; try reflexivity; lia. }
  destruct (Z.leb_spec e lc) as [Hle|Hgt]; [intros [= <-]; apply Hsame; reflexivity|].
  destruct (lc <? 0)%Z; [discriminate|].
  destruct (take _ _) as [|m0 old]; [intros [= <-]; apply Hsame; reflexivity|].
  destruct (Chat 0%nat _) as [resp|err]; [|intros [= <-]; apply Hsame; reflexivity].
  intros [= <-]. cbn. split; [apply length_insert|].
  intros q s Hq. destruct (decide (q = p)) as [->|Hne].
  - rewrite Hobj in Hq. injection Hq as <-.
    eexists. split; [apply list_lookup_insert_eq; eapply lookup_lt_Some, Hobj|].
    cbn. fold lc total. repeat split; try reflexivity; try lia.
  - exists s. split; [rewrite list_lookup_insert_ne by congruence; exact Hq|].
    repeat split; try reflexivity; lia.
Qed.

End ConsolidationCursor.

Lemma consolidation_single_flight_witness :
  let Chat := fun (_ : nat) (_ : list Providers.Message) =>
    Providers.ChatOk (Providers.mkResponse "ok" []) in
  let registry : Tools.ToolRegistry unit := Tools.NewToolRegistry in
  let path := fun d k : string => d +:+ "/" +:+ k +:+ ".jsonl" in
  let build := fun (h : list Session.Message) (c ch id : string) (_ : list string) =>
    [Agent.mkCtx "user" c [] [] "" ""] in
  let m := Session.mkMessage "user" "hi" "t" [] "" "" in
  let sess := Session.mkSession "cli:direct" [m; m; m] 1 2 [] 0 in
  let a := Agent.mkAgent unit
             (Session.mkManager "sessions" [sess] {[ "cli:direct" := 0%nat ]} 1000
                ["cli:direct"] ∅) tt ∅ "" "" [] in
  let a1 := Agent.ConsolidateIfNeeded unit 4 a "cli:direct" 0 sess in
  let a2 := Agent.ConsolidateIfNeeded unit 4 a1 "cli:direct" 0 sess in
  Agent.background unit a1 = [Agent.mkConsolidation "cli:direct" 0 2]
  /\ a2 = a1
  /\ Pending.single_flight unit a2.
Proof.
  intros Chat registry path build m sess a a1 a2.
  assert (Pending.single_flight unit a) as Hsf.
  { split; [apply NoDup_nil_2|]. intros c Hc. inversion Hc. }
  destruct (consolidation_single_flight unit Chat registry (fun _ => "{}") 5 4
              (fun _ => 0%Z) (fun _ => "t") path build (fun _ _ w => w) (fun _ _ w => w)
              (fun _ => "") a Hsf) as (Hlaunch & _ & _).
  destruct (consolidation_single_flight unit Chat registry (fun _ => "{}") 5 4
              (fun _ => 0%Z) (fun _ => "t") path build (fun _ _ w => w) (fun _ _ w => w)
              (fun _ => "") a1 (Hlaunch "cli:direct" 0%nat sess)) as (Hagain & _ & _).
  split; [reflexivity|]. split; [reflexivity|].
  exact (Hagain "cli:direct" 0%nat sess).
Defined.

Lemma consolidateMemory_keeps_messages_witness :
  let Chat := fun (_ : nat) (_ : list Providers.Message) =>
    Providers.ChatOk (Providers.mkResponse "nothing to save" []) in
  let registry : Tools.ToolRegistry unit := Tools.NewToolRegistry in
  let path := fun d k : string => d +:+ "/" +:+ k +:+ ".jsonl" in
  let m := Session.mkMessage "user" "hi" "t" [] "" "" in
  let sess := Session.mkSession "cli:direct" [m; m; m] 1 2 [] 0 in
  let a := Agent.mkAgent unit
             (Session.mkManager "sessions" [sess] {[ "cli:direct" := 0%nat ]} 1000
                ["cli:direct"] ∅) tt ∅ "" "" [] in
  exists a' sess',
    Agent.consolidateMemory unit Chat registry (fun _ => "t") path (fun _ => "")
      a "cli:direct" 0 2 = Ok a'
    /\ Session.objs (Agent.sessions unit a') !! 0%nat = Some sess'
    /\ Session.Messages sess' = [m; m; m]
    /\ Session.LastConsolidated sess' = 2%Z.
Proof.
  intros Chat registry path m sess a.
  destruct (Agent.consolidateMemory unit Chat registry (fun _ => "t") path (fun _ => "")
              a "cli:direct" 0 2) as [a'|msg] eqn:Hrun; [|vm_compute in Hrun; discriminate].
  destruct (consolidateMemory_keeps_messages unit Chat registry (fun _ => "t") path
              (fun _ => "") a a' "cli:direct" 0 2 Hrun) as [_ Hall].
  destruct (Hall 0%nat sess eq_refl) as (sess' & Hobj & _ & Hmsgs & _).
  exists a', sess'. split; [reflexivity|]. split; [exact Hobj|]. split; [exact Hmsgs|].
  vm_compute in Hrun. injection Hrun as <-. vm_compute in Hobj. injection Hobj as <-.
  reflexivity.
Defined.

(** ** Jobs that trigger the agent *)

Section CronAgentProperties.
Import Agent.
Variable World : Type.
Variable Chat : nat -> list Providers.Message -> Providers.chat_result.
Variable registry : Tools.ToolRegistry World.
Variable marshal : Tools.Params -> string.
Variable maxIterations : Z.
Variable memoryWindow : Z.
Variable parseRFC3339 : string -> Z.
Variable formatRFC3339 : Z -> string.
Variable sessionPath : string -> string -> string.
Variable BuildMessages :
  list Session.Message -> string -> string -> string -> list string -> list CtxMessage.
Variable setToolContext : string -> string -> World -> World.
Variable setOriginContext : string -> string -> World -> World.

Local Abbreviation direct :=
  (Pending.ProcessDirect World Chat registry marshal maxIterations memoryWindow
     parseRFC3339 formatRFC3339 sessionPath BuildMessages setToolContext setOriginContext).
Local Abbreviation process :=
  (processMessage World Chat registry marshal maxIterations memoryWindow
     parseRFC3339 formatRFC3339 sessionPath BuildMessages setToolContext setOriginContext).

Lemma processMessage_after_SetToolContext (fuel : nat) (clk : clock)
  (a : AgentLoop World) (msg : Bus.InboundMessage) (channel chatID : string) :
  (forall c1 i1 c2 i2 w,
     setToolContext c2 i2 (setToolContext c1 i1 w) = setToolContext c2 i2 w) ->
  Bus.Channel msg <> "system" ->
  process fuel clk (SetToolContext World setToolContext a channel chatID) msg
  = process fuel clk a msg.
Proof.
  intros Hset Hsys. unfold processMessage.
  destruct (String.eqb_spec (Bus.Channel msg) "system") as [|_]; [contradiction|].
  cbn [sessions SetToolContext].
  destruct (Session.GetOrCreate _ _ _ _ _ _) as [[[p sm1]|m]|]; [|reflexivity..].
  unfold SetToolContext, with_sessions. cbn [sessions world consolidating currentChannel
    currentChatID background]. rewrite Hset. reflexivity.
Qed.

Lemma ConsolidateIfNeeded_context (a : AgentLoop World) key p sess :
  currentChannel World (ConsolidateIfNeeded World memoryWindow a key p sess)
  = currentChannel World a
  /\ currentChatID World (ConsolidateIfNeeded World memoryWindow a key p sess)
     = currentChatID World a.
Proof.
  unfold ConsolidateIfNeeded.
  repeat match goal with
         | |- context [if ?c then _ else _] => destruct c
         | |- context [match ?c with _ => _ end] => destruct c
         end; split; reflexivity.
Qed.

Lemma processMessage_context (fuel : nat) (clk : clock) (a a' : AgentLoop World)
  (msg : Bus.InboundMessage) (r : reply) :
  Bus.Channel msg <> "system" ->
  process fuel clk a msg = Some (Ok (r, a')) ->
  currentChannel World a' = Bus.Channel msg /\ currentChatID World a' = Bus.ChatID msg.
Proof.
  intros Hsys. unfold processMessage.
  destruct (String.eqb_spec (Bus.Channel msg) "system") as [|_]; [contradiction|].
  destruct (Session.GetOrCreate _ _ _ _ _ _) as [[[p sm1]|m]|]; [|discriminate..].
  destruct (String.eqb (Bus.Content msg) "/new"); [intros [= <- <-]; split; reflexivity|].
  destruct (String.eqb (Bus.Content msg) "/help"); [intros [= <- <-]; split; reflexivity|].
  destruct (Session.objs sm1 !! p) as [sess|]; [|discriminate].
  destruct (GetHistory memoryWindow sess) as [history|m]; [|discriminate].
  destruct (runAgentLoop _ _ _ _ _ _ _) as [[err|final] w2];
    [intros [= <- <-]; split; reflexivity|].
  intros [= <- <-].
  match goal with
  | |- context [ConsolidateIfNeeded World memoryWindow ?x ?k ?q ?s] =>
      destruct (ConsolidateIfNeeded_context x k q s) as [-> ->]
  end.
  split; reflexivity.
Qed.

(** X21. The tool context that [executeAgentJob] sets from the job
    does not reach the agent's run: with tools whose [SetContext]
    replaces the previous context, [ProcessDirect] after
    [SetToolContext(channel, chatID)] gives the same result and leaves
    the agent in the same state as [ProcessDirect] alone, for which
    [processMessage] sets the context to "cli" and "direct" before
    anything runs. *)
Theorem ProcessDirect_replaces_tool_context (fuel : nat) (clk : clock)
  (a : AgentLoop World) (content channel chatID : string) :
  (forall c1 i1 c2 i2 w,
     setToolContext c2 i2 (setToolContext c1 i1 w) = setToolContext c2 i2 w) ->
  direct fuel clk (SetToolContext World setToolContext a channel chatID) content
  = direct fuel clk a content
  /\ forall r a',
       direct fuel clk a content = Some (Ok (r, a')) ->
       currentChannel World a' = "cli" /\ currentChatID World a' = "direct".
Proof.
  intros Hset. split.
  - unfold Pending.ProcessDirect.
    rewrite processMessage_after_SetToolContext; [reflexivity | exact Hset | discriminate].
  - unfold Pending.ProcessDirect. intros r a' Hrun.
    match type of Hrun with
    | context [match ?x with _ => _ end] =>
        destruct x as [[[[out|err] a1]|m]|] eqn:Hp
    end; cbn in Hrun; try discriminate; injection Hrun as <- <-;
      (eapply processMessage_context in Hp; [exact Hp | discriminate]).
Qed.

Local Abbreviation execute :=
  (Pending.executeAgentJob World Chat registry marshal maxIterations memoryWindow
     parseRFC3339 formatRFC3339 sessionPath BuildMessages setToolContext setOriginContext).

(** X22. A job that triggers the agent reports to the chat of the job:
    when the executor and the bus are set, the job names a channel
    and a chat, and the outbound queue has room, [executeAgentJob]
    runs [ProcessDirect] on the command of the job and queues exactly
    one outbound message, addressed to the channel and chat of the
    job and marked [from_cron], whose content is the reply of the
    agent, or the failure text with the error when the agent returned
    an error. A job without channel or chat does not run the agent
    and queues nothing. *)
Theorem executeAgentJob_reports (pick : bool) (fuel : nat) (clk : clock)
  (a : AgentLoop World) (b : Bus.MessageBus) (job : Cron.Job) :
  (Cron.Channel job = "" \/ Cron.To job = "" ->
   execute pick fuel clk (Some a) (Some b) job = Some (Ok (Some a, Some b)))
  /\ (Cron.Channel job <> "" -> Cron.To job <> "" -> Pending.outbound_room b ->
      forall response err a2,
        direct fuel clk
          (SetToolContext World setToolContext a (Cron.Channel job) (Cron.To job))
          (Cron.AgentCommand job) = Some (Ok ((response, err), a2)) ->
        exists b',
          execute pick fuel clk (Some a) (Some b) job = Some (Ok (Some a2, Some b'))
          /\ Bus.cbuf (Bus.outbound b')
             = Bus.cbuf (Bus.outbound b)
               ++ [Bus.mkOutbound (Cron.Channel job) (Cron.To job)
                     (match err with
                      | Some e => "❌ 任务执行失败: " +:+ e
                      | None => response
                      end) [] [("from_cron", JBool true)]]
          /\ Bus.inbound b' = Bus.inbound b).
Proof.
  split.
  - intros Hempty. unfold Pending.executeAgentJob.
    destruct (String.eqb_spec (Cron.Channel job) "") as [|Hc]; [reflexivity|].
    destruct (String.eqb_spec (Cron.To job) "") as [|Ht]; [reflexivity|].
    destruct Hempty; contradiction.
  - intros Hc Ht (Hopen & Hlive & Hroom) response err a2 Hrun.
    unfold Pending.executeAgentJob.
    destruct (String.eqb_spec (Cron.Channel job) "") as [|_]; [contradiction|].
    destruct (String.eqb_spec (Cron.To job) "") as [|_]; [contradiction|].
    rewrite Hrun. unfold Pending.sendResult.
    destruct (String.eqb_spec (Cron.Channel job) "") as [|_]; [contradiction|].
    destruct (String.eqb_spec (Cron.To job) "") as [|_]; [contradiction|].
    unfold Bus.PublishOutbound, Bus.select_publish, Bus.send_ready, Bus.send.
    rewrite Hopen, Hlive. apply Nat.ltb_lt in Hroom. rewrite Hroom. cbn.
    eexists. split; [reflexivity|]. split; reflexivity.
Qed.

End CronAgentProperties.

Lemma ProcessDirect_replaces_tool_context_witness :
  let Chat := fun (_ : nat) (_ : list Providers.Message) =>
    Providers.ChatOk (Providers.mkResponse "" [Providers.mkToolCallRequest "c1" "where" []]) in
  let registry : Tools.ToolRegistry (string * string) :=
    Tools.Register Tools.NewToolRegistry
      (Tools.mkTool "where" (fun _ => []) (fun _ w => ((w.1 +:+ ":" +:+ w.2, None), w))) in
  let path := fun d k : string => d +:+ "/" +:+ k +:+ ".jsonl" in
  let build := fun (h : list Session.Message) (c ch id : string) (_ : list string) =>
    [Agent.mkCtx "user" c [] [] "" ""] in
  let set := fun (c i : string) (_ : string * string) => (c, i) in
  let a := Agent.mkAgent (string * string) (Session.mkManager "sessions" [] ∅ 1000 [] ∅)
             ("", "") ∅ "" "" [] in
  let run := Pending.ProcessDirect (string * string) Chat registry (fun _ => "{}") 1 50
               (fun _ => 0%Z) (fun _ => "t") path build set set 1 (Agent.mkClock 10 20 30) in
  run (Agent.SetToolContext (string * string) set a "telegram" "42") "where am I"
  = run a "where am I"
  /\ exists r a',
       run a "where am I" = Some (Ok (r, a'))
       /\ Agent.world (string * string) a' = ("cli", "direct")
       /\ Agent.currentChannel (string * string) a' = "cli".
Proof.
  intros Chat registry path build set a run.
  destruct (ProcessDirect_replaces_tool_context (string * string) Chat registry
              (fun _ => "{}") 1 50 (fun _ => 0%Z) (fun _ => "t") path build set set
              1 (Agent.mkClock 10 20 30) a "where am I" "telegram" "42")
    as [Hsame Hctx].
  - reflexivity.
  - split; [exact Hsame|].
    destruct (run a "where am I") as [[[r a']|m]|] eqn:Hrun;
      [|vm_compute in Hrun; discriminate..].
    exists r, a'. split; [reflexivity|].
    split; [vm_compute in Hrun; injection Hrun as <- <-; reflexivity|].
    exact (proj1 (Hctx r a' Hrun)).
Defined.

Lemma executeAgentJob_reports_witness :
  let Chat := fun (_ : nat) (_ : list Providers.Message) =>
    Providers.ChatOk (Providers.mkResponse "Good morning" []) in
  let registry : Tools.ToolRegistry unit := Tools.NewToolRegistry in
  let path := fun d k : string => d +:+ "/" +:+ k +:+ ".jsonl" in
  let build := fun (h : list Session.Message) (c ch id : string) (_ : list string) =>
    [Agent.mkCtx "user" c [] [] "" ""] in
  let a := Agent.mkAgent unit (Session.mkManager "sessions" [] ∅ 1000 [] ∅) tt ∅ "" "" [] in
  let b := Bus.mkBus (Bus.mkChan [] 4 false) (Bus.mkChan [] 4 false) false in
  let job := Cron.mkJob "job_1" "greet" "" (Cron.mkSchedule "every" 60000 "" "" 0)
               "telegram" "42" true false (Cron.mkTime 0 "Local") (Cron.mkTime 0 "Local")
               true "say good morning" in
  exists a2 b',
    Pending.executeAgentJob unit Chat registry (fun _ => "{}") 5 50 (fun _ => 0%Z)
      (fun _ => "t") path build (fun _ _ w => w) (fun _ _ w => w) true 1
      (Agent.mkClock 10 20 30) (Some a) (Some b) job = Some (Ok (Some a2, Some b'))
    /\ Bus.cbuf (Bus.outbound b')
       = [Bus.mkOutbound "telegram" "42" "Good morning" [] [("from_cron", JBool true)]].
Proof.
  intros Chat registry path build a b job.
  destruct (executeAgentJob_reports unit Chat registry (fun _ => "{}") 5 50 (fun _ => 0%Z)
              (fun _ => "t") path build (fun _ _ w => w) (fun _ _ w => w) true 1
              (Agent.mkClock 10 20 30) a b job) as [_ Hreport].
  destruct (Pending.ProcessDirect unit Chat registry (fun _ => "{}") 5 50 (fun _ => 0%Z)
              (fun _ => "t") path build (fun _ _ w => w) (fun _ _ w => w) 1
              (Agent.mkClock 10 20 30)
              (Agent.SetToolContext unit (fun _ _ w => w) a "telegram" "42")
              "say good morning") as [[[[response err] a2]|m]|] eqn:Hrun;
    [|vm_compute in Hrun; discriminate..].
  destruct (Hreport ltac:(discriminate) ltac:(discriminate)
              ltac:(split; [reflexivity | split; [reflexivity | simpl; lia]])
              response err a2 Hrun) as (b' & Hexec & Hbuf & _).
  exists a2, b'. split; [exact Hexec|]. rewrite Hbuf.
  vm_compute in Hrun. injection Hrun as <- <- <-. reflexivity.
Defined.

(** ** Serving the bus *)

Section ServeProperties.
Import Agent.
Variable World : Type.
Variable Chat : nat -> list Providers.Message -> Providers.chat_result.
Variable registry : Tools.ToolRegistry World.
Variable marshal : Tools.Params -> string.
Variable maxIterations : Z.
Variable memoryWindow : Z.
Variable parseRFC3339 : string -> Z.
Variable formatRFC3339 : Z -> string.
Variable sessionPath : string -> string -> string.
Variable BuildMessages :
  list Session.Message -> string -> string -> string -> list string -> list CtxMessage.
Variable setToolContext : string -> string -> World -> World.
Variable setOriginContext : string -> string -> World -> World.

Local Abbreviation process :=
  (processMessage World Chat registry marshal maxIterations memoryWindow
     parseRFC3339 formatRFC3339 sessionPath BuildMessages setToolContext setOriginContext).
Local Abbreviation serve :=
  (Serve.serve_one World Chat registry marshal maxIterations memoryWindow
     parseRFC3339 formatRFC3339 sessionPath BuildMessages setToolContext setOriginContext).

Lemma fallback_nonempty (final fallback : string) :
  fallback <> "" -> (if String.eqb final "" then fallback else final) <> "".
Proof. intros H. destruct (String.eqb_spec final ""); assumption. Qed.

(** A reply of [processMessage] is never empty, and a reply to a
    message that is not a system message goes to its channel and
    chat. *)
Lemma processMessage_reply (fuel : nat) (clk : clock) (a a' : AgentLoop World)
  (msg : Bus.InboundMessage) (out : Bus.OutboundMessage) :
  process fuel clk a msg = Some (Ok (Reply out, a')) ->
  Bus.OContent out <> ""
  /\ (Bus.Channel msg <> "system" ->
      Bus.OChannel out = Bus.Channel msg /\ Bus.OChatID out = Bus.ChatID msg).
Proof.
  unfold processMessage.
  destruct (String.eqb_spec (Bus.Channel msg) "system") as [Hsys|Hsys].
  - unfold processSystemMessage.
    destruct (match split_colon (Bus.ChatID msg) with
              | Some (ch, id) => (ch, id)
              | None => ("cli", Bus.ChatID msg)
              end) as [originChannel originChatID].
    destruct (Session.GetOrCreate _ _ _ _ _ _) as [[[p sm1]|m]|]; [|discriminate..].
    destruct (Session.objs sm1 !! p) as [sess|]; [|discriminate].
    destruct (GetHistory memoryWindow sess) as [history|m]; [|discriminate].
    destruct (iterate _ _ _ _ _ _ _ _ _) as [[[err|final] msgs] w2]; [discriminate|].
    intros [= <- <-]. cbn. split; [apply fallback_nonempty; discriminate | contradiction].
  - destruct (Session.GetOrCreate _ _ _ _ _ _) as [[[p sm1]|m]|]; [|discriminate..].
    destruct (String.eqb (Bus.Content msg) "/new");
      [intros [= <- <-]; cbn; split; [discriminate | auto]|].
    destruct (String.eqb (Bus.Content msg) "/help");
      [intros [= <- <-]; cbn; split; [discriminate | auto]|].
    destruct (Session.objs sm1 !! p) as [sess|]; [|discriminate].
    destruct (GetHistory memoryWindow sess) as [history|m]; [|discriminate].
    destruct (runAgentLoop _ _ _ _ _ _ _) as [[err|final] w2]; [discriminate|].
    intros [= <- <-]. cbn. split; [apply fallback_nonempty; discriminate | auto].
Qed.

(** X23. Each inbound message is answered exactly once: while the bus
    is open with room in the outbound queue, a turn of the serving
    loop whose [processMessage] returns takes the oldest inbound
    message off the queue and appends exactly one outbound message,
    which is never empty. For a message that is not a system message
    it is addressed to the channel and chat of that message, and when
    the LLM failed it is the text "Error: " followed by the error,
    with the metadata of the message. *)
Theorem serve_answers_once (pick : bool) (fuel : nat) (clk : clock)
  (a a' : AgentLoop World) (b : Bus.MessageBus) (msg : Bus.InboundMessage)
  (rest : list Bus.InboundMessage) (r : reply) :
  Bus.cbuf (Bus.inbound b) = msg :: rest ->
  Pending.outbound_room b ->
  process fuel clk a msg = Some (Ok (r, a')) ->
  exists b' out,
    serve pick fuel clk a b = Some (Ok (a', b'))
    /\ Bus.cbuf (Bus.inbound b') = rest
    /\ Bus.cbuf (Bus.outbound b') = Bus.cbuf (Bus.outbound b) ++ [out]
    /\ Bus.OContent out <> ""
    /\ (Bus.Channel msg <> "system" ->
        Bus.OChannel out = Bus.Channel msg /\ Bus.OChatID out = Bus.ChatID msg)
    /\ (forall err, r = Failed err ->
        out = Bus.mkOutbound (Bus.Channel msg) (Bus.ChatID msg) ("Error: " +:+ err) []
                (Bus.Metadata msg)).
Proof.
  intros Hin (Hopen & Hlive & Hroom) Hrun.
  unfold Serve.serve_one, Consumer.ConsumeInbound, Consumer.select_consume, Consumer.receive.
  rewrite Hin, Hrun.
  assert (Bus.OContent (Serve.response_of msg r) <> ""
          /\ (Bus.Channel msg <> "system" ->
              Bus.OChannel (Serve.response_of msg r) = Bus.Channel msg
              /\ Bus.OChatID (Serve.response_of msg r) = Bus.ChatID msg)) as [Hne Haddr].
  { destruct r as [out|err]; cbn.
    - eapply processMessage_reply, Hrun.
    - split; [discriminate | auto]. }
  destruct (String.eqb_spec (Bus.OContent (Serve.response_of msg r)) "") as [|_];
    [contradiction|].
  unfold Bus.PublishOutbound, Bus.select_publish, Bus.send_ready, Bus.send.
  cbn [Bus.outbound Bus.done Bus.inbound]. rewrite Hopen, Hlive.
  apply Nat.ltb_lt in Hroom. rewrite Hroom. cbn.
  eexists _, (Serve.response_of msg r). split; [reflexivity|].
  split; [reflexivity|]. split; [reflexivity|]. split; [exact Hne|].
  split; [exact Haddr|]. intros err ->. reflexivity.
Qed.

End ServeProperties.

Lemma serve_answers_once_witness :
  let Chat := fun (_ : nat) (_ : list Providers.Message) =>
    Providers.ChatErr "rate limited" in
  let registry : Tools.ToolRegistry unit := Tools.NewToolRegistry in
  let path := fun d k : string => d +:+ "/" +:+ k +:+ ".jsonl" in
  let build := fun (h : list Session.Message) (c ch id : string) (_ : list string) =>
    [Agent.mkCtx "user" c [] [] "" ""] in
  let a := Agent.mkAgent unit (Session.mkManager "sessions" [] ∅ 1000 [] ∅) tt ∅ "" "" [] in
  let msg := Bus.mkMessage "1" "telegram" "alice" "42" "hello" [] [("lang", JStr "en")] 0 "" in
  let b := Bus.mkBus (Bus.mkChan [msg] 4 false) (Bus.mkChan [] 4 false) false in
  exists a' b',
    Serve.serve_one unit Chat registry (fun _ => "{}") 5 50 (fun _ => 0%Z) (fun _ => "t")
      path build (fun _ _ w => w) (fun _ _ w => w) true 1 (Agent.mkClock 10 20 30) a b
    = Some (Ok (a', b'))
    /\ Bus.cbuf (Bus.inbound b') = []
    /\ Bus.cbuf (Bus.outbound b')
       = [Bus.mkOutbound "telegram" "42" "Error: rate limited" [] [("lang", JStr "en")]].
Proof.
  intros Chat registry path build a msg b.
  destruct (Agent.processMessage unit Chat registry (fun _ => "{}") 5 50 (fun _ => 0%Z)
              (fun _ => "t") path build (fun _ _ w => w) (fun _ _ w => w) 1
              (Agent.mkClock 10 20 30) a msg) as [[[r a']|m]|] eqn:Hrun;
    [|vm_compute in Hrun; discriminate..].
  destruct (serve_answers_once unit Chat registry (fun _ => "{}") 5 50 (fun _ => 0%Z)
              (fun _ => "t") path build (fun _ _ w => w) (fun _ _ w => w) true 1
              (Agent.mkClock 10 20 30) a a' b msg [] r eq_refl
              ltac:(split; [reflexivity | split; [reflexivity | simpl; lia]]) Hrun)
    as (b' & out & Hserve & Hin & Hout & _ & _ & Herr).
  exists a', b'. split; [exact Hserve|]. split; [exact Hin|]. rewrite Hout.
  vm_compute in Hrun. injection Hrun as <- <-.
  rewrite (Herr "rate limited" eq_refl). reflexivity.
Defined.

(** ** Task ids of subagents *)

Lemma hex_loop_unfold (f : nat) (n : Z) (acc : string) :
  TaskID.hex_loop (S f) n acc
  = if (n <? 16)%Z then String (TaskID.hex_digit (n mod 16)) acc
    else TaskID.hex_loop f (n / 16) (String (TaskID.hex_digit (n mod 16)) acc).
Proof. reflexivity. Qed.

Lemma hex_loop_split (k : nat) : forall (f : nat) (hi lo : Z) (acc : string),
  (0 < hi)%Z -> (0 <= lo < 16 ^ Z.of_nat k)%Z ->
  TaskID.hex_loop (k + f) (hi * 16 ^ Z.of_nat k + lo) acc
  = TaskID.hex_loop f hi (TaskID.low_digits k lo acc).
Proof.
  induction k as [|k IH]; intros f hi lo acc Hhi Hlo.
  - change (16 ^ Z.of_nat 0)%Z with 1%Z in *. cbn [Nat.add TaskID.low_digits].
    replace (hi * 1 + lo)%Z with hi by lia. reflexivity.
  - rewrite Nat2Z.inj_succ, Z.pow_succ_r in * by lia.
    assert (0 < 16 ^ Z.of_nat k)%Z as HP by (apply Z.pow_pos_nonneg; lia).
    remember (16 ^ Z.of_nat k)%Z as P eqn:EP.
    remember (hi * P)%Z as Q eqn:EQ.
    assert (P <= Q)%Z as HQ by (subst Q; nia).
    assert (hi * (16 * P) + lo = 16 * Q + lo)%Z as -> by (subst Q; lia).
    cbn [Nat.add TaskID.low_digits]. rewrite hex_loop_unfold.
    assert ((16 * Q + lo <? 16)%Z = false) as -> by (apply Z.ltb_ge; lia).
    assert ((16 * Q + lo) mod 16 = lo mod 16)%Z as -> by lia.
    assert ((16 * Q + lo) / 16 = Q + lo / 16)%Z as -> by lia.
    subst Q P. apply IH; [exact Hhi | lia].
Qed.

Lemma hex_loop_app (f : nat) : forall (n : Z) (acc : string),
  TaskID.hex_loop f n acc = TaskID.hex_loop f n EmptyString +:+ acc.
Proof.
  induction f as [|f IH]; intros n acc; [reflexivity|].
  rewrite !hex_loop_unfold. destruct (n <? 16)%Z; [reflexivity|].
  rewrite IH. rewrite (IH _ (String _ EmptyString)).
  rewrite string_app_assoc. reflexivity.
Qed.

Lemma hex_loop_length (j : nat) : forall (f : nat) (n : Z) (acc : string),
  (j <= f)%nat -> (16 ^ Z.of_nat j <= n < 16 ^ Z.of_nat (S j))%Z ->
  String.length (TaskID.hex_loop (S f) n acc) = (S j + String.length acc)%nat.
Proof.
  induction j as [|j IH]; intros f n acc Hf Hn.
  - change (16 ^ Z.of_nat 0)%Z with 1%Z in Hn. change (16 ^ Z.of_nat 1)%Z with 16%Z in Hn.
    rewrite hex_loop_unfold. assert ((n <? 16)%Z = true) as -> by (apply Z.ltb_lt; lia).
    reflexivity.
  - rewrite !Nat2Z.inj_succ in Hn. rewrite !Z.pow_succ_r in Hn by lia.
    rewrite Nat2Z.inj_succ, Z.pow_succ_r in IH by lia.
    assert (0 < 16 ^ Z.of_nat j)%Z as HP by (apply Z.pow_pos_nonneg; lia).
    remember (16 ^ Z.of_nat j)%Z as P eqn:EP.
    destruct f as [|f]; [lia|].
    rewrite hex_loop_unfold. assert ((n <? 16)%Z = false) as -> by (apply Z.ltb_ge; lia).
    rewrite IH; [simpl; lia | lia | lia].
Qed.

Lemma low_digits_app (k : nat) : forall (lo : Z) (acc : string),
  TaskID.low_digits k lo acc = TaskID.low_digits k lo EmptyString +:+ acc.
Proof.
  induction k as [|k IH]; intros lo acc; [reflexivity|].
  cbn [TaskID.low_digits]. rewrite IH. rewrite (IH _ (String _ EmptyString)).
  rewrite string_app_assoc. reflexivity.
Qed.

Lemma substring_app_prefix (a b : string) :
  String.substring 0 (String.length a) (a +:+ b) = a.
Proof.
  induction a as [|c a IH]; [destruct b; reflexivity|].
  change (String c a +:+ b) with (String c (a +:+ b)). simpl. rewrite IH. reflexivity.
Qed.

(** The task id is made of the digits of the clock reading above the
    low 32 bits. *)
Lemma generateTaskID_high (t : Z) :
  (2 ^ 60 <= t < 2 ^ 64)%Z ->
  TaskID.generateTaskID t = TaskID.hex_loop 8 (t / 2 ^ 32) EmptyString.
Proof.
  intros Ht. unfold TaskID.generateTaskID, TaskID.sprintf_x.
  assert (t = (t / 2 ^ 32) * 16 ^ Z.of_nat 8 + t mod 2 ^ 32)%Z as Hsplit.
  { change (16 ^ Z.of_nat 8)%Z with (2 ^ 32)%Z. lia. }
  rewrite Hsplit at 1. change 16%nat with (8 + 8)%nat.
  rewrite (hex_loop_split 8 8 (t / 2 ^ 32) (t mod 2 ^ 32) EmptyString);
    [|lia | change (16 ^ Z.of_nat 8)%Z with (2 ^ 32)%Z; lia].
  rewrite hex_loop_app.
  assert (String.length (TaskID.hex_loop 8 (t / 2 ^ 32) EmptyString) = 8%nat) as Hlen.
  { rewrite (hex_loop_length 7 7 (t / 2 ^ 32) EmptyString); [reflexivity | lia |].
    change (16 ^ Z.of_nat 7)%Z with (2 ^ 28)%Z.
    change (16 ^ Z.of_nat 8)%Z with (2 ^ 32)%Z. lia. }
  rewrite <- Hlen at 1. apply substring_app_prefix.
Qed.

(** X24. Task ids are clock readings cut to 2^32 nanoseconds: for
    readings of the clock from 2^60 on (any date since 2006), the id
    that [generateTaskID] forms depends only on the reading divided by
    2^32, so two calls of [Spawn] within the same window of about 4.3
    seconds get the same id. The second then replaces the first in the
    table of running tasks: the count of running tasks does not grow
    and the id designates the second task only. *)
Theorem task_ids_collide (World : Type) (t1 t2 : Z)
  (s : Subagent.SubagentManager World)
  (task1 label1 channel1 chat1 task2 label2 channel2 chat2 : string) :
  (2 ^ 60 <= t1 < 2 ^ 63)%Z ->
  (2 ^ 60 <= t2 < 2 ^ 63)%Z ->
  (t1 / 2 ^ 32 = t2 / 2 ^ 32)%Z ->
  let r1 := Subagent.Spawn World TaskID.generateTaskID t1 s task1 label1 channel1 chat1 in
  let r2 := Subagent.Spawn World TaskID.generateTaskID t2 r1.2 task2 label2 channel2 chat2 in
  TaskID.generateTaskID t1 = TaskID.generateTaskID t2
  /\ Subagent.g_taskID r1.1.2 = Subagent.g_taskID r2.1.2
  /\ Subagent.runningTasks World r2.2
     = <[TaskID.generateTaskID t1 :=
           Subagent.mkTask (TaskID.generateTaskID t1) (Subagent.display_label task2 label2)
             task2 channel2 chat2]> (Subagent.runningTasks World s)
  /\ Subagent.GetRunningCount World r2.2 = Subagent.GetRunningCount World r1.2.
Proof.
  intros H1 H2 Hwin r1 r2.
  assert (TaskID.generateTaskID t1 = TaskID.generateTaskID t2) as Hid.
  { rewrite !generateTaskID_high by lia. rewrite Hwin. reflexivity. }
  split; [exact Hid|]. split; [exact Hid|].
  unfold r2, r1, Subagent.Spawn, Subagent.GetRunningCount.
  cbn [fst snd Subagent.runningTasks]. rewrite <- Hid.
  rewrite insert_insert_eq. split; [reflexivity|].
  f_equal. rewrite !map_size_insert. reflexivity.
Qed.

Lemma task_ids_collide_witness :
  let s := Subagent.mkManager unit ∅
             (Bus.mkBus (Bus.mkChan [] 4 false) (Bus.mkChan [] 4 false) false) tt [] in
  let r1 := Subagent.Spawn unit TaskID.generateTaskID 1790000000000000000 s
              "count the files" "" "telegram" "42" in
  let r2 := Subagent.Spawn unit TaskID.generateTaskID 1790000000000001000 r1.2
              "fetch the news" "" "telegram" "42" in
  Subagent.g_taskID r1.1.2 = "18d75b84"
  /\ Subagent.g_taskID r2.1.2 = "18d75b84"
  /\ Subagent.GetRunningCount unit r2.2 = 1%Z
  /\ Subagent.runningTasks unit r2.2 !! "18d75b84"
     = Some (Subagent.mkTask "18d75b84" "fetch the news" "fetch the news" "telegram" "42").
Proof.
  intros s r1 r2.
  destruct (task_ids_collide unit 1790000000000000000 1790000000000001000 s
              "count the files" "" "telegram" "42" "fetch the news" "" "telegram" "42")
    as (_ & Hsame & Htasks & Hcount).
  - lia.
  - lia.
  - reflexivity.
  - subst r1 r2. cbv zeta in Hsame, Htasks, Hcount.
    match goal with
    | |- ?x = _ /\ _ => assert (x = "18d75b84") as Hid by (vm_compute; reflexivity)
    end.
    split; [exact Hid|]. split; [rewrite <- Hsame; exact Hid|].
    split; [rewrite Hcount; vm_compute; reflexivity|].
    rewrite Htasks. vm_compute. reflexivity.
Defined.

(** ** From the spawn tool back to the chat *)

(** X25. A subagent started through the spawn tool reports to the
    chat in which the tool was called: with a non-empty task,
    [Execute] starts one goroutine whose origin is the context of the
    tool ("cli" and "direct" standing in for an empty channel or
    chat); when that goroutine ends while the inbound queue is open
    with room it queues one system message, and, the channel name
    holding no colon, every reply that [processMessage] gives to that
    message is addressed to that channel and chat. Without a task
    nothing is started. *)
Theorem spawn_reports_to_caller
  (WorldS : Type) (ChatS : nat -> list Providers.Message -> Providers.chat_result)
  (registryS : Tools.ToolRegistry WorldS) (marshal : Tools.Params -> string)
  (maxIterationsS : Z) (buildSubagentPrompt : string -> string)
  (generateTaskID : Z -> string)
  (now : Z) (tool : SpawnTool.t) (params : Tools.Params)
  (s : Subagent.SubagentManager WorldS) :
  let originChannel := if String.eqb (SpawnTool.channel tool) "" then "cli"
                       else SpawnTool.channel tool in
  let originChatID := if String.eqb (SpawnTool.chatID tool) "" then "direct"
                      else SpawnTool.chatID tool in
  (Memory.param_string params "task" = "" ->
   SpawnTool.Execute WorldS generateTaskID now tool params s
   = (("Error: task is required", None), None, s))
  /\ (Memory.param_string params "task" <> "" ->
      exists ack g s1,
        SpawnTool.Execute WorldS generateTaskID now tool params s = ((ack, None), Some g, s1)
        /\ Subagent.bus WorldS s1 = Subagent.bus WorldS s
        /\ Subagent.runningTasks WorldS s1 !! Subagent.g_taskID g
           = Some (Subagent.mkTask (Subagent.g_taskID g) (Subagent.g_label g)
                     (Memory.param_string params "task") originChannel originChatID)
        /\ forall pick later (s2 : Subagent.SubagentManager WorldS),
             Routing.inbound_open (Subagent.bus WorldS s2) true ->
             exists s3 m,
               Subagent.runSubagent WorldS ChatS registryS marshal maxIterationsS
                 buildSubagentPrompt pick later s2 g = Ok s3
               /\ Bus.cbuf (Bus.inbound (Subagent.bus WorldS s3))
                  = Bus.cbuf (Bus.inbound (Subagent.bus WorldS s2)) ++ [m]
               /\ (Routing.no_colon originChannel = true ->
                   forall (World : Type)
                     (Chat : nat -> list Providers.Message -> Providers.chat_result)
                     (registry : Tools.ToolRegistry World) (maxIterations memoryWindow : Z)
                     (parseRFC3339 : string -> Z) (formatRFC3339 : Z -> string)
                     (sessionPath : string -> string -> string)
                     (BuildMessages : list Session.Message -> string -> string -> string ->
                                      list string -> list Agent.CtxMessage)
                     (setToolContext setOriginContext : string -> string -> World -> World)
                     (fuel : nat) (clk : Agent.clock) (a a' : Agent.AgentLoop World)
                     (out : Bus.OutboundMessage),
                     Agent.processMessage World Chat registry marshal maxIterations
                       memoryWindow parseRFC3339 formatRFC3339 sessionPath BuildMessages
                       setToolContext setOriginContext fuel clk a m
                     = Some (Ok (Agent.Reply out, a')) ->
                     Bus.OChannel out = originChannel /\ Bus.OChatID out = originChatID)).
Proof.
  intros originChannel originChatID. unfold SpawnTool.Execute. split.
  - intros ->. reflexivity.
  - intros Htask. destruct (String.eqb_spec (Memory.param_string params "task") "")
      as [|_]; [contradiction|].
    fold originChannel originChatID. unfold Subagent.Spawn.
    eexists _, _, _. split; [reflexivity|]. cbn.
    split; [reflexivity|]. split; [apply lookup_insert_eq|].
    intros pick later s2 Hopen.
    destruct (runSubagent_open WorldS ChatS registryS marshal maxIterationsS
                buildSubagentPrompt pick later s2
                (Subagent.mkGoroutine (generateTaskID now)
                   (Subagent.display_label (Memory.param_string params "task")
                      (Memory.param_string params "label"))
                   (Memory.param_string params "task") originChannel originChatID)
                true Hopen) as (s3 & content & Hrun & Hbus & _).
    exists s3. eexists. split; [exact Hrun|]. rewrite Hbus. cbn.
    split; [reflexivity|].
    intros Hno World Chat registry maxIterations memoryWindow parseRFC3339 formatRFC3339
      sessionPath BuildMessages setToolContext setOriginContext fuel clk a a' out Hreply.
    eapply processSystemMessage_reply in Hreply as (Hch & Hid & _);
      [split; eassumption | reflexivity | apply split_colon_join, Hno].
Qed.

Lemma spawn_reports_to_caller_witness :
  let Chat := fun (_ : nat) (_ : list Providers.Message) =>
    Providers.ChatOk (Providers.mkResponse "3 files" []) in
  let registry : Tools.ToolRegistry unit := Tools.NewToolRegistry in
  let marshal := fun _ : Tools.Params => "{}" in
  let b := Bus.mkBus (Bus.mkChan [] 1 false) (Bus.mkChan [] 1 false) false in
  let s := Subagent.mkManager unit ∅ b tt [] in
  let tool := SpawnTool.SetContext (SpawnTool.mk "" "") "telegram" "42" in
  SpawnTool.Execute unit TaskID.generateTaskID 1790000000000000000 tool [] s
  = (("Error: task is required", None), None, s)
  /\ exists ack g s1 s3 m,
       SpawnTool.Execute unit TaskID.generateTaskID 1790000000000000000 tool
         [("task", JStr "count the files")] s = ((ack, None), Some g, s1)
       /\ Subagent.g_taskID g = "18d75b84"
       /\ Subagent.runSubagent unit Chat registry marshal 5 (fun t => t) true 7 s1 g = Ok s3
       /\ Bus.cbuf (Bus.inbound (Subagent.bus unit s3)) = [m]
       /\ Bus.ChatID m = "telegram:42".
Proof.
  intros Chat registry marshal b s tool.
  destruct (spawn_reports_to_caller unit Chat registry marshal 5 (fun t => t)
              TaskID.generateTaskID 1790000000000000000 tool [] s) as [Hnone _].
  destruct (spawn_reports_to_caller unit Chat registry marshal 5 (fun t => t)
              TaskID.generateTaskID 1790000000000000000 tool
              [("task", JStr "count the files")] s) as [_ Hsome].
  split; [apply Hnone; reflexivity|].
  destruct (Hsome ltac:(discriminate)) as (ack & g & s1 & Hexec & Hbus & _ & Hlater).
  destruct (Hlater true 7%Z s1) as (s3 & m & Hrun & Hbuf & _).
  { rewrite Hbus. split; [reflexivity|]. split; reflexivity. }
  exists ack, g, s1, s3, m. split; [exact Hexec|].
  vm_compute in Hexec. injection Hexec as <- <- <-.
  split; [reflexivity|]. split; [exact Hrun|].
  vm_compute in Hrun. injection Hrun as <-. vm_compute in Hbuf.
  split; [exact Hbuf|]. injection Hbuf as <-. reflexivity.
Defined.
